(* ===== verification/_CoqProject ===== *)
-Q . S2P
Prelude.v
Json.v
JsonFacts.v
Strconv.v
Pem.v
Errors.v
Types.v
Platform.v
Threads.v
Crypto.v
Vendor.v
X509.v
SimCrypto.v
Sim.v
X509Facts.v
Fixture.v
Api.v
Http.v
Registry.v
RegistryFacts.v
Operation.v
Config.v
Lock.v
LockFacts.v
Heap.v
DeepCopy.v
CopyFacts.v
DeepCopyFacts.v
BrokerUtil.v
DirectoryFacts.v
Auth.v
Clientset.v
Scheme.v
Fake.v
FakeFacts.v
Informers.v
Command.v
CommandFacts.v
Mapper.v
Template.v
TemplateFacts.v
Provision.v
FuelFacts.v
ProvisionFacts.v
Protocol.v
Handlers.v
HandlerFacts.v
BindingFacts.v
UpdateFacts.v
LifecycleFacts.v
Server.v
ProtocolFacts.v
InterleavingFacts.v
CompletionFacts.v
LockedBroker.v
ServerFacts.v
