(* ===== verification/Prelude.v ===== *)
(** * The service broker, verified

    A model of a Kubernetes service broker with the properties that make it
    correct.  The broker implements the Open Service Broker API: a client
    creates, polls, updates, binds and deletes service instances; what an
    instance consists of is written in a custom resource, the broker's
    configuration, as templates of Kubernetes objects.  The broker keeps its
    own state in secrets of the API server.

    ** Parts of the program and where they are modelled

    - [pkg/errors], the error variables of the packages and
      [translateError]: [Errors].
    - [pkg/apis/servicebroker/v1alpha1] (the configuration resource, its
      lookups, its conversion) and [pkg/api/catalog_types.go]: [Types]; the
      other messages of [pkg/api] and their JSON encodings: [Api].
    - [pkg/registry]: [Registry] (entries: [Module Entry], and the directory
      of instances: [Module Directory]), with [RegistryFacts] and
      [DirectoryFacts].  An entry is the secret it is stored in, with the
      flags [exists] and [readOnly]; a method that changes its receiver
      returns the changed entry.
    - [pkg/operation]: [Operation].
    - [pkg/config]: [Config] (validation, status, event handlers, the calls
      that lock the configuration); what the lock does: [Lock], with
      [LockFacts].
    - [pkg/broker/util.go]: [BrokerUtil], and [Http] for requests, query
      strings, the response writer and the monad of handlers.
    - [pkg/broker/broker.go]: [Auth] (headers, authentication) and [Server]
      (routes, [ServeHTTP]), with [ServerFacts].
    - [pkg/broker/handlers.go]: [Handlers], one definition per handler, split
      where a handler branches on the existence of the instance or binding;
      with [HandlerFacts] (create, poll, delete), [BindingFacts],
      [UpdateFacts] (update, read) and [LifecycleFacts].
    - [pkg/provisioners/template.go] and [util.go]: [Template], with
      [TemplateFacts] and [FuelFacts]; [create.go], [update.go], [delete.go],
      [readiness.go] and [pkg/util/wait.go]: [Provision], with
      [ProvisionFacts].
    - [pkg/util/x509.go]: [X509], with [X509Facts].
    - [zz_generated.deepcopy.go] and [pkg/api/deepcopy.go]: [DeepCopy], on the
      memory of [Heap], with [CopyFacts] and [DeepCopyFacts].  There, and only
      there, pointers are addresses; elsewhere a value stands for what a
      pointer points to, which [rendering_keeps_configuration] and
      [status_update_keeps_cache] justify for the two places where the code
      changes a configuration in place.
    - [cmd/broker/main.go], [pkg/client/client.go] and what starts the server
      ([Configure], [ConfigureServer], [RunServer]): [Command], with
      [CommandFacts]; the lock around the REST mapper: [Mapper].
    - [src/generated]: [Clientset] (the typed client, the construction of the
      clients), [Informers] (the informer of configurations, the factory,
      the listers) and [Fake] (the test double of the typed client, and the
      interface that both implement), with [FakeFacts].
    - [v1alpha1/register.go], [pkg/apis/apis.go] and the generated scheme
      packages: [Scheme].
    - The broker as a system, any number of requests, configuration events and
      background programs at once: [Protocol] (the protocol that every access
      to the registry keeps), [ProtocolFacts] (all handlers and background
      programs keep it), [InterleavingFacts], [CompletionFacts], and [LockedBroker]
      (requests and configuration events under the lock).

    What these rest on: [Prelude] (results, list functions, tactics), [Json]
    and [JsonFacts] ([encoding/json] on the values the broker uses),
    [Strconv] ([ParseFloat], base64), [Pem] ([encoding/pem]), [Platform]
    (effects), [Threads] (goroutines, and that they end), [Crypto] and [Vendor] (cryptography and third-party functions),
    [SimCrypto], [Sim] and [Fixture] (a concrete cryptography and platform and
    a small configuration for examples).

    ** How the code is represented

    A Go function that returns [(T, error)] returns a [res error T].  Code with
    effects is a [prog]: a tree of calls to the API server, the database, the
    clock, the random generators and the global configuration pointer, which
    may start programs in the background ([go]) and may panic.  What the calls
    do is the class [World] of [Platform]; [run] executes a program without
    interruption, collecting in [spawned] what it started, and [wp p Q s] says
    that [p] ends, without panic, in a state that satisfies [Q].  A handler is
    a program that threads the response writer and may return early.

    A read-modify-write of a secret is not atomic: requests and background
    programs interleave at calls ([thread_step] in [Platform]).
    What protects them is the resource version of the secret, which
    [PlatformLaws] states as the API server documents it (an update with an
    old version is refused).  Theorems about one request speak of a program
    that runs undisturbed; those of [InterleavingFacts] and [CompletionFacts]
    and [start_exclusive] speak of every interleaving.

    Locking is a call like any other ([MutexRLock] and the others); [defer]
    runs a program also when another panics.  [thread_step] lets every call
    return at once; [locked_step] of [Lock] lets a goroutine go on only when
    the [sync.RWMutex] does, with an announced writer keeping new readers out.
    Every execution of [locked_step] is one of [thread_step], so that what holds
    for these holds under the lock.  That a handler may read the pointer
    several times is justified by [requests_read_once]; a theorem about one
    request speaks of a configuration that does not change.

    The start of the process is a program over calls that can fail (files,
    environment, database, clients); it yields the calls it made and its
    result.

    ** What the theorems show

    - Any interleaving: [registry_well_formed] (what every secret of the
      registry holds), [instance_life] (an entry changes by the steps of a
      small state machine), [isolation] (requests change the instances and
      bindings they name, and else only what templates can reach), [operation_completes] (an accepted operation is
      recorded as finished or deletes the entry, and nothing intervenes until
      it does), [start_exclusive] (one operation at a time).
    - The lock: [requests_read_once] (a request works on one configuration: a
      refinement of a broker without a lock that takes snapshots),
      [configuration_guarded] (what is served is valid, who replaces it is
      alone), [everything_ends]; the example [background_race] shows who reads
      without the lock.
    - Entries and operations: [operation_refines] ([Start], [Complete] and
      [End] implement a state machine), [user_access] (what templates may read
      and write, compared with the documentation), [directory_refines_map]; the lemmas [operation_round_trip]
      and [directory_round_trip].
    - The API, for entries in any state the broker puts them in:
      [create_instance], [create_retry], [deprovision], [create_binding], the
      lemmas [read_instance], [busy_instance_not_deleted], [unbind],
      [poll_reports] and [update_outcome]: which answer is given, what is
      stored, what is started, and that no other secret changes (when resources
      are created as well, no other secret that templates cannot reach).  What is
      accepted, answered and started is that of the request's own run: the
      statements name the run of [Prepare], of [Creator_run] or [Updater_run] that
      decided ([prepared], [creation_started], [binding_run], [update_started]).
    - The interaction of requests, background programs and polls:
      [creation_lifecycle], [update_lifecycle], [deletion_undoes_creation].
    - What runs in the background: [wait_terminates],
      [prepare_preserves_reserved], the lemmas [steps_sequential] and
      [creation_recorded].
    - Who may do what: [admission], [guarded], [creation_authorized],
      [login_round_trip], [api_version_exact], the lemma
      [basic_auth_credentials].
    - The start: [main_launches] (when the server listens, and as what),
      [main_authenticates] (what listens authenticates), the lemma
      [main_stops].
    - The configuration: [validate_sound], [status_fixpoint], the lemmas
      [handlers_install] and [validated_bindings_found].
    - Sharing: [copies_are_deep], [rendering_keeps_configuration], the lemma
      [status_update_keeps_cache].
    - Templates: [rendering_replaces_strings] (rendering equals a structural
      reference), [action_preserves_type], the lemmas [depth_monotone],
      [static_template_identity] and [password_characters].
    - Generated code: [informers_started_once] (the factory as a state
      machine), [fake_stands_in] (the fake and the typed client refine one
      specification of the interface, for configurations that the schema of the
      resource takes as they are), the lemmas [timeout_bounds] (the
      overflow of timeouts), [informer_requests], [clientset_limited],
      [lister_answers], [init_knows] and [registrations_agree].
    - Clients: [mapper_is_register] (what calls of [RESTMapper] answer while
      the mapper is refreshed).
    - Keys and certificates: [generated_key_decodes], [certificate_certifies],
      the lemma [authority_issues].
    - Behaviour that is probably not meant, proved as it is:
      [refused_deletion_forgets], [bind_busy_instance], and the lemmas
      [nil_attribute_stops_rendering],
      [conditional_without_else_panics], [validate_ignores_steps],
      [poll_gone], [old_version_accepted], [password_short_dictionary],
      [binding_id_unprotected], [create_existing_binding].

    Templates may be of any kind, secrets included, so that the calls that create
    and patch resources may change secrets: those that [templated] of
    [PlatformLaws] allows.  The one thing assumed of a configuration is that
    its templates do not write the broker's own secrets, the entries and
    directories of the registry ([registry_name]): their names are the broker's,
    and no document offers them to templates.  All other secrets may change
    while resources are made (examples [secret_template] and
    [secret_template_refused]); [owned] is what is left when these are set aside.

    Hypotheses about third-party code are [VendorLaws] (JSON of raw
    extensions, tokens of the JWT library), with it [CryptoLaws] (parsers of
    keys and certificates read what was written), [ApimachineryLaws] (the
    libraries' own copies are deep), for the fake and its schemes [ServerLaws],
    [TestingLaws] and [SchemeLaws] and, for the login, [signs]; [Sim] and the
    witnesses satisfy them, and every theorem with a hypothesis is applied there.
    [signs] is about tokens whose claims are text and do not limit their time,
    such as those of a login.  [ServerLaws] says what an API server stores of a
    configuration once its schema has been applied ([admitted]: validation,
    defaults, pruning), in a namespace of the cluster; the fake stands in for it
    where the schema changes nothing, since the tracker does not apply it.

    ** Bounds

    Two things that the code does not bound are bounded by the record
    [Bounds].  [template_depth] is how deep snippets may nest in templates:
    rendering that goes deeper halts with [OutOfFuel], and [depth_monotone]
    shows that whatever ends within a bound ends in the same way within every
    larger one.  [wait_rounds] is how often a readiness check is tried before
    its deadline.  Go's [select] draws when the tick and the deadline are both
    ready, so that a wait may go on after its deadline; [PlatformLaws] has the
    draw fair, that is, lost finitely often.  [wait_terminates] shows that the
    time left until the deadline, in nanoseconds, and the draws that are then
    lost are enough rounds ([patience]).

    ** What is not modelled

    Log output and the tests; the REST client, the cache, the object tracker and
    the schemes behind the generated code; inside the start of the process, the loop
    of the informer, which calls the three event handlers of [Config], and the
    TLS listener, which calls [ServeHTTP].  Go lets readers that wait in before
    the next writer, and [locked_step] leaves that order open: it has all
    executions of Go's mutex, and more.  What Kubernetes collects after an entry
    has been deleted, the resources that it owns, is not modelled.  At the level
    of the memory [renderTemplate_clone] takes what becomes of the decoded text as
    a parameter: the decoded value is new and never a part of the configuration,
    and what rendering makes of it is [recurseRenderTemplate].  Text is bytes that stand for valid UTF-8; JSON numbers keep
    their literal.  [text/template] is modelled on parse trees: parsing and
    formatting are parameters of [Vendor], execution is defined in [Template]
    for the nodes that templates of the broker can have (no [define],
    [template], [break] or [continue]). *)

From stdpp Require Export base gmap list strings countable decidable.
From stdpp Require Import option fin_maps.
From Stdlib Require Export ZArith Ascii.
From Stdlib Require Import Lia.

#[export] Set Warnings "-clear-no-such-hyp".

(** ** Results

    A Go function that returns [(T, error)] returns a [res E T]. *)

Inductive res (E A : Type) : Type :=
  | Ok (a : A)
  | Err (e : E).
Arguments Ok {E A} a.
Arguments Err {E A} e.

Definition res_bind {E A B} (r : res E A) (k : A -> res E B) : res E B :=
  match r with
  | Ok a => k a
  | Err e => Err e
  end.

(** The result of a [(T, error)] call whose value is thrown away. *)
Definition res_error {E A} (r : res E A) : option E :=
  match r with
  | Ok _ => None
  | Err e => Some e
  end.

Declare Scope broker_scope.
Delimit Scope broker_scope with broker.

Notation "'let?' x ':=' r 'in' k" := (res_bind r (fun x => k))
  (at level 10, x name, r at level 100, k at level 200) : broker_scope.

Lemma res_bind_Ok {E A B} (r : res E A) (k : A -> res E B) b :
  res_bind r k = Ok b -> exists a, r = Ok a /\ k a = Ok b.
Proof. destruct r; simpl; naive_solver. Qed.

#[export] Instance res_eq_dec {E A} `{EqDecision E, EqDecision A} : EqDecision (res E A).
Proof. solve_decision. Defined.

(** ** Searching a slice

    The code looks things up with [for i, x := range xs { if p(x) { return &xs[i] } }]. *)

Fixpoint find_first {A} (p : A -> bool) (l : list A) : option A :=
  match l with
  | [] => None
  | x :: l => if p x then Some x else find_first p l
  end.

(** The same by index, as in [for i := range xs { if p(xs[i]) { return i } }]. *)
Fixpoint find_index {A} (p : A -> bool) (l : list A) : option nat :=
  match l with
  | [] => None
  | x :: l => if p x then Some 0 else S <$> find_index p l
  end.

Lemma find_index_first {A} (p : A -> bool) (l : list A) :
  find_first p l = match find_index p l with Some i => l !! i | None => None end.
Proof. induction l as [|x l IH]; simpl; [done|]. destruct (p x); [done|]. rewrite IH. by destruct (find_index p l). Qed.

Lemma find_first_Some {A} (p : A -> bool) (l : list A) x :
  find_first p l = Some x -> x ∈ l /\ p x = true.
Proof.
  induction l as [|y l IH]; simpl; [done|].
  destruct (p y) eqn:E; intros H; [injection H as <-|].
  - split; [left|done].
  - destruct (IH H). split; [by right|done].
Qed.

Lemma find_first_None {A} (p : A -> bool) (l : list A) :
  find_first p l = None <-> (forall x, x ∈ l -> p x = false).
Proof.
  induction l as [|y l IH]; simpl.
  { split; [|done]. intros _ x Hx. by apply not_elem_of_nil in Hx. }
  destruct (p y) eqn:E.
  - split; [done|]. intros H. specialize (H y (list_elem_of_here _ _)). congruence.
  - rewrite IH. split.
    + intros H x [->|Hx]%elem_of_cons; auto.
    + intros H x Hx. apply H. by right.
Qed.

Lemma find_first_is_Some {A} (p : A -> bool) (l : list A) x :
  x ∈ l -> p x = true -> exists y, find_first p l = Some y.
Proof.
  intros Hin Hp. destruct (find_first p l) eqn:E; [eauto|].
  rewrite find_first_None in E. specialize (E x Hin). congruence.
Qed.

(** ** Strings *)

Notation "a =?s b" := (bool_decide (a = b :> string)) (at level 70) : broker_scope.
Notation "a +++ b" := (String.append a b) (at level 60, right associativity) : broker_scope.

Lemma string_app_assoc (a b c : string) :
  String.append a (String.append b c) = String.append (String.append a b) c.
Proof. induction a; simpl; [done|]. unfold String.append in *. simpl. by f_equal. Qed.

(** [strings.Split] at a single character. *)
Fixpoint split_char (c : ascii) (s : string) : list string :=
  match s with
  | EmptyString => [""]
  | String d r =>
      if Ascii.eqb c d then "" :: split_char c r
      else match split_char c r with
           | [] => [String d ""]
           | x :: l => String d x :: l
           end
  end.

(** ** Tactics shared by the component files *)

(** Case analysis on the discriminee of the match (or [if]) at the head of
    hypothesis [H], dropping the cases that contradict it. *)
Ltac case_in H :=
  match type of H with
  | context [match ?x with _ => _ end] => destruct x eqn:?; simpl in H; try discriminate H
  end.

Ltac bool_solver :=
  repeat match goal with
  | H : bool_decide _ = true |- _ => apply bool_decide_eq_true in H
  | H : bool_decide _ = false |- _ => apply bool_decide_eq_false in H
  | H : _ && _ = true |- _ => apply andb_prop in H as [? ?]
  | H : negb _ = true |- _ => apply negb_true_iff in H
  | H : negb _ = false |- _ => apply negb_false_iff in H
  end; simplify_eq.

(** ** The first error of a loop

    [for _, x := range xs { if err := f(x); err != nil { return err } }] *)

Fixpoint first_error {A E} (f : A -> option E) (l : list A) : option E :=
  match l with
  | [] => None
  | x :: l => match f x with Some e => Some e | None => first_error f l end
  end.

(** [if err := a; err != nil { return err }; return b] *)
Definition or_error {E} (a b : option E) : option E :=
  match a with Some e => Some e | None => b end.

Lemma first_error_None {A E} (f : A -> option E) (l : list A) :
  first_error f l = None <-> (forall x, x ∈ l -> f x = None).
Proof.
  induction l as [|y l IH]; simpl.
  { split; [|done]. intros _ x Hx. by apply not_elem_of_nil in Hx. }
  destruct (f y) eqn:E1.
  - split; [done|]. intros Hx. specialize (Hx y (list_elem_of_here _ _)). congruence.
  - rewrite IH. split.
    + intros Hx x [->|Hin]%elem_of_cons; auto.
    + intros Hx x Hin. apply Hx. by right.
Qed.

Lemma or_error_None {E} (a b : option E) : or_error a b = None <-> a = None /\ b = None.
Proof. destruct a; simpl; [split; [done|by intros []]|]. split; [done|by intros []]. Qed.
