(* ===== verification/Json.v ===== *)
(** * Go values and [encoding/json]

    The values of type [interface{}] that the program builds, stores and
    compares, and the part of Go's [encoding/json] it uses on them: [Marshal],
    [Unmarshal] into [interface{}], the compaction that [Marshal] applies to
    the output of a custom marshaler, and the splitting of an object into its
    raw fields that decoding into a struct performs.

    Text is a string of bytes that stands for valid UTF-8.  On such text the
    encoder copies multi-byte sequences, so bytes from 128 up are copied here.
    A JSON number keeps its literal: the rounding of literals that are not
    exactly representable as [float64] is not modelled.  A [map[string]interface{}]
    is the list of its members in increasing order of the keys, the order in
    which [Marshal] writes them. *)

From S2P Require Import Prelude.
From Stdlib Require Import DecimalString DecimalZ.

Local Open Scope broker_scope.
#[local] Set Warnings "-register-all".

(** ** Values *)

Inductive value : Type :=
  | VNull
  | VBool (b : bool)
  | VInt (z : Z)              (* a Go [int], which decoding never makes *)
  | VFloat (lit : string)     (* a [float64], by its JSON literal *)
  | VString (s : string)
  | VArray (l : list value)
  | VObject (m : list (string * value)).

#[export] Instance value_eq_dec : EqDecision value.
Proof.
  refine (fix go (a b : value) : Decision (a = b) :=
    match a, b with
    | VNull, VNull => left eq_refl
    | VBool a, VBool b => cast_if (decide (a = b))
    | VInt a, VInt b => cast_if (decide (a = b))
    | VFloat a, VFloat b => cast_if (decide (a = b))
    | VString a, VString b => cast_if (decide (a = b))
    | VArray a, VArray b => cast_if (@list_eq_dec value go a b)
    | VObject a, VObject b => cast_if (@list_eq_dec (string * value) (@prod_eq_dec string _ value go) a b)
    | _, _ => right _
    end); congruence.
Defined.

(** ** Objects as sorted member lists *)

Fixpoint obj_get (k : string) (m : list (string * value)) : option value :=
  match m with
  | [] => None
  | (k', v) :: m => if k =?s k' then Some v else obj_get k m
  end.

Fixpoint obj_set (k : string) (v : value) (m : list (string * value)) : list (string * value) :=
  match m with
  | [] => [(k, v)]
  | (k', v') :: m' =>
      match String.compare k k' with
      | Eq => (k, v) :: m'
      | Lt => (k, v) :: m
      | Gt => (k', v') :: obj_set k v m'
      end
  end.

Fixpoint obj_delete (k : string) (m : list (string * value)) : list (string * value) :=
  match m with
  | [] => []
  | (k', v) :: m => if k =?s k' then obj_delete k m else (k', v) :: obj_delete k m
  end.

(** ** Characters *)

Definition chr (n : N) : ascii := ascii_of_N n.
Definition code (c : ascii) : N := N_of_ascii c.

Definition dquote : ascii := "034"%char.
Definition bslash : ascii := "092"%char.

Definition is_ws (c : ascii) : bool :=
  match code c with 9 | 10 | 13 | 32 => true | _ => false end%N.

Definition is_digit (c : ascii) : bool := (48 <=? code c)%N && (code c <=? 57)%N.

Definition hex_digit (n : N) : ascii :=
  if (n <? 10)%N then chr (48 + n) else chr (87 + n).

Definition hex_value (c : ascii) : option N :=
  let n := code c in
  if (48 <=? n)%N && (n <=? 57)%N then Some (n - 48)%N
  else if (97 <=? n)%N && (n <=? 102)%N then Some (n - 87)%N
  else if (65 <=? n)%N && (n <=? 70)%N then Some (n - 55)%N
  else None.

Fixpoint skip_ws (s : string) : string :=
  match s with
  | String c r => if is_ws c then skip_ws r else s
  | EmptyString => s
  end.

(** ** Strings *)

(** The escape that [encoding/json] writes for one byte, HTML escaping included. *)
Definition escape_char (c : ascii) : string :=
  let n := code c in
  if (n =? 34)%N || (n =? 92)%N then String bslash (String c EmptyString)
  else if (n =? 10)%N then String bslash "n"
  else if (n =? 13)%N then String bslash "r"
  else if (n =? 9)%N then String bslash "t"
  else if (n <? 32)%N || (n =? 38)%N || (n =? 60)%N || (n =? 62)%N then
    String bslash (String "u" (String "0" (String "0"
      (String (hex_digit (n / 16)) (String (hex_digit (n mod 16)) EmptyString)))))
  else String c EmptyString.

Fixpoint escape (s : string) : string :=
  match s with
  | EmptyString => EmptyString
  | String c r => escape_char c +++ escape r
  end.

Definition quote (s : string) : string :=
  String dquote (escape s +++ String dquote EmptyString).

(** UTF-8 encoding of a code point. *)
Definition utf8 (n : N) : string :=
  if (n <? 128)%N then String (chr n) EmptyString
  else if (n <? 2048)%N then
    String (chr (192 + n / 64)) (String (chr (128 + n mod 64)) EmptyString)
  else if (n <? 65536)%N then
    String (chr (224 + n / 4096)) (String (chr (128 + (n / 64) mod 64))
      (String (chr (128 + n mod 64)) EmptyString))
  else
    String (chr (240 + n / 262144)) (String (chr (128 + (n / 4096) mod 64))
      (String (chr (128 + (n / 64) mod 64)) (String (chr (128 + n mod 64)) EmptyString))).

Definition hex4 (a b c d : ascii) : option N :=
  match hex_value a, hex_value b, hex_value c, hex_value d with
  | Some a, Some b, Some c, Some d => Some (a * 4096 + b * 256 + c * 16 + d)%N
  | _, _, _, _ => None
  end.

Definition is_surrogate (n : N) : bool := (55296 <=? n)%N && (n <? 57344)%N.

(** The bytes for a [\u] escape of a code unit, an unpaired surrogate being
    replaced by U+FFFD. *)
Definition utf16_unit (n : N) : string := if is_surrogate n then utf8 65533 else utf8 n.

(** The code point of a surrogate pair. *)
Definition surrogate_pair (hi lo : N) : option N :=
  if (55296 <=? hi)%N && (hi <? 56320)%N && (56320 <=? lo)%N && (lo <? 57344)%N
  then Some ((hi - 55296) * 1024 + (lo - 56320) + 65536)%N
  else None.

Definition prepend (p : string) (r : option (string * string)) : option (string * string) :=
  match r with
  | Some (s, rest) => Some (p +++ s, rest)
  | None => None
  end.

Definition simple_escape (c : ascii) : option ascii :=
  match code c with
  | 34 => Some c | 92 => Some c | 47 => Some c
  | 98 => Some (chr 8) | 102 => Some (chr 12) | 110 => Some (chr 10)
  | 114 => Some (chr 13) | 116 => Some (chr 9)
  | _ => None
  end%N.

(** Decodes a string literal after its opening quote: the text and what
    follows the closing quote. *)
Fixpoint unquote (s : string) : option (string * string) :=
  match s with
  | EmptyString => None
  | String c r =>
      if Ascii.eqb c dquote then Some (EmptyString, r)
      else if Ascii.eqb c bslash then
        match r with
        | EmptyString => None
        | String e r1 =>
            if Ascii.eqb e "u" then
              match r1 with
              | String a (String b (String x (String y r2))) =>
                  match hex4 a b x y with
                  | None => None
                  | Some n =>
                      match r2 with
                      | String bs (String u' (String a' (String b' (String x' (String y' r3))))) =>
                          match (if Ascii.eqb bs bslash && Ascii.eqb u' "u" then hex4 a' b' x' y' else None) with
                          | Some m =>
                              match surrogate_pair n m with
                              | Some p => prepend (utf8 p) (unquote r3)
                              | None => prepend (utf16_unit n) (unquote r2)
                              end
                          | None => prepend (utf16_unit n) (unquote r2)
                          end
                      | _ => prepend (utf16_unit n) (unquote r2)
                      end
                  end
              | _ => None
              end
            else
              match simple_escape e with
              | Some d => prepend (String d EmptyString) (unquote r1)
              | None => None
              end
        end
      else if (code c <? 32)%N then None
      else prepend (String c EmptyString) (unquote r)
  end.

(** ** Numbers *)

Fixpoint take_digits (s : string) : string * string :=
  match s with
  | String c r => if is_digit c then let '(d, t) := take_digits r in (String c d, t) else (EmptyString, s)
  | EmptyString => (EmptyString, s)
  end.

(** An integer part has no leading zero. *)
Definition take_int (s : string) : option (string * string) :=
  match s with
  | String c r =>
      if Ascii.eqb c "0" then Some ("0", r)
      else if is_digit c then Some (take_digits s) else None
  | EmptyString => None
  end.

Definition take_frac (s : string) : option (string * string) :=
  match s with
  | String c r =>
      if Ascii.eqb c "." then
        match take_digits r with
        | (EmptyString, _) => None
        | (d, t) => Some (String "." d, t)
        end
      else Some (EmptyString, s)
  | EmptyString => Some (EmptyString, s)
  end.

Definition take_exp (s : string) : option (string * string) :=
  match s with
  | String c r =>
      if Ascii.eqb c "e" || Ascii.eqb c "E" then
        let '(sign, r1) := match r with
                           | String g r1 => if Ascii.eqb g "+" || Ascii.eqb g "-" then (String g EmptyString, r1) else (EmptyString, r)
                           | EmptyString => (EmptyString, r)
                           end in
        match take_digits r1 with
        | (EmptyString, _) => None
        | (d, t) => Some (String c (sign +++ d), t)
        end
      else Some (EmptyString, s)
  | EmptyString => Some (EmptyString, s)
  end.

Definition take_number (s : string) : option (string * string) :=
  let '(sign, s1) := match s with
                     | String c r => if Ascii.eqb c "-" then ("-", r) else (EmptyString, s)
                     | EmptyString => (EmptyString, s)
                     end in
  match take_int s1 with
  | None => None
  | Some (i, s2) =>
      match take_frac s2 with
      | None => None
      | Some (f, s3) =>
          match take_exp s3 with
          | None => None
          | Some (e, s4) => Some (sign +++ i +++ f +++ e, s4)
          end
      end
  end.

(** ** Parsing *)

Fixpoint strip_prefix (p s : string) : option string :=
  match p, s with
  | EmptyString, _ => Some s
  | String a p, String b s => if Ascii.eqb a b then strip_prefix p s else None
  | String _ _, EmptyString => None
  end.

Definition parse_literal (s : string) : option (value * string) :=
  match strip_prefix "null" s with
  | Some r => Some (VNull, r)
  | None =>
      match strip_prefix "true" s with
      | Some r => Some (VBool true, r)
      | None =>
          match strip_prefix "false" s with
          | Some r => Some (VBool false, r)
          | None =>
              match take_number s with
              | Some (lit, r) => Some (VFloat lit, r)
              | None => None
              end
          end
      end
  end.

(** Recursive descent; [fuel] bounds the depth of calls, of which every
    character causes at most two.  [parse_elements] and [parse_members] read
    what follows an element or the opening bracket. *)
Fixpoint parse_value (fuel : nat) (s : string) {struct fuel} : option (value * string) :=
  match fuel with
  | 0 => None
  | S fuel =>
      match skip_ws s with
      | EmptyString => None
      | String c r =>
          if Ascii.eqb c dquote then
            match unquote r with
            | Some (t, r) => Some (VString t, r)
            | None => None
            end
          else if Ascii.eqb c "[" then
            match skip_ws r with
            | String d r' =>
                if Ascii.eqb d "]" then Some (VArray [], r')
                else match parse_elements fuel r with
                     | Some (l, r) => Some (VArray l, r)
                     | None => None
                     end
            | EmptyString => None
            end
          else if Ascii.eqb c "{" then
            match skip_ws r with
            | String d r' =>
                if Ascii.eqb d "}" then Some (VObject [], r')
                else match parse_members fuel r with
                     | Some (l, r) => Some (VObject (foldl (fun m kv => obj_set kv.1 kv.2 m) [] l), r)
                     | None => None
                     end
            | EmptyString => None
            end
          else parse_literal (String c r)
      end
  end
with parse_elements (fuel : nat) (s : string) {struct fuel} : option (list value * string) :=
  match fuel with
  | 0 => None
  | S fuel =>
      match parse_value fuel s with
      | None => None
      | Some (v, r) =>
          match skip_ws r with
          | String c r =>
              if Ascii.eqb c "," then
                match parse_elements fuel r with
                | Some (l, r) => Some (v :: l, r)
                | None => None
                end
              else if Ascii.eqb c "]" then Some ([v], r) else None
          | EmptyString => None
          end
      end
  end
with parse_members (fuel : nat) (s : string) {struct fuel} : option (list (string * value) * string) :=
  match fuel with
  | 0 => None
  | S fuel =>
      match skip_ws s with
      | String q r =>
          if Ascii.eqb q dquote then
            match unquote r with
            | None => None
            | Some (k, r) =>
                match skip_ws r with
                | String c r =>
                    if Ascii.eqb c ":" then
                      match parse_value fuel r with
                      | None => None
                      | Some (v, r) =>
                          match skip_ws r with
                          | String c r =>
                              if Ascii.eqb c "," then
                                match parse_members fuel r with
                                | Some (l, r) => Some ((k, v) :: l, r)
                                | None => None
                                end
                              else if Ascii.eqb c "}" then Some ([(k, v)], r) else None
                          | EmptyString => None
                          end
                      end
                    else None
                | EmptyString => None
                end
            end
          else None
      | EmptyString => None
      end
  end.

Definition json_fuel (s : string) : nat := 2 * String.length s + 2.

(** [json.Unmarshal] into an [interface{}]: one value and nothing after it. *)
Definition unmarshal (s : string) : option value :=
  match parse_value (json_fuel s) s with
  | Some (v, r) => match skip_ws r with EmptyString => Some v | _ => None end
  | None => None
  end.

Definition valid_json (s : string) : bool :=
  match unmarshal s with Some _ => true | None => false end.

(** ** Printing *)

Definition string_of_Z (z : Z) : string := NilEmpty.string_of_int (Z.to_int z).

Fixpoint concat_sep (sep : string) (l : list string) : string :=
  match l with
  | [] => EmptyString
  | [x] => x
  | x :: l => x +++ sep +++ concat_sep sep l
  end.

(** [json.Marshal] of an [interface{}]. *)
Fixpoint marshal (v : value) : string :=
  match v with
  | VNull => "null"
  | VBool true => "true"
  | VBool false => "false"
  | VInt z => string_of_Z z
  | VFloat lit => lit
  | VString s => quote s
  | VArray l => "[" +++ concat_sep "," (map marshal l) +++ "]"
  | VObject m =>
      "{" +++ concat_sep "," (map (fun kv => quote kv.1 +++ ":" +++ marshal kv.2) m) +++ "}"
  end.

(** What [Marshal] does to the text a [MarshalJSON] method returns: white
    space outside strings goes, and the HTML characters are escaped. *)
Fixpoint compact_from (in_string escaped : bool) (s : string) : string :=
  match s with
  | EmptyString => EmptyString
  | String c r =>
      let n := code c in
      if (n =? 38)%N || (n =? 60)%N || (n =? 62)%N then
        escape_char c +++ compact_from in_string false r
      else if in_string then
        String c (if escaped then compact_from true false r
                  else if Ascii.eqb c bslash then compact_from true true r
                  else if Ascii.eqb c dquote then compact_from false false r
                  else compact_from true false r)
      else if is_ws c then compact_from false false r
      else String c (compact_from (Ascii.eqb c dquote) false r)
  end.

Definition compact (s : string) : string := compact_from false false s.

(** ** Decoding into a struct

    The members of a top-level object with the raw text of each value, in the
    order of the text. *)

Definition raw_before (s rest : string) : string :=
  String.substring 0 (String.length s - String.length rest) s.

Fixpoint raw_members (fuel : nat) (s : string) : option (list (string * string)) :=
  match fuel with
  | 0 => None
  | S fuel' =>
      match skip_ws s with
      | String q r =>
          if Ascii.eqb q dquote then
            match unquote r with
            | None => None
            | Some (k, r) =>
                match skip_ws r with
                | String c r =>
                    if Ascii.eqb c ":" then
                      let v := skip_ws r in
                      match parse_value fuel' v with
                      | None => None
                      | Some (_, r) =>
                          match skip_ws r with
                          | String c r' =>
                              if Ascii.eqb c "," then
                                match raw_members fuel' r' with
                                | Some l => Some ((k, raw_before v r) :: l)
                                | None => None
                                end
                              else if Ascii.eqb c "}" then Some [(k, raw_before v r)] else None
                          | EmptyString => None
                          end
                      end
                    else None
                | EmptyString => None
                end
            end
          else None
      | EmptyString => None
      end
  end.

(** The fields of the object a text holds: [None] when the text is not valid
    JSON or holds something else; a top-level [null] leaves the struct alone. *)
Definition raw_fields (s : string) : option (list (string * string)) :=
  match unmarshal s with
  | Some (VObject []) => Some []
  | Some (VObject _) =>
      match skip_ws s with
      | String _ r => raw_members (json_fuel s) r
      | EmptyString => None
      end
  | Some VNull => Some []
  | _ => None
  end.

(** Struct fields are matched without regard to (ASCII) case. *)
Definition to_lower_char (c : ascii) : ascii :=
  if (65 <=? code c)%N && (code c <=? 90)%N then chr (code c + 32) else c.

Definition to_upper_char (c : ascii) : ascii :=
  if (97 <=? code c)%N && (code c <=? 122)%N then chr (code c - 32) else c.

Fixpoint string_map (f : ascii -> ascii) (s : string) : string :=
  match s with
  | EmptyString => EmptyString
  | String c r => String (f c) (string_map f r)
  end.

(** [strings.ToLower], [strings.ToUpper] and [strings.EqualFold] on ASCII text. *)
Definition ToLower (s : string) : string := string_map to_lower_char s.
Definition ToUpper (s : string) : string := string_map to_upper_char s.
Definition EqualFold (a b : string) : bool := ToLower a =?s ToLower b.

(** The raw texts given for one field, in order: decoding applies them all, so
    that the last one that is not [null] wins. *)
Definition field_texts (name : string) (l : list (string * string)) : list string :=
  map snd (base.filter (fun kv => EqualFold kv.1 name = true) l).

(** ** [json.Marshal] of a struct

    A field of a struct is its name and its text, [None] when [omitempty]
    leaves it out. *)
Definition marshal_struct {E} (fields : list (string * option (res E string))) : res E string :=
  (fix go (fs : list (string * option (res E string))) (acc : list string) : res E string :=
     match fs with
     | [] => Ok ("{" +++ concat_sep "," (rev acc) +++ "}")
     | (_, None) :: fs => go fs acc
     | (k, Some r) :: fs => let? t := r in go fs ((quote k +++ ":" +++ t) :: acc)
     end) fields [].

Section examples.
Let q := String dquote EmptyString.

Example unmarshal_ex1 :
  unmarshal ("{ " +++ q +++ "b" +++ q +++ " : [1, -2.5e3,true ] , " +++ q +++ "a" +++ q +++ ":{} }")
  = Some (VObject [("a", VObject []); ("b", VArray [VFloat "1"; VFloat "-2.5e3"; VBool true])]).
Proof. vm_compute. reflexivity. Qed.

Example raw_fields_ex :
  raw_fields ("{ " +++ q +++ "b" +++ q +++ " : [1, 2] , " +++ q +++ "a" +++ q +++ ":{} }")
  = Some [("b", "[1, 2]"); ("a", "{}")].
Proof. vm_compute. reflexivity. Qed.

Example compact_ex : compact "{ [1, 2] }" = "{[1,2]}".
Proof. vm_compute. reflexivity. Qed.
End examples.

(** ** Lemmas: strings survive a round trip *)

Lemma string_app_empty_r (s : string) : s +++ EmptyString = s.
Proof. induction s; simpl; [done|]. unfold String.append in *. simpl. by f_equal. Qed.

Lemma string_app_cons c (a b : string) : String c a +++ b = String c (a +++ b).
Proof. done. Qed.

Lemma unquote_u c1 c2 n t :
  hex4 "0" "0" c1 c2 = Some n -> (n < 256)%N ->
  unquote (String bslash (String "u" (String "0" (String "0" (String c1 (String c2 t))))))
  = prepend (utf16_unit n) (unquote t).
Proof.
  intros Hhex Hn.
  change (unquote (String bslash (String "u" (String "0" (String "0" (String c1 (String c2 t)))))))
    with (match hex4 "0" "0" c1 c2 with
          | None => None
          | Some n =>
              match t with
              | String bs (String u' (String a' (String b' (String x' (String y' r3))))) =>
                  match (if Ascii.eqb bs bslash && Ascii.eqb u' "u" then hex4 a' b' x' y' else None) with
                  | Some m =>
                      match surrogate_pair n m with
                      | Some p => prepend (utf8 p) (unquote r3)
                      | None => prepend (utf16_unit n) (unquote t)
                      end
                  | None => prepend (utf16_unit n) (unquote t)
                  end
              | _ => prepend (utf16_unit n) (unquote t)
              end
          end).
  rewrite Hhex.
  assert (forall m, surrogate_pair n m = None) as Hs.
  { intros m. unfold surrogate_pair.
    replace (55296 <=? n)%N with false by (symmetry; apply N.leb_gt; lia). done. }
  repeat (match goal with |- context [match t with _ => _ end] => idtac end;
          destruct t as [|? t]; [done|]).
  all: try done.
  case_match; [|done]. by rewrite Hs.
Qed.

Lemma unquote_escape_char c t :
  unquote (escape_char c +++ t) = prepend (String c EmptyString) (unquote t).
Proof.
  assert (forall c1 c2 n, hex4 "0" "0" c1 c2 = Some n -> (n < 256)%N ->
            utf16_unit n = String c EmptyString ->
            unquote (String bslash (String "u" (String "0" (String "0" (String c1 (String c2 t))))))
            = prepend (String c EmptyString) (unquote t)) as Hu.
  { intros c1 c2 n Hh Hn <-. by apply unquote_u. }
  destruct c as [[] [] [] [] [] [] [] []];
    first [reflexivity | eapply Hu; [vm_compute; reflexivity | lia | vm_compute; reflexivity]].
Qed.

Lemma unquote_escape s t :
  unquote (escape s +++ String dquote t) = Some (s, t).
Proof.
  induction s as [|c s IH]; [reflexivity|].
  change (escape (String c s)) with (escape_char c +++ escape s).
  rewrite <- string_app_assoc, unquote_escape_char, IH. reflexivity.
Qed.

Lemma parse_value_quote fuel s t :
  parse_value (S fuel) (quote s +++ t) = Some (VString s, t).
Proof.
  change (quote s +++ t) with (String dquote ((escape s +++ String dquote EmptyString) +++ t)).
  rewrite <- string_app_assoc. change (String dquote EmptyString +++ t) with (String dquote t).
  assert (forall x, parse_value (S fuel) (String dquote x)
    = match unquote x with Some (u, r) => Some (VString u, r) | None => None end) as -> by done.
  by rewrite unquote_escape.
Qed.

(** Decoding the encoding of a string gives the string back. *)
Lemma unmarshal_quote s : unmarshal (quote s) = Some (VString s).
Proof.
  unfold unmarshal, json_fuel. rewrite Nat.add_comm. cbn [Nat.add].
  rewrite <- (string_app_empty_r (quote s)) at 2. by rewrite parse_value_quote.
Qed.

Lemma string_of_Z_inj a b : string_of_Z a = string_of_Z b -> a = b.
Proof.
  unfold string_of_Z. intros Hab%(f_equal NilEmpty.int_of_string).
  rewrite !NilEmpty.isi in Hab. injection Hab as Hab. by apply DecimalZ.to_int_inj.
Qed.

Lemma string_of_Z_nonempty z : string_of_Z z <> "".
Proof.
  unfold string_of_Z. intros Hz%(f_equal NilEmpty.int_of_string).
  rewrite NilEmpty.isi in Hz. injection Hz as Hz.
  pose proof (DecimalZ.of_to z) as Hof. rewrite Hz in Hof. simpl in Hof. by subst z.
Qed.
