(* ===== verification/JsonFacts.v ===== *)
(** * Round trips of the JSON codec

    Decoding what [marshal] writes gives the value back, for the values that
    decoding can make: no Go integers, numbers that are JSON literals, objects
    with their members in the order of the keys. *)

From S2P Require Import Prelude Json.
From Stdlib Require Import Lia.

Local Open Scope broker_scope.

(** ** Induction on values *)

Section Induction.
Variable P : value -> Prop.
Hypothesis H_null : P VNull.
Hypothesis H_bool : forall b, P (VBool b).
Hypothesis H_int : forall z, P (VInt z).
Hypothesis H_float : forall lit, P (VFloat lit).
Hypothesis H_string : forall s, P (VString s).
Hypothesis H_array : forall l, Forall P l -> P (VArray l).
Hypothesis H_object : forall m, Forall (fun kv => P kv.2) m -> P (VObject m).

Fixpoint value_induction (v : value) : P v :=
  match v with
  | VNull => H_null
  | VBool b => H_bool b
  | VInt z => H_int z
  | VFloat lit => H_float lit
  | VString s => H_string s
  | VArray l =>
      H_array l ((fix go l : Forall P l :=
        match l with [] => @Forall_nil _ P | v :: l => @Forall_cons _ P v l (value_induction v) (go l) end) l)
  | VObject m =>
      H_object m ((fix go m : Forall (fun kv => P kv.2) m :=
        match m with
        | [] => @Forall_nil _ (fun kv => P kv.2)
        | kv :: m => @Forall_cons _ (fun kv => P kv.2) kv m (value_induction kv.2) (go m)
        end) m)
  end.
End Induction.

(** ** Canonical values *)

Definition key_lt (a b : string * value) : Prop := String.compare a.1 b.1 = Lt.

Fixpoint sorted_keys (m : list (string * value)) : bool :=
  match m with
  | [] => true
  | kv :: m =>
      forallb (fun kv' => match String.compare kv.1 kv'.1 with Lt => true | _ => false end) m && sorted_keys m
  end.

Fixpoint canonical (v : value) : bool :=
  match v with
  | VInt _ => false
  | VFloat lit => bool_decide (take_number lit = Some (lit, ""))
  | VArray l => forallb canonical l
  | VObject m => sorted_keys m && forallb (fun kv => canonical kv.2) m
  | _ => true
  end.

(** ** Order of the keys *)

Lemma compare_refl a : String.compare a a = Eq.
Proof. pose proof (String.compare_antisym a a). by destruct (String.compare a a). Qed.

Lemma compare_gt_lt a b : String.compare a b = Gt <-> String.compare b a = Lt.
Proof. rewrite (String.compare_antisym a b). by destruct (String.compare b a). Qed.

(** Setting a key that is above all others appends. *)
Lemma obj_set_last k v m :
  forallb (fun kv => match String.compare kv.1 k with Lt => true | _ => false end) m = true ->
  obj_set k v m = m ++ [(k, v)].
Proof.
  induction m as [|[k' v'] m IH]; simpl; [done|]. intros [Hk Hm]%andb_prop.
  destruct (String.compare k' k) eqn:E; try done.
  rewrite (proj2 (compare_gt_lt k k')) by done. by rewrite IH.
Qed.

Lemma sorted_app_inv a kv m :
  sorted_keys (a ++ kv :: m) = true ->
  forallb (fun x => match String.compare x.1 kv.1 with Lt => true | _ => false end) a = true.
Proof.
  induction a as [|x a IH]; simpl; [done|]. intros [Hx Ha]%andb_prop.
  rewrite forallb_app in Hx. apply andb_prop in Hx as [_ Hx]. simpl in Hx. apply andb_prop in Hx as [Hx _].
  by rewrite Hx, IH.
Qed.

Lemma sorted_rebuild m acc :
  sorted_keys (acc ++ m) = true ->
  foldl (fun o kv => obj_set kv.1 kv.2 o) acc m = acc ++ m.
Proof.
  revert acc. induction m as [|[k v] m IH]; intros acc Hs; simpl; [by rewrite app_nil_r|].
  rewrite obj_set_last by exact (sorted_app_inv _ _ _ Hs).
  rewrite IH; rewrite <- app_assoc; done.
Qed.

(** Setting a member to the value it has changes nothing. *)
Lemma obj_set_same k v m :
  sorted_keys m = true -> obj_get k m = Some v -> obj_set k v m = m.
Proof.
  induction m as [|[k' v'] m IH]; simpl; [done|]. intros [Hx Hs]%andb_prop.
  case_bool_decide as E.
  - subst. intros [= ->]. by rewrite compare_refl.
  - intros Hk. assert (String.compare k' k = Lt) as Hlt.
    { clear IH Hs. induction m as [|[k2 v2] m IHm]; simpl in *; [done|]. apply andb_prop in Hx as [Hx Hm].
      revert Hk. case_bool_decide; [subst; by destruct (String.compare k' k2)|auto]. }
    rewrite (proj2 (compare_gt_lt k k') Hlt). by rewrite IH.
Qed.

(** ** Numbers *)

(** A text that ends a number before it. *)
Definition stop (t : string) : bool :=
  match t with
  | EmptyString => true
  | String c _ => Ascii.eqb c "," || Ascii.eqb c "]" || Ascii.eqb c "}"
  end.

Definition goes_on (b t : string) : Prop := b <> "" \/ stop t = true.

Lemma stop_cases t : stop t = true -> t = "" \/ exists c r, t = String c r /\ (c = "," \/ c = "]" \/ c = "}")%char.
Proof.
  destruct t as [|c r]; [by left|]. simpl. rewrite !orb_true_iff, !Ascii.eqb_eq. intros Hc. right.
  exists c, r. split; [done|]. tauto.
Qed.

Lemma take_digits_app s a b t :
  take_digits s = (a, b) -> goes_on b t -> take_digits (s +++ t) = (a, b +++ t).
Proof.
  revert a b. induction s as [|c s IH]; intros a b.
  - intros [= <- <-] [?|Ht]; [done|]. by apply stop_cases in Ht as [->|(c & r & -> & [->|[->| ->]])].
  - change (String c s +++ t) with (String c (s +++ t)). cbn [take_digits]. destruct (is_digit c).
    + destruct (take_digits s) as [d r] eqn:Hd. intros [= <- <-] Hg. by rewrite (IH _ _ eq_refl Hg).
    + by intros [= <- <-] _.
Qed.

Lemma take_int_app s a b t :
  take_int s = Some (a, b) -> goes_on b t -> take_int (s +++ t) = Some (a, b +++ t).
Proof.
  destruct s as [|c s]; [done|]. change (String c s +++ t) with (String c (s +++ t)). unfold take_int.
  destruct (Ascii.eqb c "0"); [by intros [= <- <-]|]. destruct (is_digit c) eqn:Hc; [|done].
  intros [= Hd] Hg. change (String c (s +++ t)) with (String c s +++ t).
  by rewrite (take_digits_app (String c s) a b t Hd Hg).
Qed.

Lemma take_frac_app s a b t :
  take_frac s = Some (a, b) -> goes_on b t -> take_frac (s +++ t) = Some (a, b +++ t).
Proof.
  destruct s as [|c s].
  - intros [= <- <-] [?|Ht]; [done|]. by apply stop_cases in Ht as [->|(c & r & -> & [->|[->| ->]])].
  - change (String c s +++ t) with (String c (s +++ t)). cbn [take_frac].
    destruct (Ascii.eqb c "."); [|by intros [= <- <-]].
    destruct (take_digits s) as [d r] eqn:Hd. intros Hr Hg.
    destruct d as [|d0 d]; [done|]. injection Hr as <- <-. by rewrite (take_digits_app _ _ _ _ Hd Hg).
Qed.

Lemma take_exp_app s a b t :
  take_exp s = Some (a, b) -> goes_on b t -> take_exp (s +++ t) = Some (a, b +++ t).
Proof.
  destruct s as [|c s].
  - intros [= <- <-] [?|Ht]; [done|]. by apply stop_cases in Ht as [->|(c & r & -> & [->|[->| ->]])].
  - change (String c s +++ t) with (String c (s +++ t)). cbn [take_exp].
    destruct (Ascii.eqb c "e" || Ascii.eqb c "E"); [|by intros [= <- <-]].
    destruct s as [|g s]; [done|]. change (String g s +++ t) with (String g (s +++ t)). cbv beta iota.
    destruct (Ascii.eqb g "+" || Ascii.eqb g "-").
    + destruct (take_digits s) as [d r] eqn:Hd. intros Hr Hg. destruct d as [|d0 d]; [done|].
      injection Hr as <- <-. by rewrite (take_digits_app _ _ _ _ Hd Hg).
    + change (String g (s +++ t)) with (String g s +++ t).
      destruct (take_digits (String g s)) as [d r] eqn:Hd. intros Hr Hg. destruct d as [|d0 d]; [done|].
      injection Hr as <- <-. by rewrite (take_digits_app _ _ _ _ Hd Hg).
Qed.

Lemma goes_on_app f s3 t : goes_on s3 t -> goes_on (f +++ s3) t.
Proof. intros [H|H]; [|by right]. left. by destruct f. Qed.

Lemma take_number_app s a b t :
  take_number s = Some (a, b) -> goes_on b t -> take_number (s +++ t) = Some (a, b +++ t).
Proof.
  unfold take_number. intros Hs Hg.
  destruct s as [|c s]; [done|]. change (String c s +++ t) with (String c (s +++ t)). cbv beta iota.
  assert (forall sign s1, match take_int s1 with
     | None => None
     | Some (i, s2) => match take_frac s2 with
        | None => None
        | Some (f, s3) => match take_exp s3 with None => None | Some (e, s4) => Some (sign +++ i +++ f +++ e, s4) end
        end end = Some (a, b) ->
     match take_int (s1 +++ t) with
     | None => None
     | Some (i, s2) => match take_frac s2 with
        | None => None
        | Some (f, s3) => match take_exp s3 with None => None | Some (e, s4) => Some (sign +++ i +++ f +++ e, s4) end
        end end = Some (a, b +++ t)) as Hmain.
  { intros sign s1 H1. destruct (take_int s1) as [[i s2]|] eqn:Hi; [|done].
    destruct (take_frac s2) as [[f s3]|] eqn:Hf; [|done].
    destruct (take_exp s3) as [[e s4]|] eqn:He; [|done]. injection H1 as <- <-.
    assert (goes_on s3 t) as H3.
    { destruct Hg as [Hg|Hg]; [left|by right]. intros ->. simpl in He. injection He as <- <-. done. }
    assert (goes_on s2 t) as H2.
    { destruct H3 as [H3|H3]; [left|by right]. intros ->. simpl in Hf. injection Hf as <- <-. done. }
    by rewrite (take_int_app _ _ _ _ Hi H2), (take_frac_app _ _ _ _ Hf H3), (take_exp_app _ _ _ _ He Hg). }
  destruct (Ascii.eqb c "-"); [exact (Hmain "-" s Hs)|exact (Hmain "" (String c s) Hs)].
Qed.

Lemma take_number_first lit b : take_number lit = Some (lit, b) ->
  exists c r, lit = String c r /\ (c = "-"%char \/ is_digit c = true).
Proof.
  destruct lit as [|c r]; [done|]. intros Hl. exists c, r. split; [done|]. unfold take_number in Hl.
  destruct (Ascii.eqb c "-") eqn:E; [left; by apply Ascii.eqb_eq|].
  unfold take_int in Hl. destruct (Ascii.eqb c "0") eqn:E0; [right; by apply Ascii.eqb_eq in E0 as ->|].
  destruct (is_digit c); [by right|done].
Qed.

(** ** Values *)

(** A first character that [parse_value] neither skips nor reads as one of the
    delimiters: the value is a literal. *)
Lemma parse_value_literal fuel c r :
  is_ws c = false -> Ascii.eqb c dquote = false -> Ascii.eqb c "[" = false -> Ascii.eqb c "{" = false ->
  parse_value (S fuel) (String c r) = parse_literal (String c r).
Proof. intros Hw Hq Hb Ho. cbn [parse_value skip_ws]. by rewrite Hw, Hq, Hb, Ho. Qed.

Lemma parse_literal_number c r :
  c = "-"%char \/ is_digit c = true ->
  parse_literal (String c r) =
    match take_number (String c r) with Some (lit, r) => Some (VFloat lit, r) | None => None end.
Proof. by destruct c as [[] [] [] [] [] [] [] []]; intros [Hc|Hc]. Qed.

Lemma number_char c :
  c = "-"%char \/ is_digit c = true ->
  is_ws c = false /\ Ascii.eqb c dquote = false /\ Ascii.eqb c "[" = false /\ Ascii.eqb c "{" = false.
Proof. by destruct c as [[] [] [] [] [] [] [] []]; intros [Hc|Hc]. Qed.

(** The first character of an encoding. *)
Definition value_start (c : ascii) : bool :=
  Ascii.eqb c dquote || Ascii.eqb c "[" || Ascii.eqb c "{" || Ascii.eqb c "n" || Ascii.eqb c "t" ||
  Ascii.eqb c "f" || Ascii.eqb c "-" || is_digit c.

Lemma marshal_first v :
  canonical v = true -> exists c r, marshal v = String c r /\ value_start c = true.
Proof.
  destruct v as [|[]| |lit|s|l|m]; intros Hv; try (eexists _, _; split; [reflexivity|reflexivity]).
  - done.
  - simpl in Hv. bool_solver. match goal with E : take_number _ = _ |- _ => apply take_number_first in E end.
    destruct Hv as (c & r & -> & Hc). exists c, r. split; [done|].
    destruct Hc as [->|Hc]; [done|]. unfold value_start. rewrite Hc. by rewrite !orb_true_r.
Qed.

Lemma value_start_close c : value_start c = true -> Ascii.eqb c "]" = false.
Proof. destruct c as [[] [] [] [] [] [] [] []]; try done; vm_compute; discriminate. Qed.

Lemma value_start_skip c r : value_start c = true -> skip_ws (String c r) = String c r.
Proof. intros Hc. cbn [skip_ws]. by destruct c as [[] [] [] [] [] [] [] []]. Qed.

Lemma marshal_skip v t : canonical v = true -> skip_ws (marshal v +++ t) = marshal v +++ t.
Proof. intros (c & r & -> & Hc)%marshal_first. by apply value_start_skip. Qed.

Lemma marshal_nonempty v : canonical v = true -> 1 <= String.length (marshal v).
Proof. intros (c & r & -> & _)%marshal_first. simpl. lia. Qed.

(** What remains to be read of an array or an object after one of its parts. *)
Definition tail (close : string) (l : list string) : string :=
  foldr (fun y acc => "," +++ y +++ acc) close l.

Lemma concat_tail x l close : concat_sep "," (x :: l) +++ close = x +++ tail close l.
Proof.
  revert x. induction l as [|y l IH]; intros x; [done|].
  change (concat_sep "," (x :: y :: l)) with (x +++ "," +++ concat_sep "," (y :: l)).
  rewrite <- !string_app_assoc, IH. done.
Qed.

Definition member_text (kv : string * value) : string := quote kv.1 +++ ":" +++ marshal kv.2.

Lemma marshal_array_tail v l :
  marshal (VArray (v :: l)) = "[" +++ marshal v +++ tail "]" (map marshal l).
Proof. cbn [marshal map]. by rewrite concat_tail. Qed.

Lemma marshal_object_tail kv m :
  marshal (VObject (kv :: m)) = "{" +++ member_text kv +++ tail "}" (map member_text m).
Proof. cbn [marshal map]. by rewrite concat_tail. Qed.

Lemma string_app_length a b : String.length (a +++ b) = String.length a + String.length b.
Proof. induction a as [|c a IH]; [done|]. change (String c a +++ b) with (String c (a +++ b)). simpl. by rewrite IH. Qed.

(** ** The round trip *)

Definition reads (v : value) : Prop :=
  forall fuel t, String.length (marshal v) <= fuel -> stop t = true ->
    parse_value fuel (marshal v +++ t) = Some (v, t).

Lemma parse_value_quote_fuel fuel s t :
  0 < fuel -> parse_value fuel (quote s +++ t) = Some (VString s, t).
Proof. destruct fuel; [lia|]. intros _. apply parse_value_quote. Qed.

Lemma stop_tail close l t :
  stop (close +++ t) = true -> stop (tail close l +++ t) = true.
Proof. by destruct l. Qed.

Lemma tail_cons close x l t : tail close (x :: l) +++ t = String "," (x +++ tail close l +++ t).
Proof. unfold tail. cbn [foldr]. by rewrite <- !string_app_assoc. Qed.

Lemma tail_cons_length close x l :
  String.length (tail close (x :: l)) = S (String.length x + String.length (tail close l)).
Proof. unfold tail. cbn [foldr]. by rewrite string_app_length, string_app_length. Qed.

Lemma reads_elements v l fuel t :
  reads v -> Forall reads l -> canonical v = true -> forallb canonical l = true ->
  String.length (marshal v) + String.length (tail "]" (map marshal l)) <= fuel ->
  parse_elements fuel (marshal v +++ tail "]" (map marshal l) +++ t) = Some (v :: l, t).
Proof.
  intros Hv Hl. revert v fuel Hv. induction Hl as [|x l Hx Hl IH]; intros v fuel Hv Cv Cl Hf;
    pose proof (marshal_nonempty v Cv); (destruct fuel as [|fuel]; [lia|]); cbn [parse_elements map].
  - simpl in Hf. rewrite Hv by (done || lia). done.
  - cbn [map] in Hf. apply andb_prop in Cl as [Cx Cl]. rewrite tail_cons_length in Hf.
    rewrite tail_cons, Hv; [|lia|done]. cbn [skip_ws is_ws]. simpl.
    rewrite IH; [done|done|done|done|]. lia.
Qed.

Lemma quote_first s : exists r, quote s = String dquote r.
Proof. by eexists. Qed.

Lemma unquote_quote k t r : quote k +++ t = String dquote r -> unquote r = Some (k, t).
Proof.
  change (quote k +++ t) with (String dquote ((escape k +++ String dquote EmptyString) +++ t)).
  intros [= <-]. rewrite <- string_app_assoc. apply unquote_escape.
Qed.

Lemma reads_members kv m fuel t :
  reads kv.2 -> Forall (fun kv => reads kv.2) m -> canonical kv.2 = true ->
  forallb (fun kv => canonical kv.2) m = true ->
  String.length (member_text kv) + String.length (tail "}" (map member_text m)) <= fuel ->
  parse_members fuel (member_text kv +++ tail "}" (map member_text m) +++ t) = Some (kv :: m, t).
Proof.
  intros Hv Hl. revert kv fuel Hv. induction Hl as [|x l Hx Hl IH]; intros [k v] fuel Hv Cv Cl Hf;
    pose proof (marshal_nonempty v Cv);
    assert (String.length (member_text (k, v)) = S (String.length (quote k) + String.length (marshal v))) as Hlen
      by (unfold member_text; by rewrite !string_app_length);
    (destruct fuel as [|fuel]; [lia|]); unfold member_text at 1; cbn [fst snd map parse_members] in *;
    rewrite <- !string_app_assoc; destruct (quote_first k) as [q Hq];
    match goal with |- context [skip_ws (quote k +++ ?u)] =>
      destruct (quote k +++ u) as [|d r] eqn:E; [by rewrite Hq in E|] end;
    assert (d = dquote) as -> by (rewrite Hq in E; by injection E);
    apply unquote_quote in E; cbn [skip_ws]; change (is_ws dquote) with false; cbv iota;
    rewrite Ascii.eqb_refl, E; change (skip_ws (":" +++ ?z)) with (String ":" z); cbv iota; rewrite Ascii.eqb_refl.
  - rewrite Hv; [done|lia|done].
  - apply andb_prop in Cl as [Cx Cl]. rewrite tail_cons_length in Hf.
    rewrite tail_cons, Hv; [|lia|done]. change (skip_ws (String "," ?z)) with (String "," z). cbv iota.
    rewrite Ascii.eqb_refl, IH; [done|done|done|done|]. lia.
Qed.

Lemma Forall_reads l :
  Forall (fun v => canonical v = true -> reads v) l -> forallb canonical l = true -> Forall reads l.
Proof. induction 1; simpl; [constructor|]. intros [? ?]%andb_prop. constructor; auto. Qed.

Lemma Forall_reads_members m :
  Forall (fun kv : string * value => canonical kv.2 = true -> reads kv.2) m ->
  forallb (fun kv => canonical kv.2) m = true -> Forall (fun kv => reads kv.2) m.
Proof. induction 1; simpl; [constructor|]. intros [? ?]%andb_prop. constructor; auto. Qed.

Lemma parse_value_array fuel r :
  parse_value (S fuel) (String "[" r) =
    match skip_ws r with
    | String d r' =>
        if Ascii.eqb d "]" then Some (VArray [], r')
        else match parse_elements fuel r with Some (l, r) => Some (VArray l, r) | None => None end
    | EmptyString => None
    end.
Proof. done. Qed.

Lemma parse_value_object fuel r :
  parse_value (S fuel) (String "{" r) =
    match skip_ws r with
    | String d r' =>
        if Ascii.eqb d "}" then Some (VObject [], r')
        else match parse_members fuel r with
             | Some (l, r) => Some (VObject (foldl (fun m kv => obj_set kv.1 kv.2 m) [] l), r)
             | None => None
             end
    | EmptyString => None
    end.
Proof. done. Qed.

Lemma reads_canonical v : canonical v = true -> reads v.
Proof.
  induction v as [|b|z|lit|s|l IH|m IH] using value_induction; intros Cv fuel t Hf Ht;
    pose proof (marshal_nonempty _ Cv); (destruct fuel as [|fuel]; [lia|]).
  - by destruct t.
  - by destruct b, t.
  - done.
  - cbn [canonical marshal] in *. bool_solver. pose proof (take_number_first _ _ Cv) as (c & r & -> & Hc).
    pose proof (take_number_app _ _ _ t Cv (or_intror Ht)) as Hn.
    destruct (number_char c Hc) as (?&?&?&?).
    change (String c r +++ t) with (String c (r +++ t)) in *.
    rewrite parse_value_literal by done. rewrite parse_literal_number by done. by rewrite Hn.
  - apply parse_value_quote.
  - destruct l as [|v l]; [done|]. rewrite marshal_array_tail in Hf |- *.
    cbn [canonical forallb] in Cv. apply andb_prop in Cv as [Cv Cl]. inversion_clear IH as [|? ? Hv Hl].
    rewrite !string_app_length in Hf. simpl in Hf. rewrite <- !string_app_assoc.
    change ("[" +++ ?z) with (String "[" z). rewrite parse_value_array, (marshal_skip v) by done.
    destruct (marshal_first v Cv) as (c & r & Hm & Hc). rewrite Hm at 1.
    change (String c r +++ ?z) with (String c (r +++ z)) at 1. cbv iota. rewrite (value_start_close c) by done.
    rewrite reads_elements; [done|auto|by eapply Forall_reads|done|done|]. lia.
  - destruct m as [|kv m]; [done|]. rewrite marshal_object_tail in Hf |- *.
    cbn [canonical] in Cv. apply andb_prop in Cv as [Cs Cv]. cbn [forallb] in Cv.
    apply andb_prop in Cv as [Cv Cl]. inversion_clear IH as [|? ? Hv Hl].
    rewrite (string_app_length "{"), string_app_length in Hf. change (String.length "{") with 1 in Hf.
    rewrite <- !string_app_assoc. change ("{" +++ ?z) with (String "{" z). rewrite parse_value_object.
    change (skip_ws (member_text kv +++ ?z)) with (String dquote (((escape kv.1 +++ String dquote "") +++ ":" +++ marshal kv.2) +++ z)).
    cbv iota. change (Ascii.eqb dquote "}") with false. cbv iota.
    rewrite reads_members; [|auto|by eapply Forall_reads_members|done|done|lia].
    by rewrite (sorted_rebuild (kv :: m) []).
Qed.

(** Decoding what was encoded gives the value back. *)
Lemma unmarshal_marshal v : canonical v = true -> unmarshal (marshal v) = Some v.
Proof.
  intros Cv. unfold unmarshal. rewrite <- (string_app_empty_r (marshal v)) at 2.
  rewrite (reads_canonical v Cv); [done|unfold json_fuel; lia|done].
Qed.
