(* ===== verification/Strconv.v ===== *)
(** * Numbers and base64 in headers

    The parts of Go's [strconv] and [encoding/base64] that the checks of
    request headers use: [ParseFloat(s, 64)] with the comparison of its result
    to a constant, and [StdEncoding.EncodeToString]. *)

From S2P Require Import Prelude Json.
From Stdlib Require Import Lia.

Local Open Scope broker_scope.

(** ** [strconv.ParseFloat] *)

(** A parsed number before it is rounded to 53 bits: [num / den], [den > 0]. *)
Inductive float_value : Type :=
  | FNaN
  | FInf (neg : bool)
  | FNum (neg : bool) (num den : Z).

Inductive parse_error : Type := ErrSyntax | ErrRange.

(** A digit of a decimal or hexadecimal mantissa. *)
Definition mantissa_digit (hex : bool) (c : ascii) : option Z :=
  match hex_value c with
  | Some d => if hex || (d <? 10)%N then Some (Z.of_N d) else None
  | None => None
  end.

(** What has been read of a mantissa: its digits as a number, how many of them
    are behind the dot, and what has been seen. *)
Record mantissa : Type := mkMantissa {
  m_value : Z;
  m_fraction : Z;
  m_dot : bool;
  m_digits : bool;
  m_underscores : bool;
}.

Fixpoint read_mantissa (hex : bool) (m : mantissa) (s : string) : mantissa * string :=
  match s with
  | EmptyString => (m, s)
  | String c r =>
      if Ascii.eqb c "_" then
        read_mantissa hex (mkMantissa (m_value m) (m_fraction m) (m_dot m) (m_digits m) true) r
      else if Ascii.eqb c "." then
        if m_dot m then (m, s)
        else read_mantissa hex (mkMantissa (m_value m) (m_fraction m) true (m_digits m) (m_underscores m)) r
      else match mantissa_digit hex c with
           | Some d =>
               read_mantissa hex
                 (mkMantissa (m_value m * (if hex then 16 else 10) + d)
                    (if m_dot m then m_fraction m + 1 else m_fraction m)
                    (m_dot m) true (m_underscores m)) r
           | None => (m, s)
           end
  end%Z.

(** The digits of an exponent, which is capped; was there an underscore? *)
Fixpoint read_exponent (e : Z) (underscores : bool) (s : string) : Z * bool * string :=
  match s with
  | EmptyString => (e, underscores, s)
  | String c r =>
      if Ascii.eqb c "_" then read_exponent e true r
      else match mantissa_digit false c with
           | Some d => read_exponent (if (e <? 10000)%Z then e * 10 + d else e)%Z underscores r
           | None => (e, underscores, s)
           end
  end.

(** [underscoreOK], after the sign and the base prefix; [prev] says what the
    last character was: a digit ('0'), an underscore or something else. *)
Fixpoint underscores_from (hex : bool) (prev : ascii) (s : string) : bool :=
  match s with
  | EmptyString => negb (Ascii.eqb prev "_")
  | String c r =>
      match mantissa_digit hex c with
      | Some _ => underscores_from hex "0" r
      | None =>
          if Ascii.eqb c "_" then Ascii.eqb prev "0" && underscores_from hex "_" r
          else negb (Ascii.eqb prev "_") && underscores_from hex "!" r
      end
  end.

Definition strip_sign (s : string) : bool * string :=
  match s with
  | String "-" r => (true, r)
  | String "+" r => (false, r)
  | _ => (false, s)
  end.

Definition strip_hex (s : string) : bool * string :=
  match s with
  | String "0" (String "x" r) | String "0" (String "X" r) => (true, r)
  | _ => (false, s)
  end.

(** [readFloat], which must consume all of the text. *)
Definition read_float (s : string) : option float_value :=
  let '(neg, body) := strip_sign s in
  let '(hex, digits) := match strip_hex body with
                        | (true, EmptyString) => (false, body)
                        | r => r
                        end in
  let '(m, rest) := read_mantissa hex (mkMantissa 0 0 false false false) digits in
  if negb (m_digits m) then None
  else
    let exponent :=
      match rest with
      | EmptyString => if hex then None else Some (0%Z, false)
      | String c r =>
          if (if hex then Ascii.eqb c "p" || Ascii.eqb c "P" else Ascii.eqb c "e" || Ascii.eqb c "E") then
            let '(eneg, r) := strip_sign r in
            match r with
            | String d _ =>
                match mantissa_digit false d with
                | None => None
                | Some _ =>
                    match read_exponent 0 false r with
                    | (e, u, EmptyString) => Some ((if eneg then - e else e)%Z, u)
                    | _ => None
                    end
                end
            | EmptyString => None
            end
          else None
      end in
    match exponent with
    | None => None
    | Some (e, u) =>
        if (m_underscores m || u) && negb (underscores_from hex (if hex then "0" else "^")%char digits)
        then None
        else
          let e := (if hex then e - 4 * m_fraction m else e - m_fraction m)%Z in
          let base := (if hex then 2 else 10)%Z in
          Some (if (0 <=? e)%Z then FNum neg (m_value m * base ^ e)%Z 1%Z
                else FNum neg (m_value m) (base ^ (- e))%Z)
    end.

Definition special (s : string) : option float_value :=
  let '(neg, body) := strip_sign s in
  if EqualFold body "inf" || EqualFold body "infinity" then Some (FInf neg)
  else if EqualFold s "nan" then Some FNaN
  else None.

Definition ParseFloat (s : string) : res parse_error float_value :=
  match special s with
  | Some f => Ok f
  | None =>
      match read_float s with
      | None => Err ErrSyntax
      | Some (FNum neg n d) =>
          if ((2 ^ 1024 - 2 ^ 970) * d <=? n)%Z then Err ErrRange else Ok (FNum neg n d)
      | Some f => Ok f
      end
  end.

(** ** Comparison with a constant

    For a constant [p / q] between 2 and 4 the nearest [float64] is
    [mantissa53 / 2^51]; a number rounds below it when it is below the middle
    of it and its predecessor (on which a tie goes to the even mantissa). *)

Definition mantissa53 (p q : Z) : Z := ((2 * (p * 2 ^ 51) + q) / (2 * q))%Z.

Definition rounds_below (n d p q : Z) : bool :=
  let m := mantissa53 p q in
  if Z.even m then (n * 2 ^ 52 <? (2 * m - 1) * d)%Z else (n * 2 ^ 52 <=? (2 * m - 1) * d)%Z.

(** [f < p / q] on [float64]. *)
Definition float_lt (f : float_value) (p q : Z) : bool :=
  match f with
  | FNaN => false
  | FInf neg => neg
  | FNum true _ _ => true
  | FNum false n d => rounds_below n d p q
  end.

(** ** [base64.StdEncoding.EncodeToString] *)

Definition base64_alphabet : string :=
  "ABCDEFGHIJKLMNOPQRSTUVWXYZabcdefghijklmnopqrstuvwxyz0123456789+/".

Definition base64_char (n : N) : ascii :=
  default "="%char (String.get (N.to_nat n) base64_alphabet).

Fixpoint EncodeToString (s : string) : string :=
  match s with
  | EmptyString => EmptyString
  | String a EmptyString =>
      let v := (N_of_ascii a * 16)%N in
      String (base64_char (v / 64)) (String (base64_char (v mod 64)) "==")
  | String a (String b EmptyString) =>
      let v := ((N_of_ascii a * 256 + N_of_ascii b) * 4)%N in
      String (base64_char (v / 4096)) (String (base64_char (v / 64 mod 64))
        (String (base64_char (v mod 64)) "="))
  | String a (String b (String c r)) =>
      let v := (N_of_ascii a * 65536 + N_of_ascii b * 256 + N_of_ascii c)%N in
      String (base64_char (v / 262144)) (String (base64_char (v / 4096 mod 64))
        (String (base64_char (v / 64 mod 64)) (String (base64_char (v mod 64)) (EncodeToString r))))
  end.

(** ** Lemmas *)

#[local] Ltac Zify.zify_post_hook ::= Z.to_euclidean_division_equations.

(** Up to 15 decimals, rounding does not change the comparison with a version
    number of two decimals. *)
Lemma float_lt_exact n k :
  (0 <= k <= 15)%Z -> float_lt (FNum false n (10 ^ k)) 213 100 = (100 * n <? 213 * 10 ^ k)%Z.
Proof.
  intros Hk. unfold float_lt, rounds_below.
  assert (Hm : mantissa53 213 100 = 4796333603149578%Z) by reflexivity. rewrite Hm. simpl Z.even. cbv iota.
  assert (Hc : exists j : nat, (j < 16)%nat /\ k = Z.of_nat j) by (exists (Z.to_nat k); lia).
  destruct Hc as (j & Hj & ->).
  apply Bool.eq_iff_eq_true. rewrite !Z.ltb_lt.
  do 16 (destruct j as [|j]; [cbn; lia|]). lia.
Qed.

Definition base64_value (c : ascii) : option N :=
  let fix index (i : N) (s : string) :=
    match s with
    | EmptyString => None
    | String d r => if Ascii.eqb c d then Some i else index (i + 1)%N r
    end in
  index 0%N base64_alphabet.

Lemma base64_value_char n : (n < 64)%N -> base64_value (base64_char n) = Some n.
Proof.
  intros Hn.
  assert (Hall : forallb (fun i => bool_decide (base64_value (base64_char (N.of_nat i)) = Some (N.of_nat i)))
                   (seq 0 64) = true) by (vm_compute; reflexivity).
  rewrite forallb_forall in Hall. specialize (Hall (N.to_nat n)).
  rewrite N2Nat.id, bool_decide_eq_true in Hall. apply Hall, in_seq. lia.
Qed.

Lemma base64_char_inj a b : (a < 64)%N -> (b < 64)%N -> base64_char a = base64_char b -> a = b.
Proof. intros Ha Hb E. apply (f_equal base64_value) in E. rewrite !base64_value_char in E by done. congruence. Qed.

Lemma base64_char_pad n : (n < 64)%N -> base64_char n <> "="%char.
Proof. intros Hn E. apply (f_equal base64_value) in E. by rewrite base64_value_char in E. Qed.

(** Four characters determine the 24 bits they stand for. *)
Lemma base64_group u :
  (u = 64 * (64 * (64 * (u / 262144) + u / 4096 mod 64) + u / 64 mod 64) + u mod 64)%N.
Proof. lia. Qed.

Lemma base64_group_inj u v :
  (u < 16777216)%N -> (v < 16777216)%N ->
  base64_char (u / 262144) = base64_char (v / 262144) ->
  base64_char (u / 4096 mod 64) = base64_char (v / 4096 mod 64) ->
  base64_char (u / 64 mod 64) = base64_char (v / 64 mod 64) ->
  base64_char (u mod 64) = base64_char (v mod 64) -> u = v.
Proof.
  intros Hu Hv H1%base64_char_inj H2%base64_char_inj H3%base64_char_inj H4%base64_char_inj;
    try (apply N.mod_lt; lia); try (apply N.Div0.div_lt_upper_bound; lia).
  rewrite (base64_group u), (base64_group v). congruence.
Qed.

Lemma base64_pair_inj u v :
  (u < 4096)%N -> (v < 4096)%N ->
  base64_char (u / 64) = base64_char (v / 64) -> base64_char (u mod 64) = base64_char (v mod 64) -> u = v.
Proof. intros Hu Hv H1%base64_char_inj H2%base64_char_inj; lia. Qed.

Lemma base64_triple_inj u v :
  (u < 262144)%N -> (v < 262144)%N ->
  base64_char (u / 4096) = base64_char (v / 4096) ->
  base64_char (u / 64 mod 64) = base64_char (v / 64 mod 64) ->
  base64_char (u mod 64) = base64_char (v mod 64) -> u = v.
Proof.
  intros Hu Hv H1 H2 H3. apply base64_group_inj; [lia|lia| | |done|done].
  - by rewrite !N.div_small by lia.
  - rewrite !N.mod_small by (apply N.Div0.div_lt_upper_bound; lia). done.
Qed.

Lemma ascii_bound a : (N_of_ascii a < 256)%N.
Proof. apply N_ascii_bounded. Qed.

Lemma N_of_ascii_inj a b : N_of_ascii a = N_of_ascii b -> a = b.
Proof. intros E%(f_equal ascii_of_N). by rewrite !ascii_N_embedding in E. Qed.

Lemma EncodeToString_inj s t : EncodeToString s = EncodeToString t -> s = t.
Proof.
  revert t. induction s as [s IH] using (well_founded_induction (Wf_nat.well_founded_ltof _ String.length)).
  intros t.
  destruct s as [|a [|b [|c r]]], t as [|a' [|b' [|c' r']]]; try done; cbn [EncodeToString];
    repeat match goal with a : ascii |- _ => lazymatch goal with
             | _ : (N_of_ascii a < 256)%N |- _ => fail
             | _ => pose proof (ascii_bound a) end end;
    intros E; injection E; intros;
    try (exfalso; match goal with
      | E : base64_char _ = "="%char |- _ => apply base64_char_pad in E; [done|lia]
      | E : "="%char = base64_char _ |- _ => symmetry in E; apply base64_char_pad in E; [done|lia]
      end).
  - assert (N_of_ascii a * 16 = N_of_ascii a' * 16)%N by (apply base64_pair_inj; try done; lia).
    by rewrite (N_of_ascii_inj a a') by lia.
  - assert ((N_of_ascii a * 256 + N_of_ascii b) * 4 = (N_of_ascii a' * 256 + N_of_ascii b') * 4)%N
      by (apply base64_triple_inj; try done; lia).
    by rewrite (N_of_ascii_inj a a'), (N_of_ascii_inj b b') by lia.
  - assert (N_of_ascii a * 65536 + N_of_ascii b * 256 + N_of_ascii c
            = N_of_ascii a' * 65536 + N_of_ascii b' * 256 + N_of_ascii c')%N
      by (apply base64_group_inj; try done; lia).
    rewrite (N_of_ascii_inj a a'), (N_of_ascii_inj b b'), (N_of_ascii_inj c c') by lia.
    do 3 f_equal. apply IH; [unfold Wf_nat.ltof; simpl; lia|done].
Qed.
