(* ===== verification/Pem.v ===== *)
(** * PEM files ([encoding/pem], [encoding/base64])

    What [pkg/util/x509.go] uses of the standard library: [EncodeToMemory] of
    a block without headers, and [Decode], which finds the first block in a
    text and returns what follows it; and that a block that was encoded is
    decoded to itself, with nothing left. *)

From S2P Require Import Prelude Json Strconv.
From Stdlib Require Import Lia.

Local Open Scope broker_scope.

(** ** [base64.StdEncoding.Decode] *)

Definition newline : ascii := "010"%char.
Definition carriage_return : ascii := "013"%char.
Definition tab : ascii := "009"%char.

Fixpoint string_filter (p : ascii -> bool) (s : string) : string :=
  match s with
  | EmptyString => EmptyString
  | String c r => if p c then String c (string_filter p r) else string_filter p r
  end.

Definition byte_of (n : N) : ascii := ascii_of_N (n mod 256).

(** Four characters at a time, the last ones padded; the bits that padding
    leaves over are not checked. *)
Fixpoint base64_quanta (s : string) : option string :=
  match s with
  | EmptyString => Some EmptyString
  | String a (String b (String c (String d r))) =>
      x ← base64_value a; y ← base64_value b;
      let first := byte_of (x * 4 + y / 16) in
      if Ascii.eqb c "=" then
        if Ascii.eqb d "=" && (r =?s EmptyString) then Some (String first EmptyString) else None
      else
        z ← base64_value c;
        let second := byte_of (y * 16 + z / 4) in
        if Ascii.eqb d "=" then
          if r =?s EmptyString then Some (String first (String second EmptyString)) else None
        else
          t ← base64_value d;
          l ← base64_quanta r;
          Some (String first (String second (String (byte_of (z * 64 + t)) l)))
  | _ => None
  end.

(** Line ends are skipped. *)
Definition base64_Decode (s : string) : option string :=
  base64_quanta (string_filter (fun c => negb (Ascii.eqb c newline) && negb (Ascii.eqb c carriage_return)) s).

(** ** [pem.EncodeToMemory] *)

Record Block : Type := mkBlock { block_Type : string; block_Bytes : string }.

Definition nl : string := String newline EmptyString.
Definition dashes : string := "-----".
Definition pemStart : string := nl +++ "-----BEGIN ".
Definition pemEnd : string := nl +++ "-----END ".
Definition pemStart1 : string := "-----BEGIN ".   (* pemStart[1:] *)
Definition pemEnd1 : string := "-----END ".       (* pemEnd[1:] *)
Definition pemLineLength : nat := 64.

(** [lineBreaker]: [room] more characters fit on the line. *)
Fixpoint lineBreaker (room : nat) (s : string) : string :=
  match s with
  | EmptyString => if Nat.eqb room pemLineLength then EmptyString else nl
  | String c r =>
      match room with
      | S (S room) => String c (lineBreaker (S room) r)
      | _ => String c (String newline (lineBreaker pemLineLength r))
      end
  end.

Definition EncodeToMemory (b : Block) : string :=
  pemStart1 +++ block_Type b +++ dashes +++ nl +++
  lineBreaker pemLineLength (EncodeToString (block_Bytes b)) +++
  pemEnd1 +++ block_Type b +++ dashes +++ nl.

(** ** [pem.Decode] *)

(** What is before and after the first occurrence of [sep]. *)
Fixpoint string_cut (sep s : string) : option (string * string) :=
  match strip_prefix sep s with
  | Some r => Some (EmptyString, r)
  | None => match s with
            | EmptyString => None
            | String c s => '(a, b) ← string_cut sep s; Some (String c a, b)
            end
  end.

Fixpoint string_rev_onto (s acc : string) : string :=
  match s with EmptyString => acc | String c r => string_rev_onto r (String c acc) end.
Definition string_rev (s : string) : string := string_rev_onto s EmptyString.

Fixpoint drop_blanks (s : string) : string :=
  match s with
  | String c r => if Ascii.eqb c " " || Ascii.eqb c tab then drop_blanks r else s
  | EmptyString => EmptyString
  end.

(** [bytes.TrimRight(s, " \t")] *)
Definition trim_right (s : string) : string := string_rev (drop_blanks (string_rev s)).

Definition strip_suffix (p s : string) : option string :=
  string_rev <$> strip_prefix (string_rev p) (string_rev s).

(** The first line, without its end and trailing blanks, and the rest. *)
Definition getLine (data : string) : string * string :=
  match string_cut nl data with
  | None => (trim_right data, EmptyString)
  | Some (line, rest) =>
      (trim_right (default line (strip_suffix (String carriage_return EmptyString) line)), rest)
  end.

Fixpoint contains (c : ascii) (s : string) : bool :=
  match s with EmptyString => false | String d r => Ascii.eqb c d || contains c r end.

(** The loop over the headers: were there any, and what follows them. *)
Fixpoint pem_headers (fuel : nat) (some : bool) (rest : string) : option (bool * string) :=
  match fuel, rest with
  | S fuel, String _ _ =>
      let '(line, next) := getLine rest in
      if contains ":" line then pem_headers fuel true next else Some (some, rest)
  | _, _ => None
  end.

(** The body of the block and what follows [pemEnd]. *)
Definition pem_body (some_headers : bool) (rest : string) : option (string * string) :=
  match (if some_headers then None else strip_prefix pemEnd1 rest) with
  | Some trailer => Some (EmptyString, trailer)
  | None => string_cut pemEnd rest
  end.

(** The end of the block: the type again, dashes, and nothing else on the line. *)
Definition pem_trailer (typ trailer : string) : option string :=
  r ← strip_prefix (typ +++ dashes) trailer;
  let '(line, rest) := getLine r in
  if line =?s EmptyString then Some rest else None.

Definition blank_free (s : string) : string :=
  string_filter (fun c => negb (Ascii.eqb c " ") && negb (Ascii.eqb c tab)) s.

(** The block that begins after its headers, and what follows it. *)
Definition pem_block (typ : string) (some_headers : bool) (rest : string) : option (Block * string) :=
  '(body, trailer) ← pem_body some_headers rest;
  rest' ← pem_trailer typ trailer;
  bytes ← base64_Decode (blank_free body);
  Some (mkBlock typ bytes, rest').

(** Where the text of the next block may start: after [pemStart]. *)
Definition pem_start (data : string) : option string :=
  match strip_prefix pemStart1 data with
  | Some r => Some r
  | None => snd <$> string_cut pemStart data
  end.

(** [decodeError] starts over after what looked like the start of a block. *)
Fixpoint pem_decode (fuel : nat) (data : string) : option Block * string :=
  match fuel with
  | O => (None, data)
  | S fuel =>
      let decodeError rest :=
        match pem_decode fuel rest with
        | (Some b, rest) => (Some b, rest)
        | (None, _) => (None, data)
        end in
      match pem_start data with
      | None => (None, data)
      | Some rest =>
          let '(typeLine, rest) := getLine rest in
          match strip_suffix dashes typeLine with
          | None => decodeError rest
          | Some typ =>
              match pem_headers (S (String.length rest)) false rest with
              | None => (None, data)
              | Some (some, rest) =>
                  match pem_block typ some rest with
                  | Some (b, rest) => (Some b, rest)
                  | None => decodeError rest
                  end
              end
          end
      end
  end.

(** Every attempt begins on a shorter text. *)
Definition Decode (data : string) : option Block * string := pem_decode (S (String.length data)) data.

(** ** Lemmas on texts *)

Fixpoint string_all (p : ascii -> bool) (s : string) : bool :=
  match s with EmptyString => true | String c r => p c && string_all p r end.

Lemma string_all_app p a b : string_all p (a +++ b) = string_all p a && string_all p b.
Proof. induction a as [|c a IH]; [done|]. rewrite string_app_cons. cbn [string_all]. by rewrite IH, andb_assoc. Qed.

Lemma string_all_weaken (p q : ascii -> bool) s :
  (forall c, p c = true -> q c = true) -> string_all p s = true -> string_all q s = true.
Proof. intros Hpq. induction s as [|c s IH]; [done|]. cbn [string_all]. intros [Hc Hs]%andb_prop. by rewrite (Hpq c Hc), IH. Qed.

Lemma string_filter_all p s : string_all p s = true -> string_filter p s = s.
Proof. induction s as [|c s IH]; [done|]. cbn [string_all string_filter]. intros [-> Hs]%andb_prop. by rewrite IH. Qed.

Lemma contains_all c s : contains c s = negb (string_all (fun d => negb (Ascii.eqb c d)) s).
Proof. induction s as [|d s IH]; [done|]. cbn [contains string_all]. rewrite IH. by destruct (Ascii.eqb c d), (string_all _ s). Qed.

Lemma strip_prefix_app p s : strip_prefix p (p +++ s) = Some s.
Proof. induction p as [|c p IH]; [done|]. rewrite string_app_cons. cbn [strip_prefix]. by rewrite Ascii.eqb_refl. Qed.

Lemma string_rev_onto_app s acc : string_rev_onto s acc = string_rev s +++ acc.
Proof.
  unfold string_rev. revert acc. induction s as [|c s IH]; intros acc; [done|]. cbn [string_rev_onto].
  rewrite IH, (IH (String c EmptyString)), <- string_app_assoc. done.
Qed.

Lemma string_rev_cons c s : string_rev (String c s) = string_rev s +++ String c EmptyString.
Proof. apply (string_rev_onto_app s (String c EmptyString)). Qed.

Lemma string_rev_app a b : string_rev (a +++ b) = string_rev b +++ string_rev a.
Proof.
  induction a as [|c a IH]; [by rewrite string_app_empty_r|].
  rewrite string_app_cons, !string_rev_cons, IH. symmetry. apply string_app_assoc.
Qed.

Lemma string_rev_rev s : string_rev (string_rev s) = s.
Proof. induction s as [|c s IH]; [done|]. by rewrite string_rev_cons, string_rev_app, IH. Qed.

Lemma string_all_rev p s : string_all p (string_rev s) = string_all p s.
Proof.
  induction s as [|c s IH]; [done|]. rewrite string_rev_cons, string_all_app, IH. cbn [string_all].
  by rewrite andb_true_r, andb_comm.
Qed.

Lemma strip_suffix_app a b : strip_suffix b (a +++ b) = Some a.
Proof. unfold strip_suffix. rewrite string_rev_app, strip_prefix_app. cbn. by rewrite string_rev_rev. Qed.

Lemma cut_line line rest :
  string_all (fun c => negb (Ascii.eqb newline c)) line = true -> string_cut nl (line +++ nl +++ rest) = Some (line, rest).
Proof.
  induction line as [|c line IH]; [done|]. rewrite string_app_cons. cbn [string_all]. intros [Hc Hl]%andb_prop.
  apply negb_true_iff in Hc. cbn [string_cut]. unfold nl at 1. cbn [strip_prefix]. by rewrite Hc, (IH Hl).
Qed.

(** A line that ends in a character that is not trimmed. *)
Lemma trim_right_dash line : trim_right (line +++ "-") = line +++ "-".
Proof.
  unfold trim_right. rewrite string_rev_app. change (string_rev "-" +++ string_rev line) with (String "-" (string_rev line)).
  change (drop_blanks (String "-" (string_rev line))) with (String "-" (string_rev line)).
  by rewrite string_rev_cons, string_rev_rev.
Qed.

Lemma strip_return_dash line : strip_suffix (String carriage_return EmptyString) (line +++ "-") = None.
Proof. unfold strip_suffix. by rewrite string_rev_app. Qed.

Lemma getLine_line line rest :
  string_all (fun c => negb (Ascii.eqb newline c)) line = true ->
  getLine (line +++ "-" +++ nl +++ rest) = (line +++ "-", rest).
Proof.
  intros Hl. unfold getLine. rewrite string_app_assoc, cut_line by (by rewrite string_all_app, Hl).
  rewrite strip_return_dash. cbn [default]. by rewrite trim_right_dash.
Qed.

Lemma string_all_trim p s : string_all p s = true -> string_all p (trim_right s) = true.
Proof.
  intros Hs. unfold trim_right. rewrite string_all_rev. rewrite <- string_all_rev in Hs. revert Hs.
  induction (string_rev s) as [|c r IH]; [done|]. cbn [string_all drop_blanks]. intros [Hc Hr]%andb_prop.
  destruct (_ || _); [by apply IH|]. cbn [string_all]. by rewrite Hc, Hr.
Qed.

Lemma strip_prefix_all p a s r : strip_prefix a s = Some r -> string_all p s = true -> string_all p r = true.
Proof.
  revert s. induction a as [|c a IH]; intros s; cbn [strip_prefix]; [by intros [= ->]|]. destruct s as [|d s]; [done|].
  destruct (Ascii.eqb c d); [|done]. intros Hs. cbn [string_all]. intros [_ Hp]%andb_prop. by eapply IH.
Qed.

Lemma string_cut_all p sep s a b : string_cut sep s = Some (a, b) -> string_all p s = true -> string_all p a = true.
Proof.
  revert a. induction s as [|c s IH]; intros a; cbn [string_cut].
  { destruct (strip_prefix _ _); [by intros [= <- _]|done]. }
  destruct (strip_prefix _ _); [by intros [= <- _]|]. destruct (string_cut sep s) as [[a' b']|]; [|done].
  intros [= <- <-]. cbn [string_all]. intros [-> Hs]%andb_prop. by apply IH.
Qed.

Lemma getLine_all p data : string_all p data = true -> string_all p (getLine data).1 = true.
Proof.
  intros Hd. unfold getLine. destruct (string_cut nl data) as [[line rest]|] eqn:Hc; cbn [fst]; [|by apply string_all_trim].
  apply string_all_trim. eapply string_cut_all in Hc; [|exact Hd]. unfold strip_suffix.
  destruct (strip_prefix _ (string_rev line)) as [r|] eqn:Hr; cbn; [|done]. rewrite string_all_rev.
  eapply strip_prefix_all; [exact Hr|]. by rewrite string_all_rev.
Qed.

(** ** Base64 *)

Definition base64_text (c : ascii) : bool :=
  Ascii.eqb c "=" || match base64_value c with Some _ => true | None => false end.

(** None of the characters that mean something in a PEM file is one of base64. *)
Definition plain_char (c : ascii) : bool :=
  negb (Ascii.eqb c newline) && negb (Ascii.eqb c carriage_return) && negb (Ascii.eqb c " ") &&
  negb (Ascii.eqb c tab) && negb (Ascii.eqb c ":") && negb (Ascii.eqb c "-").

Lemma base64_text_plain c : base64_text c = true -> plain_char c = true.
Proof. destruct c as [[] [] [] [] [] [] [] []]; vm_compute; congruence. Qed.

Lemma base64_text_char n : (n < 64)%N -> base64_text (base64_char n) = true.
Proof. intros Hn. unfold base64_text. rewrite (base64_value_char n Hn). apply orb_true_r. Qed.

(** Induction by groups of three bytes. *)
Lemma string_three (P : string -> Prop) :
  P EmptyString -> (forall a, P (String a EmptyString)) -> (forall a b, P (String a (String b EmptyString))) ->
  (forall a b c r, P r -> P (String a (String b (String c r)))) -> forall s, P s.
Proof.
  intros H0 H1 H2 H3. fix IH 1. intros [|a [|b [|c r]]]; [exact H0|apply H1|apply H2|apply H3, IH].
Qed.

#[local] Ltac Zify.zify_post_hook ::= Z.to_euclidean_division_equations.

Ltac byte_bounds :=
  repeat match goal with a : ascii |- _ => lazymatch goal with
    | _ : (N_of_ascii a < 256)%N |- _ => fail
    | _ => pose proof (ascii_bound a) end end.

Lemma EncodeToString_text s : string_all base64_text (EncodeToString s) = true.
Proof.
  induction s as [|a|a b|a b c r IH] using string_three; [done|..]; byte_bounds;
    cbn [EncodeToString string_all]; rewrite !base64_text_char by lia; [done..|]. by rewrite IH.
Qed.

Lemma byte_of_code a n : (n mod 256 = N_of_ascii a)%N -> byte_of n = a.
Proof. intros Hn. unfold byte_of. rewrite Hn. apply ascii_N_embedding. Qed.

Lemma base64_char_not_pad n : (n < 64)%N -> Ascii.eqb (base64_char n) "=" = false.
Proof. intros Hn. apply Ascii.eqb_neq. by apply base64_char_pad. Qed.

(** What was encoded is decoded. *)
Lemma base64_quanta_encode s : base64_quanta (EncodeToString s) = Some s.
Proof.
  induction s as [|a|a b|a b c r IH] using string_three; [done|..]; byte_bounds;
    cbn [EncodeToString base64_quanta]; cbv zeta; rewrite !base64_value_char by lia; cbn [mbind option_bind].
  - do 2 f_equal. apply byte_of_code. lia.
  - rewrite !base64_char_not_pad by lia. cbn. do 2 f_equal; [apply byte_of_code; lia|].
    f_equal. apply byte_of_code. lia.
  - rewrite !base64_char_not_pad, IH by lia. cbn [mbind option_bind].
    do 2 f_equal; [apply byte_of_code; lia|]. f_equal; [apply byte_of_code; lia|]. f_equal. apply byte_of_code. lia.
Qed.

(** ** A block that was encoded is decoded *)

Lemma plain_char_not c d :
  plain_char c = true -> d ∈ [newline; carriage_return; " "%char; tab; ":"%char; "-"%char] -> Ascii.eqb d c = false.
Proof.
  unfold plain_char. intros Hc Hd. apply Ascii.eqb_neq. intros ->. revert Hc.
  rewrite !elem_of_cons, elem_of_nil in Hd. by destruct Hd as [->|[->|[->|[->|[->|[->|[]]]]]]].
Qed.

Lemma strip_prefix_ne a p c s : Ascii.eqb a c = false -> strip_prefix (String a p) (String c s) = None.
Proof. intros Hc. cbn [strip_prefix]. by rewrite Hc. Qed.

Lemma string_cut_step sep c s a b :
  strip_prefix sep (String c s) = None -> string_cut sep s = Some (a, b) -> string_cut sep (String c s) = Some (String c a, b).
Proof. intros Hp Hs. cbn [string_cut]. by rewrite Hp, Hs. Qed.

Definition not_line_end (c : ascii) : bool := negb (Ascii.eqb c newline) && negb (Ascii.eqb c carriage_return).
Definition not_blank (c : ascii) : bool := negb (Ascii.eqb c " ") && negb (Ascii.eqb c tab).

Lemma plain_not_line_end c : plain_char c = true -> not_line_end c = true.
Proof. unfold plain_char, not_line_end. destruct (Ascii.eqb c newline), (Ascii.eqb c carriage_return); done. Qed.

Lemma plain_not_blank c : plain_char c = true -> not_blank c = true.
Proof. intros Hc. unfold not_blank. rewrite !(Ascii.eqb_sym c), !(plain_char_not c) by (done || set_solver). done. Qed.

(** The body ends before the first [pemEnd], and holds the text in lines. *)
Lemma cut_lines s t : forall room,
  1 <= room <= pemLineLength -> string_all plain_char s = true -> (s = EmptyString -> room <> pemLineLength) ->
  exists body, string_cut pemEnd (lineBreaker room s +++ pemEnd1 +++ t) = Some (body, t) /\
    string_filter not_line_end body = s /\ string_all not_blank body = true.
Proof.
  induction s as [|c s IH]; intros room Hroom Hall Hne.
  { exists EmptyString. split; [|done]. cbn [lineBreaker].
    destruct (Nat.eqb room pemLineLength) eqn:E; [apply Nat.eqb_eq in E; by destruct (Hne eq_refl)|].
    change (nl +++ pemEnd1 +++ t) with (pemEnd +++ t). unfold pemEnd. cbn. done. }
  cbn [string_all] in Hall. apply andb_prop in Hall as [Hc Hs].
  pose proof (plain_char_not c newline Hc ltac:(set_solver)) as Hnl.
  assert (forall body rest, string_cut pemEnd rest = Some (body, t) -> string_filter not_line_end body = s ->
            string_all not_blank body = true ->
            exists b, string_cut pemEnd (String c rest) = Some (b, t) /\ string_filter not_line_end b = String c s /\
              string_all not_blank b = true) as Hstep.
  { intros body rest Hcut Hf Hb. exists (String c body). split; [by apply string_cut_step; [apply strip_prefix_ne|]|].
    cbn [string_filter string_all]. by rewrite (plain_not_line_end c Hc), (plain_not_blank c Hc), Hf. }
  destruct room as [|[|room]]; [lia| |]; cbn [lineBreaker]; rewrite !string_app_cons.
  - destruct s as [|d s].
    { apply (Hstep EmptyString); [|done|done]. cbn. done. }
    destruct (IH pemLineLength) as (body & Hcut & Hf & Hb); [unfold pemLineLength; lia|done|done|].
    apply (Hstep (String newline body)); [|done|done]. apply string_cut_step; [|exact Hcut].
    cbn [string_all] in Hs. apply andb_prop in Hs as [Hd _]. pose proof (plain_char_not d "-" Hd ltac:(set_solver)) as Hdash.
    cbn [lineBreaker pemLineLength]. rewrite string_app_cons.
    change pemEnd with (String newline (String "-" "----END ")). cbn [strip_prefix]. by rewrite Ascii.eqb_refl, Hdash.
  - destruct (IH (S room)) as (body & Hcut & Hf & Hb); [lia|done|intros _; lia|]. by apply (Hstep body).
Qed.

Lemma lineBreaker_all p room s : p newline = true -> string_all p s = true -> string_all p (lineBreaker room s) = true.
Proof.
  intros Hn. revert room. induction s as [|c s IH]; intros room; cbn [lineBreaker string_all].
  { destruct (Nat.eqb _ _); [done|]. cbn. by rewrite Hn. }
  intros [Hc Hs]%andb_prop. destruct room as [|[|room]]; cbn [string_all]; rewrite Hc, ?Hn; cbn; by apply IH.
Qed.

(** A type as the constants of [x509.go] are. *)
Definition plain_type (typ : string) : bool :=
  string_all (fun c => negb (Ascii.eqb newline c) && negb (Ascii.eqb ":" c)) typ.

Lemma pem_headers_none fuel rest :
  contains ":" rest = false -> rest <> EmptyString -> pem_headers (S fuel) false rest = Some (false, rest).
Proof.
  intros Hc Hne. cbn [pem_headers]. destruct rest as [|c r]; [done|]. destruct (getLine (String c r)) as [line next] eqn:Hl.
  assert (contains ":" line = false) as ->; [|done]. rewrite contains_all in *. apply negb_false_iff in Hc.
  apply getLine_all in Hc. rewrite Hl in Hc. cbn [fst] in Hc. by rewrite Hc.
Qed.

Lemma pem_body_encoded s t :
  exists body, pem_body false (lineBreaker pemLineLength (EncodeToString s) +++ pemEnd1 +++ t) = Some (body, t) /\
    base64_Decode (blank_free body) = Some s.
Proof.
  pose proof (string_all_weaken _ _ _ base64_text_plain (EncodeToString_text s)) as Hp.
  unfold base64_Decode, blank_free. change (fun c => negb (Ascii.eqb c newline) && negb (Ascii.eqb c carriage_return)) with not_line_end.
  change (fun c => negb (Ascii.eqb c " ") && negb (Ascii.eqb c tab)) with not_blank.
  pose proof (base64_quanta_encode s) as Hq. destruct (EncodeToString s) as [|c r].
  - exists EmptyString. split; [cbn; done|exact Hq].
  - destruct (cut_lines (String c r) t pemLineLength) as (body & Hcut & Hf & Hb); [unfold pemLineLength; lia|done|done|].
    exists body. split.
    + unfold pem_body. cbn [lineBreaker pemLineLength]. rewrite string_app_cons. cbn [string_all] in Hp. apply andb_prop in Hp as [Hc _].
      pose proof (plain_char_not c "-" Hc ltac:(set_solver)) as Hdash. unfold pemEnd1. by rewrite (strip_prefix_ne "-").
    + rewrite (string_filter_all not_blank) by done. by rewrite Hf.
Qed.

Lemma pem_trailer_encoded typ : pem_trailer typ (typ +++ dashes +++ nl) = Some EmptyString.
Proof. unfold pem_trailer. rewrite string_app_assoc, strip_prefix_app. reflexivity. Qed.

Lemma EncodeToMemory_parts typ bytes :
  EncodeToMemory (mkBlock typ bytes) =
  pemStart1 +++ (typ +++ "----") +++ "-" +++ nl +++
    (lineBreaker pemLineLength (EncodeToString bytes) +++ pemEnd1 +++ typ +++ dashes +++ nl).
Proof. unfold EncodeToMemory. cbn [block_Type block_Bytes]. by rewrite <- !string_app_assoc. Qed.

(** The text after the line of the type is not empty, and has no header. *)
Lemma encoded_no_header typ bytes :
  plain_type typ = true ->
  let rest := lineBreaker pemLineLength (EncodeToString bytes) +++ pemEnd1 +++ typ +++ dashes +++ nl in
  contains ":" rest = false /\ rest <> EmptyString.
Proof.
  intros Ht rest. split.
  - rewrite contains_all. apply negb_false_iff. unfold rest. rewrite !string_all_app, lineBreaker_all; [|done|].
    + assert (string_all (fun d => negb (Ascii.eqb ":" d)) typ = true) as ->; [|done].
      eapply string_all_weaken; [|exact Ht]. by intros c [_ Hc]%andb_prop.
    + eapply string_all_weaken; [|apply EncodeToString_text]. intros c Hc%base64_text_plain.
      by rewrite (plain_char_not c ":") by (done || set_solver).
  - unfold rest. by destruct (lineBreaker _ _).
Qed.

Lemma Decode_encoded typ bytes :
  plain_type typ = true -> Decode (EncodeToMemory (mkBlock typ bytes)) = (Some (mkBlock typ bytes), EmptyString).
Proof.
  intros Ht. unfold Decode. set (fuel := String.length _). cbn [pem_decode]. rewrite EncodeToMemory_parts.
  destruct (encoded_no_header typ bytes Ht) as [Hcolon Hne]. destruct (pem_body_encoded bytes (typ +++ dashes +++ nl)) as (body & Hb & Hd).
  set (rest := lineBreaker _ _ +++ _) in *. unfold pem_start. rewrite strip_prefix_app, getLine_line.
  2:{ rewrite string_all_app. apply andb_true_intro. split; [|done]. eapply string_all_weaken; [|exact Ht]. by intros c [Hc _]%andb_prop. }
  rewrite <- string_app_assoc. change ("----" +++ "-") with dashes. rewrite strip_suffix_app, pem_headers_none by done.
  unfold pem_block. rewrite Hb. cbn [mbind option_bind]. rewrite pem_trailer_encoded. cbn [mbind option_bind]. by rewrite Hd.
Qed.

(** ** The bound on attempts *)

Lemma strip_prefix_length p s r : strip_prefix p s = Some r -> String.length s = String.length p + String.length r.
Proof.
  revert s. induction p as [|c p IH]; intros s; cbn [strip_prefix]; [by intros [= ->]|]. destruct s as [|d s]; [done|].
  destruct (Ascii.eqb c d); [|done]. intros Hs. cbn [String.length]. by rewrite (IH s Hs).
Qed.

Lemma string_cut_length sep s a b : string_cut sep s = Some (a, b) -> String.length sep + String.length b <= String.length s.
Proof.
  revert a. induction s as [|c s IH]; intros a; cbn [string_cut].
  { destruct (strip_prefix sep _) eqn:E; [|done]. intros [= _ <-]. apply strip_prefix_length in E. lia. }
  destruct (strip_prefix sep _) eqn:E; [intros [= _ <-]; apply strip_prefix_length in E; lia|].
  destruct (string_cut sep s) as [[a' b']|]; [|done]. intros [= _ <-]. cbn [String.length]. specialize (IH a' eq_refl). lia.
Qed.

Lemma getLine_length data : String.length (getLine data).2 <= String.length data - 1.
Proof.
  unfold getLine. destruct (string_cut nl data) as [[line rest]|] eqn:E; cbn [snd]; [|cbn; lia].
  apply string_cut_length in E. cbn in E. lia.
Qed.

Lemma pem_headers_length fuel some rest s r : pem_headers fuel some rest = Some (s, r) -> String.length r <= String.length rest.
Proof.
  revert some rest. induction fuel as [|fuel IH]; intros some rest; cbn [pem_headers]; [done|]. destruct rest as [|c t]; [done|].
  pose proof (getLine_length (String c t)) as Hl. destruct (getLine (String c t)) as [line next]. cbn [snd] in Hl.
  destruct (contains ":" line); [intros Hr%IH; lia|by intros [= _ <-]].
Qed.

Lemma pem_start_length data rest : pem_start data = Some rest -> String.length rest < String.length data.
Proof.
  unfold pem_start. destruct (strip_prefix pemStart1 data) as [r|] eqn:E.
  - intros [= <-]. apply strip_prefix_length in E. cbn in E. lia.
  - destruct (string_cut pemStart data) as [[a b]|] eqn:E2; [|done]. intros [= <-]. apply string_cut_length in E2. change (String.length pemStart) with 12 in E2. lia.
Qed.

(** More attempts than [Decode] makes change nothing. *)
Lemma pem_decode_enough n m data :
  String.length data < n -> String.length data < m -> pem_decode n data = pem_decode m data.
Proof.
  revert m data. induction n as [|n IH]; intros [|m] data Hn Hm; try lia. cbn [pem_decode].
  destruct (pem_start data) as [rest|] eqn:Hs; [|done]. apply pem_start_length in Hs.
  pose proof (getLine_length rest) as Hl. destruct (getLine rest) as [typeLine rest1]. cbn [snd] in Hl.
  destruct (strip_suffix dashes typeLine) as [typ|]; [|by rewrite (IH m) by lia].
  destruct (pem_headers _ false rest1) as [[some rest2]|] eqn:Hh; [|done]. apply pem_headers_length in Hh.
  destruct (pem_block typ some rest2) as [[b r]|]; [done|]. by rewrite (IH m) by lia.
Qed.
