(* ===== verification/Errors.v ===== *)
(** * Errors

    The error values of the broker ([pkg/errors], the sentinel errors of the
    other packages, the API server's errors) and how they become HTTP statuses
    and Open Service Broker error types ([pkg/broker/util.go],
    [pkg/api/types.go]). *)

From S2P Require Import Prelude.

Local Open Scope broker_scope.

(** Reasons an API server gives for refusing a request, as far as the code
    tells them apart ([k8s_errors.IsNotFound], [k8s_errors.IsAlreadyExists]). *)
Inductive status_reason : Type :=
  | ReasonNotFound
  | ReasonAlreadyExists
  | ReasonOther (m : string).

Inductive error : Type :=
  (* pkg/errors *)
  | configurationError (message : string)
  | queryError (message : string)
  | parameterError (message : string)
  | validationError (message : string)
  | asyncRequiredError (message : string)
  | resourceConflictError (message : string)
  | resourceNotFoundError (message : string)
  | resourceGoneError (message : string)
  (* pkg/provisioners/readiness.go *)
  | conditionUnreadyError (message : string)
  (* fmt.Errorf("%w: ...", sentinel, ...) *)
  | wrappedError (sentinel : string) (message : string)
  (* an error of the API server *)
  | apiError (reason : status_reason) (message : string)
  (* any other error value *)
  | plainError (message : string).

#[export] Instance status_reason_eq_dec : EqDecision status_reason.
Proof. solve_decision. Defined.

#[export] Instance error_eq_dec : EqDecision error.
Proof. solve_decision. Defined.

(** [err.Error()] *)
Definition Error (e : error) : string :=
  match e with
  | configurationError m | queryError m | parameterError m | validationError m
  | asyncRequiredError m | resourceConflictError m | resourceNotFoundError m
  | resourceGoneError m | conditionUnreadyError m | apiError _ m | plainError m => m
  | wrappedError s m => s +++ ": " +++ m
  end.

Definition NewConfigurationError := configurationError.
Definition NewQueryError := queryError.
Definition NewParameterError := parameterError.
Definition NewValidationError := validationError.
Definition NewAsyncRequiredError := asyncRequiredError.
Definition NewResourceConflictError := resourceConflictError.
Definition NewResourceNotFoundError := resourceNotFoundError.
Definition NewResourceGoneError := resourceGoneError.

Definition IsConfigurationError (e : error) : bool :=
  match e with configurationError _ => true | _ => false end.
Definition IsQueryError (e : error) : bool :=
  match e with queryError _ => true | _ => false end.
Definition IsParameterError (e : error) : bool :=
  match e with parameterError _ => true | _ => false end.
Definition IsValidationError (e : error) : bool :=
  match e with validationError _ => true | _ => false end.
Definition IsAsyncRequiredError (e : error) : bool :=
  match e with asyncRequiredError _ => true | _ => false end.
Definition IsResourceConflictError (e : error) : bool :=
  match e with resourceConflictError _ => true | _ => false end.
Definition IsResourceNotFoundError (e : error) : bool :=
  match e with resourceNotFoundError _ => true | _ => false end.
Definition IsResourceGoneError (e : error) : bool :=
  match e with resourceGoneError _ => true | _ => false end.

(** [k8s_errors.IsNotFound] and [k8s_errors.IsAlreadyExists]. *)
Definition IsNotFound (e : error) : bool :=
  match e with apiError ReasonNotFound _ => true | _ => false end.
Definition IsAlreadyExists (e : error) : bool :=
  match e with apiError ReasonAlreadyExists _ => true | _ => false end.

(** Sentinel errors. *)
Definition ErrUnexpected : string := "unexpected error".
Definition ErrPermsission : string := "permission error".
Definition ErrOperatorExists : string := "operation exists".
Definition ErrOperationDoesNotExist : string := "operation doesn't exist".
Definition ErrRegistryEntryMissing : string := "registry entry missing".
Definition ErrResourceAttributeMissing : string := "resource attibute missing".
Definition ErrResourceReferenceMissing : string := "resource reference missing".
Definition ErrUndefinedType : string := "undefined type".
Definition ErrConfigurationInvalid : string := "configuration is invalid".
Definition ErrTimeout : string := "process timed out".
Definition ErrRequestMalformed : string := "request malformed".
Definition ErrRequestUnsupported : string := "request unsupported".
Definition ErrServiceUnready : string := "service not ready".
Definition ErrUnauthorized : string := "request is unauthorized".
Definition ErrInternalError : string := "internal error".

(** ** Translation to the API *)

(** [api.ErrorType] *)
Inductive ErrorType : Type :=
  | ErrorAsyncRequired
  | ErrorConcurrencyError
  | ErrorRequiresApp
  | ErrorMaintenanceInfoConflict
  | ErrorInternalServerError
  | ErrorConfigurationError
  | ErrorQueryError
  | ErrorParameterError
  | ErrorValidationError
  | ErrorResourceConflict
  | ErrorResourceNotFound
  | ErrorResourceGone.

#[export] Instance ErrorType_eq_dec : EqDecision ErrorType.
Proof. solve_decision. Defined.

Definition ErrorType_string (t : ErrorType) : string :=
  match t with
  | ErrorAsyncRequired => "AsyncRequired"
  | ErrorConcurrencyError => "ConcurrencyError"
  | ErrorRequiresApp => "RequiresApp"
  | ErrorMaintenanceInfoConflict => "MaintenanceInfoConflict"
  | ErrorInternalServerError => "InternalServerError"
  | ErrorConfigurationError => "ConfigurationError"
  | ErrorQueryError => "QueryError"
  | ErrorParameterError => "ParameterError"
  | ErrorValidationError => "ValidationError"
  | ErrorResourceConflict => "ResourceConflict"
  | ErrorResourceNotFound => "ResourceNotFound"
  | ErrorResourceGone => "ResourceGone"
  end.

Definition StatusOK : Z := 200.
Definition StatusCreated : Z := 201.
Definition StatusAccepted : Z := 202.
Definition StatusBadRequest : Z := 400.
Definition StatusUnauthorized : Z := 401.
Definition StatusNotFound : Z := 404.
Definition StatusConflict : Z := 409.
Definition StatusGone : Z := 410.
Definition StatusPreconditionFailed : Z := 412.
Definition StatusUnprocessableEntity : Z := 422.
Definition StatusInternalServerError : Z := 500.
Definition StatusServiceUnavailable : Z := 503.

(** translateError translates from an internal error type to a HTTP status
    code and an API error type. *)
Definition translateError (err : error) : Z * ErrorType :=
  if IsConfigurationError err then (StatusBadRequest, ErrorConfigurationError)
  else if IsQueryError err then (StatusBadRequest, ErrorQueryError)
  else if IsParameterError err then (StatusBadRequest, ErrorParameterError)
  else if IsValidationError err then (StatusBadRequest, ErrorValidationError)
  else if IsAsyncRequiredError err then (StatusUnprocessableEntity, ErrorAsyncRequired)
  else if IsResourceConflictError err then (StatusConflict, ErrorResourceConflict)
  else if IsResourceNotFoundError err then (StatusNotFound, ErrorResourceNotFound)
  else if IsResourceGoneError err then (StatusGone, ErrorResourceGone)
  else (StatusInternalServerError, ErrorInternalServerError).

(** ** Lemmas *)

(** Exactly one classifier recognises an error built by the package, so the
    order of the cases of [translateError] does not matter. *)
Lemma error_classes_disjoint (e : error) :
  length (base.filter (fun b => b = true)
    [IsConfigurationError e; IsQueryError e; IsParameterError e; IsValidationError e;
     IsAsyncRequiredError e; IsResourceConflictError e; IsResourceNotFoundError e;
     IsResourceGoneError e]) <= 1.
Proof. destruct e; vm_compute; lia. Qed.

Lemma translateError_range (e : error) :
  (400 <= (translateError e).1 <= 500)%Z.
Proof. destruct e; vm_compute; split; congruence. Qed.
