(* ===== verification/Types.v ===== *)
(** * The broker's configuration resource ([pkg/apis/servicebroker/v1alpha1])

    The custom resource that configures the broker, its lookups ([helpers.go])
    and the Open Service Broker catalog it is converted to ([conversion.go],
    [pkg/api/catalog_types.go], module [Api]). *)

From S2P Require Import Prelude Errors.

Local Open Scope broker_scope.

(** [runtime.RawExtension]: [Raw] is the text of a JSON value, nil when absent. *)
Record RawExtension : Type := mkRaw { Raw : option string }.

#[export] Instance RawExtension_eq_dec : EqDecision RawExtension.
Proof. solve_decision. Defined.

(** ** Annotations *)

Definition labelBase : string := "servicebroker.couchbase.com".
Definition VersionAnnotaiton : string := labelBase +++ "/version".
Definition ResourceAnnotation : string := labelBase +++ "/resource".

(** ** Catalog *)

Record InputParamtersSchema : Type := mkInputParamtersSchema {
  schema_Parameters : option RawExtension;
}.

Record ServiceInstanceSchema : Type := mkServiceInstanceSchema {
  instance_Create : option InputParamtersSchema;
  instance_Update : option InputParamtersSchema;
}.

Record ServiceBindingSchema : Type := mkServiceBindingSchema {
  binding_Create : option InputParamtersSchema;
}.

Record Schemas : Type := mkSchemas {
  schemas_ServiceInstance : option ServiceInstanceSchema;
  schemas_ServiceBinding : option ServiceBindingSchema;
}.

Record ServicePlan : Type := mkServicePlan {
  plan_ID : string;
  plan_Name : string;
  plan_Description : string;
  plan_Metadata : option RawExtension;
  plan_Free : bool;
  plan_Bindable : option bool;
  plan_Schemas : option Schemas;
}.

Record DashboardClient : Type := mkDashboardClient {
  client_ID : string;
  client_Secret : string;
  client_RedirectedURI : string;
}.

Record ServiceOffering : Type := mkServiceOffering {
  offering_Name : string;
  offering_ID : string;
  offering_Description : string;
  offering_Tags : list string;
  offering_Requires : list string;
  offering_Bindable : bool;
  offering_Metadata : option RawExtension;
  offering_DashboardClient : option DashboardClient;
  offering_PlanUpdatable : bool;
  offering_Plans : list ServicePlan;
}.

Record ServiceCatalog : Type := mkServiceCatalog {
  catalog_Services : list ServiceOffering;
}.

(** ** Templates and bindings *)

Record ConfigurationTemplate : Type := mkConfigurationTemplate {
  template_Name : string;
  template_Template : option RawExtension;
  template_Singleton : bool;
}.

Record RegistryValue : Type := mkRegistryValue {
  value_Name : string;
  value_Value : string;
}.

(** [RegistryScope] is a string in the code; the resource's schema does not
    bind the broker, so any text can be there. *)
Definition RegistryScope : Type := string.
Definition RegistryScopeExplicit : RegistryScope := "Explicit".
Definition RegistryScopeBrokerLocal : RegistryScope := "BrokerLocal".
Definition RegistryScopeInstanceLocal : RegistryScope := "InstanceLocal".

Record ConfigurationReadinessCheckCondition : Type := mkReadinessCondition {
  condition_APIVersion : string;
  condition_Kind : string;
  condition_Namespace : string;
  condition_Name : string;
  condition_Type : string;
  condition_Status : string;
}.

(** [Timeout] is a duration in nanoseconds. *)
Record ConfigurationReadinessCheck : Type := mkReadinessCheck {
  check_Name : string;
  check_Condition : option ConfigurationReadinessCheckCondition;
  check_Timeout : option Z;
}.

Record ServiceBrokerTemplateListStep : Type := mkTemplateListStep {
  step_Name : string;
  step_Templates : list string;
  step_ReadinessChecks : list ConfigurationReadinessCheck;
}.

(** [Steps] is [None] when the slice is nil, which the code distinguishes from
    an empty one. *)
Record ServiceBrokerTemplateList : Type := mkTemplateList {
  list_Registry : list RegistryValue;
  list_Templates : list string;
  list_ReadinessChecks : list ConfigurationReadinessCheck;
  list_Steps : option (list ServiceBrokerTemplateListStep);
}.

Record ConfigurationBinding : Type := mkConfigurationBinding {
  binding_Name : string;
  binding_RegistryScope : RegistryScope;
  binding_RegistryNamespace : string;
  binding_Service : string;
  binding_Plan : string;
  binding_ServiceInstance : ServiceBrokerTemplateList;
  binding_ServiceBinding : option ServiceBrokerTemplateList;
}.

Record ServiceBrokerConfigSpec : Type := mkConfigSpec {
  spec_Catalog : ServiceCatalog;
  spec_Templates : list ConfigurationTemplate;
  spec_Bindings : list ConfigurationBinding;
}.

(** ** Status *)

Definition ConfigurationValid : string := "ConfigurationValid".
Definition ConditionTrue : string := "True".
Definition ConditionFalse : string := "False".

Record ServiceBrokerConfigCondition : Type := mkConfigCondition {
  cond_Type : string;
  cond_Status : string;
  cond_LastTransitionTime : Z;
  cond_Reason : string;
  cond_Message : string;
}.

#[export] Instance ServiceBrokerConfigCondition_eq_dec : EqDecision ServiceBrokerConfigCondition.
Proof. solve_decision. Defined.

(** [Conditions] is compared with a literal slice by [reflect.DeepEqual]. *)
Record ServiceBrokerConfigStatus : Type := mkConfigStatus {
  status_Conditions : list ServiceBrokerConfigCondition;
}.

#[export] Instance ServiceBrokerConfigStatus_eq_dec : EqDecision ServiceBrokerConfigStatus.
Proof. solve_decision. Defined.

(** Of the object's metadata the code reads the name, the namespace and the labels. *)
Record ServiceBrokerConfig : Type := mkConfig {
  config_Name : string;
  config_Namespace : string;
  config_Labels : gmap string string;
  config_Spec : ServiceBrokerConfigSpec;
  config_Status : ServiceBrokerConfigStatus;
}.

Definition services (config : ServiceBrokerConfig) : list ServiceOffering :=
  catalog_Services (spec_Catalog (config_Spec config)).
Definition bindings (config : ServiceBrokerConfig) : list ConfigurationBinding :=
  spec_Bindings (config_Spec config).
Definition templates (config : ServiceBrokerConfig) : list ConfigurationTemplate :=
  spec_Templates (config_Spec config).

(** ** Lookups *)

(** Translates from GUIDs to human readable names used in configuration. *)
Definition GetServiceAndPlanNames (config : ServiceBrokerConfig) (serviceID planID : string)
    : res error (string * string) :=
  match find_first (fun service => offering_ID service =?s serviceID) (services config) with
  | Some service =>
      match find_first (fun plan => plan_ID plan =?s planID) (offering_Plans service) with
      | Some plan => Ok (offering_Name service, plan_Name plan)
      | None => Err (wrappedError ErrResourceReferenceMissing ("unable to locate plan for ID " +++ planID))
      end
  | None => Err (wrappedError ErrResourceReferenceMissing ("unable to locate service for ID " +++ serviceID))
  end.

(** The template bindings associated with a creation request's service and
    plan IDs. *)
Definition GetTemplateBindings (config : ServiceBrokerConfig) (serviceID planID : string)
    : res error ConfigurationBinding :=
  let? names := GetServiceAndPlanNames config serviceID planID in
  let '(service, plan) := names in
  match find_first (fun b => (binding_Service b =?s service) && (binding_Plan b =?s plan)) (bindings config) with
  | Some binding => Ok binding
  | None => Err (wrappedError ErrResourceReferenceMissing
                   ("unable to locate template bindings for service plan " +++ service +++ "/" +++ plan))
  end.

(** ** The catalog of the Open Service Broker API *)

Module Api.

(** [Metadata] and [Parameters] are [interface{}] holding a [*RawExtension],
    which may be a nil pointer. *)
Record InputParamtersSchema : Type := mkInputParamtersSchema {
  schema_Parameters : option RawExtension;
}.

Record ServiceInstanceSchema : Type := mkServiceInstanceSchema {
  instance_Create : option InputParamtersSchema;
  instance_Update : option InputParamtersSchema;
}.

Record ServiceBindingSchema : Type := mkServiceBindingSchema {
  binding_Create : option InputParamtersSchema;
}.

Record Schemas : Type := mkSchemas {
  schemas_ServiceInstance : option ServiceInstanceSchema;
  schemas_ServiceBinding : option ServiceBindingSchema;
}.

Record ServicePlan : Type := mkServicePlan {
  plan_ID : string;
  plan_Name : string;
  plan_Description : string;
  plan_Metadata : option RawExtension;
  plan_Free : bool;
  plan_Bindable : option bool;
  plan_Schemas : option Schemas;
}.

Record DashboardClient : Type := mkDashboardClient {
  client_ID : string;
  client_Secret : string;
  client_RedirectedURI : string;
}.

Record ServiceOffering : Type := mkServiceOffering {
  offering_Name : string;
  offering_ID : string;
  offering_Description : string;
  offering_Tags : list string;
  offering_Requires : list string;
  offering_Bindable : bool;
  offering_Metadata : option RawExtension;
  offering_DashboardClient : option DashboardClient;
  offering_PlanUpdatable : bool;
  offering_Plans : list ServicePlan;
}.

Record ServiceCatalog : Type := mkServiceCatalog {
  catalog_Services : list ServiceOffering;
}.

End Api.

Definition InputParamtersSchema_Convert (i : InputParamtersSchema) : Api.InputParamtersSchema :=
  Api.mkInputParamtersSchema (schema_Parameters i).

Definition ServiceBindingSchema_Convert (i : ServiceBindingSchema) : Api.ServiceBindingSchema :=
  Api.mkServiceBindingSchema (InputParamtersSchema_Convert <$> binding_Create i).

Definition ServiceInstanceSchema_Convert (i : ServiceInstanceSchema) : Api.ServiceInstanceSchema :=
  Api.mkServiceInstanceSchema (InputParamtersSchema_Convert <$> instance_Create i)
    (InputParamtersSchema_Convert <$> instance_Update i).

Definition Schemas_Convert (i : Schemas) : Api.Schemas :=
  Api.mkSchemas (ServiceInstanceSchema_Convert <$> schemas_ServiceInstance i)
    (ServiceBindingSchema_Convert <$> schemas_ServiceBinding i).

Definition ServicePlan_Convert (i : ServicePlan) : Api.ServicePlan :=
  Api.mkServicePlan (plan_ID i) (plan_Name i) (plan_Description i) (plan_Metadata i)
    (plan_Free i) (plan_Bindable i) (Schemas_Convert <$> plan_Schemas i).

Definition DashboardClient_Convert (i : DashboardClient) : Api.DashboardClient :=
  Api.mkDashboardClient (client_ID i) (client_Secret i) (client_RedirectedURI i).

Definition ServiceOffering_Convert (i : ServiceOffering) : Api.ServiceOffering :=
  Api.mkServiceOffering (offering_Name i) (offering_ID i) (offering_Description i)
    (offering_Tags i) (offering_Requires i) (offering_Bindable i) (offering_Metadata i)
    (DashboardClient_Convert <$> offering_DashboardClient i) (offering_PlanUpdatable i)
    (ServicePlan_Convert <$> offering_Plans i).

Definition ServiceCatalog_Convert (i : ServiceCatalog) : Api.ServiceCatalog :=
  Api.mkServiceCatalog (ServiceOffering_Convert <$> catalog_Services i).
