(* ===== verification/Platform.v ===== *)
(** * Effects: the platform the broker runs on

    The broker's effects are calls to things outside its source: the
    Kubernetes API server ([Secrets], the dynamic client, the REST mapper, the
    broker's own configuration resources), the SQL database, the clock, the
    random number generators.  A piece of the program that has effects is a
    [prog]: a tree of such calls.  The calls themselves are a parameter, the
    class [World]; what the theorems rely on is the class [PlatformLaws]. *)

From S2P Require Import Prelude Json Errors Types.
From stdpp Require Import relations.

Local Open Scope broker_scope.

Abbreviation result := (res error).

(** ** Data of the API server *)

(** [corev1.Secret], the attributes the code reads or writes.  [Data] is a Go
    map, [None] when nil. *)
Record Secret : Type := mkSecret {
  secret_Name : string;
  secret_Namespace : string;
  secret_UID : string;
  secret_ResourceVersion : string;
  secret_Labels : gmap string string;
  secret_Annotations : gmap string string;
  secret_Data : option (gmap string string);
}.

#[export] Instance Secret_eq_dec : EqDecision Secret.
Proof. solve_decision. Defined.

(** Reading a nil map is reading an empty one. *)
Definition data_of (s : Secret) : gmap string string := default ∅ (secret_Data s).

Definition secret_key (s : Secret) : string * string := (secret_Namespace s, secret_Name s).

(** [meta.RESTMapping]: the resource to address, and whether it is cluster scoped. *)
Record RESTMapping_t : Type := mkMapping {
  mapping_Resource : string;
  mapping_Root : bool;
}.

(** ** Calls out of the program *)

Inductive event : Type -> Type :=
  (* config.Clients().Kubernetes().CoreV1().Secrets(ns) *)
  | SecretsGet (namespace name : string) : event (result Secret)
  | SecretsCreate (s : Secret) : event (result Secret)
  | SecretsUpdate (s : Secret) : event (result Secret)
  | SecretsDelete (namespace name : string) : event (option error)
  (* config.Clients().RESTMapper() and Dynamic(); no namespace at cluster scope *)
  | RESTMapping (group kind version : string) : event (result RESTMapping_t)
  | DynamicGet (resource : string) (namespace : option string) (name : string) : event (result value)
  | DynamicCreate (resource : string) (namespace : option string) (object : value) : event (result value)
  | DynamicUpdate (resource : string) (namespace : option string) (object : value) : event (result value)
  (* config.Clients().Broker().ServicebrokerV1alpha1().ServiceBrokerConfigs(ns).Update *)
  | ConfigsUpdate (namespace : string) (config : ServiceBrokerConfig) : event (result unit)
  (* the global configuration pointer c.config *)
  | ConfigRead : event (option ServiceBrokerConfig)
  | ConfigWrite (config : option ServiceBrokerConfig) : event unit
  (* its lock c.lock, a sync.RWMutex *)
  | MutexRLock : event unit
  | MutexRUnlock : event unit
  | MutexLock : event unit
  | MutexUnlock : event unit
  (* uuid.New, crypto/rand.Int, petname.Generate *)
  | NewUUID : event string
  | RandInt (limit : Z) : event (result Z)
  | Petname (words : Z) (separator : string) : event string
  (* rand.Reader: the bytes that a function of crypto gets to read *)
  | RandReader : event string
  (* time.Now, and the select of WaitFor: did the deadline fire? *)
  | TimeNow : event Z
  | SelectDone (deadline : Z) : event bool
  (* database/sql *)
  | DbQuery (query : string) (args : list string) : event (result (list (list string)))
  (* the order in which range visits the keys of a map *)
  | RangeMap (keys : list string) : event (list string).

(** Is the call one on secrets that changes them? *)
Definition mutates_secrets {X} (e : event X) : bool :=
  match e with
  | SecretsCreate _ | SecretsUpdate _ | SecretsDelete _ _ => true
  | _ => false
  end.

(** Does the call write an object that was made from a template?  The object
    may be a secret. *)
Definition writes_objects {X} (e : event X) : bool :=
  match e with
  | DynamicCreate _ _ _ | DynamicUpdate _ _ _ => true
  | _ => false
  end.

(** Can the call change the stored secrets? *)
Definition writes_secrets {X} (e : event X) : bool := mutates_secrets e || writes_objects e.

(** The names of the secrets of the registry: those that [registry.Name] makes,
    and that of the directory. *)
Definition registry_name (name : string) : bool :=
  String.prefix "registry-" name || (name =?s "couchbase-service-broker-directory").

(** Does the call change the global configuration? *)
Definition mutates_config {X} (e : event X) : bool :=
  match e with ConfigWrite _ => true | _ => false end.

(** Does the call lock or unlock the global configuration? *)
Definition locks {X} (e : event X) : bool :=
  match e with MutexRLock | MutexRUnlock | MutexLock | MutexUnlock => true | _ => false end.

(** ** Programs *)

(** How a program stops without a result: a Go panic, or a bound of the model
    on a loop that the code does not bound. *)
Inductive halt : Type :=
  | Panic (message : string)
  | OutOfFuel.

Inductive prog (A : Type) : Type :=
  | Ret (a : A)
  | Halt (h : halt)
  | Vis {X : Type} (e : event X) (k : X -> prog A)
  | Go (t : prog unit) (k : prog A).       (* go t() *)
Arguments Ret {A} a.
Arguments Halt {A} h.
Arguments Vis {A X} e k.
Arguments Go {A} t k.

Fixpoint bind {A B} (p : prog A) (k : A -> prog B) : prog B :=
  match p with
  | Ret a => k a
  | Halt h => Halt h
  | Vis e k' => Vis e (fun x => bind (k' x) k)
  | Go t p => Go t (bind p k)
  end.

Definition call {X} (e : event X) : prog X := Vis e Ret.
Definition go (t : prog unit) : prog unit := Go t (Ret tt).

Notation "x <- p ;; k" := (bind p (fun x => k))
  (at level 20, p at level 99, k at level 200) : broker_scope.
Notation "' x <- p ;; k" := (bind p (fun x => k))
  (at level 20, x pattern, p at level 99, k at level 200) : broker_scope.

(** [defer d(); p]: [d] runs when [p] returns, and when it panics. *)
Fixpoint defer {A : Type} (d : prog unit) (p : prog A) : prog A :=
  match p with
  | Ret a => bind d (fun _ => Ret a)
  | Halt h => bind d (fun _ => Halt h)
  | Vis e k => Vis e (fun x => defer d (k x))
  | Go t p => Go t (defer d p)
  end.

(** [x, err := p(); if err != nil { return err }] *)
Definition try_bind {A B} (p : prog (result A)) (k : A -> prog (result B)) : prog (result B) :=
  r <- p ;; match r with Ok a => k a | Err e => Ret (Err e) end.

Notation "x <-? p ;; k" := (try_bind p (fun x => k))
  (at level 20, p at level 99, k at level 200) : broker_scope.
Notation "' x <-? p ;; k" := (try_bind p (fun x => k))
  (at level 20, x pattern, p at level 99, k at level 200) : broker_scope.

Definition nil_dereference {A} : prog A :=
  Halt (Panic "invalid memory address or nil pointer dereference").

(** The global configuration, dereferenced. *)
Definition Config : prog ServiceBrokerConfig :=
  c <- call ConfigRead ;;
  match c with
  | Some c => Ret c
  | None => nil_dereference
  end.

(** ** Worlds and runs *)

Class World (W : Type) : Type := perform : forall {X : Type}, event X -> W -> X * W.

Section Run.
Context {W : Type} `{World W}.

(** The world and the goroutines that have been started. *)
Record sys : Type := mkSys { world : W; spawned : list (prog unit) }.

Definition set_world (s : sys) (w : W) : sys := mkSys w (spawned s).

Inductive outcome (A : Type) : Type :=
  | Done (a : A)
  | Halted (h : halt).
#[global] Arguments Done {A} a.
#[global] Arguments Halted {A} h.

(** Runs a program without interruption; the goroutines it starts wait. *)
Fixpoint run {A} (p : prog A) (s : sys) : outcome A * sys :=
  match p with
  | Ret a => (Done a, s)
  | Halt h => (Halted h, s)
  | Vis e k => let '(x, w) := perform e (world s) in run (k x) (set_world s w)
  | Go t k => run k (mkSys (world s) (spawned s ++ [t]))
  end.

(** [wp p Q s]: from [s], [p] runs to completion with a result and a state
    that satisfy [Q].  [wlp] drops the completion. *)
Definition wp {A} (p : prog A) (Q : A -> sys -> Prop) (s : sys) : Prop :=
  match run p s with
  | (Done a, s') => Q a s'
  | (Halted _, _) => False
  end.

Definition wlp {A} (p : prog A) (Q : A -> sys -> Prop) (s : sys) : Prop :=
  match run p s with
  | (Done a, s') => Q a s'
  | (Halted _, _) => True
  end.

(** One call of a goroutine: what is left of it, and what it starts. *)
Definition advance (p : prog unit) (w : W) : option (prog unit * W * list (prog unit)) :=
  match p with
  | Vis e k => let '(x, w') := perform e w in Some (k x, w', [])
  | Go t k => Some (k, w, [t])
  | Ret _ | Halt _ => None
  end.

(** Goroutines interleave at their calls.  (A panic would take the process
    down; here the others may go on.) *)
Inductive thread_step : sys -> sys -> Prop :=
  | step_thread s i p p' w' started :
      spawned s !! i = Some p -> advance p (world s) = Some (p', w', started) ->
      thread_step s (mkSys w' (<[i := p']> (spawned s) ++ started)).

(** A schedule: the goroutine of each number advances by one call. *)
Definition step_at (s : sys) (i : nat) : sys :=
  match spawned s !! i with
  | Some p =>
      match advance p (world s) with
      | Some (p', w', started) => mkSys w' (<[i := p']> (spawned s) ++ started)
      | None => s
      end
  | None => s
  end.

Lemma schedule_steps l s : rtc thread_step s (foldl step_at s l).
Proof.
  revert s. induction l as [|i l IH]; intros s; [done|]. cbn [foldl]. transitivity (step_at s i); [|apply IH].
  unfold step_at. destruct (spawned s !! i) as [p|] eqn:Hi; [|done].
  destruct (advance p (world s)) as [[[p' w'] new]|] eqn:Ha; [|done]. eapply rtc_once, step_thread; done.
Qed.

Lemma steps_invariant (I : sys -> Prop) s s' :
  (forall s1 s2, thread_step s1 s2 -> I s1 -> I s2) -> rtc thread_step s s' -> I s -> I s'.
Proof. intros Hstep Hsteps. induction Hsteps as [s|s1 s2 s3 H12 _ IH]; [done|]. intros HI. apply IH. by eapply Hstep. Qed.

Lemma run_bind {A B} (p : prog A) (k : A -> prog B) s :
  run (bind p k) s = match run p s with
                     | (Done a, s') => run (k a) s'
                     | (Halted h, s') => (Halted h, s')
                     end.
Proof.
  revert s. induction p as [A a|A h|A X e k' IH|A t _ p IH]; intros s; simpl; auto.
  destruct (perform e (world s)) as [x w]. apply IH.
Qed.

Lemma run_defer {A} d (p : prog A) s :
  run (defer d p) s = match run p s with
                      | (Done a, s') => run (bind d (fun _ => Ret a)) s'
                      | (Halted h, s') => run (bind d (fun _ => Halt h)) s'
                      end.
Proof.
  revert s. induction p as [A a|A h|A X e k IH|A t _ p IH]; intros s; simpl; auto.
  destruct (perform e (world s)) as [x w]. apply IH.
Qed.

Lemma wp_ret {A} (a : A) Q s : wp (Ret a) Q s <-> Q a s.
Proof. done. Qed.

Lemma wp_bind {A B} (p : prog A) (k : A -> prog B) Q s :
  wp (bind p k) Q s <-> wp p (fun a s' => wp (k a) Q s') s.
Proof. unfold wp. rewrite run_bind. by destruct (run p s) as [[]]. Qed.

Lemma wlp_bind {A B} (p : prog A) (k : A -> prog B) Q s :
  wlp (bind p k) Q s <-> wlp p (fun a s' => wlp (k a) Q s') s.
Proof. unfold wlp. rewrite run_bind. by destruct (run p s) as [[]]. Qed.

Lemma wp_vis {A X} (e : event X) (k : X -> prog A) Q s :
  wp (Vis e k) Q s <->
  wp (k (perform e (world s)).1) Q (set_world s (perform e (world s)).2).
Proof. unfold wp; simpl. by destruct (perform e (world s)). Qed.

Lemma wp_call {X} (e : event X) Q s :
  wp (call e) Q s <-> Q (perform e (world s)).1 (set_world s (perform e (world s)).2).
Proof. unfold call. by rewrite wp_vis. Qed.

Lemma wp_go {A} t (k : prog A) Q s :
  wp (Go t k) Q s <-> wp k Q (mkSys (world s) (spawned s ++ [t])).
Proof. done. Qed.

Lemma wp_mono {A} (p : prog A) (Q Q' : A -> sys -> Prop) s :
  wp p Q s -> (forall a s', Q a s' -> Q' a s') -> wp p Q' s.
Proof. unfold wp. destruct (run p s) as [[]]; eauto. Qed.

Lemma wlp_mono {A} (p : prog A) (Q Q' : A -> sys -> Prop) s :
  wlp p Q s -> (forall a s', Q a s' -> Q' a s') -> wlp p Q' s.
Proof. unfold wlp. destruct (run p s) as [[]]; eauto. Qed.

Lemma wp_wlp {A} (p : prog A) Q s : wp p Q s -> wlp p Q s.
Proof. unfold wp, wlp. by destruct (run p s) as [[]]. Qed.

Lemma wp_wlp_and {A} (p : prog A) (Q Q' : A -> sys -> Prop) s :
  wp p Q s -> wlp p Q' s -> wp p (fun a s' => Q a s' /\ Q' a s') s.
Proof. unfold wp, wlp. by destruct (run p s) as [[]]. Qed.

Lemma wp_run {A} (p : prog A) (Q : A -> sys -> Prop) s :
  wp p Q s -> wp p (fun a s' => run p s = (Done a, s') /\ Q a s') s.
Proof. unfold wp. by destruct (run p s) as [[]]. Qed.

Lemma wp_defer {A} d (p : prog A) Q s :
  wp p (fun a s' => wp d (fun _ s'' => Q a s'') s') s -> wp (defer d p) Q s.
Proof.
  unfold wp. rewrite run_defer. destruct (run p s) as [[a|h] s']; [|done]. rewrite run_bind.
  by destruct (run d s') as [[[]|h] s''].
Qed.

Lemma wp_try {A B} (p : prog (result A)) (k : A -> prog (result B)) Q s :
  wp (try_bind p k) Q s <->
  wp p (fun r s' => match r with Ok a => wp (k a) Q s' | Err e => Q (Err e) s' end) s.
Proof.
  unfold try_bind. rewrite wp_bind. split; intros Hp; eapply wp_mono;
    [exact Hp|intros []; auto|exact Hp|intros []; auto].
Qed.
End Run.
Arguments sys W : clear implicits.

#[export] Instance wp_proper {W} `{World W} {A} (p : prog A) :
  Proper (pointwise_relation A (pointwise_relation (sys W) iff)
          ==> pointwise_relation (sys W) iff) (wp p).
Proof. intros Q Q' HQ s. unfold wp. destruct (run p s) as [[]]; [apply HQ|done]. Qed.

(** ** Effects *)

(** The calls a program can make all satisfy [P], and it starts no goroutine. *)
Fixpoint effects (P : forall X, event X -> bool) {A} (p : prog A) : Prop :=
  match p with
  | Ret _ | Halt _ => True
  | Vis e k => P _ e = true /\ forall x, effects P (k x)
  | Go _ _ => False
  end.

Lemma effects_bind P {A B} (p : prog A) (k : A -> prog B) :
  effects P p -> (forall a, effects P (k a)) -> effects P (bind p k).
Proof. intros Hp Hk. induction p as [A a|A h|A X e k' IH|A t _ p IH]; simpl in *; [auto|done| |done].
  destruct Hp as [? Hp]. split; [done|]. intros x. by apply IH.
Qed.

Lemma effects_try P {A B} (p : prog (result A)) (k : A -> prog (result B)) :
  effects P p -> (forall a, effects P (k a)) -> effects P (try_bind p k).
Proof. intros. apply effects_bind; [done|]. intros []; simpl; auto. Qed.

Lemma effects_call P {X} (e : event X) : P X e = true -> effects P (call e).
Proof. simpl; auto. Qed.

Lemma effects_defer P {A} d (p : prog A) : effects P d -> effects P p -> effects P (defer d p).
Proof.
  intros Hd. induction p as [A a|A h|A X e k IH|A t _ p IH]; simpl; [..|done].
  - intros _. by apply effects_bind.
  - intros _. by apply effects_bind.
  - intros [He Hk]. split; [done|]. intros x. apply IH, Hk.
Qed.

Lemma effects_weaken (P Q : forall X, event X -> bool) {A} (p : prog A) :
  (forall X (e : event X), P X e = true -> Q X e = true) ->
  effects P p -> effects Q p.
Proof. intros HPQ. induction p as [A a|A h|A X e k IH|A t _ p IH]; simpl in *; [auto|done| |done].
  intros [? Hp]. split; [by apply HPQ|]. intros x. by apply IH.
Qed.

Create HintDb effects.
#[export] Hint Resolve effects_bind effects_try effects_call effects_defer : effects.

(** A property of the world kept by every call in [P] is kept by a program
    whose effects are in [P], however it ends. *)
Lemma effects_invariant {W} `{World W} (P : forall X, event X -> bool) (I : W -> Prop) {A} (p : prog A) :
  (forall X (e : event X) w, P X e = true -> I w -> I (perform e w).2) ->
  effects P p -> forall s, I (world s) -> I (world (run p s).2).
Proof.
  intros HI. induction p as [A a|A h|A X e k IH|A t _ p IH]; simpl; intros Hp s Hs; auto; [|done].
  destruct Hp as [He Hk]. specialize (HI X e (world s) He Hs).
  destruct (perform e (world s)) as [x w]; simpl in *. apply (IH x (Hk x)). done.
Qed.

Definition no_secret_writes : forall X, event X -> bool := fun X e => negb (writes_secrets e).
Definition no_registry_writes : forall X, event X -> bool := fun X e => negb (mutates_secrets e).
Definition no_config_writes : forall X, event X -> bool := fun X e => negb (mutates_config e).

(** ** What the theorems rely on

    [stored], [configured], [available] and [clock] are views of the world that
    only the statements use.  The laws are the documented behaviour of the API
    server: the consistency of [Get], the uniqueness of names on [Create], the
    optimistic concurrency control of [Update] by resource versions.

    Templates can be secrets, so that the calls that write their objects change
    [stored].  [templated] are the secrets that these calls may reach, a set
    that the deployment fixes; the one assumption about it is that the names of
    the registry are not in it: no template makes an object of such a name (or
    the API server refuses it to the broker). *)

Definition same_payload (a b : Secret) : Prop :=
  secret_Name a = secret_Name b /\ secret_Namespace a = secret_Namespace b /\
  secret_Labels a = secret_Labels b /\ secret_Annotations a = secret_Annotations b /\
  data_of a = data_of b.

#[export] Instance same_payload_equiv : Equivalence same_payload.
Proof.
  split.
  - intros a. by repeat split.
  - intros a b (?&?&?&?&?). by repeat split.
  - intros a b c (?&?&?&?&?) (?&?&?&?&?). repeat split; congruence.
Qed.

Class PlatformLaws (W : Type) `{World W} : Type := {
  stored : W -> gmap (string * string) Secret;
  configured : W -> option ServiceBrokerConfig;
  available : W -> Prop;
  templated : string * string -> bool;

  stored_key w k s : stored w !! k = Some s -> secret_key s = k;
  stored_frame X (e : event X) w :
    writes_secrets e = false -> stored (perform e w).2 = stored w;
  untemplated_frame X (e : event X) w k :
    mutates_secrets e = false -> templated k = false -> stored (perform e w).2 !! k = stored w !! k;
  registry_untemplated ns n : registry_name n = true -> templated (ns, n) = false;
  configured_frame X (e : event X) w :
    mutates_config e = false -> configured (perform e w).2 = configured w;
  available_frame X (e : event X) w : available w -> available (perform e w).2;

  get_ok ns n w s : (perform (SecretsGet ns n) w).1 = Ok s -> stored w !! (ns, n) = Some s;
  get_not_found ns n w e :
    (perform (SecretsGet ns n) w).1 = Err e -> IsNotFound e = true -> stored w !! (ns, n) = None;
  create_ok s w s' : (perform (SecretsCreate s) w).1 = Ok s' ->
    stored w !! secret_key s = None /\
    stored (perform (SecretsCreate s) w).2 = <[secret_key s := s']> (stored w) /\
    same_payload s s';
  create_err s w e : (perform (SecretsCreate s) w).1 = Err e ->
    stored (perform (SecretsCreate s) w).2 = stored w;
  update_ok s w s' : (perform (SecretsUpdate s) w).1 = Ok s' ->
    exists old, stored w !! secret_key s = Some old /\
    (secret_ResourceVersion s = secret_ResourceVersion old \/ secret_ResourceVersion s = "") /\
    stored (perform (SecretsUpdate s) w).2 = <[secret_key s := s']> (stored w) /\
    same_payload s s' /\ secret_UID s' = secret_UID old /\ secret_ResourceVersion s' <> "" /\
    (secret_ResourceVersion s' = secret_ResourceVersion old -> same_payload old s');
  update_err s w e : (perform (SecretsUpdate s) w).1 = Err e ->
    stored (perform (SecretsUpdate s) w).2 = stored w;
  delete_ok ns n w : (perform (SecretsDelete ns n) w).1 = None ->
    stored (perform (SecretsDelete ns n) w).2 = delete (ns, n) (stored w);
  delete_err ns n w e : (perform (SecretsDelete ns n) w).1 = Some e ->
    stored (perform (SecretsDelete ns n) w).2 = stored w;

  (* an available API server answers every well-formed request *)
  get_available ns n w s : available w -> stored w !! (ns, n) = Some s ->
    (perform (SecretsGet ns n) w).1 = Ok s;
  get_available_none ns n w : available w -> stored w !! (ns, n) = None ->
    exists e, (perform (SecretsGet ns n) w).1 = Err e /\ IsNotFound e = true;
  create_available s w : available w -> stored w !! secret_key s = None ->
    exists s', (perform (SecretsCreate s) w).1 = Ok s';
  update_available s w old : available w -> stored w !! secret_key s = Some old ->
    secret_ResourceVersion s = secret_ResourceVersion old ->
    exists s', (perform (SecretsUpdate s) w).1 = Ok s';
  delete_available ns n w s : available w -> stored w !! (ns, n) = Some s ->
    (perform (SecretsDelete ns n) w).1 = None;

  (* a version names one state of one secret for ever; an update that changes
     nothing may keep the version *)
  issued : W -> string * string -> string -> Prop;
  issued_frame X (e : event X) w k v : issued w k v -> issued (perform e w).2 k v;
  create_version s w s' : (perform (SecretsCreate s) w).1 = Ok s' ->
    secret_ResourceVersion s' <> "" /\ ~ issued w (secret_key s) (secret_ResourceVersion s') /\
    issued (perform (SecretsCreate s) w).2 (secret_key s) (secret_ResourceVersion s');
  update_version s w s' : (perform (SecretsUpdate s) w).1 = Ok s' ->
    issued (perform (SecretsUpdate s) w).2 (secret_key s) (secret_ResourceVersion s') /\
    (issued w (secret_key s) (secret_ResourceVersion s') ->
       secret_ResourceVersion <$> stored w !! secret_key s = Some (secret_ResourceVersion s'));

  config_read w : (perform ConfigRead w).1 = configured w;
  config_write c w : configured (perform (ConfigWrite c) w).2 = c;
  range_map_perm keys w : (perform (RangeMap keys) w).1 ≡ₚ keys;
  rand_int_range limit w i : (0 < limit)%Z -> (perform (RandInt limit) w).1 = Ok i -> (0 <= i < limit)%Z;

  (* time passes, and [time.Now] reads it *)
  clock : W -> Z;
  clock_frame X (e : event X) w : (clock w <= clock (perform e w).2)%Z;
  time_now w : (clock w <= (perform TimeNow w).1 <= clock (perform TimeNow w).2)%Z;
  (* the context is done only when its deadline has passed; a tick takes time *)
  select_done d w : (perform (SelectDone d) w).1 = true -> (d <= clock (perform (SelectDone d) w).2)%Z;
  select_tick d w : (perform (SelectDone d) w).1 = false -> (clock w < clock (perform (SelectDone d) w).2)%Z;
  (* after the deadline both may be ready, and the choice is random; it is fair:
     a wait loses finitely many draws *)
  draws_lost : W -> Z -> nat;
  draws_frame X (e : event X) w d : draws_lost (perform e w).2 d <= draws_lost w d;
  select_fair d w : (perform (SelectDone d) w).1 = false -> (d <= clock w)%Z ->
    draws_lost (perform (SelectDone d) w).2 d < draws_lost w d;
}.

Section Laws.
Context {W : Type} `{PlatformLaws W}.

(** The stored secrets that no template reaches. *)
Definition owned (w : W) : gmap (string * string) Secret :=
  filter (fun kv => templated kv.1 = false) (stored w).

Lemma owned_lookup w k : templated k = false -> owned w !! k = stored w !! k.
Proof.
  intros Hk. apply option_eq. intros x. unfold owned. rewrite map_lookup_filter_Some. naive_solver.
Qed.

Lemma owned_templated w k : templated k = true -> owned w !! k = None.
Proof. intros Hk. apply map_lookup_filter_None. right. intros x _. cbn. congruence. Qed.

Lemma owned_ext w w' :
  (forall k, templated k = false -> stored w' !! k = stored w !! k) -> owned w' = owned w.
Proof.
  intros Hw. apply map_eq. intros k. destruct (templated k) eqn:Hk.
  - by rewrite !owned_templated.
  - by rewrite !owned_lookup, Hw.
Qed.

Lemma owned_stored w w' : stored w' = stored w -> owned w' = owned w.
Proof. intros Hs. by apply owned_ext; intros; rewrite Hs. Qed.

Lemma owned_key w w' k : templated k = false -> owned w' = owned w -> stored w' !! k = stored w !! k.
Proof. intros Hk Ho. by rewrite <- !owned_lookup, Ho. Qed.

Lemma owned_insert w w' k s :
  templated k = false -> stored w' = <[k := s]> (stored w) -> owned w' = <[k := s]> (owned w).
Proof.
  intros Hk Hs. apply map_eq. intros k'. destruct (templated k') eqn:Hk'.
  - rewrite owned_templated by done. rewrite lookup_insert_ne by (intros ->; congruence). by rewrite owned_templated.
  - rewrite owned_lookup, Hs by done. destruct (decide (k = k')) as [->|Hne].
    + by rewrite !lookup_insert_eq.
    + rewrite !lookup_insert_ne by done. by rewrite owned_lookup.
Qed.

Lemma owned_delete w w' k :
  templated k = false -> stored w' = delete k (stored w) -> owned w' = delete k (owned w).
Proof.
  intros Hk Hs. apply map_eq. intros k'. destruct (templated k') eqn:Hk'.
  - rewrite owned_templated by done. rewrite lookup_delete_ne by (intros ->; congruence). by rewrite owned_templated.
  - rewrite owned_lookup, Hs by done. destruct (decide (k = k')) as [->|Hne].
    + by rewrite !lookup_delete_eq.
    + rewrite !lookup_delete_ne by done. by rewrite owned_lookup.
Qed.

Lemma owned_frame X (e : event X) w : mutates_secrets e = false -> owned (perform e w).2 = owned w.
Proof. intros He. apply owned_ext. intros k Hk. by apply untemplated_frame. Qed.

Lemma run_stored {A} (p : prog A) (s : sys W) :
  effects no_secret_writes p -> stored (world (run p s).2) = stored (world s).
Proof.
  intros Hp.
  apply (effects_invariant no_secret_writes (fun w => stored w = stored (world s))); auto.
  intros X e w He <-. apply stored_frame. by apply negb_true_iff in He.
Qed.

Lemma run_owned {A} (p : prog A) (s : sys W) :
  effects no_registry_writes p -> owned (world (run p s).2) = owned (world s).
Proof.
  intros Hp.
  apply (effects_invariant no_registry_writes (fun w => owned w = owned (world s))); auto.
  intros X e w He <-. apply owned_frame. by apply negb_true_iff in He.
Qed.

Lemma run_configured {A} (p : prog A) (s : sys W) :
  effects no_config_writes p -> configured (world (run p s).2) = configured (world s).
Proof.
  intros Hp.
  apply (effects_invariant no_config_writes (fun w => configured w = configured (world s))); auto.
  intros X e w He <-. apply configured_frame. by apply negb_true_iff in He.
Qed.

Lemma run_available {A} (p : prog A) (s : sys W) :
  available (world s) -> available (world (run p s).2).
Proof.
  revert s. induction p as [A a|A h|A X e k IH|A t _ p IH]; intros s Hs; simpl; auto.
  pose proof (available_frame X e _ Hs). destruct (perform e (world s)) as [x w]; simpl in *. by apply IH.
Qed.

Lemma wp_available {A} (p : prog A) (Q : A -> sys W -> Prop) s :
  available (world s) -> wp p Q s -> wp p (fun a s' => Q a s' /\ available (world s')) s.
Proof.
  intros Hav. pose proof (run_available p s Hav) as Ha. unfold wp. by destruct (run p s) as [[] s'].
Qed.

Lemma run_clock {A} (p : prog A) (s : sys W) : (clock (world s) <= clock (world (run p s).2))%Z.
Proof.
  revert s. induction p as [A a|A h|A X e k IH|A t _ p IH]; intros s; simpl; [done|done| |apply (IH (mkSys _ _))].
  pose proof (clock_frame X e (world s)). destruct (perform e (world s)) as [x w]; simpl in *.
  etransitivity; [done|apply (IH x (set_world s w))].
Qed.

Lemma run_draws {A} (p : prog A) (s : sys W) d : draws_lost (world (run p s).2) d <= draws_lost (world s) d.
Proof.
  revert s. induction p as [A a|A h|A X e k IH|A t _ p IH]; intros s; simpl; [done|done| |apply (IH (mkSys _ _))].
  pose proof (draws_frame X e (world s) d). destruct (perform e (world s)) as [x w]; simpl in *.
  etransitivity; [apply (IH x (set_world s w))|done].
Qed.

Lemma run_spawned P {A} (p : prog A) (s : sys W) :
  effects P p -> spawned (run p s).2 = spawned s.
Proof.
  revert s. induction p as [A a|A h|A X e k IH|A t _ p IH]; intros s Hp; simpl in *; try done.
  destruct Hp as [_ Hk]. destruct (perform e (world s)) as [x w]. by rewrite IH.
Qed.

(** What every call but a secret or configuration write leaves alone. *)
Definition kept (s s' : sys W) : Prop :=
  configured (world s') = configured (world s) /\ spawned s' = spawned s /\
  (available (world s) -> available (world s')).

Definition unchanged (s s' : sys W) : Prop :=
  stored (world s') = stored (world s) /\ kept s s'.

(** What a program that also writes templates' objects leaves alone. *)
Definition owned_unchanged (s s' : sys W) : Prop :=
  owned (world s') = owned (world s) /\ kept s s'.

#[global] Instance kept_preorder : PreOrder kept.
Proof.
  split; [by repeat split|]. intros a b c (?&?&?) (?&?&?).
  repeat split; [congruence|congruence|auto].
Qed.

#[global] Instance unchanged_preorder : PreOrder unchanged.
Proof.
  split; [by split|]. intros a b c [? ?] [? ?]. split; [congruence|by etransitivity].
Qed.

#[global] Instance owned_unchanged_preorder : PreOrder owned_unchanged.
Proof.
  split; [by split|]. intros a b c [? ?] [? ?]. split; [congruence|by etransitivity].
Qed.

Lemma unchanged_owned s s' : unchanged s s' -> owned_unchanged s s'.
Proof. intros [Hs ?]. split; [by apply owned_stored|done]. Qed.

Lemma unchanged_kept s s' : unchanged s s' -> kept s s'.
Proof. by intros [_ ?]. Qed.

Lemma call_kept {X} (e : event X) (s : sys W) :
  mutates_config e = false -> kept s (set_world s (perform e (world s)).2).
Proof.
  intros He. repeat split; simpl; [by apply configured_frame|apply available_frame].
Qed.

Lemma wp_quiet {X} (e : event X) Q (s : sys W) :
  writes_secrets e = false -> mutates_config e = false ->
  (forall s', unchanged s s' -> Q (perform e (world s)).1 s') -> wp (call e) Q s.
Proof.
  intros ?? HQ. apply wp_call, HQ. split; [by apply stored_frame|by apply call_kept].
Qed.

(** A program whose calls write neither secrets nor the configuration. *)
Lemma run_unchanged {A} (p : prog A) (s : sys W) :
  effects no_secret_writes p -> effects no_config_writes p -> unchanged s (run p s).2.
Proof.
  intros Hs Hc. split; [by apply run_stored|]. split; [by apply run_configured|].
  split; [by eapply run_spawned|]. apply run_available.
Qed.

Lemma run_owned_unchanged {A} (p : prog A) (s : sys W) :
  effects no_registry_writes p -> effects no_config_writes p -> owned_unchanged s (run p s).2.
Proof.
  intros Hs Hc. split; [by apply run_owned|]. split; [by apply run_configured|].
  split; [by eapply run_spawned|]. apply run_available.
Qed.

Lemma wp_unchanged {A} (p : prog A) Q (s : sys W) :
  effects no_secret_writes p -> effects no_config_writes p ->
  wp p (fun a s' => unchanged s s' -> Q a s') s -> wp p Q s.
Proof.
  intros Hs Hc. pose proof (run_unchanged p s Hs Hc) as Hu. unfold wp.
  destruct (run p s) as [[] s']; simpl in Hu; auto.
Qed.

Lemma wp_owned_unchanged {A} (p : prog A) Q (s : sys W) :
  effects no_registry_writes p -> effects no_config_writes p ->
  wp p (fun a s' => owned_unchanged s s' -> Q a s') s -> wp p Q s.
Proof.
  intros Hs Hc. pose proof (run_owned_unchanged p s Hs Hc) as Hu. unfold wp.
  destruct (run p s) as [[] s']; simpl in Hu; auto.
Qed.

Lemma wlp_unchanged {A} (p : prog A) Q (s : sys W) :
  effects no_secret_writes p -> effects no_config_writes p ->
  wlp p (fun a s' => unchanged s s' -> Q a s') s -> wlp p Q s.
Proof.
  intros Hs Hc. pose proof (run_unchanged p s Hs Hc) as Hu. unfold wlp.
  destruct (run p s) as [[] s']; simpl in Hu; auto.
Qed.

Lemma wp_Config c Q (s : sys W) :
  configured (world s) = Some c ->
  (forall s', unchanged s s' -> Q c s') -> wp Config Q s.
Proof.
  intros Hc HQ. unfold Config. rewrite wp_bind. apply wp_quiet; [done..|].
  intros s' Hs'. rewrite config_read, Hc. apply wp_ret. by apply HQ.
Qed.
End Laws.

#[export] Hint Resolve unchanged_kept : core.
