(* ===== verification/Threads.v ===== *)
(** * Goroutines and their end

    Induction on the programs of goroutines, and that no execution of any number
    of them is infinite, whatever the scheduler does: a call of a goroutine
    leaves parts of its program. The programs are finite in depth, though they
    may branch infinitely, so that goroutines cannot go on for ever. *)

From S2P Require Import Prelude Json Errors Types Platform.
From stdpp Require Import relations.

Local Open Scope broker_scope.

Definition ended_goroutine (p : prog unit) : bool :=
  match p with Ret _ | Halt _ => true | Vis _ _ | Go _ _ => false end.

(** Induction on goroutines, and on those that they start. *)
Section Induction.
Variable P : prog unit -> Prop.
Hypothesis P_ret : forall a, P (Ret a).
Hypothesis P_halt : forall h, P (Halt h).
Hypothesis P_vis : forall X (e : event X) k, (forall x, P (k x)) -> P (Vis e k).
Hypothesis P_go : forall t p, P t -> P p -> P (Go t p).

Fixpoint goroutine_ind (p : prog unit) : P p :=
  match p with
  | Ret a => P_ret a
  | Halt h => P_halt h
  | Vis e k => P_vis _ e k (fun x => goroutine_ind (k x))
  | Go t p => P_go t p (goroutine_ind t) (goroutine_ind p)
  end.
End Induction.

(** ** Every execution ends *)

Section Termination.

(** What a program can become, and start, with its next call. *)
Definition parts (p : prog unit) (ps : list (prog unit)) : Prop :=
  match p with
  | Ret _ | Halt _ => False
  | Vis _ k => exists x, ps = [k x]
  | Go t p => ps = [p; t]
  end.

(** One of some goroutines, in no order, is replaced by its parts. *)
Definition replaces (l l' : list (prog unit)) : Prop :=
  exists p ps rest, l ≡ₚ p :: rest /\ parts p ps /\ l' ≡ₚ ps ++ rest.

Lemma sn_perm l l' : l ≡ₚ l' -> sn replaces l -> sn replaces l'.
Proof.
  intros Hl [Hs]. constructor. intros l2 (p & ps & rest & Hp & Hps & H2). apply Hs. exists p, ps, rest. by rewrite Hl.
Qed.

(** Goroutines that end, next to others that do. *)
Lemma sn_app l1 l2 : sn replaces l1 -> sn replaces l2 -> sn replaces (l1 ++ l2).
Proof.
  intros Hs1. revert l2. induction Hs1 as [l1 Hs1 IH1]. intros l2 Hs2. pose proof Hs2 as Hall2.
  induction Hs2 as [l2 Hs2 IH2]. constructor. intros l (p & ps & rest & Hp & Hps & Hl).
  assert (p ∈ l1 ++ l2) as [Hin|Hin]%elem_of_app by (rewrite Hp; left).
  - apply elem_of_Permutation in Hin as [r1 Hr1].
    assert (rest ≡ₚ r1 ++ l2) as Hrest by (apply (Permutation_cons_inv (a := p)); by rewrite <- Hp, Hr1).
    apply (sn_perm ((ps ++ r1) ++ l2)); [by rewrite Hl, Hrest, (assoc_L app)|].
    apply IH1; [by exists p, ps, r1|done].
  - apply elem_of_Permutation in Hin as [r2 Hr2].
    assert (rest ≡ₚ l1 ++ r2) as Hrest.
    { apply (Permutation_cons_inv (a := p)). by rewrite <- Hp, Hr2, Permutation_middle. }
    apply (sn_perm (l1 ++ ps ++ r2)); [by rewrite Hl, Hrest, Permutation_app_swap_app|].
    assert (replaces l2 (ps ++ r2)) as Hstep by (by exists p, ps, r2). apply IH2; [done|by apply Hs2].
Qed.

Lemma sn_parts p : (forall ps, parts p ps -> sn replaces ps) -> sn replaces [p].
Proof.
  intros Hp. constructor. intros l (q & ps & rest & Hq & Hps & Hl). symmetry in Hq.
  apply Permutation_singleton_r in Hq. injection Hq as -> ->. rewrite app_nil_r in Hl.
  apply (sn_perm ps); [done|by apply Hp].
Qed.

Lemma sn_goroutine p : sn replaces [p].
Proof.
  induction p as [a|h|X e k IH|t p IHt IH] using goroutine_ind; apply sn_parts; cbn [parts]; [done|done| |].
  - intros ps [x ->]. apply IH.
  - intros ps ->. by apply (sn_app [p] [t]).
Qed.

Lemma sn_goroutines l : sn replaces l.
Proof.
  induction l as [|p l IH]; [|by apply (sn_app [p]), IH; apply sn_goroutine].
  constructor. intros l (p & ps & rest & Hp & _). by apply Permutation_nil_cons in Hp.
Qed.

Lemma advance_replaces `{World W} (s : sys W) i p p' w' started :
  spawned s !! i = Some p -> advance p (world s) = Some (p', w', started) ->
  replaces (spawned s) (<[i := p']> (spawned s) ++ started).
Proof.
  intros Hi Ha. exists p, (p' :: started), (take i (spawned s) ++ drop (S i) (spawned s)). split; [|split].
  - rewrite <- (take_drop_middle (spawned s) i p Hi) at 1. by rewrite Permutation_middle.
  - destruct p as [| |X e k|t k]; cbn [advance] in Ha; try done; [|by injection Ha as <- _ <-].
    destruct (perform e (world s)) as [x w]. injection Ha as <- _ <-. by exists x.
  - rewrite insert_take_drop by (by eapply lookup_lt_Some). cbn. rewrite <- Permutation_middle, (Permutation_app_comm started).
    cbn. by rewrite Permutation_middle.
Qed.

(** However goroutines are scheduled. *)
Lemma threads_terminate `{World W} (s : sys W) : sn thread_step s.
Proof.
  remember (spawned s) as l eqn:Hl. revert s Hl. induction (sn_goroutines l) as [l _ IH]. intros s ->.
  constructor. intros s' Hstep. inversion Hstep as [s0 i p p' w' started Hi Ha]; simplify_eq.
  eapply IH; [|done]. by eapply advance_replaces.
Qed.

(** What has not ended can go on. *)
Lemma thread_progress `{World W} (s : sys W) i p :
  nf thread_step s -> spawned s !! i = Some p -> ended_goroutine p = true.
Proof.
  intros Hn Hi. destruct (ended_goroutine p) eqn:He; [done|]. destruct Hn.
  destruct (advance p (world s)) as [[[p' w'] started]|] eqn:Ha; [eexists; by eapply step_thread|].
  destruct p as [| |X e k|t k]; cbn [advance] in Ha; try done. by destruct (perform e (world s)).
Qed.
End Termination.
