(* ===== verification/Crypto.v ===== *)
(** * Keys and certificates ([crypto/...])

    The cryptography that [pkg/util/x509.go] calls, as the class [Crypto] the
    model is parameterised by: keys and their encodings, certificate requests
    and certificates.  A function that draws from [rand.Reader] is given the
    bytes it gets to read.  [CryptoLaws] is what is documented of it and
    needed here: parsers read back what the library wrote. *)

From S2P Require Import Prelude Errors Platform.

Local Open Scope broker_scope.

(** [elliptic.P224()] and the others. *)
Inductive Curve : Type := P224 | P256 | P384 | P521.

(** The dynamic types of a [crypto.PrivateKey] and of a public key. *)
Inductive PrivateKey (R E D : Type) : Type :=
  | rsaPrivateKey (k : R)
  | ecdsaPrivateKey (k : E)
  | ed25519PrivateKey (k : D).
Arguments rsaPrivateKey {R E D} k.
Arguments ecdsaPrivateKey {R E D} k.
Arguments ed25519PrivateKey {R E D} k.

Inductive PublicKey (R E O : Type) : Type :=
  | rsaPublicKey (k : R)
  | ecdsaPublicKey (k : E)
  | otherPublicKey (k : O).
Arguments rsaPublicKey {R E O} k.
Arguments ecdsaPublicKey {R E O} k.
Arguments otherPublicKey {R E O} k.

(** [pkix.Name]: the common name, and the other attributes that were parsed. *)
Record pkix_Name : Type := mkName { CommonName : string; Names : list (string * string) }.

Record CertificateRequest (P : Type) : Type := mkCertificateRequest {
  csr_Subject : pkix_Name;
  csr_PublicKey : option P;
}.
Arguments mkCertificateRequest {P} csr_Subject csr_PublicKey.
Arguments csr_Subject {P} c.
Arguments csr_PublicKey {P} c.

(** The fields of [x509.Certificate] that are set or used; [Raw] is the
    encoding that a certificate was parsed from. *)
Record Certificate : Type := mkCertificate {
  cert_SerialNumber : Z;
  cert_Subject : pkix_Name;
  cert_NotBefore : Z;
  cert_NotAfter : Z;
  cert_BasicConstraintsValid : bool;
  cert_SubjectKeyId : string;
  cert_DNSNames : list string;
  cert_EmailAddresses : list string;
  cert_IsCA : bool;
  cert_KeyUsage : Z;
  cert_ExtKeyUsage : list Z;
  cert_Raw : option string;
}.

Class Crypto : Type := {
  rsa_PrivateKey : Type; rsa_PublicKey : Type;
  ecdsa_PrivateKey : Type; ecdsa_PublicKey : Type;
  ed25519_PrivateKey : Type; other_PublicKey : Type;
  key_Public : PrivateKey rsa_PrivateKey ecdsa_PrivateKey ed25519_PrivateKey ->
    PublicKey rsa_PublicKey ecdsa_PublicKey other_PublicKey;
  ecdsa_Curve : ecdsa_PrivateKey -> Curve;

  rsa_GenerateKey : string -> Z -> result rsa_PrivateKey;
  ecdsa_GenerateKey : Curve -> string -> result ecdsa_PrivateKey;
  ed25519_GenerateKey : string -> result ed25519_PrivateKey;

  x509_MarshalPKCS1PrivateKey : rsa_PrivateKey -> string;
  x509_MarshalPKCS8PrivateKey : PrivateKey rsa_PrivateKey ecdsa_PrivateKey ed25519_PrivateKey -> result string;
  x509_MarshalECPrivateKey : ecdsa_PrivateKey -> result string;
  x509_ParsePKCS1PrivateKey : string -> result rsa_PrivateKey;
  x509_ParsePKCS8PrivateKey : string -> result (PrivateKey rsa_PrivateKey ecdsa_PrivateKey ed25519_PrivateKey);
  x509_ParseECPrivateKey : string -> result ecdsa_PrivateKey;

  x509_CreateCertificateRequest : string -> pkix_Name ->
    PrivateKey rsa_PrivateKey ecdsa_PrivateKey ed25519_PrivateKey -> result string;
  x509_ParseCertificateRequest : string ->
    result (CertificateRequest (PublicKey rsa_PublicKey ecdsa_PublicKey other_PublicKey));
  x509_CreateCertificate : string -> Certificate -> Certificate ->
    option (PublicKey rsa_PublicKey ecdsa_PublicKey other_PublicKey) ->
    PrivateKey rsa_PrivateKey ecdsa_PrivateKey ed25519_PrivateKey -> result string;
  x509_ParseCertificate : string -> result Certificate;

  (* encoding/asn1, crypto/elliptic, crypto/sha1 *)
  asn1_Marshal_rsa : rsa_PublicKey -> result string;
  elliptic_Marshal : ecdsa_PublicKey -> string;
  sha1_Sum : string -> string;
}.

(** [crypto.PrivateKey] and [interface{}] of a public key. *)
Abbreviation crypto_PrivateKey := (PrivateKey rsa_PrivateKey ecdsa_PrivateKey ed25519_PrivateKey).
Abbreviation crypto_PublicKey := (PublicKey rsa_PublicKey ecdsa_PublicKey other_PublicKey).

(** An encoded certificate keeps times to the second. *)
Definition to_second (t : Z) : Z := (t / 1000000000 * 1000000000)%Z.

(** What is left of a template in the certificate made from it: that it is an
    authority is a basic constraint, encoded only when these are said to be
    valid. *)
Definition issued_from (template cert : Certificate) : Prop :=
  cert_SerialNumber cert = cert_SerialNumber template /\
  CommonName (cert_Subject cert) = CommonName (cert_Subject template) /\
  cert_NotBefore cert = to_second (cert_NotBefore template) /\ cert_NotAfter cert = to_second (cert_NotAfter template) /\
  cert_DNSNames cert = cert_DNSNames template /\ cert_EmailAddresses cert = cert_EmailAddresses template /\
  cert_IsCA cert = cert_BasicConstraintsValid template && cert_IsCA template /\ cert_KeyUsage cert = cert_KeyUsage template /\
  cert_ExtKeyUsage cert = cert_ExtKeyUsage template.

Class CryptoLaws `{Crypto} : Prop := {
  parse_PKCS1 k : x509_ParsePKCS1PrivateKey (x509_MarshalPKCS1PrivateKey k) = Ok k;
  parse_PKCS8 k der : x509_MarshalPKCS8PrivateKey k = Ok der -> x509_ParsePKCS8PrivateKey der = Ok k;
  parse_EC k der : x509_MarshalECPrivateKey k = Ok der -> x509_ParseECPrivateKey der = Ok k;
  public_rsa k : exists p, key_Public (rsaPrivateKey k) = rsaPublicKey p;
  public_ecdsa k : exists p, key_Public (ecdsaPrivateKey k) = ecdsaPublicKey p;
  generated_on_curve c rand k : ecdsa_GenerateKey c rand = Ok k -> ecdsa_Curve k = c;
  parse_request rand name key der : x509_CreateCertificateRequest rand name key = Ok der ->
    exists req, x509_ParseCertificateRequest der = Ok req /\
      CommonName (csr_Subject req) = CommonName name /\ csr_PublicKey req = Some (key_Public key);
  parse_certificate rand template parent pub key der :
    x509_CreateCertificate rand template parent pub key = Ok der ->
    exists cert, x509_ParseCertificate der = Ok cert /\ issued_from template cert;
}.
