(* ===== verification/Vendor.v ===== *)
(** * Third-party code the broker calls

    Functions of packages outside the repository (and the two link-time
    variables of [pkg/version]), as the class [Vendor] the model is
    parameterised by.  [VendorLaws] is the documented behaviour the theorems
    rely on. *)

From S2P Require Import Prelude Json Errors Types Platform.
From S2P Require Export Crypto.

Local Open Scope broker_scope.
#[local] Set Warnings "-register-all".

(** The result of [jwt.Parse] with a key function that accepts HMAC methods
    only: the token is nil when the text does not have the form of one. *)
Record jwt_Token : Type := mkToken {
  token_Valid : bool;
  token_Claims : option (gmap string value);   (* Some when they are [jwt.MapClaims] *)
}.

(** ** Parse trees of [text/template/parse]

    A word of a command; a parenthesised pipeline is a list of commands. *)

Inductive arg : Type :=
  | IdentifierNode (name : string)
  | StringNode (s : string)
  | NumberNode (int : option Z) (float : string) (is_float : bool)
  | BoolNode (b : bool)
  | NilNode
  | DotNode
  | FieldNode (idents : list string)
  | VariableNode (name : string) (idents : list string)
  | PipeArg (cmds : list (list arg)).

Abbreviation command := (list arg).

Record pipe : Type := mkPipe {
  pipe_Decl : list string;
  pipe_IsAssign : bool;
  pipe_Cmds : list command;
}.

(** The list of the [else] branch is a nil pointer where there is none. *)
Inductive node : Type :=
  | TextNode (text : string)
  | ActionNode (p : pipe)
  | IfNode (p : pipe) (l : list node) (else_ : option (list node))
  | RangeNode (p : pipe) (l : list node) (else_ : option (list node))
  | WithNode (p : pipe) (l : list node) (else_ : option (list node)).

Class Vendor : Type := {
  (* crypto/rsa, crypto/ecdsa, crypto/x509 and the like *)
  #[global] vendor_crypto :: Crypto;

  (* pkg/version, set by the linker *)
  Application : string;
  Version : string;

  (* texts of errors reported by encoding/json *)
  json_error_text : string -> string;

  (* k8s.io/apimachinery runtime.RawExtension *)
  RawExtension_MarshalJSON : RawExtension -> string;
  RawExtension_UnmarshalJSON : string -> RawExtension;
  RawExtension_String : RawExtension -> string;

  (* github.com/go-openapi/jsonpointer *)
  jsonpointer_New : string -> option error;
  jsonpointer_Get : string -> value -> result value;

  (* github.com/go-openapi/spec and validate *)
  spec_Schema : Type;
  Schema_UnmarshalJSON : string -> result spec_Schema;
  AgainstSchema : spec_Schema -> value -> option error;

  (* k8s.io/apimachinery unstructured.Unstructured, an object by its content *)
  Unstructured_UnmarshalJSON : string -> result value;
  Unstructured_MarshalJSON : value -> result string;
  GetAPIVersion : value -> string;
  GetKind : value -> string;
  GetName : value -> string;
  GetNamespace : value -> string;
  GroupVersionKind : value -> string * string * string;
  NestedStringMap : value -> list string -> result (option (gmap string string));
  SetNestedStringMap : value -> gmap string string -> list string -> result value;
  NestedString : value -> list string -> result (option string);
  SetNestedField : value -> value -> list string -> result value;
  NestedSlice : value -> list string -> result (option (list value));
  SetNestedSlice : value -> list value -> list string -> result value;
  SetOwnerReferences : value -> list value -> value;
  ParseGroupVersion : string -> result (string * string);

  (* github.com/evanphx/json-patch *)
  CreateMergePatch : string -> string -> result string;
  MergePatch : string -> string -> result string;

  (* github.com/golang-jwt/jwt, at a given time *)
  jwt_Parse : Z -> string -> string -> option jwt_Token * option error;
  jwt_SignedString : gmap string value -> string -> result string;

  (* text/template: the parser, the functions it predefines, the decoration
     of an error with the place it happened at, and fmt.Sprint *)
  template_Parse : string -> result (list node);
  template_builtin : string -> list value -> result value;
  exec_error_text : string -> string;
  fmt_Sprint : value -> string;
  ParseDuration : string -> result Z;

  (* github.com/julienschmidt/httprouter: the index of the matching route *)
  httprouter_Lookup : list (string * string) -> string -> string -> option nat * list (string * string);
  httprouter_Unmatched : list (string * string) -> string -> string -> Z;

  (* crypto/sha256 and encoding/hex *)
  sha256_hex : string -> string;
}.

Class VendorLaws `{Vendor} : Prop := {
  raw_marshal_nil : RawExtension_MarshalJSON (mkRaw None) = "null";
  raw_marshal_some b : RawExtension_MarshalJSON (mkRaw (Some b)) = b;
  raw_unmarshal_null : RawExtension_UnmarshalJSON "null" = mkRaw None;
  raw_unmarshal_some b : b <> "null" -> RawExtension_UnmarshalJSON b = mkRaw (Some b);
  jwt_parse_token now tok key : (jwt_Parse now tok key).2 = None -> (jwt_Parse now tok key).1 <> None;
}.

(** ** Types that [encoding/json] reads and writes *)

Class GoJSON (T : Type) : Type := {
  Marshal : T -> result string;
  Unmarshal : string -> result T;
}.

Section Instances.
Context `{Vendor}.

Definition json_error (data : string) : error := plainError (json_error_text data).

#[global] Instance GoJSON_value : GoJSON value := {
  Marshal v := Ok (marshal v);
  Unmarshal data := match unmarshal data with Some v => Ok v | None => Err (json_error data) end;
}.

#[global] Instance GoJSON_string : GoJSON string := {
  Marshal s := Ok (quote s);
  Unmarshal data := match unmarshal data with
                    | Some (VString s) => Ok s
                    | Some VNull => Ok ""
                    | _ => Err (json_error data)
                    end;
}.

(** [Marshal] checks and compacts what [MarshalJSON] returned. *)
#[global] Instance GoJSON_RawExtension : GoJSON RawExtension := {
  Marshal r := let b := RawExtension_MarshalJSON r in
               if valid_json b then Ok (compact b) else Err (json_error b);
  Unmarshal data := if valid_json data then Ok (RawExtension_UnmarshalJSON data)
                    else Err (json_error data);
}.
End Instances.
