(* ===== verification/X509.v ===== *)
(** * Keys and certificates ([pkg/util/x509.go])

    What templates call to make private keys and certificates.  The
    cryptography is [Crypto], PEM is [Pem]. *)

From S2P Require Import Prelude Json Errors Types Platform Vendor Pem.

Local Open Scope broker_scope.

Definition ErrInvalidPublicKey : string := "invalid public key".
Definition ErrInvalidSubjectAltName : string := "invalid subject alt name".

Definition pemTypeRSAPrivateKey : string := "RSA PRIVATE KEY".
Definition pemTypePrivateKey : string := "PRIVATE KEY".
Definition pemTypeECPrivateKey : string := "EC PRIVATE KEY".
Definition pemTypeCertificate : string := "CERTIFICATE".

(** [KeyType] *)
Definition KeyTypeRSA : string := "RSA".
Definition KeyTypeEllipticP224 : string := "EllipticP224".
Definition KeyTypeEllipticP256 : string := "EllipticP256".
Definition KeyTypeEllipticP384 : string := "EllipticP384".
Definition KeyTypeEllipticP521 : string := "EllipticP521".
Definition KeyTypeED25519 : string := "ED25519".

(** [KeyEncodingType] *)
Definition KeyEncodingPKCS1 : string := "PKCS#1".
Definition KeyEncodingPKCS8 : string := "PKCS#8".
Definition KeyEncodingSEC1 : string := "SEC 1".

(** [CertificateUsage] *)
Definition CertificateUsage_CA : string := "CA".
Definition CertificateUsage_Server : string := "Server".
Definition CertificateUsage_Client : string := "Client".

(** [x509.KeyUsage] and [x509.ExtKeyUsage] *)
Definition KeyUsageDigitalSignature : Z := 1.
Definition KeyUsageKeyEncipherment : Z := 4.
Definition KeyUsageCertSign : Z := 32.
Definition KeyUsageCRLSign : Z := 64.
Definition ExtKeyUsageServerAuth : Z := 1.
Definition ExtKeyUsageClientAuth : Z := 2.

Section X509.
Context `{Vendor}.

(** A call of a function that draws from [rand.Reader]. *)
Definition random {A} (f : string -> A) : prog A := rand <- call RandReader ;; Ret (f rand).

Definition generate_curve (c : Curve) : prog (result crypto_PrivateKey) :=
  key <-? random (ecdsa_GenerateKey c) ;; Ret (Ok (ecdsaPrivateKey key)).

(** The first half of [GenerateKey]: the switch on the type. *)
Definition generate_private (keyType : string) (bits : option Z) : prog (result crypto_PrivateKey) :=
  if keyType =?s KeyTypeRSA then
    match bits with
    | None => Ret (Err (NewConfigurationError "RSA key length not specified"))
    | Some bits => key <-? random (fun rand => rsa_GenerateKey rand bits) ;; Ret (Ok (rsaPrivateKey key))
    end
  else if keyType =?s KeyTypeEllipticP224 then generate_curve P224
  else if keyType =?s KeyTypeEllipticP256 then generate_curve P256
  else if keyType =?s KeyTypeEllipticP384 then generate_curve P384
  else if keyType =?s KeyTypeEllipticP521 then generate_curve P521
  else if keyType =?s KeyTypeED25519 then
    key <-? random ed25519_GenerateKey ;; Ret (Ok (ed25519PrivateKey key))
  else Ret (Err (NewConfigurationError ("invalid key type " +++ keyType))).

(** The second half: the switch on the encoding. *)
Definition encode_private (key : crypto_PrivateKey) (encoding : string) : result Block :=
  if encoding =?s KeyEncodingPKCS1 then
    match key with
    | rsaPrivateKey rsaKey => Ok (mkBlock pemTypeRSAPrivateKey (x509_MarshalPKCS1PrivateKey rsaKey))
    | _ => Err (NewConfigurationError "invalid key for PKCS#1 encoding")
    end
  else if encoding =?s KeyEncodingPKCS8 then
    let? b := x509_MarshalPKCS8PrivateKey key in Ok (mkBlock pemTypePrivateKey b)
  else if encoding =?s KeyEncodingSEC1 then
    match key with
    | ecdsaPrivateKey ecKey => let? b := x509_MarshalECPrivateKey ecKey in Ok (mkBlock pemTypeECPrivateKey b)
    | _ => Err (NewConfigurationError "invalid key for EC encoding")
    end
  else Err (NewConfigurationError ("invalid encoding type " +++ encoding)).

Definition GenerateKey (keyType encoding : string) (bits : option Z) : prog (result string) :=
  key <-? generate_private keyType bits ;;
  Ret (let? block := encode_private key encoding in Ok (EncodeToMemory block)).

(** [rand.Int] of a limit of 128 bits. *)
Definition serialLimit : Z := Z.shiftl 1 128.

Definition generateSerial : prog (result Z) :=
  serialNumber <-? call (RandInt serialLimit) ;; Ret (Ok (Z.abs serialNumber)).

Definition generateSubjectKeyIdentifier (pub : option crypto_PublicKey) : result string :=
  let? subjectPublicKey :=
    match pub with
    | Some (rsaPublicKey pub) => asn1_Marshal_rsa pub
    | Some (ecdsaPublicKey pub) => Ok (elliptic_Marshal pub)
    | _ => Err (plainError ErrInvalidPublicKey)
    end in
  Ok (sha1_Sum subjectPublicKey).

(** The only block of a PEM file. *)
Definition decode_single (pem : string) : result Block :=
  match Decode pem with
  | (None, _) => Err (NewConfigurationError "unable to decode certificate key PEM file")
  | (Some block, rest) =>
      if negb (rest =?s "") then Err (NewConfigurationError "unexpected content in PEM file") else Ok block
  end.

Definition DecodePrivateKey (keyPEM : string) : result crypto_PrivateKey :=
  let? block := decode_single keyPEM in
  if block_Type block =?s pemTypeRSAPrivateKey then
    let? v := x509_ParsePKCS1PrivateKey (block_Bytes block) in Ok (rsaPrivateKey v)
  else if block_Type block =?s pemTypePrivateKey then x509_ParsePKCS8PrivateKey (block_Bytes block)
  else if block_Type block =?s pemTypeECPrivateKey then
    let? v := x509_ParseECPrivateKey (block_Bytes block) in Ok (ecdsaPrivateKey v)
  else Err (NewConfigurationError ("private key format " +++ block_Type block +++ " unsupported")).

Definition DecodeCertificate (certPEM : string) : result Certificate :=
  let? block := decode_single certPEM in
  if negb (block_Type block =?s pemTypeCertificate)
  then Err (NewConfigurationError ("certificate format " +++ block_Type block +++ " unsupported"))
  else x509_ParseCertificate (block_Bytes block).

Definition with_names (c : Certificate) (dns emails : list string) : Certificate :=
  mkCertificate (cert_SerialNumber c) (cert_Subject c) (cert_NotBefore c) (cert_NotAfter c)
    (cert_BasicConstraintsValid c) (cert_SubjectKeyId c) dns emails (cert_IsCA c) (cert_KeyUsage c)
    (cert_ExtKeyUsage c) (cert_Raw c).

(** One turn of the loop over the subject alternative names.  (The second
    error also wraps [ErrInvalidSubjectAltName], without a colon.) *)
Definition add_san (certificate : Certificate) (san : string) : result Certificate :=
  match split_char ":" san with
  | [typ; name] =>
      if typ =?s "DNS" then
        Ok (with_names certificate (cert_DNSNames certificate ++ [name]) (cert_EmailAddresses certificate))
      else if typ =?s "EMAIL" then
        Ok (with_names certificate (cert_DNSNames certificate) (cert_EmailAddresses certificate ++ [name]))
      else Err (plainError (ErrInvalidSubjectAltName +++ " unsupported SAN type " +++ typ))
  | _ => Err (wrappedError ErrInvalidSubjectAltName ("malformed SAN " +++ san))
  end.

Fixpoint add_sans (certificate : Certificate) (sans : list string) : result Certificate :=
  match sans with
  | [] => Ok certificate
  | san :: sans => let? certificate := add_san certificate san in add_sans certificate sans
  end.

Definition with_usage (c : Certificate) (isCA : bool) (keyUsage : Z) (ext : list Z) : Certificate :=
  mkCertificate (cert_SerialNumber c) (cert_Subject c) (cert_NotBefore c) (cert_NotAfter c)
    (cert_BasicConstraintsValid c) (cert_SubjectKeyId c) (cert_DNSNames c) (cert_EmailAddresses c) isCA keyUsage
    ext (cert_Raw c).

(** The switch on the usage. *)
Definition set_usage (certificate : Certificate) (usage : string) : result Certificate :=
  if usage =?s CertificateUsage_CA then
    Ok (with_usage certificate true (Z.lor KeyUsageCertSign KeyUsageCRLSign) (cert_ExtKeyUsage certificate))
  else if usage =?s CertificateUsage_Server then
    Ok (with_usage certificate (cert_IsCA certificate) (Z.lor KeyUsageDigitalSignature KeyUsageKeyEncipherment)
          [ExtKeyUsageServerAuth])
  else if usage =?s CertificateUsage_Client then
    Ok (with_usage certificate (cert_IsCA certificate) KeyUsageDigitalSignature [ExtKeyUsageClientAuth])
  else Err (NewConfigurationError ("unknown usage type " +++ usage)).

(** The key and certificate that sign: those of the authority where its key
    is not nil, else the certificate signs itself. *)
Definition signer (key : crypto_PrivateKey) (certificate : Certificate) (caKeyPEM caCertPEM : option string)
    : result (crypto_PrivateKey * Certificate) :=
  match caKeyPEM with
  | None => Ok (key, certificate)
  | Some caKeyPEM =>
      let? caKey := DecodePrivateKey caKeyPEM in
      let? caCert := DecodeCertificate (default "" caCertPEM) in
      Ok (caKey, caCert)
  end.

Definition refuse_ed25519 (key : crypto_PrivateKey) : result unit :=
  match key with
  | ed25519PrivateKey _ => Err (NewConfigurationError "cannot use ed25519 keys for x.509 certificates")
  | _ => Ok tt
  end.

Definition GenerateCertificate (keyPEM cn : string) (lifetime : Z) (usage : string) (sans : list string)
    (caKeyPEM caCertPEM : option string) : prog (result string) :=
  match (let? key := DecodePrivateKey keyPEM in let? _ := refuse_ed25519 key in Ok key) with
  | Err err => Ret (Err err)
  | Ok key =>
      csr <-? random (fun rand => x509_CreateCertificateRequest rand (mkName cn []) key) ;;
      match x509_ParseCertificateRequest csr with
      | Err err => Ret (Err err)
      | Ok req =>
          serialNumber <-? generateSerial ;;
          match generateSubjectKeyIdentifier (csr_PublicKey req) with
          | Err err => Ret (Err err)
          | Ok subjectKeyID =>
              notBefore <- call TimeNow ;;
              let certificate := mkCertificate serialNumber (csr_Subject req) notBefore (notBefore + lifetime)%Z
                                   true subjectKeyID [] [] false 0 [] None in
              match (let? certificate := add_sans certificate sans in
                     let? certificate := set_usage certificate usage in
                     let? s := signer key certificate caKeyPEM caCertPEM in
                     Ok (certificate, s.1, s.2)) with
              | Err err => Ret (Err err)
              | Ok (certificate, caKey, caCert) =>
                  cert <-? random (fun rand => x509_CreateCertificate rand certificate caCert (csr_PublicKey req) caKey) ;;
                  Ret (Ok (EncodeToMemory (mkBlock pemTypeCertificate cert)))
              end
          end
      end
  end.
End X509.
