(* ===== verification/SimCrypto.v ===== *)
(** * Concrete keys and certificates

    An executable [Crypto] that obeys [CryptoLaws]: a key is the bytes it was
    generated from, an encoded certificate a numeral.  Nothing of the broker is
    modelled here; nor is anything secret. *)

From S2P Require Import Prelude Errors Platform Crypto.

Local Open Scope broker_scope.

(** Values as texts: the bits of their codes. *)
Fixpoint text_of_positive (p : positive) : string :=
  match p with
  | xI p => String "1" (text_of_positive p)
  | xO p => String "0" (text_of_positive p)
  | xH => EmptyString
  end.

Fixpoint positive_of_text (s : string) : positive :=
  match s with
  | EmptyString => xH
  | String c s => if Ascii.eqb c "1" then xI (positive_of_text s) else xO (positive_of_text s)
  end.

Lemma positive_text p : positive_of_text (text_of_positive p) = p.
Proof. induction p as [p IH|p IH|]; cbn; [by rewrite IH..|done]. Qed.

Definition to_text {A} `{Countable A} (a : A) : string := text_of_positive (encode a).
Definition of_text {A} `{Countable A} (s : string) : result A :=
  match decode (positive_of_text s) with Some a => Ok a | None => Err (plainError "malformed") end.

Lemma of_to_text {A} `{Countable A} (a : A) : of_text (to_text a) = Ok a.
Proof. unfold of_text, to_text. by rewrite positive_text, decode_encode. Qed.

#[global] Instance Curve_eq_dec : EqDecision Curve.
Proof. solve_decision. Defined.

#[global] Instance Curve_countable : Countable Curve.
Proof.
  refine (inj_countable' (fun c => match c with P224 => 0 | P256 => 1 | P384 => 2 | P521 => 3 end)
            (fun n => match n with 0 => P224 | 1 => P256 | 2 => P384 | _ => P521 end) _). by intros [].
Defined.

(** A certificate as a tuple. *)
Definition certificate_tuple (c : Certificate) :=
  (cert_SerialNumber c, (CommonName (cert_Subject c), Names (cert_Subject c)), (cert_NotBefore c, cert_NotAfter c),
   cert_BasicConstraintsValid c, cert_SubjectKeyId c, (cert_DNSNames c, cert_EmailAddresses c),
   (cert_IsCA c, cert_KeyUsage c, cert_ExtKeyUsage c)).

(** What is encoded: times to the second, the basic constraints when they are
    valid, and nothing of where it came from. *)
Definition encoded (c : Certificate) : Certificate :=
  mkCertificate (cert_SerialNumber c) (cert_Subject c) (to_second (cert_NotBefore c)) (to_second (cert_NotAfter c))
    (cert_BasicConstraintsValid c) (cert_SubjectKeyId c) (cert_DNSNames c) (cert_EmailAddresses c)
    (cert_BasicConstraintsValid c && cert_IsCA c) (cert_KeyUsage c) (cert_ExtKeyUsage c) None.

Definition sim_ParseCertificate (der : string) : result Certificate :=
  let? t := of_text (A := Z * (string * list (string * string)) * (Z * Z) * bool * string * (list string * list string) *
                          (bool * Z * list Z)) der in
  let '(serial, (cn, names), (before, after), valid, id, (dns, email), (ca, usage, ext)) := t in
  Ok (mkCertificate serial (mkName cn names) before after valid id dns email ca usage ext (Some der)).

#[local] Instance SimCrypto : Crypto := {|
  rsa_PrivateKey := string; rsa_PublicKey := string;
  ecdsa_PrivateKey := Curve * string; ecdsa_PublicKey := Curve * string;
  ed25519_PrivateKey := string; other_PublicKey := string;
  key_Public k :=
    match k with
    | rsaPrivateKey k => rsaPublicKey k
    | ecdsaPrivateKey k => ecdsaPublicKey k
    | ed25519PrivateKey k => otherPublicKey k
    end;
  ecdsa_Curve k := k.1;
  rsa_GenerateKey rand bits :=
    if (bits <? 12)%Z then Err (plainError "crypto/rsa: too few primes of given length to generate an RSA key") else Ok rand;
  ecdsa_GenerateKey c rand := Ok (c, rand);
  ed25519_GenerateKey rand := Ok rand;
  x509_MarshalPKCS1PrivateKey k := k;
  x509_MarshalPKCS8PrivateKey k :=
    Ok (match k with
        | rsaPrivateKey k => String "R" k
        | ecdsaPrivateKey k => String "E" (to_text k)
        | ed25519PrivateKey k => String "D" k
        end);
  x509_MarshalECPrivateKey k := Ok (to_text k);
  x509_ParsePKCS1PrivateKey der := Ok der;
  x509_ParsePKCS8PrivateKey der :=
    match der with
    | String "R" k => Ok (rsaPrivateKey k)
    | String "E" k => let? k := of_text k in Ok (ecdsaPrivateKey k)
    | String "D" k => Ok (ed25519PrivateKey k)
    | _ => Err (plainError "malformed")
    end;
  x509_ParseECPrivateKey der := of_text der;
  x509_CreateCertificateRequest rand name key :=
    Ok (to_text (CommonName name,
          match key with
          | rsaPrivateKey k => (0, P224, k)
          | ecdsaPrivateKey k => (1, k.1, k.2)
          | ed25519PrivateKey k => (2, P224, k)
          end));
  x509_ParseCertificateRequest der :=
    let? t := of_text (A := string * (nat * Curve * string)) der in
    Ok (mkCertificateRequest (mkName t.1 [])
          (Some (match t.2.1.1 with
                 | 0 => rsaPublicKey t.2.2
                 | 1 => ecdsaPublicKey (t.2.1.2, t.2.2)
                 | _ => otherPublicKey t.2.2
                 end)));
  x509_CreateCertificate rand template parent pub key := Ok (to_text (certificate_tuple (encoded template)));
  x509_ParseCertificate := sim_ParseCertificate;
  asn1_Marshal_rsa k := Ok k;
  elliptic_Marshal := to_text;
  sha1_Sum s := "sha1:" +++ s;
|}.

Lemma SimCrypto_laws : CryptoLaws.
Proof.
  split.
  - done.
  - intros [k|k|k] der [= <-]; cbn; [done| |done]. by rewrite of_to_text.
  - intros k der [= <-]. apply of_to_text.
  - intros k. by exists k.
  - intros k. by exists k.
  - by intros c rand k [= <-].
  - intros rand name key der [= <-]. eexists. cbn [x509_ParseCertificateRequest SimCrypto]. rewrite of_to_text. cbn [res_bind].
    split; [reflexivity|]. by destruct key as [|[]|].
  - intros rand template parent pub key der [= <-]. eexists. cbn [x509_ParseCertificate SimCrypto]. unfold sim_ParseCertificate.
    rewrite of_to_text. cbn [res_bind certificate_tuple encoded]. split; [reflexivity|]. done.
Qed.
