(* ===== verification/Sim.v ===== *)
(** * A concrete platform

    An executable [World] that obeys [PlatformLaws] and a [Vendor] that obeys
    [VendorLaws]: a small API server that keeps secrets and objects in maps
    and numbers their versions, a clock, a database of one query.  Nothing of
    the broker is modelled here; the theorems hold of every platform, and this
    one shows that their hypotheses can be met. *)

From S2P Require Import Prelude Json Errors Types Platform Vendor SimCrypto.
From Stdlib Require Import DecimalString Lia.

Local Open Scope broker_scope.

Record SimSecret : Type := mkSimSecret {
  sim_uid : string;
  sim_version : Z;
  sim_labels : gmap string string;
  sim_annotations : gmap string string;
  sim_data : option (gmap string string);
}.

Record SimWorld : Type := mkSim {
  sim_secrets : gmap (string * string) SimSecret;
  sim_objects : gmap (string * string * string) value;
  sim_config : option ServiceBrokerConfig;
  sim_up : bool;
  sim_counter : Z;
  sim_clock : Z;
  sim_rows : list (list string);
  sim_draws : nat;                      (* the draws that the next selects lose *)
}.

Definition empty_sim (c : option ServiceBrokerConfig) : SimWorld := mkSim ∅ ∅ c true 0 0 [] 0.

Definition assemble (k : string * string) (s : SimSecret) : Secret :=
  mkSecret k.2 k.1 (sim_uid s) (string_of_Z (sim_version s)) (sim_labels s) (sim_annotations s) (sim_data s).

Definition sim_stored (w : SimWorld) : gmap (string * string) Secret :=
  map_imap (fun k s => Some (assemble k s)) (sim_secrets w).

(** The version after [old]: the next of all versions. *)
Definition next_version (w : SimWorld) (old : Z) : Z := Z.max (sim_counter w) old + 1.
Definition with_secrets (w : SimWorld) (counter : Z) m :=
  mkSim m (sim_objects w) (sim_config w) (sim_up w) counter (sim_clock w) (sim_rows w) (sim_draws w).
Definition with_objects (w : SimWorld) m :=
  mkSim (sim_secrets w) m (sim_config w) (sim_up w) (sim_counter w) (sim_clock w) (sim_rows w) (sim_draws w).
Definition with_config (w : SimWorld) c :=
  mkSim (sim_secrets w) (sim_objects w) c (sim_up w) (sim_counter w) (sim_clock w) (sim_rows w) (sim_draws w).
Definition tick (w : SimWorld) :=
  mkSim (sim_secrets w) (sim_objects w) (sim_config w) (sim_up w) (sim_counter w + 1)
    (sim_clock w + 10000000) (sim_rows w) (sim_draws w).
Definition lose_draw (w : SimWorld) :=
  mkSim (sim_secrets w) (sim_objects w) (sim_config w) (sim_up w) (sim_counter w)
    (sim_clock w) (sim_rows w) (pred (sim_draws w)).

Definition not_found : error := apiError ReasonNotFound "not found".
Definition already_exists : error := apiError ReasonAlreadyExists "already exists".
Definition conflict : error := apiError (ReasonOther "Conflict") "the object has been modified".
Definition down : error := apiError (ReasonOther "ServiceUnavailable") "the server is down".

Definition to_sim (uid : string) (version : Z) (s : Secret) : SimSecret :=
  mkSimSecret uid version (secret_Labels s) (secret_Annotations s) (secret_Data s).

Definition sim_create (s : Secret) (w : SimWorld) : result Secret * SimWorld :=
  if negb (sim_up w) then (Err down, w) else
  match sim_secrets w !! secret_key s with
  | Some _ => (Err already_exists, w)
  | None =>
      let n := to_sim ("uid-" +++ string_of_Z (sim_counter w)) (next_version w 0) s in
      (Ok (assemble (secret_key s) n), with_secrets w (sim_version n) (<[secret_key s := n]> (sim_secrets w)))
  end.

Definition sim_update (s : Secret) (w : SimWorld) : result Secret * SimWorld :=
  if negb (sim_up w) then (Err down, w) else
  match sim_secrets w !! secret_key s with
  | None => (Err not_found, w)
  | Some old =>
      if (secret_ResourceVersion s =?s "") || (secret_ResourceVersion s =?s string_of_Z (sim_version old))
      then
        let n := to_sim (sim_uid old) (next_version w (sim_version old)) s in
        (Ok (assemble (secret_key s) n), with_secrets w (sim_version n) (<[secret_key s := n]> (sim_secrets w)))
      else (Err conflict, w)
  end.

Definition field (k : string) (v : value) : value :=
  match v with VObject m => default VNull (obj_get k m) | _ => VNull end.
Definition text (v : value) : string := match v with VString s => s | _ => "" end.
Definition object_name (v : value) : string := text (field "name" (field "metadata" v)).
Definition object_key (resource : string) (ns : option string) (name : string) :=
  (resource, default "" ns, name).

(** Writing the object of a template.  Secrets are kept with the others; a name
    of the registry is refused. *)
Definition string_members (v : value) : gmap string string :=
  match v with
  | VObject m => list_to_map (omap (fun kv => match kv.2 with VString s => Some (kv.1, s) | _ => None end) m)
  | _ => ∅
  end.

Definition forbidden : error := apiError (ReasonOther "Forbidden") "the name is reserved".

Definition sim_put (r : string) (ns : option string) (o : value) (w : SimWorld) : result value * SimWorld :=
  let n := object_name o in
  let w' := with_objects w (<[object_key r ns n := o]> (sim_objects w)) in
  if negb (r =?s "Secret") then (Ok o, w')
  else if registry_name n then (Err forbidden, w)
  else
    let k := (default "" ns, n) in
    let v := next_version w (default 0%Z (sim_version <$> sim_secrets w !! k)) in
    let uid := default ("uid-" +++ string_of_Z (sim_counter w)) (sim_uid <$> sim_secrets w !! k) in
    (Ok o, with_secrets w' v (<[k := mkSimSecret uid v ∅ ∅ (Some (string_members (field "stringData" o)))]> (sim_secrets w))).

Definition sim_perform {X} (e : event X) (w : SimWorld) : X * SimWorld :=
  match e in event X return X * SimWorld with
  | SecretsGet ns n =>
      (if negb (sim_up w) then Err down else
       match sim_stored w !! (ns, n) with Some s => Ok s | None => Err not_found end, w)
  | SecretsCreate s => sim_create s w
  | SecretsUpdate s => sim_update s w
  | SecretsDelete ns n =>
      if negb (sim_up w) then (Some down, w)
      else match sim_secrets w !! (ns, n) with
           | Some _ => (None, with_secrets w (sim_counter w + 1) (delete (ns, n) (sim_secrets w)))
           | None => (Some not_found, w)
           end
  | RESTMapping group kind version => (Ok (mkMapping kind (kind =?s "Namespace")), w)
  | DynamicGet r ns n =>
      (match sim_objects w !! object_key r ns n with Some o => Ok o | None => Err not_found end, w)
  | DynamicCreate r ns o =>
      match sim_objects w !! object_key r ns (object_name o) with
      | Some _ => (Err already_exists, w)
      | None => sim_put r ns o w
      end
  | DynamicUpdate r ns o =>
      match sim_objects w !! object_key r ns (object_name o) with
      | Some _ => sim_put r ns o w
      | None => (Err not_found, w)
      end
  | ConfigsUpdate _ _ => (Ok tt, w)
  | ConfigRead => (sim_config w, w)
  | ConfigWrite c => (tt, with_config w c)
  | MutexRLock | MutexRUnlock | MutexLock | MutexUnlock => (tt, w)
  | NewUUID => ("uuid-" +++ string_of_Z (sim_counter w), tick w)
  | RandInt limit => (Ok (sim_counter w mod limit)%Z, tick w)
  | Petname _ _ => ("happy-panda", w)
  | RandReader => ("bytes-" +++ string_of_Z (sim_counter w), tick w)
  | TimeNow => (sim_clock w, w)
  | SelectDone deadline =>
      if (deadline <=? sim_clock w)%Z && (sim_draws w =? 0)%nat then (true, w)
      else (false, tick (if (deadline <=? sim_clock w)%Z then lose_draw w else w))
  | DbQuery _ _ => (Ok (sim_rows w), w)
  | RangeMap keys => (keys, w)
  end.

#[export] Instance SimWorld_World : World SimWorld := fun X => sim_perform.

(** ** The laws *)

Lemma sim_stored_lookup w k : sim_stored w !! k = assemble k <$> sim_secrets w !! k.
Proof. unfold sim_stored. rewrite map_lookup_imap. by destruct (sim_secrets w !! k). Qed.

Lemma sim_stored_insert w n k s :
  sim_stored (with_secrets w n (<[k := s]> (sim_secrets w))) = <[k := assemble k s]> (sim_stored w).
Proof.
  apply map_eq. intros i. rewrite sim_stored_lookup. cbn. rewrite !lookup_insert.
  case_decide; [by subst|]. by rewrite sim_stored_lookup.
Qed.

Lemma assemble_payload uid v s : same_payload s (assemble (secret_key s) (to_sim uid v s)).
Proof. by repeat split. Qed.

(** Only a secret whose name is not the registry's is written with an object. *)
Lemma sim_put_untemplated r ns o w k :
  negb (registry_name k.2) = false -> sim_stored (sim_put r ns o w).2 !! k = sim_stored w !! k.
Proof.
  intros Hk%negb_false_iff. unfold sim_put. destruct (r =?s "Secret"); cbn [negb]; [|done].
  destruct (registry_name (object_name o)) eqn:Hn; [done|]. rewrite !sim_stored_lookup. cbn.
  rewrite lookup_insert_ne; [done|]. intros <-. cbn in Hk. congruence.
Qed.

#[export] Program Instance SimWorld_laws : PlatformLaws SimWorld := {|
  stored := sim_stored;
  configured := sim_config;
  available w := sim_up w = true;
  issued w _ v := exists z, v = string_of_Z z /\ (z <= sim_counter w)%Z;
  templated k := negb (registry_name k.2);
  clock := sim_clock;
  draws_lost w _ := sim_draws w;
|}.
Next Obligation.
  intros w k s. rewrite sim_stored_lookup. destruct (sim_secrets w !! k); [|done].
  intros [= <-]. by destruct k.
Qed.
Next Obligation.
  intros X e w He. destruct e; try done; simpl; unfold perform, SimWorld_World, sim_perform; by repeat case_match.
Qed.
Next Obligation.
  intros X e w k He Hk. destruct e; try done; simpl; unfold perform, SimWorld_World, sim_perform;
    try (by repeat case_match); case_match; try done; by apply sim_put_untemplated.
Qed.
Next Obligation. intros ns n Hn. simpl. apply negb_false_iff, Hn. Qed.
Next Obligation.
  intros X e w He. destruct e; try done; simpl;
    unfold perform, SimWorld_World, sim_perform, sim_create, sim_update, sim_put; by repeat case_match.
Qed.
Next Obligation.
  intros X e w He. destruct e; try done; simpl;
    unfold perform, SimWorld_World, sim_perform, sim_create, sim_update, sim_put; by repeat case_match.
Qed.
Next Obligation.
  intros ns n w s. unfold perform, SimWorld_World; simpl. by repeat case_match; intros; simplify_eq.
Qed.
Next Obligation.
  intros ns n w e. unfold perform, SimWorld_World; simpl. by repeat case_match; intros; simplify_eq.
Qed.
Next Obligation.
  intros s w s'. unfold perform, SimWorld_World; simpl. unfold sim_create.
  destruct (sim_up w); simpl; [|done]. destruct (sim_secrets w !! secret_key s) eqn:E; simpl; [done|].
  intros [= <-]. split; [by rewrite sim_stored_lookup, E|]. split; [|apply assemble_payload].
  apply sim_stored_insert.
Qed.
Next Obligation.
  intros s w e. unfold perform, SimWorld_World; simpl. unfold sim_create. by repeat case_match.
Qed.
Next Obligation.
  intros s w s'. unfold perform, SimWorld_World; simpl. unfold sim_update.
  destruct (sim_up w); simpl; [|done]. destruct (sim_secrets w !! secret_key s) as [old|] eqn:E; simpl; [|done].
  case_match eqn:Hv; simpl; [|done]. intros [= <-]. exists (assemble (secret_key s) old).
  split; [by rewrite sim_stored_lookup, E|]. split.
  { apply orb_prop in Hv as [Hv|Hv]; bool_solver; auto. }
  split; [apply sim_stored_insert|]. split; [apply assemble_payload|]. split; [done|].
  split; [apply string_of_Z_nonempty|]. simpl. intros Hz%string_of_Z_inj. unfold next_version in Hz. lia.
Qed.
Next Obligation.
  intros s w e. unfold perform, SimWorld_World; simpl. unfold sim_update. by repeat case_match.
Qed.
Next Obligation.
  intros ns n w. unfold perform, SimWorld_World; simpl. repeat case_match; try done. intros _. simpl.
  apply map_eq. intros i. rewrite sim_stored_lookup. simpl. rewrite !lookup_delete.
  case_decide; [by subst|]. by rewrite sim_stored_lookup.
Qed.
Next Obligation.
  intros ns n w e. unfold perform, SimWorld_World; simpl. by repeat case_match.
Qed.
Next Obligation.
  intros ns n w s Hup Hs. unfold perform, SimWorld_World; simpl. by rewrite Hup, Hs.
Qed.
Next Obligation.
  intros ns n w Hup Hs. unfold perform, SimWorld_World; simpl. rewrite Hup, Hs. eauto.
Qed.
Next Obligation.
  intros s w Hup Hs. unfold perform, SimWorld_World; simpl. unfold sim_create.
  rewrite sim_stored_lookup in Hs. rewrite Hup. destruct (sim_secrets w !! secret_key s); [done|]. eauto.
Qed.
Next Obligation.
  intros s w old Hup Hs Hv. unfold perform, SimWorld_World; simpl. unfold sim_update.
  rewrite sim_stored_lookup in Hs. rewrite Hup. destruct (sim_secrets w !! secret_key s); [|done].
  injection Hs as <-. simpl in Hv |- *. rewrite Hv, orb_comm. rewrite bool_decide_true by done. eauto.
Qed.
Next Obligation.
  intros ns n w s Hup Hs. unfold perform, SimWorld_World; simpl.
  rewrite sim_stored_lookup in Hs. rewrite Hup. by destruct (sim_secrets w !! (ns, n)).
Qed.
Next Obligation.
  intros X e w k v (z & -> & Hz). exists z. split; [done|]. destruct e; try done; simpl;
    unfold perform, SimWorld_World, sim_perform, sim_create, sim_update, sim_put; repeat case_match; simpl;
    unfold next_version; lia.
Qed.
Next Obligation.
  intros s w s'. unfold perform, SimWorld_World; simpl. unfold sim_create.
  destruct (sim_up w); simpl; [|done]. destruct (sim_secrets w !! secret_key s) eqn:E; simpl; [done|].
  intros [= <-]. simpl. split; [apply string_of_Z_nonempty|]. split; [|by eexists].
  intros (z & Hv%string_of_Z_inj & Hz). unfold next_version in Hv. lia.
Qed.
Next Obligation.
  intros s w s'. unfold perform, SimWorld_World; simpl. unfold sim_update.
  destruct (sim_up w); simpl; [|done]. destruct (sim_secrets w !! secret_key s) as [old|] eqn:E; simpl; [|done].
  case_match; simpl; [|done]. intros [= <-]. simpl. split; [by eexists|].
  intros (z & Hv%string_of_Z_inj & Hz). unfold next_version in Hv. lia.
Qed.
Next Obligation. done. Qed.
Next Obligation. done. Qed.
Next Obligation. done. Qed.

Next Obligation.
  intros limit w i Hl. unfold perform, SimWorld_World; simpl. intros [= <-]. by apply Z.mod_pos_bound.
Qed.
Next Obligation.
  intros X e w. destruct e; try done; simpl;
    unfold perform, SimWorld_World, sim_perform, sim_create, sim_update, sim_put; repeat case_match; simpl; lia.
Qed.
Next Obligation. intros w. unfold perform, SimWorld_World; simpl. lia. Qed.
Next Obligation.
  intros d w. unfold perform, SimWorld_World; simpl. destruct (Z.leb_spec d (sim_clock w)); [|done].
  by destruct (sim_draws w).
Qed.
Next Obligation.
  intros d w. unfold perform, SimWorld_World; simpl. case_match; [done|]. intros _. case_match; simpl; lia.
Qed.
Next Obligation.
  intros X e w d. destruct e; try done; simpl;
    unfold perform, SimWorld_World, sim_perform, sim_create, sim_update, sim_put; repeat case_match; simpl; lia.
Qed.
Next Obligation.
  intros d w. unfold perform, SimWorld_World; simpl. destruct (Z.leb_spec d (sim_clock w)); [|lia].
  destruct (sim_draws w) eqn:E; simpl; [done|]. rewrite E. simpl. lia.
Qed.

(** ** Third-party code *)

Fixpoint split_on (c : ascii) (s : string) : list string :=
  match s with
  | EmptyString => [""]
  | String d r =>
      if Ascii.eqb c d then "" :: split_on c r
      else match split_on c r with
           | [] => [String d ""]
           | x :: l => String d x :: l
           end
  end.

Fixpoint get_path (path : list string) (v : value) : option value :=
  match path with
  | [] => Some v
  | k :: path =>
      match v with
      | VObject m => match obj_get k m with Some v => get_path path v | None => None end
      | _ => None
      end
  end.

Fixpoint set_path (path : list string) (x v : value) : value :=
  match path with
  | [] => x
  | k :: path =>
      match v with
      | VObject m => VObject (obj_set k (set_path path x (default (VObject []) (obj_get k m))) m)
      | _ => VObject [(k, set_path path x (VObject []))]
      end
  end.

Definition not_json (s : string) : error := plainError "not JSON".

(** A schema is an object whose [required] member lists the names of the
    members a value must have. *)
Definition sim_against_schema (schema v : value) : option error :=
  match field "required" schema with
  | VArray names =>
      match find_first (fun n => match get_path [text n] v with None => true | Some _ => false end) names with
      | Some n => Some (plainError (text n +++ " is required"))
      | None => None
      end
  | _ => None
  end.

(** A token is [user:key]; it is valid under its key. *)
Definition sim_jwt_Parse (now : Z) (tok key : string) : option jwt_Token * option error :=
  match split_on ":" tok with
  | [user; k] =>
      let claims := Some {["username" := VString user]} in
      if k =?s key then (Some (mkToken true claims), None)
      else (Some (mkToken false claims), Some (plainError "signature is invalid"))
  | _ => (None, Some (plainError "token contains an invalid number of segments"))
  end.

(** Only the user name can be signed, and neither it nor the key may hold the
    separator or a blank. *)
Definition sim_sign (claims : gmap string value) (key : string) : result string :=
  match claims !! "username" with
  | Some (VString user) =>
      let token := user +++ ":" +++ key in
      match split_on ":" user, split_on ":" key, split_on " " token with
      | [_], [_], [_] => if bool_decide (claims = {["username" := VString user]}) then Ok token
                         else Err (plainError "unsupported claims")
      | _, _, _ => Err (plainError "unsupported characters")
      end
  | _ => Err (plainError "no user")
  end.

(** Templates of one action: words separated by blanks, a bar between
    commands; and one conditional. *)
Definition sim_word (w : string) : arg :=
  match w with
  | String c r =>
      if Ascii.eqb c dquote then StringNode (String.substring 0 (String.length r - 1) r)
      else if is_digit c then
        NumberNode (match unmarshal w with Some (VFloat l) => DecimalString.NilZero.int_of_string l ≫= fun i => Some (Z.of_int i) | _ => None end)
          w false
      else if w =?s "nil" then NilNode
      else if w =?s "." then DotNode
      else if w =?s "true" then BoolNode true
      else if Ascii.eqb c "." then FieldNode (tl (split_on "." w))
      else IdentifierNode w
  | EmptyString => NilNode
  end.

Fixpoint sim_commands (words : list string) : list command :=
  match words with
  | [] => [[]]
  | w :: l =>
      if w =?s "|" then [] :: sim_commands l
      else match sim_commands l with c :: cs => (sim_word w :: c) :: cs | [] => [[sim_word w]] end
  end.

Definition sim_template_Parse (s : string) : result (list node) :=
  if s =?s "{{if true}}{{1}}{{end}}"
  then Ok [IfNode (mkPipe [] false [[BoolNode true]])
             [ActionNode (mkPipe [] false [[NumberNode (Some 1%Z) "1" false]])] None]
  else if s =?s "{{with 1}}{{.}}{{end}}"
  then Ok [WithNode (mkPipe [] false [[NumberNode (Some 1%Z) "1" false]])
             [ActionNode (mkPipe [] false [[DotNode]])] None]
  else let body := String.substring 2 (String.length s - 4) s in
       Ok [ActionNode (mkPipe [] false
             (sim_commands (base.filter (fun w => negb (w =?s "")) (split_on " " body))))].

(** A route matches when its segments do; [:name] matches any segment. *)
Fixpoint sim_match (pattern path : list string) : option (list (string * string)) :=
  match pattern, path with
  | [], [] => Some []
  | String ":" n :: pattern, x :: path => cons (n, x) <$> sim_match pattern path
  | y :: pattern, x :: path => if x =?s y then sim_match pattern path else None
  | _, _ => None
  end.

Fixpoint sim_lookup (i : nat) (routes : list (string * string)) (m p : string)
    : option nat * list (string * string) :=
  match routes with
  | [] => (None, [])
  | (m', pattern) :: routes =>
      match sim_match (split_on "/" pattern) (split_on "/" p) with
      | Some params => if m =?s m' then (Some i, params) else sim_lookup (S i) routes m p
      | None => sim_lookup (S i) routes m p
      end
  end.

#[export] Instance SimVendor : Vendor := {|
  vendor_crypto := SimCrypto;
  Application := "service-broker";
  Version := "1.0.0";
  json_error_text _ := "invalid JSON";
  RawExtension_MarshalJSON r := default "null" (Raw r);
  RawExtension_UnmarshalJSON s := if s =?s "null" then mkRaw None else mkRaw (Some s);
  RawExtension_String r := default "" (Raw r);
  jsonpointer_New p :=
    match p with
    | EmptyString => None
    | String c _ => if Ascii.eqb c "/" then None else Some (plainError "JSON pointer must be empty or start with /")
    end;
  jsonpointer_Get p v :=
    match get_path (tl (split_on "/" p)) v with
    | Some x => Ok x
    | None => Err (plainError "object has no key")
    end;
  spec_Schema := value;
  Schema_UnmarshalJSON s := match unmarshal s with Some v => Ok v | None => Err (not_json s) end;
  AgainstSchema := sim_against_schema;
  Unstructured_UnmarshalJSON s :=
    match unmarshal s with Some (VObject m) => Ok (VObject m) | _ => Err (not_json s) end;
  Unstructured_MarshalJSON v := Ok (marshal v);
  GetAPIVersion v := text (field "apiVersion" v);
  GetKind v := text (field "kind" v);
  GetName := object_name;
  GetNamespace v := text (field "namespace" (field "metadata" v));
  GroupVersionKind v := ("", text (field "apiVersion" v), text (field "kind" v));
  NestedStringMap v path := Ok (string_members <$> get_path path v);
  SetNestedStringMap v m path :=
    Ok (set_path path (VObject (foldl (fun o kv => obj_set kv.1 (VString kv.2) o) [] (map_to_list m))) v);
  NestedString v path := Ok (text <$> get_path path v);
  SetNestedField v x path := Ok (set_path path x v);
  NestedSlice v path :=
    match get_path path v with
    | Some (VArray l) => Ok (Some l)
    | Some _ => Err (plainError "not a slice")
    | None => Ok None
    end;
  SetNestedSlice v l path := Ok (set_path path (VArray l) v);
  SetOwnerReferences v l := set_path ["metadata"; "ownerReferences"] (VArray l) v;
  ParseGroupVersion s := Ok ("", s);
  CreateMergePatch a b := Ok b;
  MergePatch a b := Ok b;
  jwt_Parse := sim_jwt_Parse;
  jwt_SignedString := sim_sign;
  template_Parse := sim_template_Parse;
  template_builtin name _ := Err (plainError ("no function " +++ name));
  exec_error_text reason := "template: inline template: " +++ reason;
  fmt_Sprint := marshal;
  ParseDuration s := if s =?s "1h" then Ok 3600000000000%Z else Err (plainError "time: invalid duration");
  httprouter_Lookup := sim_lookup 0;
  httprouter_Unmatched _ _ _ := 404%Z;
  sha256_hex s := "sha256:" +++ s;
|}.

#[export] Instance SimVendor_laws : VendorLaws.
Proof.
  split; try reflexivity.
  - intros b Hb. simpl. by rewrite bool_decide_false.
  - intros now tok key. simpl. unfold sim_jwt_Parse. by repeat case_match.
Qed.

#[export] Instance SimVendor_crypto : @CryptoLaws vendor_crypto.
Proof. exact SimCrypto_laws. Qed.
