(* ===== verification/X509Facts.v ===== *)
(** * Properties of keys and certificates ([pkg/util/x509.go])

    A key that was generated is read back; a certificate that was generated
    says what was asked for; and nothing but the cryptography makes a valid
    request fail. *)

From S2P Require Import Prelude Json Errors Types Platform Vendor Sim Pem X509.
From Stdlib Require Import Lia.

Local Open Scope broker_scope.

(** ** Effects *)

(** Making keys and certificates draws bytes and numbers and asks for the time. *)
Definition crypto_call : forall X, event X -> bool := fun X e =>
  match e with RandReader | RandInt _ | TimeNow => true | _ => false end.

Section Effects.
Context `{Vendor}.

Lemma effects_random {A} (f : string -> A) : effects crypto_call (random f).
Proof. by apply effects_bind; [apply effects_call|]. Qed.

Lemma effects_generate_private keyType bits : effects crypto_call (generate_private keyType bits).
Proof.
  unfold generate_private, generate_curve. repeat case_match; try done; (apply effects_try; [apply effects_random|done]).
Qed.

Lemma effects_GenerateKey keyType encoding bits : effects crypto_call (GenerateKey keyType encoding bits).
Proof. apply effects_try; [apply effects_generate_private|done]. Qed.

Lemma effects_GenerateCertificate keyPEM cn lifetime usage sans caKeyPEM caCertPEM :
  effects crypto_call (GenerateCertificate keyPEM cn lifetime usage sans caKeyPEM caCertPEM).
Proof.
  unfold GenerateCertificate. case_match; [|done]. apply effects_try; [apply effects_random|]. intros csr. case_match; [|done].
  apply effects_try; [by apply effects_try; [apply effects_call|]|]. intros serial. case_match; [|done].
  apply effects_bind; [by apply effects_call|]. intros now. cbv zeta. case_match; [|done]. repeat case_match.
  apply effects_try; [apply effects_random|done].
Qed.
End Effects.

Lemma crypto_quiet X (e : event X) : crypto_call X e = true -> no_secret_writes X e = true /\ no_config_writes X e = true.
Proof. by destruct e. Qed.

(** ** What a request asks for *)

Section Requests.
Context `{Vendor}.

(** The key is of the type that was named. *)
Definition has_key_type (keyType : string) (key : crypto_PrivateKey) : Prop :=
  match key with
  | rsaPrivateKey _ => keyType = KeyTypeRSA
  | ecdsaPrivateKey k => keyType = match ecdsa_Curve k with
                                   | P224 => KeyTypeEllipticP224
                                   | P256 => KeyTypeEllipticP256
                                   | P384 => KeyTypeEllipticP384
                                   | P521 => KeyTypeEllipticP521
                                   end
  | ed25519PrivateKey _ => keyType = KeyTypeED25519
  end.

Definition elliptic_types : list string :=
  [KeyTypeEllipticP224; KeyTypeEllipticP256; KeyTypeEllipticP384; KeyTypeEllipticP521].

(** Which keys can be asked for: PKCS#1 is for RSA, SEC 1 for elliptic curves,
    PKCS#8 for all; and RSA needs a length. *)
Definition supported (keyType encoding : string) (bits : option Z) : bool :=
  (if keyType =?s KeyTypeRSA then bool_decide (is_Some bits)
   else bool_decide (keyType ∈ KeyTypeED25519 :: elliptic_types)) &&
  ((encoding =?s KeyEncodingPKCS8) || (encoding =?s KeyEncodingPKCS1) && (keyType =?s KeyTypeRSA) ||
   (encoding =?s KeyEncodingSEC1) && bool_decide (keyType ∈ elliptic_types)).

(** The names of one type among the subject alternative names. *)
Definition names_of (typ : string) (sans : list string) : list string :=
  omap (fun san => match split_char ":" san with [t; n] => if t =?s typ then Some n else None | _ => None end) sans.

Definition valid_san (san : string) : bool :=
  match split_char ":" san with [t; _] => (t =?s "DNS") || (t =?s "EMAIL") | _ => false end.

(** What a certificate of this usage may be used for. *)
Definition usage_of (usage : string) : option (bool * Z * list Z) :=
  if usage =?s CertificateUsage_CA then Some (true, 96, [])%Z
  else if usage =?s CertificateUsage_Server then Some (false, 5, [1])%Z
  else if usage =?s CertificateUsage_Client then Some (false, 1, [2])%Z
  else None.

(** The key that the library made of these random bytes. *)
Definition made_key (bits : option Z) (rand : string) (key : crypto_PrivateKey) : Prop :=
  match key with
  | rsaPrivateKey k => exists n, bits = Some n /\ rsa_GenerateKey rand n = Ok k
  | ecdsaPrivateKey k => exists c, ecdsa_GenerateKey c rand = Ok k
  | ed25519PrivateKey k => ed25519_GenerateKey rand = Ok k
  end.

(** An error of the cryptography on making a key of this type: the function
    for the type failed on these random bytes, or that for the encoding on the
    key that was made of them. *)
Inductive key_error (keyType encoding : string) (bits : option Z) (rand : string) : error -> Prop :=
  | error_rsa n err : keyType = KeyTypeRSA -> bits = Some n -> rsa_GenerateKey rand n = Err err ->
      key_error keyType encoding bits rand err
  | error_ecdsa c err : keyType ∈ elliptic_types -> ecdsa_GenerateKey c rand = Err err ->
      key_error keyType encoding bits rand err
  | error_ed25519 err : keyType = KeyTypeED25519 -> ed25519_GenerateKey rand = Err err ->
      key_error keyType encoding bits rand err
  | error_PKCS8 key err : encoding = KeyEncodingPKCS8 -> has_key_type keyType key -> made_key bits rand key ->
      x509_MarshalPKCS8PrivateKey key = Err err -> key_error keyType encoding bits rand err
  | error_EC k err : encoding = KeyEncodingSEC1 -> has_key_type keyType (ecdsaPrivateKey k) -> made_key bits rand (ecdsaPrivateKey k) ->
      x509_MarshalECPrivateKey k = Err err -> key_error keyType encoding bits rand err.

(** What [GenerateCertificate] needs to be given. *)
Record valid_request (keyPEM usage : string) (sans : list string) (caKeyPEM caCertPEM : option string) : Prop := {
  valid_key : exists key, DecodePrivateKey keyPEM = Ok key /\ refuse_ed25519 key = Ok tt;
  valid_sans : Forall (fun san => valid_san san = true) sans;
  valid_usage : is_Some (usage_of usage);
  valid_signer : forall ca, caKeyPEM = Some ca ->
    (exists k, DecodePrivateKey ca = Ok k) /\ exists c, DecodeCertificate (default "" caCertPEM) = Ok c;
}.

(** The calls of [GenerateCertificate] that starts in this world: random bytes,
    a serial number, the time, and random bytes again. *)
Definition request_bytes {W} `{World W} (w : W) : string := (perform RandReader w).1.
Definition serial_drawn {W} `{World W} (w : W) : result Z := (perform (RandInt serialLimit) (perform RandReader w).2).1.
Definition issue_time {W} `{World W} (w : W) : Z :=
  (perform TimeNow (perform (RandInt serialLimit) (perform RandReader w).2).2).1.
Definition issue_bytes {W} `{World W} (w : W) : string :=
  (perform RandReader (perform TimeNow (perform (RandInt serialLimit) (perform RandReader w).2).2).2).1.

(** The template that this request makes in this world. *)
Record asked {W} `{World W} (w : W) (cn : string) (lifetime : Z) (usage : string) (sans : list string) (template : Certificate) : Prop := {
  asked_serial : serial_drawn w = Ok (cert_SerialNumber template);
  asked_name : CommonName (cert_Subject template) = cn;
  asked_from : cert_NotBefore template = issue_time w;
  asked_until : cert_NotAfter template = (issue_time w + lifetime)%Z;
  asked_hosts : cert_DNSNames template = names_of "DNS" sans;
  asked_addresses : cert_EmailAddresses template = names_of "EMAIL" sans;
  asked_constraints : cert_BasicConstraintsValid template = true;
  asked_usage : usage_of usage = Some (cert_IsCA template, cert_KeyUsage template, cert_ExtKeyUsage template);
}.

(** An error of the cryptography, or of the source of random numbers, on what
    this request gave it in this world: the request for the certificate, the
    serial number, the identifier of the key, or the certificate. *)
Inductive certificate_error {W} `{World W} (w : W) (keyPEM cn : string) (lifetime : Z) (usage : string) (sans : list string)
    (caKeyPEM caCertPEM : option string) : error -> Prop :=
  | error_request key err : DecodePrivateKey keyPEM = Ok key ->
      x509_CreateCertificateRequest (request_bytes w) (mkName cn []) key = Err err ->
      certificate_error w keyPEM cn lifetime usage sans caKeyPEM caCertPEM err
  | error_serial err : serial_drawn w = Err err -> certificate_error w keyPEM cn lifetime usage sans caKeyPEM caCertPEM err
  | error_asn1 k p err : DecodePrivateKey keyPEM = Ok (rsaPrivateKey k) -> key_Public (rsaPrivateKey k) = rsaPublicKey p ->
      asn1_Marshal_rsa p = Err err -> certificate_error w keyPEM cn lifetime usage sans caKeyPEM caCertPEM err
  | error_certificate key template signing parent err : DecodePrivateKey keyPEM = Ok key ->
      asked w cn lifetime usage sans template ->
      signer key template caKeyPEM caCertPEM = Ok (signing, parent) ->
      x509_CreateCertificate (issue_bytes w) template parent (Some (key_Public key)) signing = Err err ->
      certificate_error w keyPEM cn lifetime usage sans caKeyPEM caCertPEM err.

(** What a certificate says that was generated at this time. *)
Record certifies (cn : string) (lifetime : Z) (usage : string) (sans : list string) (now : Z) (cert : Certificate) : Prop := {
  certifies_serial : (0 <= cert_SerialNumber cert < 2 ^ 128)%Z;
  certifies_name : CommonName (cert_Subject cert) = cn;
  certifies_from : cert_NotBefore cert = to_second now;
  certifies_until : cert_NotAfter cert = to_second (now + lifetime);
  certifies_hosts : cert_DNSNames cert = names_of "DNS" sans;
  certifies_addresses : cert_EmailAddresses cert = names_of "EMAIL" sans;
  certifies_usage : usage_of usage = Some (cert_IsCA cert, cert_KeyUsage cert, cert_ExtKeyUsage cert);
}.
End Requests.

(** ** Keys *)

Section Keys.
Context `{Vendor} {W : Type} `{PlatformLaws W}.

Implicit Types s : sys W.

Lemma wp_random {A B} (f : string -> result A) (k : A -> prog (result B)) Q s :
  (let s' := set_world s (perform RandReader (world s)).2 in unchanged s s' ->
   match f (perform RandReader (world s)).1 with Ok a => wp (k a) Q s' | Err err => Q (Err err) s' end) ->
  wp (a <-? random f ;; k a) Q s.
Proof.
  intros HQ. apply wp_try. unfold random. apply wp_bind, wp_call, wp_ret, HQ.
  split; [by apply stored_frame|by apply call_kept].
Qed.

(** A key as the switch on the type makes it. *)
Definition generated (keyType : string) (bits : option Z) (rand : string) (r : result crypto_PrivateKey) : Prop :=
  match r with
  | Ok (rsaPrivateKey k) => keyType = KeyTypeRSA /\ made_key bits rand (rsaPrivateKey k)
  | Ok (ecdsaPrivateKey k) => exists c, ecdsa_GenerateKey c rand = Ok k /\
      forall k', ecdsa_Curve k' = c -> has_key_type keyType (ecdsaPrivateKey k')
  | Ok (ed25519PrivateKey k) => keyType = KeyTypeED25519 /\ made_key bits rand (ed25519PrivateKey k)
  | Err err => (forall encoding, key_error keyType encoding bits rand err) \/
      IsConfigurationError err = true /\ forall encoding, supported keyType encoding bits = false
  end.

Lemma wp_generate_curve c keyType bits (Q : result crypto_PrivateKey -> sys W -> Prop) s :
  keyType ∈ elliptic_types -> (forall k, ecdsa_Curve k = c -> has_key_type keyType (ecdsaPrivateKey k)) ->
  (forall r s', unchanged s s' -> generated keyType bits (perform RandReader (world s)).1 r -> Q r s') ->
  wp (generate_curve c) Q s.
Proof.
  intros Ht Hk HQ. apply wp_random. intros s' Hs'. destruct (ecdsa_GenerateKey c _) as [k|err] eqn:E.
  - apply wp_ret, HQ; [done|]. by exists c.
  - apply HQ; [done|]. left. intros encoding. by eapply error_ecdsa.
Qed.

Lemma wp_generate_private keyType bits (Q : result crypto_PrivateKey -> sys W -> Prop) s :
  (forall r s', unchanged s s' -> generated keyType bits (perform RandReader (world s)).1 r -> Q r s') ->
  wp (generate_private keyType bits) Q s.
Proof.
  intros HQ. unfold generate_private. case_bool_decide as Hr.
  { destruct bits as [bits|].
    - apply wp_random. intros s' Hs'. destruct (rsa_GenerateKey _ bits) as [k|err] eqn:E; [apply wp_ret|]; (apply HQ; [done|]).
      + split; [done|by exists bits].
      + left. intros encoding. by eapply error_rsa.
    - apply wp_ret, HQ; [done|]. right. split; [done|]. intros encoding. unfold supported. by rewrite bool_decide_true by done. }
  do 4 (case_bool_decide; [subst; eapply wp_generate_curve; [| |exact HQ]; [unfold elliptic_types; set_solver|intros k Hk; cbn; by rewrite Hk]|]).
  case_bool_decide as Hd.
  { apply wp_random. intros s' Hs'. destruct (ed25519_GenerateKey _) as [k|err] eqn:E; [apply wp_ret|]; (apply HQ; [done|]); [done|].
    left. intros encoding. by eapply error_ed25519. }
  apply wp_ret, HQ; [done|]. right. split; [done|]. intros encoding. unfold supported, elliptic_types.
  rewrite bool_decide_false by done. rewrite bool_decide_false; [done|]. rewrite !elem_of_cons, elem_of_nil. tauto.
Qed.

Lemma decode_single_encoded typ bytes :
  plain_type typ = true -> decode_single (EncodeToMemory (mkBlock typ bytes)) = Ok (mkBlock typ bytes).
Proof. intros Ht. unfold decode_single. rewrite Decode_encoded by done. by rewrite bool_decide_true. Qed.

(** The key that a block encodes. *)
Lemma encoded_key_decodes `{!CryptoLaws} key encoding block :
  encode_private key encoding = Ok block -> DecodePrivateKey (EncodeToMemory block) = Ok key.
Proof.
  unfold encode_private, DecodePrivateKey. case_bool_decide; [|case_bool_decide; [|case_bool_decide; [|done]]].
  - destruct key as [k|k|k]; try done. intros [= <-]. rewrite decode_single_encoded by done. cbn [res_bind block_Type block_Bytes].
    rewrite bool_decide_true by done. by rewrite parse_PKCS1.
  - destruct (x509_MarshalPKCS8PrivateKey key) as [der|] eqn:E; [|done]. intros [= <-]. rewrite decode_single_encoded by done.
    cbn [res_bind block_Type block_Bytes]. rewrite bool_decide_false, bool_decide_true by done. by apply parse_PKCS8.
  - destruct key as [k|k|k]; try done. destruct (x509_MarshalECPrivateKey k) as [der|] eqn:E; [|done]. intros [= <-].
    rewrite decode_single_encoded by done. cbn [res_bind block_Type block_Bytes].
    rewrite !bool_decide_false, bool_decide_true by done. by rewrite (parse_EC _ _ E).
Qed.

Lemma generated_has_type `{!CryptoLaws} keyType bits rand key : generated keyType bits rand (Ok key) -> has_key_type keyType key.
Proof.
  destruct key as [k|k|k]; cbn; [by intros [-> _]| |by intros [-> _]].
  intros (c & Hg & Hk). by apply Hk, (generated_on_curve c rand).
Qed.

Lemma generated_made keyType bits rand key : generated keyType bits rand (Ok key) -> made_key bits rand key.
Proof. destruct key as [k|k|k]; cbn; [by intros [_ ?]|intros (c & Hg & _); by exists c|by intros [_ ?]]. Qed.

(** [supported] by the type of the key. *)
Lemma supported_key keyType encoding bits key :
  has_key_type keyType key -> match key with rsaPrivateKey _ => is_Some bits | _ => True end ->
  supported keyType encoding bits =
  ((encoding =?s KeyEncodingPKCS8) ||
   match key with
   | rsaPrivateKey _ => encoding =?s KeyEncodingPKCS1
   | ecdsaPrivateKey _ => encoding =?s KeyEncodingSEC1
   | ed25519PrivateKey _ => false
   end).
Proof.
  intros Hk Hb. unfold supported. destruct key as [k|k|k]; cbn in Hk.
  - subst keyType. rewrite (bool_decide_true (is_Some bits)) by done. rewrite (bool_decide_true (KeyTypeRSA = KeyTypeRSA)) by done.
    rewrite (bool_decide_false (KeyTypeRSA ∈ elliptic_types)) by (apply (bool_decide_eq_false _); vm_compute; reflexivity).
    by rewrite andb_false_r, andb_true_r, orb_false_r.
  - assert (keyType ∈ elliptic_types) as Hin by (destruct (ecdsa_Curve k); subst; unfold elliptic_types; set_solver).
    assert (keyType <> KeyTypeRSA) as Hne by (by destruct (ecdsa_Curve k); subst).
    rewrite (bool_decide_false (keyType = KeyTypeRSA)) by done. rewrite (bool_decide_true (keyType ∈ _ :: _)) by (by right).
    rewrite (bool_decide_true (keyType ∈ elliptic_types)) by done. by rewrite andb_false_r, andb_true_r, orb_false_r.
  - subst keyType. rewrite (bool_decide_false (KeyTypeED25519 = KeyTypeRSA)) by done.
    rewrite (bool_decide_true (KeyTypeED25519 ∈ _)) by left.
    rewrite (bool_decide_false (KeyTypeED25519 ∈ elliptic_types)) by (apply (bool_decide_eq_false _); vm_compute; reflexivity).
    by rewrite !andb_false_r, !orb_false_r.
Qed.

Lemma encode_private_outcome keyType bits rand key encoding :
  has_key_type keyType key -> made_key bits rand key ->
  let possible := (encoding =?s KeyEncodingPKCS8) ||
    match key with
    | rsaPrivateKey _ => encoding =?s KeyEncodingPKCS1
    | ecdsaPrivateKey _ => encoding =?s KeyEncodingSEC1
    | ed25519PrivateKey _ => false
    end in
  match encode_private key encoding with
  | Ok _ => possible = true
  | Err err => key_error keyType encoding bits rand err \/ IsConfigurationError err = true /\ possible = false
  end.
Proof.
  cbv zeta. intros Hk Hm. unfold encode_private. case_bool_decide as E1; [|case_bool_decide as E2; [|case_bool_decide as E3]].
  - subst. destruct key; [done|right..]; done.
  - subst. destruct (x509_MarshalPKCS8PrivateKey key) eqn:E; cbn [res_bind]; [done|left]. by eapply error_PKCS8.
  - subst. destruct key as [k|k|k]; [right; done| |right; done].
    destruct (x509_MarshalECPrivateKey k) eqn:E; cbn; [done|left]. by eapply error_EC.
  - right. split; [done|]. by destruct key.
Qed.

Lemma wp_GenerateKey `{!CryptoLaws} keyType encoding bits (Q : result string -> sys W -> Prop) s :
  (forall r s', unchanged s s' ->
    match r with
    | Ok pem => supported keyType encoding bits = true /\
                exists key, DecodePrivateKey pem = Ok key /\ has_key_type keyType key
    | Err err => key_error keyType encoding bits (perform RandReader (world s)).1 err \/
                 IsConfigurationError err = true /\ supported keyType encoding bits = false
    end -> Q r s') -> wp (GenerateKey keyType encoding bits) Q s.
Proof.
  intros HQ. apply wp_try, wp_generate_private. intros r s' Hs' Hr. destruct r as [key|err]; [|apply HQ; [done|]].
  2:{ destruct Hr as [Hr|[Hr Hsup]]; [by left|right]. by split. }
  apply wp_ret, HQ; [done|]. pose proof (generated_has_type _ _ _ _ Hr) as Hk.
  pose proof (encode_private_outcome keyType bits (perform RandReader (world s)).1 key encoding Hk (generated_made _ _ _ _ Hr)) as He.
  rewrite (supported_key keyType encoding bits key Hk); [|destruct key; [destruct Hr as (_ & n & -> & _); by eexists|done..]].
  destruct (encode_private key encoding) as [block|err] eqn:Hb; cbn; [|exact He]. split; [exact He|].
  exists key. split; [|done]. by eapply encoded_key_decodes.
Qed.

(** C28: round trip of keys.  A PEM file that [GenerateKey] made is decoded by
    [DecodePrivateKey] to a key of the type that was asked for (and nothing is
    written); there is one only for the types and encodings that the comments
    say go together.  Otherwise the error is a configuration error, or that of
    the cryptography on the random bytes that were drawn. *)
Theorem generated_key_decodes `{!CryptoLaws} keyType encoding bits s :
  wp (GenerateKey keyType encoding bits) (fun r s' => unchanged s s' /\
    match r with
    | Ok pem => supported keyType encoding bits = true /\
                exists key, DecodePrivateKey pem = Ok key /\ has_key_type keyType key
    | Err err => key_error keyType encoding bits (perform RandReader (world s)).1 err \/
                 IsConfigurationError err = true /\ supported keyType encoding bits = false
    end) s.
Proof. by apply wp_GenerateKey. Qed.
End Keys.

(** ** Certificates *)

Section Certificates.
Context `{Vendor} {W : Type} `{PlatformLaws W}.

Implicit Types s : sys W.

Lemma add_sans_outcome sans : forall c,
  match add_sans c sans with
  | Ok c' => Forall (fun san => valid_san san = true) sans /\
             c' = with_names c (cert_DNSNames c ++ names_of "DNS" sans) (cert_EmailAddresses c ++ names_of "EMAIL" sans)
  | Err _ => ~ Forall (fun san => valid_san san = true) sans
  end.
Proof.
  induction sans as [|san sans IH]; intros c; cbn [add_sans].
  { split; [done|]. cbn. rewrite !app_nil_r. by destruct c. }
  unfold add_san. destruct (split_char ":" san) as [|t [|n [|x l]]] eqn:Es; cbn [res_bind];
    try (intros [Hv _]%Forall_cons_1; unfold valid_san in Hv; rewrite Es in Hv; done).
  assert (forall c', valid_san san = true ->
            match add_sans c' sans with
            | Ok c'' => Forall (fun san => valid_san san = true) (san :: sans) /\
                        c'' = with_names c' (cert_DNSNames c' ++ names_of "DNS" sans) (cert_EmailAddresses c' ++ names_of "EMAIL" sans)
            | Err _ => ~ Forall (fun san => valid_san san = true) (san :: sans)
            end) as Hrest.
  { intros c' Hv. specialize (IH c'). destruct (add_sans c' sans) as [c''|err]; [|by intros [_ ?]%Forall_cons_1].
    destruct IH as [? ?]. split; [by constructor|done]. }
  assert (forall typ, names_of typ (san :: sans) = (if t =?s typ then [n] else []) ++ names_of typ sans) as Hn.
  { intros typ. unfold names_of. cbn [omap list_omap]. rewrite Es. by case_bool_decide. }
  rewrite !Hn. case_bool_decide as Hd; [|case_bool_decide as He]; cbn [res_bind].
  - subst t. specialize (Hrest (with_names c (cert_DNSNames c ++ [n]) (cert_EmailAddresses c))). cbn in Hrest.
    rewrite <- app_assoc in Hrest. apply Hrest. unfold valid_san. by rewrite Es.
  - subst t. specialize (Hrest (with_names c (cert_DNSNames c) (cert_EmailAddresses c ++ [n]))). cbn in Hrest.
    rewrite <- app_assoc in Hrest. apply Hrest. unfold valid_san. by rewrite Es.
  - intros [Hv _]%Forall_cons_1. unfold valid_san in Hv. rewrite Es in Hv. by rewrite !bool_decide_false in Hv.
Qed.

Lemma set_usage_outcome c usage :
  cert_IsCA c = false -> cert_ExtKeyUsage c = [] ->
  match set_usage c usage with
  | Ok c' => exists ca use ext, usage_of usage = Some (ca, use, ext) /\ c' = with_usage c ca use ext
  | Err _ => usage_of usage = None
  end.
Proof.
  intros Hca Hext. unfold set_usage, usage_of. rewrite Hca, Hext.
  repeat (case_bool_decide; [eexists _, _, _; split; reflexivity|]). done.
Qed.

(** Who signs: decoded, when given. *)
Lemma signer_outcome key c caKeyPEM caCertPEM :
  match signer key c caKeyPEM caCertPEM with
  | Ok _ => forall ca, caKeyPEM = Some ca ->
      (exists k, DecodePrivateKey ca = Ok k) /\ exists c, DecodeCertificate (default "" caCertPEM) = Ok c
  | Err _ => ~ forall ca, caKeyPEM = Some ca ->
      (exists k, DecodePrivateKey ca = Ok k) /\ exists c, DecodeCertificate (default "" caCertPEM) = Ok c
  end.
Proof.
  unfold signer. destruct caKeyPEM as [ca|]; [|done].
  destruct (DecodePrivateKey ca) as [k|err] eqn:Ek; cbn [res_bind].
  - destruct (DecodeCertificate _) as [cert|err] eqn:Ec; cbn [res_bind]; [intros ca' [= <-]; eauto|].
    intros Hd. destruct (Hd ca eq_refl) as [_ [c' Hc]]. congruence.
  - intros Hd. destruct (Hd ca eq_refl) as [[k Hk] _]. congruence.
Qed.

(** The identifier of the key of a request. *)
Lemma subject_key_outcome `{!CryptoLaws} (w : W) keyPEM cn lifetime usage sans caKeyPEM caCertPEM key :
  DecodePrivateKey keyPEM = Ok key -> refuse_ed25519 key = Ok tt ->
  match generateSubjectKeyIdentifier (Some (key_Public key)) with
  | Ok _ => True
  | Err err => certificate_error w keyPEM cn lifetime usage sans caKeyPEM caCertPEM err
  end.
Proof.
  intros Hd Hk. destruct key as [k|k|k]; [| |done].
  - destruct (public_rsa k) as [p Hp]. rewrite Hp. unfold generateSubjectKeyIdentifier.
    destruct (asn1_Marshal_rsa p) eqn:E; cbn; [done|by eapply error_asn1].
  - by destruct (public_ecdsa k) as [p ->].
Qed.

Lemma wp_generateSerial (Q : result Z -> sys W -> Prop) s :
  (let s' := set_world s (perform (RandInt serialLimit) (world s)).2 in unchanged s s' ->
   forall r, match r with
             | Ok n => (0 <= n < 2 ^ 128)%Z /\ (perform (RandInt serialLimit) (world s)).1 = Ok n
             | Err err => (perform (RandInt serialLimit) (world s)).1 = Err err
             end -> Q r s') ->
  wp generateSerial Q s.
Proof.
  intros HQ. apply wp_try, wp_call. cbv zeta in HQ. specialize (HQ ltac:(split; [by apply stored_frame|by apply call_kept])).
  destruct (perform (RandInt serialLimit) (world s)).1 as [n|err] eqn:E.
  - apply wp_ret, HQ. apply rand_int_range in E; [|done]. change serialLimit with (2 ^ 128)%Z in E.
    rewrite Z.abs_eq by lia. split; [lia|done].
  - by apply HQ.
Qed.

Lemma DecodeCertificate_encoded der : DecodeCertificate (EncodeToMemory (mkBlock pemTypeCertificate der)) = x509_ParseCertificate der.
Proof. unfold DecodeCertificate. rewrite decode_single_encoded by done. cbn [res_bind block_Type block_Bytes]. by rewrite bool_decide_true. Qed.

(** The part after the time is known. *)
Lemma template_outcome key c usage sans caKeyPEM caCertPEM :
  cert_DNSNames c = [] -> cert_EmailAddresses c = [] -> cert_IsCA c = false -> cert_ExtKeyUsage c = [] ->
  match (let? c := add_sans c sans in let? c := set_usage c usage in
         let? s := signer key c caKeyPEM caCertPEM in Ok (c, s.1, s.2)) with
  | Ok (c', k, p) =>
      Forall (fun san => valid_san san = true) sans /\
      (forall ca, caKeyPEM = Some ca ->
         (exists k, DecodePrivateKey ca = Ok k) /\ exists c, DecodeCertificate (default "" caCertPEM) = Ok c) /\
      signer key c' caKeyPEM caCertPEM = Ok (k, p) /\
      exists ca use ext, usage_of usage = Some (ca, use, ext) /\
        c' = with_usage (with_names c (names_of "DNS" sans) (names_of "EMAIL" sans)) ca use ext
  | Err _ => forall keyPEM, ~ valid_request keyPEM usage sans caKeyPEM caCertPEM
  end.
Proof.
  intros Hdns Hmail Hca Hext. pose proof (add_sans_outcome sans c) as Hs. destruct (add_sans c sans) as [c1|err]; cbn [res_bind].
  2:{ by intros keyPEM [_ Hv _ _]. }
  destruct Hs as [Hv ->]. rewrite Hdns, Hmail, !app_nil_l. set (c1 := with_names c _ _).
  pose proof (set_usage_outcome c1 usage Hca Hext) as Hu. destruct (set_usage c1 usage) as [c2|err]; cbn [res_bind].
  2:{ intros keyPEM [_ _ [u Hu'] _]. congruence. }
  pose proof (signer_outcome key c2 caKeyPEM caCertPEM) as Hg. destruct (signer _ _ _ _) as [[k p]|err] eqn:Hsig; cbn [res_bind fst snd].
  - do 3 (split; [done|]). destruct Hu as (ca & use & ext & Hu & ->). by exists ca, use, ext.
  - by intros keyPEM [_ _ _ Hv'].
Qed.

Lemma wp_GenerateCertificate `{!CryptoLaws} keyPEM cn lifetime usage sans caKeyPEM caCertPEM
    (Q : result string -> sys W -> Prop) s :
  (forall r s', unchanged s s' ->
    match r with
    | Ok pem => valid_request keyPEM usage sans caKeyPEM caCertPEM /\
                exists cert, DecodeCertificate pem = Ok cert /\ certifies cn lifetime usage sans (issue_time (world s)) cert
    | Err err => certificate_error (world s) keyPEM cn lifetime usage sans caKeyPEM caCertPEM err \/
                 ~ valid_request keyPEM usage sans caKeyPEM caCertPEM
    end -> Q r s') ->
  wp (GenerateCertificate keyPEM cn lifetime usage sans caKeyPEM caCertPEM) Q s.
Proof.
  intros HQ. unfold GenerateCertificate. destruct (DecodePrivateKey keyPEM) as [key|err] eqn:Hkey; cbn [res_bind].
  2:{ apply wp_ret, HQ; [done|]. right. intros [(k & Hk & _) _ _ _]. congruence. }
  destruct (refuse_ed25519 key) as [[]|err] eqn:Hed; cbn [res_bind].
  2:{ apply wp_ret, HQ; [done|]. right. intros [(k & Hk & He) _ _ _]. congruence. }
  apply wp_random. intros s1 Hs1. destruct (x509_CreateCertificateRequest _ (mkName cn []) key) as [csr|err] eqn:Hcsr.
  2:{ apply HQ; [done|]. left. by eapply error_request. }
  destruct (parse_request _ _ _ _ Hcsr) as (req & -> & Hname & Hpub). cbn [CommonName] in Hname.
  apply wp_try, wp_generateSerial. intros s2 Hs2 r Hserial. assert (unchanged s s2) as Hu2 by (by etransitivity).
  destruct r as [serial|err]; [|apply HQ; [done|]; left; by apply error_serial]. destruct Hserial as [Hserial Hdrawn]. rewrite Hpub.
  pose proof (subject_key_outcome (world s) keyPEM cn lifetime usage sans caKeyPEM caCertPEM key Hkey Hed) as Hid.
  destruct (generateSubjectKeyIdentifier _) as [id|err]; [|by apply wp_ret, HQ; [|left]].
  apply wp_bind, wp_call. set (s3 := set_world s2 _).
  assert (unchanged s s3) as Hu3 by (transitivity s2; [done|split; [by apply stored_frame|by apply call_kept]]).
  change (perform TimeNow (world s2)).1 with (issue_time (world s)). set (now := issue_time (world s)). cbv zeta.
  pose proof (template_outcome key (mkCertificate serial (csr_Subject req) now (now + lifetime) true id [] [] false 0 [] None)
    usage sans caKeyPEM caCertPEM eq_refl eq_refl eq_refl eq_refl) as Ht.
  destruct (let? c := add_sans _ sans in _) as [[[c caKey] caCert]|err]; [|by apply wp_ret, HQ; [|right]].
  destruct Ht as (Hsans & Hsig & Hsigner & ca & use & ext & Husage & ->).
  apply wp_random. intros s4 Hs4. assert (unchanged s s4) as Hu4 by (by etransitivity).
  destruct (x509_CreateCertificate _ _ _ _ _) as [der|err] eqn:Hder.
  2:{ apply HQ; [done|left]. eapply error_certificate; [exact Hkey| |exact Hsigner|exact Hder]. by split. }
  apply wp_ret, HQ; [done|]. split.
  { split; [by exists key|done|by rewrite Husage|done]. }
  destruct (parse_certificate _ _ _ _ _ _ Hder) as (cert & Hcert & Hissued). exists cert.
  rewrite DecodeCertificate_encoded. split; [done|]. destruct Hissued as (Hn & Hc & Hb & Ha & Hd & He & Hca & Hku & Hext).
  cbn in Hn, Hc, Hb, Ha, Hd, He, Hca, Hku, Hext. subst now; split; congruence.
Qed.

(** C29: what a certificate certifies.  Whatever [GenerateCertificate] answers
    without an error is a PEM file that [DecodeCertificate] decodes to a
    certificate of the common name, the usage and the subject alternative names
    that were asked for, each under its type and in order, valid from the time
    of the call for the lifetime; its serial number has at most 128 bits.  An
    error is that of the cryptography, or of the source of random numbers, on
    what this call gave it; or the request is not valid: its key cannot be
    decoded or is an ed25519 key, a name is malformed, the usage is unknown, or
    the authority cannot be decoded. *)
Theorem certificate_certifies `{!CryptoLaws} keyPEM cn lifetime usage sans caKeyPEM caCertPEM s :
  wp (GenerateCertificate keyPEM cn lifetime usage sans caKeyPEM caCertPEM) (fun r s' => unchanged s s' /\
    match r with
    | Ok pem => valid_request keyPEM usage sans caKeyPEM caCertPEM /\
                exists cert, DecodeCertificate pem = Ok cert /\ certifies cn lifetime usage sans (issue_time (world s)) cert
    | Err err => certificate_error (world s) keyPEM cn lifetime usage sans caKeyPEM caCertPEM err \/
                 ~ valid_request keyPEM usage sans caKeyPEM caCertPEM
    end) s.
Proof. by apply wp_GenerateCertificate. Qed.

(** An error of the cryptography on the way from [s]: on making the key of the
    authority, its certificate, a key, or its certificate. *)
Definition authority_error (keyType encoding : string) (bits : option Z) (s : sys W) (err : error) : Prop :=
  exists s', unchanged s s' /\
    (key_error keyType encoding bits (perform RandReader (world s')).1 err \/
     exists keyPEM cn lifetime usage sans caKeyPEM caCertPEM, certificate_error (world s') keyPEM cn lifetime usage sans caKeyPEM caCertPEM err).

(** An authority made by the broker can sign.  A key of any type that is
    supported (other than ed25519), a certificate authority for it, and a
    certificate signed by that authority, as templates make them one after the
    other with [generatePrivateKey] and [generateCertificate]: when the names
    and the usage are valid, only the cryptography can fail. *)
Lemma authority_issues `{!CryptoLaws} keyType encoding bits caName cn lifetime usage sans s :
  supported keyType encoding bits = true -> keyType <> KeyTypeED25519 ->
  Forall (fun san => valid_san san = true) sans -> is_Some (usage_of usage) ->
  wp (caKey <-? GenerateKey keyType encoding bits ;;
      caCert <-? GenerateCertificate caKey caName lifetime CertificateUsage_CA [] None None ;;
      key <-? GenerateKey keyType encoding bits ;;
      GenerateCertificate key cn lifetime usage sans (Some caKey) (Some caCert))
    (fun r s' => unchanged s s' /\
       match r with
       | Ok pem => exists now cert, DecodeCertificate pem = Ok cert /\ certifies cn lifetime usage sans now cert
       | Err err => authority_error keyType encoding bits s err
       end) s.
Proof.
  intros Hsup Hned Hsans Husage.
  assert (forall (Q : result string -> sys W -> Prop) s0, unchanged s s0 -> (forall r s', unchanged s0 s' ->
            match r with
            | Ok pem => exists key, DecodePrivateKey pem = Ok key /\ refuse_ed25519 key = Ok tt
            | Err err => authority_error keyType encoding bits s err
            end -> Q r s') -> wp (GenerateKey keyType encoding bits) Q s0) as Hkey.
  { intros Q s0 Hs0 HQ. apply wp_GenerateKey. intros r s2 Hu Hr. apply HQ; [done|].
    destruct r as [pem|err].
    - destruct Hr as (_ & key & Hd & Ht). exists key. split; [done|]. by destruct key.
    - destruct Hr as [Hr|[_ Hr]]; [|congruence]. exists s0. split; [done|by left]. }
  apply wp_try, Hkey; [done|]. intros r1 s1 H1s Hr1. destruct r1 as [caKey|err]; [|done].
  apply wp_try, wp_GenerateCertificate. intros r2 s2 H2s Hr2. assert (unchanged s s2) as Hu2 by (by etransitivity).
  destruct r2 as [caCert|err].
  2:{ split; [done|]. destruct Hr2 as [Hr2|Hr2]; [exists s1; split; [done|right; eauto 10]|]. destruct Hr2. by split; [| |eexists|]. }
  destruct Hr2 as (_ & cert & Hcert & _). apply wp_try, Hkey; [done|]. intros r3 s3 H3s Hr3.
  assert (unchanged s s3) as Hu3 by (by etransitivity). destruct r3 as [key|err]; [|done].
  apply wp_GenerateCertificate. intros r4 s4 H4s Hr4. split; [by etransitivity|].
  destruct r4 as [pem|err]; [destruct Hr4 as (_ & cert' & ? & ?); eauto|].
  destruct Hr4 as [Hr4|Hr4]; [exists s3; split; [done|right; eauto 10]|]. destruct Hr4. split; [done..|].
  intros ca [= <-]. split; [|by exists cert].
  destruct Hr1 as (k & Hk & _). by exists k.
Qed.
End Certificates.

(** ** Witnesses *)

Module X509Witness.

Definition start : sys SimWorld := mkSys (empty_sim None) [].

Lemma generated_key_decodes_witness :
  wp (GenerateKey KeyTypeEllipticP256 KeyEncodingSEC1 None) (fun r s' => unchanged start s' /\
    match r with
    | Ok pem => supported KeyTypeEllipticP256 KeyEncodingSEC1 None = true /\
                exists key, DecodePrivateKey pem = Ok key /\ has_key_type KeyTypeEllipticP256 key
    | Err err => key_error KeyTypeEllipticP256 KeyEncodingSEC1 None (perform RandReader (world start)).1 err \/
                 IsConfigurationError err = true /\ supported KeyTypeEllipticP256 KeyEncodingSEC1 None = false
    end) start.
Proof. apply (generated_key_decodes KeyTypeEllipticP256 KeyEncodingSEC1 None start). Defined.

Definition sans : list string := ["DNS:broker.ns.svc"; "EMAIL:admin@example.com"; "DNS:broker"].

Definition rsa_key : string :=
  match (run (GenerateKey KeyTypeRSA KeyEncodingPKCS1 (Some 2048%Z)) start).1 with Done (Ok pem) => pem | _ => "" end.

Lemma certificate_certifies_witness :
  wp (GenerateCertificate rsa_key "broker" 3600 CertificateUsage_Server sans None None) (fun r s' => unchanged start s' /\
    match r with
    | Ok pem => valid_request rsa_key CertificateUsage_Server sans None None /\
                exists cert, DecodeCertificate pem = Ok cert /\
                  certifies "broker" 3600 CertificateUsage_Server sans (issue_time (world start)) cert
    | Err err => certificate_error (world start) rsa_key "broker" 3600 CertificateUsage_Server sans None None err \/ ~ valid_request rsa_key CertificateUsage_Server sans None None
    end) start.
Proof. apply (certificate_certifies rsa_key "broker" 3600 CertificateUsage_Server sans None None start). Defined.

(** There is a key, and a certificate. *)
Example key_text : rsa_key = EncodeToMemory (mkBlock "RSA PRIVATE KEY" "bytes-0").
Proof. vm_compute. reflexivity. Qed.

Example certificate_hosts :
  (match (run (GenerateCertificate rsa_key "broker" 3600 CertificateUsage_Server sans None None) start).1 with
   | Done (Ok pem) => match DecodeCertificate pem with Ok c => (cert_DNSNames c, cert_IsCA c) | Err _ => ([], true) end
   | _ => ([], true)
   end) = (["broker.ns.svc"; "broker"], false).
Proof. vm_compute. reflexivity. Qed.

(** A name with a colon, such as an address, is malformed; other types are not supported. *)
Example san_address : add_sans (mkCertificate 0 (mkName "" []) 0 0 true "" [] [] false 0 [] None) ["IP:10.0.0.1"] =
  Err (plainError "invalid subject alt name unsupported SAN type IP").
Proof. vm_compute. reflexivity. Qed.

Lemma authority_issues_witness :
  wp (caKey <-? GenerateKey KeyTypeRSA KeyEncodingPKCS8 (Some 2048%Z) ;;
      caCert <-? GenerateCertificate caKey "authority" 3600 CertificateUsage_CA [] None None ;;
      key <-? GenerateKey KeyTypeRSA KeyEncodingPKCS8 (Some 2048%Z) ;;
      GenerateCertificate key "broker" 3600 CertificateUsage_Server sans (Some caKey) (Some caCert))
    (fun r s' => unchanged start s' /\
       match r with
       | Ok pem => exists now cert, DecodeCertificate pem = Ok cert /\
                     certifies "broker" 3600 CertificateUsage_Server sans now cert
       | Err err => authority_error KeyTypeRSA KeyEncodingPKCS8 (Some 2048%Z) start err
       end) start.
Proof.
  apply (authority_issues KeyTypeRSA KeyEncodingPKCS8 (Some 2048%Z) "authority" "broker" 3600 CertificateUsage_Server sans start).
  - vm_compute. reflexivity.
  - discriminate.
  - repeat constructor.
  - eexists. vm_compute. reflexivity.
Defined.
End X509Witness.
