(* ===== verification/Fixture.v ===== *)
(** * A small broker configuration

    One service with one bindable plan, whose instances are a ConfigMap and
    whose bindings publish a generated password: the concrete input of the
    examples of the other files, with the world of [Sim] around it. *)

From S2P Require Import Prelude Json Errors Types Platform Vendor Sim.

Local Open Scope broker_scope.

Module Fixture.

(** The template of the ConfigMap is named after the instance. *)
Definition config_map_object : value :=
  VObject [("apiVersion", VString "v1"); ("kind", VString "ConfigMap");
           ("metadata", VObject [("name", VString ("{{ registry " +++ quote "instance-id" +++ " }}"))])].

Definition config_map : ConfigurationTemplate :=
  mkConfigurationTemplate "config-map" (Some (mkRaw (Some (marshal config_map_object)))) false.

Definition small : ServicePlan := mkServicePlan "p1" "small" "" None true (Some true) None.

Definition database : ServiceOffering :=
  mkServiceOffering "database" "s1" "" [] [] true None None true [small].

Definition database_binding : ConfigurationBinding :=
  mkConfigurationBinding "database-small" "" "" "database" "small"
    (mkTemplateList [mkRegistryValue "dashboard-url" "http://dashboard"] ["config-map"] [] None)
    (Some (mkTemplateList [mkRegistryValue "credentials" "{{ generatePassword 4 nil }}"] [] [] None)).

Definition config : ServiceBrokerConfig :=
  mkConfig "broker" "ns" ∅ (mkConfigSpec (mkServiceCatalog [database]) [config_map] [database_binding])
    (mkConfigStatus []).

(** The same service, with instances that are a registry entry only. *)
Definition entry_binding : ConfigurationBinding :=
  mkConfigurationBinding "database-small" "" "" "database" "small"
    (mkTemplateList [mkRegistryValue "dashboard-url" "http://dashboard"] [] [] None)
    (Some (mkTemplateList [mkRegistryValue "credentials" "secret"] [] [] None)).

Definition entry_config : ServiceBrokerConfig :=
  mkConfig "broker" "ns" ∅ (mkConfigSpec (mkServiceCatalog [database]) [] [entry_binding]) (mkConfigStatus []).

(** An API server with no objects, and a user who bought the plan. *)
Definition empty_world : SimWorld := mkSim ∅ ∅ (Some config) true 0 0 [["s1"; "p1"]] 0.

Definition start : sys SimWorld := mkSys empty_world [].

Definition entry_start : sys SimWorld := mkSys (with_config empty_world (Some entry_config)) [].
End Fixture.
