(* ===== verification/Api.v ===== *)
(** * Requests and responses ([pkg/api/types.go])

    The bodies of the Open Service Broker API, how a request body is decoded
    and how a response body is encoded. *)

From S2P Require Import Prelude Json Errors Types Platform Vendor.

Local Open Scope broker_scope.

(** ** Types *)

(** [api.PollState] *)
Inductive PollState : Type :=
  | PollStateInProgress
  | PollStateSucceeded
  | PollStateFailed.

Definition PollState_string (s : PollState) : string :=
  match s with
  | PollStateInProgress => "in progress"
  | PollStateSucceeded => "succeeded"
  | PollStateFailed => "failed"
  end.

Record ApiError : Type := mkApiError {
  apierr_Error : ErrorType;
  apierr_Description : string;
  apierr_InstanceUsable : option bool;
}.

Record MaintenanceInfo : Type := mkMaintenanceInfo { maintenance_Version : string }.

Record CreateServiceInstanceRequest : Type := mkCreateInstance {
  ci_ServiceID : string;
  ci_PlanID : string;
  ci_Context : option RawExtension;
  ci_OrganizationGUID : string;
  ci_SpaceGUID : string;
  ci_Parameters : option RawExtension;
  ci_MaintenanceInfo : option MaintenanceInfo;
}.

Record CreateServiceInstanceResponse : Type := mkCreateInstanceResponse {
  cir_DashboardURL : string;
  cir_Operation : string;
}.

Record PollServiceInstanceResponse : Type := mkPollResponse {
  poll_State : PollState;
  poll_Description : string;
}.

Record GetServiceInstanceResponse : Type := mkGetInstanceResponse {
  gir_ServiceID : string;
  gir_PlanID : string;
  gir_DashboardURL : string;
  gir_Parameters : option RawExtension;
}.

Record UpdateServiceInstanceRequestPreviousValues : Type := mkPreviousValues {
  prev_ServiceID : string;
  prev_PlanID : string;
  prev_OrganizationID : string;
  prev_SpaceID : string;
  prev_MaintenanceInfo : option MaintenanceInfo;
}.

Record UpdateServiceInstanceRequest : Type := mkUpdateInstance {
  ui_Context : option RawExtension;
  ui_ServiceID : string;
  ui_PlanID : string;
  ui_Parameters : option RawExtension;
  ui_PreviousValues : option UpdateServiceInstanceRequestPreviousValues;
  ui_MaintenanceInfo : option MaintenanceInfo;
}.

Record UpdateServiceInstanceResponse : Type := mkUpdateInstanceResponse {
  uir_DashboardURL : string;
  uir_Operation : string;
}.

Record CreateServiceBindingRequest : Type := mkCreateBinding {
  cb_Context : option RawExtension;
  cb_ServiceID : string;
  cb_PlanID : string;
  cb_AppGUID : string;
  cb_BindResource : option RawExtension;
  cb_Parameters : option RawExtension;
}.

Record CreateServiceBindingResponse : Type := mkCreateBindingResponse { cbr_Operation : string }.

Record BindingMetadata : Type := mkBindingMetadata { metadata_ExpiresAt : string }.

Record Device : Type := mkDevice {
  device_VolumeID : string;
  device_MountConfig : option RawExtension;
}.

Record VolumeMount : Type := mkVolumeMount {
  mount_Driver : string;
  mount_ContainerDir : string;
  mount_Mode : string;
  mount_DeviceType : string;
  mount_Device : Device;
}.

(** A nil slice of ports is written as [null]. *)
Record Endpoint : Type := mkEndpoint {
  endpoint_Host : string;
  endpoint_Ports : option (list string);
  endpoint_Protocol : string;
}.

Record GetServiceBindingResponse : Type := mkGetBindingResponse {
  gbr_Metadata : option BindingMetadata;
  gbr_Credentials : option RawExtension;
  gbr_SyslogDrainURL : string;
  gbr_RouteServiceURL : string;
  gbr_VolumeMounts : list VolumeMount;
  gbr_Parameters : option RawExtension;
  gbr_Endpoints : list Endpoint;
}.

(** [&api.GetServiceBindingResponse{Credentials: credentials}] *)
Definition binding_response (credentials : option RawExtension) : GetServiceBindingResponse :=
  mkGetBindingResponse None credentials "" "" [] None [].

Record LoginRequest : Type := mkLogin { login_Username : string; login_Password : string }.
Record LoginResponse : Type := mkLoginResponse { login_Token : string }.

(** ** Encoding *)

Definition json_field : Type := string * option (result string).

Definition string_field (k s : string) : json_field := (k, Some (Ok (quote s))).
Definition omit_string (k s : string) : json_field :=
  (k, if s =?s "" then None else Some (Ok (quote s))).
Definition omit_nil {T} `{GoJSON T} (k : string) (v : option T) : json_field := (k, Marshal <$> v).
Definition bool_text (b : bool) : string := if b then "true" else "false".

Definition ApiError_Marshal (e : ApiError) : result string :=
  marshal_struct [
    omit_string "error" (ErrorType_string (apierr_Error e));
    omit_string "description" (apierr_Description e);
    ("instance_usable", (fun b => Ok (bool_text b)) <$> apierr_InstanceUsable e)].

Definition CreateServiceInstanceResponse_Marshal (r : CreateServiceInstanceResponse) : result string :=
  marshal_struct [omit_string "dashboard_url" (cir_DashboardURL r); omit_string "operation" (cir_Operation r)].

Definition UpdateServiceInstanceResponse_Marshal (r : UpdateServiceInstanceResponse) : result string :=
  marshal_struct [omit_string "dashboard_url" (uir_DashboardURL r); omit_string "operation" (uir_Operation r)].

Definition PollServiceInstanceResponse_Marshal (r : PollServiceInstanceResponse) : result string :=
  marshal_struct [string_field "state" (PollState_string (poll_State r)); omit_string "description" (poll_Description r)].

Definition GetServiceInstanceResponse_Marshal `{Vendor} (r : GetServiceInstanceResponse) : result string :=
  marshal_struct [omit_string "service_id" (gir_ServiceID r); omit_string "plan_id" (gir_PlanID r);
    omit_string "dashboard_url" (gir_DashboardURL r); omit_nil "parameters" (gir_Parameters r)].

Definition CreateServiceBindingResponse_Marshal (r : CreateServiceBindingResponse) : result string :=
  marshal_struct [string_field "operation" (cbr_Operation r)].

Definition LoginResponse_Marshal (r : LoginResponse) : result string :=
  marshal_struct [string_field "token" (login_Token r)].

(** [struct{}{}] and [DeleteServiceBindingResponse]. *)
Definition empty_Marshal : result string := marshal_struct [].

(** *** The catalog *)

(** A list of encodings, as a JSON array. *)
Fixpoint marshal_all (l : list (result string)) : result (list string) :=
  match l with
  | [] => Ok []
  | r :: l => let? t := r in let? ts := marshal_all l in Ok (t :: ts)
  end.

Definition marshal_array (l : list (result string)) : result string :=
  let? ts := marshal_all l in Ok ("[" +++ concat_sep "," ts +++ "]").

Definition bool_field (k : string) (b : bool) : json_field := (k, Some (Ok (bool_text b))).
Definition omit_false (k : string) (b : bool) : json_field := (k, if b then Some (Ok (bool_text b)) else None).
Definition omit_strings (k : string) (l : list string) : json_field :=
  (k, match l with [] => None | _ => Some (marshal_array (map (fun s => Ok (quote s)) l)) end).
Definition omit_struct {T} (f : T -> result string) (k : string) (v : option T) : json_field := (k, f <$> v).

(** An [interface{}] that holds a nil pointer is not empty: it is written. *)
Definition interface_field `{Vendor} (k : string) (v : option RawExtension) : json_field :=
  (k, Some (match v with None => Ok "null" | Some r => Marshal r end)).

(** *** Bindings *)

Definition omit_list {T} (f : T -> result string) (k : string) (l : list T) : json_field :=
  (k, match l with [] => None | _ => Some (marshal_array (map f l)) end).

Definition BindingMetadata_Marshal (m : BindingMetadata) : result string :=
  marshal_struct [omit_string "expires_at" (metadata_ExpiresAt m)].

Definition Device_Marshal `{Vendor} (d : Device) : result string :=
  marshal_struct [string_field "volume_id" (device_VolumeID d); omit_nil "mount_config" (device_MountConfig d)].

Definition VolumeMount_Marshal `{Vendor} (m : VolumeMount) : result string :=
  marshal_struct [string_field "driver" (mount_Driver m); string_field "container_dir" (mount_ContainerDir m);
    string_field "mode" (mount_Mode m); string_field "device_type" (mount_DeviceType m);
    ("device", Some (Device_Marshal (mount_Device m)))].

Definition Endpoint_Marshal (e : Endpoint) : result string :=
  marshal_struct [string_field "host" (endpoint_Host e);
    ("ports", Some (match endpoint_Ports e with
                    | None => Ok "null"
                    | Some ports => marshal_array (map (fun p => Ok (quote p)) ports)
                    end));
    omit_string "protocol" (endpoint_Protocol e)].

Definition GetServiceBindingResponse_Marshal `{Vendor} (r : GetServiceBindingResponse) : result string :=
  marshal_struct [omit_struct BindingMetadata_Marshal "metadata" (gbr_Metadata r);
    omit_nil "credentials" (gbr_Credentials r);
    omit_string "syslog_drain_url" (gbr_SyslogDrainURL r); omit_string "route_service_url" (gbr_RouteServiceURL r);
    omit_list VolumeMount_Marshal "volume_mounts" (gbr_VolumeMounts r);
    omit_nil "parameters" (gbr_Parameters r);
    omit_list Endpoint_Marshal "endpoints" (gbr_Endpoints r)].

Section Catalog.
Context `{Vendor}.

Definition InputParamtersSchema_Marshal (s : Api.InputParamtersSchema) : result string :=
  marshal_struct [interface_field "parameters" (Api.schema_Parameters s)].

Definition ServiceInstanceSchema_Marshal (s : Api.ServiceInstanceSchema) : result string :=
  marshal_struct [omit_struct InputParamtersSchema_Marshal "create" (Api.instance_Create s);
    omit_struct InputParamtersSchema_Marshal "update" (Api.instance_Update s)].

Definition ServiceBindingSchema_Marshal (s : Api.ServiceBindingSchema) : result string :=
  marshal_struct [omit_struct InputParamtersSchema_Marshal "create" (Api.binding_Create s)].

Definition Schemas_Marshal (s : Api.Schemas) : result string :=
  marshal_struct [omit_struct ServiceInstanceSchema_Marshal "service_instance" (Api.schemas_ServiceInstance s);
    omit_struct ServiceBindingSchema_Marshal "service_binding" (Api.schemas_ServiceBinding s)].

Definition ServicePlan_Marshal (p : Api.ServicePlan) : result string :=
  marshal_struct [string_field "id" (Api.plan_ID p); string_field "name" (Api.plan_Name p);
    string_field "description" (Api.plan_Description p); interface_field "metadata" (Api.plan_Metadata p);
    omit_false "free" (Api.plan_Free p);
    ("bindable", (fun b => Ok (bool_text b)) <$> Api.plan_Bindable p);
    omit_struct Schemas_Marshal "schemas" (Api.plan_Schemas p)].

Definition DashboardClient_Marshal (d : Api.DashboardClient) : result string :=
  marshal_struct [string_field "id" (Api.client_ID d); string_field "secret" (Api.client_Secret d);
    omit_string "redirected_uri" (Api.client_RedirectedURI d)].

Definition ServiceOffering_Marshal (o : Api.ServiceOffering) : result string :=
  marshal_struct [string_field "name" (Api.offering_Name o); string_field "id" (Api.offering_ID o);
    string_field "description" (Api.offering_Description o);
    omit_strings "tags" (Api.offering_Tags o); omit_strings "requires" (Api.offering_Requires o);
    bool_field "bindable" (Api.offering_Bindable o); interface_field "metadata" (Api.offering_Metadata o);
    omit_struct DashboardClient_Marshal "dashboard_client" (Api.offering_DashboardClient o);
    omit_false "plan_updatable" (Api.offering_PlanUpdatable o);
    ("plans", Some (marshal_array (map ServicePlan_Marshal (Api.offering_Plans o))))].

Definition ServiceCatalog_Marshal (c : Api.ServiceCatalog) : result string :=
  marshal_struct [("services", Some (marshal_array (map ServiceOffering_Marshal (Api.catalog_Services c))))].
End Catalog.

(** ** Decoding *)

Section Decode.
Context `{Vendor}.

(** A field is decoded from each of the texts given for it in turn; [null]
    leaves a string or a struct alone and makes a pointer nil. *)
Definition decode_field {T} (step : T -> string -> result T) (init : T) (name : string)
    (fs : list (string * string)) : result T :=
  foldl (fun acc t => let? v := acc in step v t) (Ok init) (field_texts name fs).

Definition decode_string (name : string) (fs : list (string * string)) : result string :=
  decode_field (fun v t => match unmarshal t with
                           | Some (VString s) => Ok s
                           | Some VNull => Ok v
                           | _ => Err (json_error t)
                           end) "" name fs.

Definition decode_raw (name : string) (fs : list (string * string)) : result (option RawExtension) :=
  decode_field (fun _ t => if t =?s "null" then Ok None else Ok (Some (RawExtension_UnmarshalJSON t)))
    None name fs.

Definition decode_object {T} (f : list (string * string) -> result T) (name : string)
    (fs : list (string * string)) : result (option T) :=
  decode_field (fun _ t => if t =?s "null" then Ok None
                           else match raw_fields t with
                                | Some fs => let? v := f fs in Ok (Some v)
                                | None => Err (json_error t)
                                end) None name fs.

Definition decode_maintenance (fs : list (string * string)) : result MaintenanceInfo :=
  let? v := decode_string "version" fs in Ok (mkMaintenanceInfo v).

Definition decode_previous (fs : list (string * string)) : result UpdateServiceInstanceRequestPreviousValues :=
  let? a := decode_string "service_id" fs in
  let? b := decode_string "plan_id" fs in
  let? c := decode_string "organization_id" fs in
  let? d := decode_string "space_id" fs in
  let? e := decode_object decode_maintenance "maintenance_info" fs in
  Ok (mkPreviousValues a b c d e).

(** [json.Unmarshal(body, request)], one instance per type of request. *)
Class Decode (T : Type) : Type := decode_fields : list (string * string) -> result T.

Definition decode {T} `{Decode T} (body : string) : result T :=
  match raw_fields body with
  | Some fs => decode_fields fs
  | None => Err (json_error body)
  end.

#[global] Instance Decode_CreateServiceInstanceRequest : Decode CreateServiceInstanceRequest := fun fs =>
  let? a := decode_string "service_id" fs in
  let? b := decode_string "plan_id" fs in
  let? c := decode_raw "context" fs in
  let? d := decode_string "organization_guid" fs in
  let? e := decode_string "space_guid" fs in
  let? f := decode_raw "parameters" fs in
  let? g := decode_object decode_maintenance "maintenance_info" fs in
  Ok (mkCreateInstance a b c d e f g).

#[global] Instance Decode_UpdateServiceInstanceRequest : Decode UpdateServiceInstanceRequest := fun fs =>
  let? a := decode_raw "context" fs in
  let? b := decode_string "service_id" fs in
  let? c := decode_string "plan_id" fs in
  let? d := decode_raw "parameters" fs in
  let? e := decode_object decode_previous "previous_values" fs in
  let? f := decode_object decode_maintenance "maintenance_info" fs in
  Ok (mkUpdateInstance a b c d e f).

#[global] Instance Decode_CreateServiceBindingRequest : Decode CreateServiceBindingRequest := fun fs =>
  let? a := decode_raw "context" fs in
  let? b := decode_string "service_id" fs in
  let? c := decode_string "plan_id" fs in
  let? d := decode_string "app_guid" fs in
  let? e := decode_raw "bind_resource" fs in
  let? f := decode_raw "parameters" fs in
  Ok (mkCreateBinding a b c d e f).

#[global] Instance Decode_LoginRequest : Decode LoginRequest := fun fs =>
  let? a := decode_string "username" fs in
  let? b := decode_string "password" fs in
  Ok (mkLogin a b).
End Decode.
