(* ===== verification/Http.v ===== *)
(** * HTTP

    Requests, the response writer, and the control flow of a handler: a
    sequence of statements of which many say "on error, respond and return".
    The parts of [net/http] and [net/url] the broker uses are modelled here
    with the response helpers of [pkg/broker/util.go]. *)

From S2P Require Import Prelude Json Errors Types Platform Vendor Api.

Local Open Scope broker_scope.

(** ** Requests *)

(** [Header] lists the headers with their values; the body is what
    [ioutil.ReadAll] makes of it. *)
Record Request : Type := mkRequest {
  req_Method : string;
  req_Path : string;
  req_RawQuery : string;
  req_Header : list (string * list string);
  req_ContentLength : Z;
  req_Body : result string;
}.

(** [httprouter.Params]: [ByName] yields "" for a name that is not there. *)
Definition Params : Type := list (string * string).

Definition ByName (params : Params) (name : string) : string :=
  match find_first (fun p => p.1 =?s name) params with Some p => p.2 | None => "" end.

(** ** Query strings: [url.ParseQuery] *)

(** [strings.Cut] *)
Fixpoint cut_char (c : ascii) (s : string) : string * string :=
  match s with
  | EmptyString => ("", "")
  | String d r => if Ascii.eqb c d then ("", r) else let '(a, b) := cut_char c r in (String d a, b)
  end.

Fixpoint contains_char (c : ascii) (s : string) : bool :=
  match s with
  | EmptyString => false
  | String d r => Ascii.eqb c d || contains_char c r
  end.

Fixpoint QueryUnescape (s : string) : option string :=
  match s with
  | EmptyString => Some ""
  | String c r =>
      if Ascii.eqb c "%" then
        match r with
        | String a (String b r) =>
            match hex_value a, hex_value b with
            | Some x, Some y => String (chr (x * 16 + y)) <$> QueryUnescape r
            | _, _ => None
            end
        | _ => None
        end
      else if Ascii.eqb c "+" then String " " <$> QueryUnescape r
      else String c <$> QueryUnescape r
  end.

(** The pairs of a query, in order; an error when a piece is malformed. *)
Fixpoint query_pairs (pieces : list string) : option (list (string * string)) :=
  match pieces with
  | [] => Some []
  | p :: l =>
      if contains_char ";" p then None
      else if p =?s "" then query_pairs l
      else let '(k, v) := cut_char "=" p in
           match QueryUnescape k, QueryUnescape v, query_pairs l with
           | Some k, Some v, Some l => Some ((k, v) :: l)
           | _, _, _ => None
           end
  end.

Definition ParseQuery (raw : string) : result (list (string * string)) :=
  match query_pairs (split_char "&" raw) with
  | Some l => Ok l
  | None => Err (plainError "invalid URL escape or separator in query")
  end.

(** [query[name]], [None] when the key is absent. *)
Definition query_values (query : list (string * string)) (name : string) : option (list string) :=
  match base.filter (fun kv => kv.1 = name) query with
  | [] => None
  | l => Some (map snd l)
  end.

(** ** The response writer *)

(** [rw_sent] is the status line that went out, [rw_status] the status the
    broker's wrapper recorded for the log, [rw_body] what was written. *)
Record writer : Type := mkWriter {
  rw_sent : option Z;
  rw_status : Z;
  rw_json : bool;
  rw_body : list string;
}.

Definition new_writer : writer := mkWriter None 0 false [].

(** [responseWriter.WriteHeader]; [net/http] ignores all but the first. *)
Definition WriteHeader (w : writer) (statusCode : Z) : writer :=
  mkWriter (Some (default statusCode (rw_sent w))) statusCode (rw_json w) (rw_body w).

Definition Write (w : writer) (body : string) : writer :=
  mkWriter (Some (default StatusOK (rw_sent w))) (rw_status w) (rw_json w) (rw_body w ++ [body]).

Definition set_json (w : writer) : writer := mkWriter (rw_sent w) (rw_status w) true (rw_body w).

Definition httpResponse (w : writer) (status : Z) : writer := WriteHeader w status.

(** [resp] is [json.Marshal(data)]. *)
Definition JSONResponse (w : writer) (status : Z) (resp : result string) : writer :=
  match resp with
  | Ok text => Write (httpResponse (set_json w) status) text
  | Err _ => Write (httpResponse (set_json (httpResponse w StatusInternalServerError)) status) ""
  end.

Definition error_response (err : error) (usable : option bool) : result string :=
  ApiError_Marshal (mkApiError (translateError err).2 (Error err) usable).

Definition jsonError (w : writer) (err : error) : writer :=
  JSONResponse w (translateError err).1 (error_response err None).

Definition jsonErrorUsable (w : writer) (err : error) : writer :=
  JSONResponse w (translateError err).1 (error_response err (Some true)).

(** ** Handlers

    A statement of a handler continues with a value or has returned. *)

Definition handler (A : Type) : Type := writer -> prog (writer * option A).

Definition hret {A} (a : A) : handler A := fun w => Ret (w, Some a).
Definition hreturn {A} : handler A := fun w => Ret (w, None).
Definition hbind {A B} (m : handler A) (k : A -> handler B) : handler B := fun w =>
  r <- m w ;; match r.2 with Some a => k a r.1 | None => Ret (r.1, None) end.
Definition hlift {A} (p : prog A) : handler A := fun w => a <- p ;; Ret (w, Some a).
Definition hwrite (f : writer -> writer) : handler unit := fun w => Ret (f w, Some tt).

Notation "x <~ m ;; k" := (hbind m (fun x => k))
  (at level 20, m at level 99, k at level 200) : broker_scope.
Notation "' x <~ m ;; k" := (hbind m (fun x => k))
  (at level 20, x pattern, m at level 99, k at level 200) : broker_scope.
Notation "m ;;~ k" := (hbind m (fun _ => k))
  (at level 100, k at level 200, right associativity) : broker_scope.

(** [{ jsonError(w, err); return }] *)
Definition fail {A} (err : error) : handler A := hwrite (fun w => jsonError w err) ;;~ hreturn.
Definition failUsable {A} (err : error) : handler A := hwrite (fun w => jsonErrorUsable w err) ;;~ hreturn.

(** [x, err := r; if err != nil { jsonError(w, err); return }] *)
Definition try_ {A} (r : result A) : handler A := match r with Ok a => hret a | Err e => fail e end.
Definition tryp {A} (p : prog (result A)) : handler A := r <~ hlift p ;; try_ r.
Definition check (err : option error) : handler unit :=
  match err with Some e => fail e | None => hret tt end.

(** [x, ok, err := r; if err != nil {...return}; if !ok { jsonError(w, missing); return }] *)
Definition require {A} (r : result (option A)) (missing : error) : handler A :=
  o <~ try_ r ;; match o with Some a => hret a | None => fail missing end.

Definition respond (status : Z) (resp : result string) : handler unit :=
  hwrite (fun w => JSONResponse w status resp).

(** Serving a request: the response when the handler is done. *)
Definition serve (h : handler unit) : prog writer := r <- h new_writer ;; Ret r.1.

(** ** Lemmas *)

Section Lemmas.
Context {W : Type} `{World W}.

Implicit Types s : sys W.

(** [hwp h Q w s]: the handler ends, in a state that satisfies [Q]. *)
Definition hwp {A} (h : handler A) (Q : writer -> option A -> sys W -> Prop) (w : writer) s : Prop :=
  wp (h w) (fun r s' => Q r.1 r.2 s') s.

Lemma hwp_ret {A} (a : A) Q w s : Q w (Some a) s -> hwp (hret a) Q w s.
Proof. done. Qed.

Lemma hwp_return {A} (Q : writer -> option A -> sys W -> Prop) w s : Q w None s -> hwp hreturn Q w s.
Proof. done. Qed.

Lemma hwp_bind {A B} (m : handler A) (k : A -> handler B) Q w s :
  hwp m (fun w' o s' => match o with Some a => hwp (k a) Q w' s' | None => Q w' None s' end) w s ->
  hwp (hbind m k) Q w s.
Proof.
  unfold hwp, hbind. intros Hm. apply wp_bind. eapply wp_mono; [exact Hm|].
  intros [w' [a|]] s'; simpl; auto.
Qed.

Lemma hwp_lift {A} (p : prog A) Q w s : wp p (fun a s' => Q w (Some a) s') s -> hwp (hlift p) Q w s.
Proof. intros Hp. unfold hwp, hlift. apply wp_bind. eapply wp_mono; [exact Hp|]. done. Qed.

Lemma hwp_write f Q w s : Q (f w) (Some tt) s -> hwp (hwrite f) Q w s.
Proof. done. Qed.

Lemma hwp_fail {A} err (Q : writer -> option A -> sys W -> Prop) w s :
  Q (jsonError w err) None s -> hwp (fail err) Q w s.
Proof. done. Qed.

Lemma hwp_failUsable {A} err (Q : writer -> option A -> sys W -> Prop) w s :
  Q (jsonErrorUsable w err) None s -> hwp (failUsable err) Q w s.
Proof. done. Qed.

Lemma hwp_try {A} (r : result A) (Q : writer -> option A -> sys W -> Prop) w s :
  match r with Ok a => Q w (Some a) s | Err e => Q (jsonError w e) None s end -> hwp (try_ r) Q w s.
Proof. by destruct r. Qed.

Lemma hwp_tryp {A} (p : prog (result A)) (Q : writer -> option A -> sys W -> Prop) w s :
  wp p (fun r s' => match r with Ok a => Q w (Some a) s' | Err e => Q (jsonError w e) None s' end) s ->
  hwp (tryp p) Q w s.
Proof.
  intros Hp. unfold tryp. apply hwp_bind, hwp_lift. eapply wp_mono; [exact Hp|].
  intros r s' Hr. by apply hwp_try.
Qed.

Lemma hwp_check err Q w s :
  match err with None => Q w (Some tt) s | Some e => Q (jsonError w e) None s end -> hwp (check err) Q w s.
Proof. by destruct err. Qed.

Lemma hwp_require {A} (r : result (option A)) m (Q : writer -> option A -> sys W -> Prop) w s :
  match r with
  | Ok (Some a) => Q w (Some a) s
  | Ok None => Q (jsonError w m) None s
  | Err e => Q (jsonError w e) None s
  end -> hwp (require r m) Q w s.
Proof. by destruct r as [[]|]. Qed.

Lemma hwp_respond st r Q w s : Q (JSONResponse w st r) (Some tt) s -> hwp (respond st r) Q w s.
Proof. done. Qed.

Lemma hwp_mono {A} (h : handler A) (Q Q' : writer -> option A -> sys W -> Prop) w s :
  hwp h Q w s -> (forall w' o s', Q w' o s' -> Q' w' o s') -> hwp h Q' w s.
Proof. intros Hh HQ. eapply wp_mono; [exact Hh|]. intros [w' o] s'. apply HQ. Qed.

Lemma wp_serve (h : handler unit) Q s :
  hwp h (fun w _ s' => Q w s') new_writer s -> wp (serve h) Q s.
Proof. intros Hh. unfold serve. apply wp_bind. eapply wp_mono; [exact Hh|]. done. Qed.
End Lemmas.

(** ** Effects of handlers *)

Definition heffects (P : forall X, event X -> bool) {A} (h : handler A) : Prop :=
  forall w, effects P (h w).

Lemma heffects_bind P {A B} (m : handler A) (k : A -> handler B) :
  heffects P m -> (forall a, heffects P (k a)) -> heffects P (hbind m k).
Proof.
  intros Hm Hk w. apply effects_bind; [apply Hm|]. intros [w' [a|]]; simpl; [apply Hk|done].
Qed.

Lemma heffects_lift P {A} (p : prog A) : effects P p -> heffects P (hlift p).
Proof. intros Hp w. by apply effects_bind. Qed.

Lemma heffects_try P {A} (r : result A) : heffects P (try_ r).
Proof. by destruct r. Qed.

Lemma heffects_tryp P {A} (p : prog (result A)) : effects P p -> heffects P (tryp p).
Proof. intros Hp. apply heffects_bind; [by apply heffects_lift|]. intros. apply heffects_try. Qed.

Lemma heffects_check P err : heffects P (check err).
Proof. by destruct err. Qed.

Lemma heffects_require P {A} (r : result (option A)) m : heffects P (require r m).
Proof. by destruct r as [[]|]. Qed.

(** The first status sent is the one the client sees, however often a handler
    responds. *)
Lemma rw_sent_JSONResponse w st r :
  rw_sent (JSONResponse w st r) =
    Some (match rw_sent w with Some st => st
          | None => match r with Ok _ => st | Err _ => StatusInternalServerError end end).
Proof. unfold JSONResponse. destruct r; simpl; by destruct (rw_sent w). Qed.

Lemma error_response_Ok err usable : exists text, error_response err usable = Ok text.
Proof.
  unfold error_response, ApiError_Marshal, marshal_struct, omit_string. simpl.
  destruct (ErrorType_string _ =?s ""), (Error err =?s ""), usable; eauto.
Qed.

Lemma rw_sent_jsonError w err :
  rw_sent (jsonError w err) = Some (default (translateError err).1 (rw_sent w)).
Proof.
  unfold jsonError. rewrite rw_sent_JSONResponse. destruct (error_response_Ok err None) as [t ->].
  by destruct (rw_sent w).
Qed.
