(* ===== verification/Registry.v ===== *)
(** * The registry ([pkg/registry])

    The persistence layer: [Entry] is the key/value store of a service
    instance or binding, kept in a Kubernetes secret ([registry.go]);
    [Directory] maps service instances to the namespace of their registry
    ([directory.go]). *)

From S2P Require Import Prelude Json Errors Types Platform Vendor.

Local Open Scope broker_scope.

(** ** Keys and their policies *)

Abbreviation Key := string.

Definition Namespace : Key := "namespace".
Definition InstanceID : Key := "instance-id".
Definition BindingID : Key := "binding-id".
Definition ServiceID : Key := "service-id".
Definition PlanID : Key := "plan-id".
Definition Context_ : Key := "context".
Definition Parameters_ : Key := "parameters".
Definition Operation : Key := "operation".
Definition OperationID : Key := "operation-id".
Definition OperationStatus : Key := "operation-status".
Definition DashboardURL : Key := "dashboard-url".
Definition Credentials : Key := "credentials".

Record keyPolicy : Type := mkPolicy {
  policy_name : Key;
  policy_read : bool;
  policy_write : bool;
}.

Definition keyPolicies : list keyPolicy := [
  mkPolicy Namespace true false;
  mkPolicy InstanceID true false;
  mkPolicy ServiceID true false;
  mkPolicy PlanID true false;
  mkPolicy Context_ false false;
  mkPolicy Parameters_ false false;
  mkPolicy Operation false false;
  mkPolicy OperationID false false;
  mkPolicy OperationStatus false false;
  mkPolicy DashboardURL true true;
  mkPolicy Credentials true true
].

Definition findKeyPolicy (name : string) : option keyPolicy :=
  find_first (fun p => policy_name p =?s name) keyPolicies.

Definition isKeyReadable (name : string) : bool :=
  match findKeyPolicy name with None => true | Some policy => policy_read policy end.

Definition isKeyWritable (name : string) : bool :=
  match findKeyPolicy name with None => true | Some policy => policy_write policy end.

(** ** Entries *)

(** [registry.Type] *)
Definition ServiceInstance : string := "service-instance".
Definition ServiceBinding : string := "service-binding".

Record Entry : Type := mkEntry {
  entry_secret : Secret;
  entry_exists : bool;
  entry_readOnly : bool;
}.

Definition Name (t name : string) : string := "registry-" +++ t +++ "-" +++ name.

Definition set_data (s : Secret) (d : option (gmap string string)) : Secret :=
  mkSecret (secret_Name s) (secret_Namespace s) (secret_UID s) (secret_ResourceVersion s)
    (secret_Labels s) (secret_Annotations s) d.

Definition set_secret (e : Entry) (s : Secret) : Entry :=
  mkEntry s (entry_exists e) (entry_readOnly e).

Definition entry_data (e : Entry) : gmap string string := data_of (entry_secret e).

Module Entry.
Section Entry.
Context `{Vendor}.

(** The secret a new entry or directory starts from. *)
Definition fresh_secret (namespace name : string) : Secret :=
  mkSecret name namespace "" "" {["app" := Application]} {[VersionAnnotaiton := Version]} None.

Definition New (t namespace name : string) (readOnly : bool) : prog (result Entry) :=
  let resourceName := Name t name in
  r <- call (SecretsGet namespace resourceName) ;;
  match r with
  | Ok secret => Ret (Ok (mkEntry secret true readOnly))
  | Err err =>
      if IsNotFound err
      then Ret (Ok (mkEntry (fresh_secret namespace resourceName) false readOnly))
      else Ret (Err err)
  end.

Definition Clone (e : Entry) : Entry := mkEntry (entry_secret e) (entry_exists e) true.

Definition Inherit (e o : Entry) : Entry :=
  match secret_Data (entry_secret o) with
  | None => e
  | Some data => set_secret e (set_data (entry_secret e) (Some (data ∪ entry_data e)))
  end.

Definition Exists (e : Entry) : bool := entry_exists e.

Definition Commit (e : Entry) : prog (result Entry) :=
  if entry_readOnly e
  then Ret (Err (wrappedError ErrPermsission "registry entry is read only"))
  else if entry_exists e then
    secret <-? call (SecretsUpdate (entry_secret e)) ;;
    Ret (Ok (set_secret e secret))
  else
    secret <-? call (SecretsCreate (entry_secret e)) ;;
    Ret (Ok (mkEntry secret true (entry_readOnly e))).

Definition Delete (e : Entry) : prog (option error) :=
  if entry_readOnly e
  then Ret (Some (wrappedError ErrPermsission "registry entry is read only"))
  else if negb (entry_exists e) then Ret None
  else call (SecretsDelete (secret_Namespace (entry_secret e)) (secret_Name (entry_secret e))).

(** [ok, err := e.Get(key, &value)]: [Ok None] is [false, nil]. *)
Definition Get {T} `{GoJSON T} (e : Entry) (key : Key) : result (option T) :=
  match secret_Data (entry_secret e) with
  | None => Ok None
  | Some m =>
      match m !! key with
      | None => Ok None
      | Some data => let? v := Unmarshal data in Ok (Some v)
      end
  end.

Definition GetString (e : Entry) (key : Key) : result (option string) := Get e key.

Definition Set_ {T} `{GoJSON T} (e : Entry) (key : Key) (v : T) : result Entry :=
  let? data := Marshal v in
  let m := match secret_Data (entry_secret e) with None => ∅ | Some m => m end in
  Ok (set_secret e (set_data (entry_secret e) (Some (<[key := data]> m)))).

Definition GetUser (e : Entry) (key : string) : result (option value) :=
  if negb (isKeyReadable key)
  then Err (NewConfigurationError ("registry key " +++ key +++ " cannot be read"))
  else Get e key.

Definition SetUser (e : Entry) (key : string) (v : value) : result Entry :=
  if negb (isKeyWritable key)
  then Err (NewConfigurationError ("registry key " +++ key +++ " cannot be written"))
  else Set_ e key v.

Definition Unset (e : Entry) (key : Key) : Entry :=
  set_secret e (set_data (entry_secret e) (delete key <$> secret_Data (entry_secret e))).

(** The reference as the unstructured object that the API server sees. *)
Definition GetOwnerReference (e : Entry) : value :=
  VObject [("apiVersion", VString "v1"); ("kind", VString "Secret");
           ("name", VString (secret_Name (entry_secret e)));
           ("uid", VString (secret_UID (entry_secret e)))].
End Entry.
End Entry.

(** ** The directory *)

Definition directoryName : string := "couchbase-service-broker-directory".

Record DirectoryEntry : Type := mkDirectoryEntry { dirent_Namespace : string }.

Record Directory_t : Type := mkDirectory {
  directory_secret : Secret;
  directory_exists : bool;
}.

#[export] Instance GoJSON_DirectoryEntry `{Vendor} : GoJSON DirectoryEntry := {
  Marshal d := marshal_struct [("namespace", Some (Ok (quote (dirent_Namespace d))))];
  Unmarshal data :=
    match raw_fields data with
    | None => Err (json_error data)
    | Some fs =>
        foldl (fun acc t => let? d := acc in
                 match unmarshal t with
                 | Some (VString s) => Ok (mkDirectoryEntry s)
                 | Some VNull => Ok d
                 | _ => Err (json_error data)
                 end)
              (Ok (mkDirectoryEntry "")) (field_texts "namespace" fs)
    end;
}.

Module Directory.
Section Directory.
Context `{Vendor}.

Definition NewDirectory (namespace : string) : prog (result Directory_t) :=
  r <- call (SecretsGet namespace directoryName) ;;
  match r with
  | Ok secret => Ret (Ok (mkDirectory secret true))
  | Err err =>
      if IsNotFound err
      then Ret (Ok (mkDirectory (Entry.fresh_secret namespace directoryName) false))
      else Ret (Err err)
  end.

Definition commit (d : Directory_t) : prog (result Directory_t) :=
  if directory_exists d then
    secret <-? call (SecretsUpdate (directory_secret d)) ;;
    Ret (Ok (mkDirectory secret true))
  else
    secret <-? call (SecretsCreate (directory_secret d)) ;;
    Ret (Ok (mkDirectory secret true)).

Definition Add (d : Directory_t) (instanceID : string) (dirent : DirectoryEntry)
    : prog (result Directory_t) :=
  match Marshal dirent with
  | Err err => Ret (Err err)
  | Ok data =>
      let m := match secret_Data (directory_secret d) with None => ∅ | Some m => m end in
      commit (mkDirectory (set_data (directory_secret d) (Some (<[instanceID := data]> m)))
                (directory_exists d))
  end.

Definition Lookup (d : Directory_t) (instanceID : string) : result DirectoryEntry :=
  match secret_Data (directory_secret d) with
  | None => Err (NewResourceNotFoundError ("directory entry missing for " +++ instanceID))
  | Some m =>
      match m !! instanceID with
      | None => Err (NewResourceNotFoundError ("directory entry missing for " +++ instanceID))
      | Some data => Unmarshal data
      end
  end.

Definition Remove (d : Directory_t) (instanceID : string) : prog (result Directory_t) :=
  match secret_Data (directory_secret d) with
  | None => Ret (Err (NewResourceNotFoundError ("directory entry missing for " +++ instanceID)))
  | Some m =>
      match m !! instanceID with
      | None => Ret (Err (NewResourceNotFoundError ("directory entry missing for " +++ instanceID)))
      | Some _ =>
          commit (mkDirectory (set_data (directory_secret d) (Some (delete instanceID m)))
                    (directory_exists d))
      end
  end.
End Directory.
End Directory.

(** ** Lemmas: the data of an entry *)

Section Data.
Context `{Vendor}.

(** The pure effect of [Set_] on an entry: [text] is stored under [key]. *)
Definition put (e : Entry) (key : Key) (text : string) : Entry :=
  set_secret e (set_data (entry_secret e) (Some (<[key := text]> (entry_data e)))).

Lemma Set_put {T} `{GoJSON T} e key (v : T) :
  Entry.Set_ e key v = (let? data := Marshal v in Ok (put e key data)).
Proof. done. Qed.

Lemma Set_string e key (v : string) : Entry.Set_ e key v = Ok (put e key (quote v)).
Proof. done. Qed.

Lemma Set_value e key (v : value) : Entry.Set_ e key v = Ok (put e key (marshal v)).
Proof. done. Qed.

Lemma entry_data_put e key t : entry_data (put e key t) = <[key := t]> (entry_data e).
Proof. done. Qed.

Lemma entry_data_Unset e key : entry_data (Entry.Unset e key) = delete key (entry_data e).
Proof.
  unfold entry_data, Entry.Unset, data_of. simpl.
  destruct (secret_Data (entry_secret e)); simpl; [done|by rewrite delete_empty].
Qed.

Lemma entry_data_Inherit e o :
  entry_data (Entry.Inherit e o) = entry_data o ∪ entry_data e.
Proof.
  unfold entry_data, Entry.Inherit, data_of. destruct (secret_Data (entry_secret o)); simpl; [done|].
  by rewrite (left_id_L ∅ (∪)).
Qed.

(** Reading depends on the data only. *)
Lemma Get_data {T} `{GoJSON T} e key :
  Entry.Get (T := T) e key =
    match entry_data e !! key with
    | None => Ok None
    | Some data => let? v := Unmarshal data in Ok (Some v)
    end.
Proof. unfold Entry.Get, entry_data, data_of. by destruct (secret_Data (entry_secret e)). Qed.

Lemma Get_put_ne {T} `{GoJSON T} e key key' t :
  key <> key' -> Entry.Get (T := T) (put e key' t) key = Entry.Get e key.
Proof. intros. by rewrite !Get_data, entry_data_put, lookup_insert_ne by done. Qed.

Lemma GetString_put_eq e key v : Entry.GetString (put e key (quote v)) key = Ok (Some v).
Proof.
  unfold Entry.GetString. rewrite Get_data, entry_data_put, lookup_insert_eq.
  simpl. by rewrite unmarshal_quote.
Qed.

Lemma GetString_quote e key v :
  entry_data e !! key = Some (quote v) -> Entry.GetString e key = Ok (Some v).
Proof. intros Hv. unfold Entry.GetString. rewrite Get_data, Hv. simpl. by rewrite unmarshal_quote. Qed.

Lemma Get_none {T} `{GoJSON T} e key :
  entry_data e !! key = None -> Entry.Get (T := T) e key = Ok None.
Proof. intros Hv. by rewrite Get_data, Hv. Qed.

Lemma Get_Ok_None {T} `{GoJSON T} e key :
  Entry.Get (T := T) e key = Ok None <-> entry_data e !! key = None.
Proof.
  rewrite Get_data. destruct (entry_data e !! key); [|done].
  split; [|done]. by destruct (Unmarshal s).
Qed.

Lemma GetString_Ok_None e key :
  Entry.GetString e key = Ok None <-> entry_data e !! key = None.
Proof. apply Get_Ok_None. Qed.

Lemma put_key e key t : secret_key (entry_secret (put e key t)) = secret_key (entry_secret e).
Proof. done. Qed.

Lemma Unset_key e key : secret_key (entry_secret (Entry.Unset e key)) = secret_key (entry_secret e).
Proof. done. Qed.
End Data.

Create Rewrite HintDb registry.
#[export] Hint Rewrite @entry_data_put @entry_data_Unset @entry_data_Inherit @GetString_put_eq
  @Set_string @Set_value @put_key @Unset_key : registry.

(** ** Lemmas: reading and writing secrets *)

Section Store.
Context `{Vendor} {W : Type} `{PlatformLaws W}.

Implicit Types s : sys W.

(** An entry that [Commit] will be allowed to write. *)
Definition committable (w : W) (e : Entry) : Prop :=
  entry_readOnly e = false /\
  if entry_exists e
  then exists old, stored w !! secret_key (entry_secret e) = Some old /\
                   secret_ResourceVersion (entry_secret e) = secret_ResourceVersion old
  else stored w !! secret_key (entry_secret e) = None.

Lemma put_committable w e key t : committable w e -> committable w (put e key t).
Proof. done. Qed.

Lemma Unset_committable w e key : committable w e -> committable w (Entry.Unset e key).
Proof. done. Qed.

Lemma committable_unchanged s s' e :
  unchanged s s' -> committable (world s) e -> committable (world s') e.
Proof. intros [Hs _]. unfold committable. by rewrite Hs. Qed.

(** What [New] returns. *)
Definition loaded (w : W) (ns n : string) (readOnly : bool) (e : Entry) : Prop :=
  entry_readOnly e = readOnly /\ secret_key (entry_secret e) = (ns, n) /\
  if entry_exists e
  then stored w !! (ns, n) = Some (entry_secret e)
  else stored w !! (ns, n) = None /\ entry_secret e = Entry.fresh_secret ns n.

Lemma wp_New t ns n ro Q s :
  (forall r s', unchanged s s' ->
     match r with
     | Ok e => loaded (world s) ns (Name t n) ro e
     | Err _ => ~ available (world s)
     end -> Q r s') ->
  wp (Entry.New t ns n ro) Q s.
Proof.
  intros HQ. unfold Entry.New. apply wp_bind. apply wp_quiet; [done..|]. intros s' Hs'.
  destruct (perform (SecretsGet ns (Name t n)) (world s)).1 as [sec|err] eqn:E.
  - apply wp_ret, HQ; [done|]. pose proof (get_ok _ _ _ _ E) as Hg.
    split; [done|]. split; [by apply stored_key in Hg|done].
  - destruct (IsNotFound err) eqn:Hnf; apply wp_ret, HQ; try done.
    + split; [done|]. split; [done|]. simpl. split; [by eapply get_not_found|done].
    + intros Hav. destruct (stored (world s) !! (ns, Name t n)) eqn:Hs.
      * by rewrite (get_available _ _ _ _ Hav Hs) in E.
      * destruct (get_available_none _ _ _ Hav Hs) as (e & He & ?). congruence.
Qed.

Lemma loaded_committable w ns n e : loaded w ns n false e -> committable w e.
Proof.
  intros (Hro & Hk & He). split; [done|]. rewrite Hk.
  destruct (entry_exists e); [eauto|]. by destruct He.
Qed.

(** What a successful commit of [e] as [e'] has done. *)
Definition committed (w w' : W) (e e' : Entry) : Prop :=
  stored w' = <[secret_key (entry_secret e) := entry_secret e']> (stored w) /\
  entry_readOnly e = false /\ entry_readOnly e' = false /\ entry_exists e' = true /\
  same_payload (entry_secret e) (entry_secret e') /\
  (if entry_exists e
   then exists old, stored w !! secret_key (entry_secret e) = Some old /\
        (secret_ResourceVersion (entry_secret e) = secret_ResourceVersion old \/
         secret_ResourceVersion (entry_secret e) = "") /\
        (secret_ResourceVersion (entry_secret e') = secret_ResourceVersion old ->
           same_payload old (entry_secret e'))
   else stored w !! secret_key (entry_secret e) = None).

Lemma committed_before w1 w2 w' e e' :
  stored w1 = stored w2 -> committed w1 w' e e' -> committed w2 w' e e'.
Proof. intros Hs. unfold committed. by rewrite Hs. Qed.

Lemma same_payload_key a b : same_payload a b -> secret_key a = secret_key b.
Proof. intros (?&?&_). unfold secret_key. congruence. Qed.

Lemma same_payload_data a b : same_payload a b -> data_of a = data_of b.
Proof. by intros (_&_&_&_&?). Qed.

Lemma committed_data w w' e e' : committed w w' e e' -> entry_data e' = entry_data e.
Proof. intros (_&_&_&_&Hp&_). symmetry. by apply same_payload_data. Qed.

Lemma committed_key w w' e e' :
  committed w w' e e' -> secret_key (entry_secret e') = secret_key (entry_secret e).
Proof. intros (_&_&_&_&Hp&_). symmetry. by apply same_payload_key. Qed.

Lemma committed_committable w w' e e' : committed w w' e e' -> committable w' e'.
Proof.
  intros Hc. pose proof (committed_key _ _ _ _ Hc) as Hk.
  destruct Hc as (Hs & _ & Hro & Hex & _). split; [done|]. rewrite Hex, Hk, Hs.
  exists (entry_secret e'). by rewrite lookup_insert_eq.
Qed.

Lemma committed_lookup w w' e e' :
  committed w w' e e' -> stored w' !! secret_key (entry_secret e) = Some (entry_secret e').
Proof. intros (Hs & _). by rewrite Hs, lookup_insert_eq. Qed.

Lemma committed_lookup_ne w w' e e' k :
  committed w w' e e' -> k <> secret_key (entry_secret e) -> stored w' !! k = stored w !! k.
Proof. intros (Hs & _) Hk. by rewrite Hs, lookup_insert_ne. Qed.

Lemma wp_Commit e Q s :
  (forall r s', kept s s' ->
     match r with
     | Ok e' => committed (world s) (world s') e e'
     | Err _ => stored (world s') = stored (world s) /\
                (available (world s) -> ~ committable (world s) e)
     end -> Q r s') ->
  wp (Entry.Commit e) Q s.
Proof.
  intros HQ. unfold Entry.Commit. destruct (entry_readOnly e) eqn:Hro.
  { apply wp_ret, HQ; [done|]. split; [done|]. intros _ [? _]. congruence. }
  destruct (entry_exists e) eqn:Hex; apply wp_try, wp_call.
  - pose proof (call_kept (SecretsUpdate (entry_secret e)) s eq_refl) as Hk.
    destruct (perform (SecretsUpdate (entry_secret e)) (world s)).1 as [sec|err] eqn:E.
    + apply wp_ret, HQ; [done|]. apply update_ok in E as (old & Ho & Hv & Hs & Hp & _ & _ & Hr).
      do 2 (split; [done|]). split; [done|]. split; [done|]. split; [done|]. rewrite Hex. eauto.
    + apply HQ; [done|]. split; [by eapply update_err|]. intros Hav [_ Hc].
      rewrite Hex in Hc. destruct Hc as (old & Ho & Hv).
      destruct (update_available _ _ _ Hav Ho Hv). congruence.
  - pose proof (call_kept (SecretsCreate (entry_secret e)) s eq_refl) as Hk.
    destruct (perform (SecretsCreate (entry_secret e)) (world s)).1 as [sec|err] eqn:E.
    + apply wp_ret, HQ; [done|]. apply create_ok in E as (Ho & Hs & Hp).
      do 2 (split; [done|]). split; [done|]. split; [done|]. split; [done|]. by rewrite Hex.
    + apply HQ; [done|]. split; [by eapply create_err|]. intros Hav [_ Hc].
      rewrite Hex in Hc. destruct (create_available _ _ Hav Hc). congruence.
Qed.

Lemma wp_Delete e Q s :
  (forall r s', kept s s' ->
     match r with
     | None => entry_readOnly e = false /\
               stored (world s') = (if entry_exists e then delete (secret_key (entry_secret e)) (stored (world s))
                                    else stored (world s))
     | Some _ => stored (world s') = stored (world s) /\
                 (available (world s) -> ~ committable (world s) e)
     end -> Q r s') ->
  wp (Entry.Delete e) Q s.
Proof.
  intros HQ. unfold Entry.Delete. destruct (entry_readOnly e) eqn:Hro.
  { apply wp_ret, HQ; [done|]. split; [done|]. intros _ [? _]. congruence. }
  destruct (entry_exists e) eqn:Hex; simpl; [|by apply wp_ret, HQ].
  set (ns := secret_Namespace (entry_secret e)). set (n := secret_Name (entry_secret e)).
  apply wp_call. pose proof (call_kept (SecretsDelete ns n) s eq_refl) as Hk.
  destruct (perform (SecretsDelete ns n) (world s)).1 as [err|] eqn:E; apply HQ; try done.
  - split; [by eapply delete_err|]. intros Hav [_ Hc]. rewrite Hex in Hc.
    destruct Hc as (old & Ho & _).
    pose proof (delete_available ns n _ _ Hav Ho). congruence.
  - split; [done|]. by apply delete_ok.
Qed.
End Store.
