(* ===== verification/RegistryFacts.v ===== *)
(** * Properties of registry entries ([pkg/registry/registry.go]) *)

From S2P Require Import Prelude Json JsonFacts Errors Types Platform Vendor Sim Registry.

Local Open Scope broker_scope.

(** The keys the broker writes for itself. *)
Definition reserved_keys : list Key :=
  [Namespace; InstanceID; ServiceID; PlanID; Context_; Parameters_; Operation; OperationID; OperationStatus].

(** The keys that hold what clients sent and the state of operations. *)
Definition private_keys : list Key := [Context_; Parameters_; Operation; OperationID; OperationStatus].

(** The keys of [registry.adoc] that it calls read-only ("can not be set by
    configuration parameters") and reserved ("cannot be read or written"). *)
Definition documented_read_only : list Key := [Namespace; InstanceID; BindingID; ServiceID; PlanID].
Definition documented_reserved : list Key := [Context_; Parameters_; Operation; OperationID; OperationStatus].

(** The broker protects what is documented, but for the ID of a binding. *)
Lemma reserved_documented k :
  k ∈ reserved_keys <-> k ∈ documented_read_only ++ documented_reserved /\ k <> BindingID.
Proof.
  unfold reserved_keys, documented_read_only, documented_reserved. cbn [app].
  rewrite !elem_of_cons, elem_of_nil. split.
  - intros Hk. repeat destruct Hk as [->|Hk]; try done; (split; [tauto|discriminate]).
  - tauto.
Qed.

Lemma reserved_not_writable k : k ∈ reserved_keys <-> isKeyWritable k = false.
Proof.
  split.
  - unfold reserved_keys. rewrite !elem_of_cons, elem_of_nil. intros Hk. by repeat destruct Hk as [->|Hk].
  - unfold isKeyWritable, findKeyPolicy. destruct (find_first _ keyPolicies) as [p|] eqn:E; [|done].
    apply find_first_Some in E as [Hp Hk]. bool_solver. unfold keyPolicies in Hp.
    rewrite !elem_of_cons, elem_of_nil in Hp. unfold reserved_keys. rewrite !elem_of_cons.
    repeat destruct Hp as [->|Hp]; simpl; intros; tauto || done.
Qed.

Lemma private_not_readable k : k ∈ private_keys <-> isKeyReadable k = false.
Proof.
  split.
  - unfold private_keys. rewrite !elem_of_cons, elem_of_nil. intros Hk. by repeat destruct Hk as [->|Hk].
  - unfold isKeyReadable, findKeyPolicy. destruct (find_first _ keyPolicies) as [p|] eqn:E; [|done].
    apply find_first_Some in E as [Hp Hk]. bool_solver. unfold keyPolicies in Hp.
    rewrite !elem_of_cons, elem_of_nil in Hp. unfold private_keys. rewrite !elem_of_cons.
    repeat destruct Hp as [->|Hp]; simpl; intros; tauto || done.
Qed.

Section Facts.
Context `{Vendor}.

Lemma SetUser_put e k v e' :
  Entry.SetUser e k v = Ok e' -> isKeyWritable k = true /\ e' = put e k (marshal v).
Proof.
  unfold Entry.SetUser. destruct (isKeyWritable k); cbn [negb]; [|done]. rewrite Set_value. by intros [= <-].
Qed.

(** C24: what a configuration may do to the registry.  A template sets a key
    unless the documentation reserves it or calls it read-only, and then it
    changes that key alone and reading it gives the value back; the error else
    is a configuration error.  The one exception is [binding-id], which is
    documented as read-only and which every template can set.  A template reads
    a key unless the documentation reserves it. *)
Theorem user_access e k v :
  canonical v = true ->
  match Entry.SetUser e k v with
  | Ok e' => (k ∈ documented_read_only ++ documented_reserved -> k = BindingID) /\
             Entry.GetUser e' k = Ok (Some v) /\
             (forall k', k' <> k -> entry_data e' !! k' = entry_data e !! k')
  | Err err => k ∈ documented_read_only ++ documented_reserved /\ k <> BindingID /\ IsConfigurationError err = true
  end /\
  Entry.SetUser e BindingID v = Ok (put e BindingID (marshal v)) /\
  Entry.GetUser e k =
    (if decide (k ∈ documented_reserved)
     then Err (NewConfigurationError ("registry key " +++ k +++ " cannot be read"))
     else Entry.Get e k).
Proof.
  intros Cv. split; [|split].
  - destruct (Entry.SetUser e k v) as [e'|err] eqn:E.
    + apply SetUser_put in E as [Hw ->]. split.
      { intros Hk. destruct (decide (k = BindingID)) as [|Hne]; [done|].
        assert (k ∈ reserved_keys) as Hr by by apply reserved_documented.
        apply reserved_not_writable in Hr. congruence. }
      split.
      * unfold Entry.GetUser. assert (isKeyReadable k = true) as ->.
        { apply not_false_iff_true. rewrite <- private_not_readable. intros Hp.
          apply not_false_iff_true in Hw. apply Hw, reserved_not_writable. revert Hp.
          unfold private_keys, reserved_keys. rewrite !elem_of_cons, elem_of_nil. tauto. }
        cbn [negb]. rewrite Get_data, entry_data_put, lookup_insert_eq. cbn [Unmarshal GoJSON_value].
        by rewrite unmarshal_marshal.
      * intros k' Hk. rewrite entry_data_put. by rewrite lookup_insert_ne.
    + assert (isKeyWritable k = false /\ IsConfigurationError err = true) as [Hw Herr].
      { unfold Entry.SetUser in E. destruct (isKeyWritable k); [done|]. cbn [negb] in E. by injection E as <-. }
      apply reserved_not_writable, reserved_documented in Hw as [Hk Hne]. done.
  - unfold Entry.SetUser. assert (isKeyWritable BindingID = true) as -> by reflexivity. cbn [negb]. by rewrite Set_value.
  - change documented_reserved with private_keys. unfold Entry.GetUser. case_decide as Hk.
    + by rewrite (proj1 (private_not_readable k) Hk).
    + rewrite private_not_readable, not_false_iff_true in Hk. by rewrite Hk.
Qed.

(** A frozen copy of an entry has its data and cannot be written: its
    [Commit] and [Delete] fail without a call to the API server. *)
Lemma clone_frozen e :
  (forall T (Hc : GoJSON T) k, Entry.Get (T := T) (Entry.Clone e) k = Entry.Get e k) /\
  (exists err, Entry.Commit (Entry.Clone e) = Ret (Err err)) /\
  (exists err, Entry.Delete (Entry.Clone e) = Ret (Some err)).
Proof. split; [done|]. split; eexists; reflexivity. Qed.

(** Inheriting gives the binding the data of the instance, operation included. *)
Lemma Inherit_lookup e o k :
  entry_data (Entry.Inherit e o) !! k =
    match entry_data o !! k with Some t => Some t | None => entry_data e !! k end.
Proof. rewrite entry_data_Inherit, lookup_union. by destruct (entry_data o !! k), (entry_data e !! k). Qed.
End Facts.

Lemma prefix_app a b : String.prefix a (a +++ b) = true.
Proof.
  induction a as [|c a IH]; [by destruct b|]. change (String c a +++ b) with (String c (a +++ b)). cbn [String.prefix].
  by destruct (ascii_dec c c).
Qed.

Lemma Name_registry t n : registry_name (Name t n) = true.
Proof. unfold registry_name, Name. by rewrite prefix_app. Qed.

(** The secrets of the registry are out of the templates' reach. *)
Section Untemplated.
Context {W : Type} `{PlatformLaws W}.

Lemma Name_untemplated ns t n : templated (ns, Name t n) = false.
Proof. apply registry_untemplated, Name_registry. Qed.

Lemma directory_untemplated ns : templated (ns, directoryName) = false.
Proof. by apply registry_untemplated. Qed.
End Untemplated.

#[export] Hint Resolve Name_untemplated directory_untemplated : core.

Module RegistryWitness.

Definition entry : Entry := mkEntry (mkSecret "registry-service-instance-i" "ns" "" "" ∅ ∅ None) false false.

Lemma user_access_witness :
  exists e', Entry.SetUser entry "dashboard-url" (VString "http://x") = Ok e' /\
    Entry.GetUser e' "dashboard-url" = Ok (Some (VString "http://x")).
Proof.
  destruct (user_access entry "dashboard-url" (VString "http://x") eq_refl) as [Hw _].
  revert Hw. destruct (Entry.SetUser entry "dashboard-url" (VString "http://x")) as [e'|err] eqn:E.
  - intros (_ & Hg & _). exists e'. split; [reflexivity|exact Hg].
  - vm_compute in E. discriminate E.
Defined.
End RegistryWitness.
