(* ===== verification/Operation.v ===== *)
(** * Asynchronous operations ([pkg/operation])

    An operation on a service instance or binding is recorded in its registry
    entry by the keys [operation], [operation-id] and [operation-status]:
    [Start] sets the first two, [Complete] the third, [End] removes them. *)

From S2P Require Import Prelude Json Errors Types Platform Vendor Sim Registry.

Local Open Scope broker_scope.

(** [operation.Type] *)
Definition TypeProvision : string := "provision".
Definition TypeUpdate : string := "update".
Definition TypeDeprovision : string := "deprovision".

Section Operation.
Context `{Vendor}.

Definition Start (entry : Entry) (t : string) : prog (result Entry) :=
  match Entry.GetString entry Operation with
  | Err err => Ret (Err err)
  | Ok (Some op) =>
      Ret (Err (wrappedError ErrOperatorExists (op +++ " operation already exists for instance")))
  | Ok None =>
      id <- call NewUUID ;;
      match Entry.Set_ entry Operation t with
      | Err err => Ret (Err err)
      | Ok entry =>
          match Entry.Set_ entry OperationID id with
          | Err err => Ret (Err err)
          | Ok entry => Entry.Commit entry
          end
      end
  end.

(** The entry is shared with the caller, who sees the status that was set
    even when the commit fails. *)
Definition Complete (entry : Entry) (status : option error) : prog (Entry * option error) :=
  match Entry.GetString entry Operation with
  | Err err => Ret (entry, Some err)
  | Ok None =>
      Ret (entry, Some (wrappedError ErrOperationDoesNotExist " operation does not exist for instance"))
  | Ok (Some _) =>
      let errString := match status with Some err => Error err | None => "" end in
      match Entry.Set_ entry OperationStatus errString with
      | Err err => Ret (entry, Some err)
      | Ok entry =>
          r <- Entry.Commit entry ;;
          match r with
          | Ok entry => Ret (entry, None)
          | Err err => Ret (entry, Some err)
          end
      end
  end.

Definition End_ (entry : Entry) : prog (result Entry) :=
  match Entry.GetString entry Operation with
  | Err err => Ret (Err err)
  | Ok None =>
      Ret (Err (wrappedError ErrOperationDoesNotExist " operation does not exist for instance"))
  | Ok (Some _) =>
      let entry := Entry.Unset entry Operation in
      let entry := Entry.Unset entry OperationID in
      let entry := Entry.Unset entry OperationStatus in
      Entry.Commit entry
  end.
End Operation.

(** ** Specification: a state machine

    What the three functions promise to the handlers, in terms of the state an
    entry is in. *)

Inductive op_state : Type :=
  | Idle
  | Running (t id : string)
  | Finished (t id status : string)
  | Inconsistent.

Definition op_state_of `{Vendor} (e : Entry) : op_state :=
  match Entry.GetString e Operation, Entry.GetString e OperationID, Entry.GetString e OperationStatus with
  | Ok None, Ok None, Ok None => Idle
  | Ok (Some t), Ok (Some id), Ok None => Running t id
  | Ok (Some t), Ok (Some id), Ok (Some status) => Finished t id status
  | _, _, _ => Inconsistent
  end.

Inductive op_label : Type :=
  | LStart (t : string)
  | LComplete (status : string)
  | LEnd.

Inductive op_step : op_state -> op_label -> op_state -> Prop :=
  | step_start t id : op_step Idle (LStart t) (Running t id)
  | step_complete t id status : op_step (Running t id) (LComplete status) (Finished t id status)
  | step_complete_again t id old status :
      op_step (Finished t id old) (LComplete status) (Finished t id status)
  | step_end t id : op_step (Running t id) LEnd Idle
  | step_end_finished t id status : op_step (Finished t id status) LEnd Idle.

Definition error_text (err : option error) : string :=
  match err with Some err => Error err | None => "" end.

(** ** Lemmas *)

Section Lemmas.
Context `{Vendor} {W : Type} `{PlatformLaws W}.

Implicit Types s : sys W.

Lemma op_state_of_data e e' :
  entry_data e = entry_data e' -> op_state_of e = op_state_of e'.
Proof. intros He. unfold op_state_of, Entry.GetString. by rewrite !Get_data, He. Qed.

(** The entry that [Start] commits. *)
Definition started (e : Entry) (t id : string) : Entry :=
  put (put e Operation (quote t)) OperationID (quote id).

Definition ended (e : Entry) : Entry :=
  Entry.Unset (Entry.Unset (Entry.Unset e Operation) OperationID) OperationStatus.

Lemma wp_Start e t Q s :
  Entry.GetString e Operation = Ok None ->
  (forall r id s', kept s s' ->
     match r with
     | Ok e' => committed (world s) (world s') (started e t id) e'
     | Err _ => stored (world s') = stored (world s) /\
                (available (world s) -> ~ committable (world s) e)
     end -> Q r s') ->
  wp (Start e t) Q s.
Proof.
  intros Hop HQ. unfold Start. rewrite Hop. apply wp_bind. apply wp_quiet; [done..|].
  intros s1 [Hs1 Hk1]. rewrite !Set_string. apply wp_Commit. intros r s2 Hk2 Hr.
  eapply (HQ r (perform NewUUID (world s)).1 s2); [by etransitivity|].
  destruct r; [by eapply committed_before|]. destruct Hr as [Hs2 Hav]. split; [congruence|]. intros Ha Hc. apply Hav.
  - by apply Hk1.
  - by apply (committable_unchanged s s1).
Qed.

Lemma Start_busy e t op :
  Entry.GetString e Operation = Ok (Some op) ->
  Start e t = Ret (Err (wrappedError ErrOperatorExists (op +++ " operation already exists for instance"))).
Proof. intros Hop. unfold Start. by rewrite Hop. Qed.

(** Whatever the entry, [Start] returns, and it commits only an idle entry. *)
Lemma wp_Start_any e t Q s :
  (forall r s', kept s s' ->
     match r with
     | Ok e' => Entry.GetString e Operation = Ok None /\
                exists id, committed (world s) (world s') (started e t id) e'
     | Err _ => stored (world s') = stored (world s)
     end -> Q r s') ->
  wp (Start e t) Q s.
Proof.
  intros HQ. destruct (Entry.GetString e Operation) as [[op|]|err] eqn:Hop.
  - rewrite (Start_busy _ _ _ Hop). by apply wp_ret, HQ.
  - apply wp_Start; [done|]. intros [e'|] id s' Hk Hr; apply HQ; eauto. by destruct Hr.
  - unfold Start. rewrite Hop. by apply wp_ret, HQ.
Qed.

Lemma started_key e t id : secret_key (entry_secret (started e t id)) = secret_key (entry_secret e).
Proof. done. Qed.

Lemma ended_key e : secret_key (entry_secret (ended e)) = secret_key (entry_secret e).
Proof. done. Qed.

(** Starting an operation on a stored entry always gives it a new version. *)
Lemma started_new_version w w' e t id e' :
  stored w !! secret_key (entry_secret e) = Some (entry_secret e) -> entry_exists e = true ->
  Entry.GetString e Operation = Ok None -> committed w w' (started e t id) e' ->
  secret_ResourceVersion (entry_secret e') <> secret_ResourceVersion (entry_secret e).
Proof.
  intros Hs Hex Hop (_ & _ & _ & _ & Hp & Hpre) Hv.
  rewrite started_key in Hpre. simpl in Hpre. rewrite Hex in Hpre.
  destruct Hpre as (old & Ho & _ & Hsame). rewrite Hs in Ho. injection Ho as <-.
  apply Hsame, same_payload_data in Hv. apply same_payload_data in Hp.
  rewrite GetString_Ok_None in Hop. unfold entry_data in Hop. rewrite Hv, <- Hp in Hop.
  change (entry_data (started e t id) !! Operation = None) in Hop.
  unfold started in Hop. rewrite !entry_data_put in Hop. by simplify_map_eq.
Qed.

Lemma wp_Complete e status op Q s :
  Entry.GetString e Operation = Ok (Some op) ->
  (forall e' err s', kept s s' ->
     match err with
     | None => committed (world s) (world s') (put e OperationStatus (quote (error_text status))) e'
     | Some _ => e' = put e OperationStatus (quote (error_text status)) /\
                 stored (world s') = stored (world s) /\
                 (available (world s) -> ~ committable (world s) e)
     end -> Q (e', err) s') ->
  wp (Complete e status) Q s.
Proof.
  intros Hop HQ. unfold Complete. rewrite Hop, Set_string. apply wp_bind, wp_Commit.
  intros [e'|err] s' Hk Hr; apply wp_ret, HQ; done.
Qed.

Lemma wp_End e op Q s :
  Entry.GetString e Operation = Ok (Some op) ->
  (forall r s', kept s s' ->
     match r with
     | Ok e' => committed (world s) (world s') (ended e) e'
     | Err _ => stored (world s') = stored (world s) /\
                (available (world s) -> ~ committable (world s) e)
     end -> Q r s') ->
  wp (End_ e) Q s.
Proof. intros Hop HQ. unfold End_. rewrite Hop. by apply wp_Commit. Qed.

Lemma started_Running e t id :
  Entry.GetString e OperationStatus = Ok None -> op_state_of (started e t id) = Running t id.
Proof.
  rewrite GetString_Ok_None. intros Hst. unfold op_state_of, started, Entry.GetString.
  rewrite !Get_data, !entry_data_put. simplify_map_eq. by rewrite !unmarshal_quote.
Qed.

Lemma ended_data e :
  entry_data (ended e) = delete OperationStatus (delete OperationID (delete Operation (entry_data e))).
Proof. unfold ended. by rewrite !entry_data_Unset. Qed.

Lemma ended_Idle e : op_state_of (ended e) = Idle.
Proof.
  unfold op_state_of, Entry.GetString. rewrite !Get_data, ended_data. by simplify_map_eq.
Qed.
End Lemmas.

(** ** Properties *)

Section Properties.
Context `{Vendor} {W : Type} `{PlatformLaws W}.

Implicit Types s : sys W.

Lemma op_state_busy e t id status :
  op_state_of e = Running t id \/ op_state_of e = Finished t id status ->
  exists op, Entry.GetString e Operation = Ok (Some op).
Proof.
  unfold op_state_of. intros Hst.
  destruct (Entry.GetString e Operation) as [[]|]; [eauto|by destruct Hst; repeat case_match..].
Qed.

Lemma op_state_Idle e : op_state_of e = Idle -> Entry.GetString e Operation = Ok None.
Proof. unfold op_state_of. by repeat case_match. Qed.

Lemma completed_state e t id old status :
  op_state_of e = Running t id \/ op_state_of e = Finished t id old ->
  op_state_of (put e OperationStatus (quote status)) = Finished t id status.
Proof.
  unfold op_state_of. rewrite GetString_put_eq. unfold Entry.GetString.
  rewrite !Get_put_ne by done.
  intros [Hst|Hst]; repeat case_match; congruence.
Qed.

(** Adding the three keys to an idle entry and removing them is the identity. *)
Lemma cycle_data e t id st :
  op_state_of e = Idle ->
  delete OperationStatus (delete OperationID (delete Operation
    (<[OperationStatus := st]> (entry_data (started e t id))))) = entry_data e.
Proof.
  unfold op_state_of, started. rewrite !entry_data_put.
  destruct (Entry.GetString e Operation) as [[]|] eqn:Hop;
    destruct (Entry.GetString e OperationID) as [[]|] eqn:Hid;
    destruct (Entry.GetString e OperationStatus) as [[]|] eqn:Hs; try done. intros _.
  rewrite GetString_Ok_None in Hop, Hid, Hs. apply map_eq. intros k.
  rewrite !lookup_delete, !lookup_insert. repeat case_decide; subst; congruence.
Qed.

(** C17: refinement of the operation state machine.  From a consistent entry,
    each of [Start], [Complete] and [End] either makes the step of the state
    machine that its name says, and the secret stored in the API server is
    then the entry it returns, or reports an error and leaves every stored
    secret as it was. *)
Theorem operation_refines (e : Entry) t status s :
  op_state_of e <> Inconsistent ->
  wp (Start e t) (fun r s' =>
    match r with
    | Ok e' => op_step (op_state_of e) (LStart t) (op_state_of e') /\
               stored (world s') = <[secret_key (entry_secret e) := entry_secret e']> (stored (world s))
    | Err _ => stored (world s') = stored (world s)
    end) s /\
  wp (Complete e status) (fun '(e', err) s' =>
    match err with
    | None => op_step (op_state_of e) (LComplete (error_text status)) (op_state_of e') /\
              stored (world s') = <[secret_key (entry_secret e) := entry_secret e']> (stored (world s))
    | Some _ => stored (world s') = stored (world s)
    end) s /\
  wp (End_ e) (fun r s' =>
    match r with
    | Ok e' => op_step (op_state_of e) LEnd (op_state_of e') /\
               stored (world s') = <[secret_key (entry_secret e) := entry_secret e']> (stored (world s))
    | Err _ => stored (world s') = stored (world s)
    end) s.
Proof.
  intros Hcons. destruct (op_state_of e) as [|t0 id|t0 id st|] eqn:Hst; [| | |done].
  - apply op_state_Idle in Hst as Hop. split; [|split; unfold Complete, End_; rewrite Hop; done].
    apply wp_Start; [done|]. intros [e'|] id s' Hk Hr; [|by destruct Hr].
    split; [|by destruct Hr].
    rewrite (op_state_of_data e' _ (committed_data _ _ _ _ Hr)).
    rewrite started_Running; [constructor|]. revert Hst. unfold op_state_of. by repeat case_match.
  - destruct (op_state_busy e t0 id "" (or_introl Hst)) as [op Hop].
    rewrite (Start_busy _ _ _ Hop). split; [done|]. split.
    + eapply wp_Complete; [done|]. intros e' [err|] s' Hk Hr; [by destruct Hr as (_&?&_)|].
      split; [|by destruct Hr]. rewrite (op_state_of_data e' _ (committed_data _ _ _ _ Hr)).
      rewrite (completed_state e t0 id "") by auto. constructor.
    + eapply wp_End; [done|]. intros [e'|] s' Hk Hr; [|by destruct Hr].
      split; [|by destruct Hr]. rewrite (op_state_of_data e' _ (committed_data _ _ _ _ Hr)).
      rewrite ended_Idle. constructor.
  - destruct (op_state_busy e t0 id st (or_intror Hst)) as [op Hop].
    rewrite (Start_busy _ _ _ Hop). split; [done|]. split.
    + eapply wp_Complete; [done|]. intros e' [err|] s' Hk Hr; [by destruct Hr as (_&?&_)|].
      split; [|by destruct Hr]. rewrite (op_state_of_data e' _ (committed_data _ _ _ _ Hr)).
      rewrite (completed_state e t0 id st) by auto. constructor.
    + eapply wp_End; [done|]. intros [e'|] s' Hk Hr; [|by destruct Hr].
      split; [|by destruct Hr]. rewrite (op_state_of_data e' _ (committed_data _ _ _ _ Hr)).
      rewrite ended_Idle. constructor.
Qed.

(** At most one operation is started.  Two requests that read the same
    version of an entry both call [Start] (in either order of types); when
    the first one commits, the second one fails and the entry keeps the first
    one's operation. *)
Lemma start_race (e1 e2 : Entry) t1 t2 ns n s :
  loaded (world s) ns n false e1 -> loaded (world s) ns n false e2 ->
  entry_exists e1 = true -> secret_ResourceVersion (entry_secret e2) <> "" ->
  wp (r1 <- Start e1 t1 ;; r2 <- Start e2 t2 ;; Ret (r1, r2))
     (fun '(r1, r2) s' =>
        forall e1', r1 = Ok e1' ->
        (exists err, r2 = Err err) /\ stored (world s') !! (ns, n) = Some (entry_secret e1')) s.
Proof.
  intros (Hro1 & Hk1 & He1) (Hro2 & Hk2 & He2) Hex1 Hv2. rewrite Hex1 in He1.
  assert (entry_exists e2 = true /\ entry_secret e2 = entry_secret e1) as [Hex2 Hsec].
  { destruct (entry_exists e2); [by rewrite He1 in He2; injection He2|]. destruct He2. congruence. }
  apply wp_bind, wp_Start_any. intros r1 s1 _ Hr1. apply wp_bind, wp_Start_any.
  intros r2 s2 _ Hr2. apply wp_ret. intros e1' ->. destruct Hr1 as (Hop1 & id1 & Hr1).
  pose proof (committed_lookup _ _ _ _ Hr1) as Hl1. rewrite started_key, Hk1 in Hl1.
  destruct r2 as [e2'|err2]; [exfalso|by rewrite Hr2; eauto].
  destruct Hr2 as (_ & id2 & (_ & _ & _ & _ & _ & Hpre)).
  rewrite started_key, Hk2 in Hpre. simpl in Hpre. rewrite Hex2, Hl1 in Hpre.
  destruct Hpre as (old & [= <-] & [Hv|Hv] & _); [|done].
  rewrite Hsec in Hv. rewrite <- Hk1 in He1.
  by apply (started_new_version _ _ _ _ _ _ He1 Hex1 Hop1 Hr1).
Qed.

(** ** Any interleaving *)

(** A goroutine on its way through [Start]. *)
Inductive starting (e : Entry) (ts : list string) : prog unit -> Prop :=
  | starting_begin t : t ∈ ts -> starting e ts (_ <- Start e t ;; Ret tt)
  | starting_commit t id : t ∈ ts -> starting e ts (_ <- Entry.Commit (started e t id) ;; Ret tt)
  | starting_done : starting e ts (Ret tt).

(** Nothing has been written, or exactly the operation of one of them. *)
Definition one_started (e : Entry) (ts : list string) (w w' : W) : Prop :=
  stored w' = stored w \/ exists t id e', t ∈ ts /\ committed w w' (started e t id) e'.

Lemma one_started_stored e ts w w1 w2 :
  stored w2 = stored w1 -> one_started e ts w w1 -> one_started e ts w w2.
Proof.
  intros Hs [Hw|(t & id & e' & Ht & Hc)]; [left; congruence|]. right. exists t, id, e'. split; [done|].
  destruct Hc as (Hst & Hrest). split; [congruence|exact Hrest].
Qed.

(** The commit of one of them writes only when none has written before. *)
Lemma commit_once e ts t id w w1 sec :
  stored w !! secret_key (entry_secret e) = Some (entry_secret e) -> entry_exists e = true -> entry_readOnly e = false ->
  secret_ResourceVersion (entry_secret e) <> "" -> Entry.GetString e Operation = Ok None -> t ∈ ts ->
  one_started e ts w w1 ->
  (perform (SecretsUpdate (entry_secret (started e t id))) w1).1 = Ok sec ->
  one_started e ts w (perform (SecretsUpdate (entry_secret (started e t id))) w1).2.
Proof.
  intros Hs Hex Hro Hv Hop Ht Hone Hu. apply update_ok in Hu as (old & Ho & Hver & Hst & Hp & _ & _ & Hsame).
  change (secret_key (entry_secret (started e t id))) with (secret_key (entry_secret e)) in Ho.
  change (secret_ResourceVersion (entry_secret (started e t id))) with (secret_ResourceVersion (entry_secret e)) in Hver.
  destruct Hone as [Hw|(t' & id' & e' & _ & Hc)].
  - right. exists t, id, (set_secret (started e t id) sec). split; [done|]. split; [by rewrite Hst, Hw|].
    do 2 (split; [exact Hro|]). split; [exact Hex|]. split; [done|]. cbn [entry_exists started put set_secret]. rewrite Hex.
    exists old. rewrite Hw in Ho. split; [exact Ho|]. split; [exact Hver|exact Hsame].
  - exfalso. pose proof (committed_lookup _ _ _ _ Hc) as Hl. rewrite started_key in Hl. rewrite Hl in Ho. injection Ho as <-.
    destruct Hver as [Hver|Hver]; [|done]. symmetry in Hver. revert Hver.
    by apply (started_new_version _ _ _ _ _ _ Hs Hex Hop Hc).
Qed.

Lemma starting_step e ts w s1 s2 :
  stored w !! secret_key (entry_secret e) = Some (entry_secret e) -> entry_exists e = true -> entry_readOnly e = false ->
  secret_ResourceVersion (entry_secret e) <> "" -> Entry.GetString e Operation = Ok None ->
  thread_step s1 s2 ->
  Forall (starting e ts) (spawned s1) /\ one_started e ts w (world s1) ->
  Forall (starting e ts) (spawned s2) /\ one_started e ts w (world s2).
Proof.
  intros Hs Hex Hro Hv Hop Hstep [Hall Hone]. destruct Hstep as [s i p p' w' new Hi Ha]. cbn [spawned world].
  assert (starting e ts p' /\ new = [] /\ one_started e ts w w') as (Hp' & -> & Hw').
  { rewrite Forall_forall in Hall. pose proof (Hall p (proj1 (list_elem_of_In _ _) (list_elem_of_lookup_2 _ _ _ Hi))) as Hp.
    destruct Hp as [t Ht|t id Ht|]; [| |done].
    - revert Ha. unfold Start. rewrite Hop. cbn [bind call advance].
      pose proof (stored_frame _ NewUUID (world s) eq_refl) as Hf.
      destruct (perform NewUUID (world s)) as [id w1]. cbn [snd] in Hf. intros [= <- <- <-].
      split; [by constructor|]. split; [done|]. by eapply one_started_stored.
    - revert Ha. unfold Entry.Commit. cbn [entry_readOnly entry_exists started put set_secret]. rewrite Hro, Hex.
      unfold try_bind. cbn [bind call advance].
      pose proof (commit_once e ts t id w (world s)) as Hc.
      pose proof (update_err (entry_secret (started e t id)) (world s)) as He.
      change (entry_secret (put (put e Operation (quote t)) OperationID (quote id))) with (entry_secret (started e t id)).
      destruct (perform (SecretsUpdate (entry_secret (started e t id))) (world s)) as [[sec|err] w1]; cbn [fst snd] in Hc, He;
        intros [= <- <- <-]; (split; [constructor|]); (split; [done|]).
      + by eapply Hc.
      + eapply one_started_stored, Hone. by eapply He. }
  split; [|done]. rewrite app_nil_r. by apply Forall_insert.
Qed.

(** C18: at most one operation is started, in every interleaving.  Any number
    of requests that read the same version of an entry call [Start] at the same
    time; whatever the order in which their calls reach the API server, the
    store is as it was, or it holds the operation that exactly one of them
    started and differs in that entry only. *)
Theorem start_exclusive (e : Entry) (ts : list string) ns n s s' :
  loaded (world s) ns n false e -> entry_exists e = true -> secret_ResourceVersion (entry_secret e) <> "" ->
  spawned s = map (fun t => _ <- Start e t ;; Ret tt) ts ->
  rtc thread_step s s' ->
  one_started e ts (world s) (world s').
Proof.
  intros (Hro & Hk & He) Hex Hv Hsp Hsteps. rewrite Hex, <- Hk in He.
  assert (forall p, p ∈ spawned s -> exists t, t ∈ ts /\ p = (_ <- Start e t ;; Ret tt)) as Hsp'.
  { intros p Hp%list_elem_of_In. rewrite Hsp in Hp. apply in_map_iff in Hp as (t & <- & Ht).
    exists t. split; [by apply list_elem_of_In|done]. }
  destruct (decide (Entry.GetString e Operation = Ok None)) as [Hop|Hop].
  - refine (proj2 (steps_invariant (fun s1 => Forall (starting e ts) (spawned s1) /\ one_started e ts (world s) (world s1))
              s s' _ Hsteps _)).
    + intros s1 s2. by apply starting_step.
    + split; [|by left]. apply Forall_forall. intros p Hp%list_elem_of_In. destruct (Hsp' p Hp) as (t & Ht & ->). by constructor.
  - left. refine (proj2 (steps_invariant (fun s1 => Forall (fun p => p = Ret tt) (spawned s1) /\ stored (world s1) = stored (world s))
              s s' _ Hsteps _)).
    + intros s1 s2 [s0 i p p' w' new Hi Ha] [Hall _]. rewrite Forall_forall in Hall.
      rewrite (Hall p (proj1 (list_elem_of_In _ _) (list_elem_of_lookup_2 _ _ _ Hi))) in Ha. done.
    + split; [|done]. apply Forall_forall. intros p Hp%list_elem_of_In. destruct (Hsp' p Hp) as (t & Ht & ->).
      unfold Start. by destruct (Entry.GetString e Operation) as [[op|]|err].
Qed.

(** Round trip of an operation.  On an available API server an idle entry
    that may be written goes through [Start], [Complete] and [End] without
    error, ends with exactly the data it started with, and that data is what
    is stored; no other secret is touched. *)
Lemma operation_round_trip (e : Entry) t status s :
  available (world s) -> committable (world s) e -> op_state_of e = Idle ->
  wp (e1 <-? Start e t ;; ' (e2, _) <- Complete e1 status ;; End_ e2)
     (fun r s' => exists e',
        r = Ok e' /\ entry_data e' = entry_data e /\ op_state_of e' = Idle /\
        stored (world s') = <[secret_key (entry_secret e) := entry_secret e']> (stored (world s))) s.
Proof.
  intros Hav Hc Hidle. pose proof (op_state_Idle _ Hidle) as Hop.
  apply wp_try, wp_Start; [done|]. intros [e1|] id s1 Hk1 Hr1; [|by destruct Hr1; naive_solver].
  assert (op_state_of e1 = Running t id) as Hst1.
  { rewrite (op_state_of_data e1 _ (committed_data _ _ _ _ Hr1)). apply started_Running.
    revert Hidle. unfold op_state_of. by repeat case_match. }
  destruct (op_state_busy e1 t id "" (or_introl Hst1)) as [op Hop1].
  pose proof (committed_committable _ _ _ _ Hr1) as Hc1.
  destruct Hk1 as (_ & _ & Hav1). apply wp_bind.
  eapply wp_Complete; [done|]. intros e2 [err|] s2 Hk2 Hr2; [by destruct Hr2 as (_&_&[]); auto|].
  assert (op_state_of e2 = Finished t id (error_text status)) as Hst2.
  { rewrite (op_state_of_data e2 _ (committed_data _ _ _ _ Hr2)). apply (completed_state _ _ _ ""). auto. }
  destruct (op_state_busy e2 t id _ (or_intror Hst2)) as [op2 Hop2].
  pose proof (committed_committable _ _ _ _ Hr2) as Hc2. destruct Hk2 as (_ & _ & Hav2).
  eapply wp_End; [done|]. intros [e3|] s3 Hk3 Hr3; [|by destruct Hr3 as (_&[]); auto].
  exists e3. split; [done|]. pose proof (committed_data _ _ _ _ Hr3) as Hd3.
  assert (entry_data e3 = entry_data e) as Hd.
  { rewrite Hd3, ended_data, (committed_data _ _ _ _ Hr2), entry_data_put, (committed_data _ _ _ _ Hr1).
    by apply cycle_data. }
  split; [done|]. split; [by rewrite (op_state_of_data _ _ Hd)|].
  pose proof (committed_key _ _ _ _ Hr1) as Hp1. pose proof (committed_key _ _ _ _ Hr2) as Hp2.
  destruct Hr3 as (-> & _), Hr2 as (-> & _), Hr1 as (-> & _).
  rewrite ended_key, Hp2, put_key, Hp1, started_key. by rewrite !insert_insert_eq.
Qed.
End Properties.

(** ** Witnesses *)

Module OperationWitness.
(** An instance's registry in an API server that holds nothing else. *)
Definition demo_world : SimWorld :=
  (sim_create (Entry.fresh_secret "ns" (Name ServiceInstance "i")) (empty_sim None)).2.
Definition demo_sys : sys SimWorld := mkSys demo_world [].
Definition demo_entry : Entry :=
  mkEntry (default (Entry.fresh_secret "" "")
             (stored demo_world !! ("ns", Name ServiceInstance "i"))) true false.

Lemma demo_loaded : loaded (world demo_sys) "ns" (Name ServiceInstance "i") false demo_entry.
Proof. repeat split. Qed.

Lemma demo_idle : op_state_of demo_entry = Idle.
Proof. vm_compute. reflexivity. Qed.

Lemma operation_refines_witness :
  op_state_of demo_entry <> Inconsistent /\
  wp (End_ demo_entry) (fun r s' =>
    match r with
    | Ok e' => op_step (op_state_of demo_entry) LEnd (op_state_of e') /\
               stored (world s') = <[secret_key (entry_secret demo_entry) := entry_secret e']> (stored (world demo_sys))
    | Err _ => stored (world s') = stored (world demo_sys)
    end) demo_sys.
Proof.
  assert (op_state_of demo_entry <> Inconsistent) as Hc by (rewrite demo_idle; discriminate).
  split; [exact Hc|].
  exact (proj2 (proj2 (operation_refines demo_entry TypeUpdate None demo_sys
    Hc))).
Defined.

Lemma start_race_witness :
  wp (r1 <- Start demo_entry TypeUpdate ;; r2 <- Start demo_entry TypeDeprovision ;; Ret (r1, r2))
     (fun '(r1, r2) s' =>
        forall e1', r1 = Ok e1' ->
        (exists err, r2 = Err err) /\
        stored (world s') !! ("ns", Name ServiceInstance "i") = Some (entry_secret e1')) demo_sys.
Proof.
  apply (start_race demo_entry demo_entry TypeUpdate TypeDeprovision "ns" (Name ServiceInstance "i") demo_sys);
    [apply demo_loaded|apply demo_loaded|reflexivity|vm_compute; discriminate].
Defined.

(** Two requests, each of which has read the entry before the other writes it. *)
Definition both_start : sys SimWorld :=
  mkSys demo_world (map (fun t => _ <- Start demo_entry t ;; Ret tt) [TypeUpdate; TypeDeprovision]).

Lemma start_exclusive_witness :
  let s' := foldl step_at both_start [0; 1; 1; 0] in
  stored (world s') <> stored demo_world /\
  one_started demo_entry [TypeUpdate; TypeDeprovision] demo_world (world s').
Proof.
  intros s'. split.
  - intros Hs. assert (stored (world s') !! ("ns", Name ServiceInstance "i") = stored demo_world !! ("ns", Name ServiceInstance "i"))
      as Hl by (rewrite Hs; reflexivity). vm_compute in Hl. discriminate Hl.
  - apply (start_exclusive demo_entry [TypeUpdate; TypeDeprovision] "ns" (Name ServiceInstance "i") both_start s');
      [apply demo_loaded|reflexivity|vm_compute; discriminate|reflexivity|apply schedule_steps].
Defined.

Lemma operation_round_trip_witness :
  wp (e1 <-? Start demo_entry TypeProvision ;;
      ' (e2, _) <- Complete e1 (Some (plainError "boom")) ;; End_ e2)
     (fun r s' => exists e',
        r = Ok e' /\ entry_data e' = entry_data demo_entry /\ op_state_of e' = Idle /\
        stored (world s') = <[secret_key (entry_secret demo_entry) := entry_secret e']> (stored (world demo_sys)))
     demo_sys.
Proof.
  apply (operation_round_trip demo_entry TypeProvision (Some (plainError "boom")) demo_sys);
    [reflexivity|apply (loaded_committable _ _ _ _ demo_loaded)|apply demo_idle].
Defined.
End OperationWitness.
