(* ===== verification/Config.v ===== *)
(** * The broker's configuration ([pkg/config])

    Validation of a configuration resource ([validation.go]) and the event
    handlers that install it as the global configuration ([config.go]).  The
    informer that calls the handlers is Kubernetes client code; a handler
    runs here as one [prog].  The calls that lock the global pointer are part of it; what
    the lock does is modelled in [Lock]. *)

From S2P Require Import Prelude Json Errors Types Platform Sim Fixture.

Local Open Scope broker_scope.

(** ** Validation *)

Definition getBindingForServicePlan (config : ServiceBrokerConfig) (serviceName planName : string)
    : option ConfigurationBinding :=
  find_first (fun b => (binding_Service b =?s serviceName) && (binding_Plan b =?s planName)) (bindings config).

Definition getTemplateByName (config : ServiceBrokerConfig) (templateName : string)
    : option ConfigurationTemplate :=
  find_first (fun t => template_Name t =?s templateName) (templates config).

Definition ErrInvalid (m : string) : error := wrappedError ErrConfigurationInvalid m.

(** The checks on one plan of one service offering. *)
Definition validate_plan (config : ServiceBrokerConfig) (service : ServiceOffering) (plan : ServicePlan)
    : option error :=
  match getBindingForServicePlan config (offering_Name service) (plan_Name plan) with
  | None =>
      Some (ErrInvalid ("service plan '" +++ plan_Name plan +++ "' for offering '"
              +++ offering_Name service +++ "' does not have a binding"))
  | Some binding =>
      let bindable := match plan_Bindable plan with Some b => b | None => offering_Bindable service end in
      match bindable, binding_ServiceBinding binding with
      | false, Some _ =>
          Some (ErrInvalid ("service plan '" +++ plan_Name plan +++ "' for offering '"
                  +++ offering_Name service +++ "' not bindable, but binding '" +++ binding_Name binding
                  +++ "' defines service binding configuarion"))
      | true, None =>
          Some (ErrInvalid ("service plan '" +++ plan_Name plan +++ "' for offering '"
                  +++ offering_Name service +++ "' bindable, but binding '" +++ binding_Name binding
                  +++ "' does not define service binding configuarion"))
      | _, _ => None
      end
  end.

Definition does_nothing (l : ServiceBrokerTemplateList) : bool :=
  bool_decide (length (list_Registry l) = 0) && bool_decide (length (list_Templates l) = 0).

Definition missing_template (config : ServiceBrokerConfig) (binding : ConfigurationBinding) (what : string)
    (template : string) : option error :=
  match getTemplateByName config template with
  | Some _ => None
  | None =>
      Some (ErrInvalid ("template '" +++ template +++ "', referenced by binding '" +++ binding_Name binding
              +++ "' " +++ what +++ ", must exist"))
  end.

(** The checks on one configuration binding. *)
Definition validate_binding (config : ServiceBrokerConfig) (binding : ConfigurationBinding) : option error :=
  or_error
    (if does_nothing (binding_ServiceInstance binding)
     then Some (ErrInvalid ("binding '" +++ binding_Name binding +++ "' does nothing for service instances"))
     else None)
  (or_error
    (match binding_ServiceBinding binding with
     | Some l => if does_nothing l
                 then Some (ErrInvalid ("binding '" +++ binding_Name binding +++ "' does nothing for service bindings"))
                 else None
     | None => None
     end)
  (or_error
    (first_error (missing_template config binding "service instance")
       (list_Templates (binding_ServiceInstance binding)))
    (match binding_ServiceBinding binding with
     | Some l => first_error (missing_template config binding "service binding") (list_Templates l)
     | None => None
     end))).

Definition validate (config : ServiceBrokerConfig) : option error :=
  or_error
    (first_error (fun service => first_error (validate_plan config service) (offering_Plans service))
       (services config))
    (first_error (validate_binding config) (bindings config)).

(** ** Status *)

(** The condition that [updateStatus] reports at time [now]. *)
Definition valid_condition (config : ServiceBrokerConfig) (now : Z) : ServiceBrokerConfigCondition :=
  let fresh :=
    match validate config with
    | None => mkConfigCondition ConfigurationValid ConditionTrue now "ValidationSucceeded" ""
    | Some err => mkConfigCondition ConfigurationValid ConditionFalse now "ValidationFailed" (Error err)
    end in
  match find_first (fun c => cond_Type c =?s ConfigurationValid) (status_Conditions (config_Status config)) with
  | Some condition =>
      if cond_Status condition =?s cond_Status fresh
      then mkConfigCondition (cond_Type fresh) (cond_Status fresh) (cond_LastTransitionTime condition)
             (cond_Reason fresh) (cond_Message fresh)
      else fresh
  | None => fresh
  end.

Definition set_status (config : ServiceBrokerConfig) (status : ServiceBrokerConfigStatus) : ServiceBrokerConfig :=
  mkConfig (config_Name config) (config_Namespace config) (config_Labels config) (config_Spec config) status.

Definition updateStatus (config : ServiceBrokerConfig) : prog (option error) :=
  now <- call TimeNow ;;
  let rerr := validate config in
  let status := mkConfigStatus [valid_condition config now] in
  if bool_decide (config_Status config = status) then Ret rerr
  else
    _ <- call (ConfigsUpdate (config_Namespace config) (set_status config status)) ;;
    Ret rerr.

(** ** The lock

    Requests hold the read lock of the configuration while they are processed. *)

Definition Lock : prog unit := call MutexRLock.
Definition Unlock : prog unit := call MutexRUnlock.

(** ** Event handlers

    [obj] is the object of the event, [None] when it is not a
    [*ServiceBrokerConfig]; [ConfigurationName] is the flag [-config]. *)

Definition createHandler (ConfigurationName : string) (obj : option ServiceBrokerConfig) : prog unit :=
  match obj with
  | None => Ret tt
  | Some brokerConfiguration =>
      if negb (config_Name brokerConfiguration =?s ConfigurationName) then Ret tt
      else
        err <- updateStatus brokerConfiguration ;;
        match err with
        | Some _ =>
            _ <- call MutexLock ;;
            defer (call MutexUnlock) (call (ConfigWrite None))
        | None =>
            _ <- call MutexLock ;;
            _ <- call (ConfigWrite (Some brokerConfiguration)) ;;
            call MutexUnlock
        end
  end.

Definition updateHandler (ConfigurationName : string) (oldObj newObj : option ServiceBrokerConfig) : prog unit :=
  match newObj with
  | None => Ret tt
  | Some brokerConfiguration =>
      if negb (config_Name brokerConfiguration =?s ConfigurationName) then Ret tt
      else
        err <- updateStatus brokerConfiguration ;;
        match err with
        | Some _ =>
            _ <- call MutexLock ;;
            defer (call MutexUnlock) (call (ConfigWrite None))
        | None =>
            _ <- call MutexLock ;;
            defer (call MutexUnlock) (call (ConfigWrite (Some brokerConfiguration)))
        end
  end.

Definition deleteHandler (ConfigurationName : string) (obj : option ServiceBrokerConfig) : prog unit :=
  match obj with
  | None => Ret tt
  | Some brokerConfiguration =>
      if negb (config_Name brokerConfiguration =?s ConfigurationName) then Ret tt
      else
        _ <- call MutexLock ;;
        _ <- call (ConfigWrite None) ;;
        call MutexUnlock
  end.

(** ** Lemmas *)

Definition plan_bindable (service : ServiceOffering) (plan : ServicePlan) : bool :=
  match plan_Bindable plan with Some b => b | None => offering_Bindable service end.

Lemma validate_plan_None config service plan :
  validate_plan config service plan = None ->
  exists binding,
    getBindingForServicePlan config (offering_Name service) (plan_Name plan) = Some binding /\
    (plan_bindable service plan = true <-> is_Some (binding_ServiceBinding binding)).
Proof.
  unfold validate_plan. destruct (getBindingForServicePlan _ _ _) as [binding|]; [|done].
  fold (plan_bindable service plan). intros Hb. exists binding. split; [done|].
  by destruct (plan_bindable service plan), (binding_ServiceBinding binding).
Qed.

Lemma missing_template_None config binding what template :
  missing_template config binding what template = None <-> is_Some (getTemplateByName config template).
Proof.
  unfold missing_template. destruct (getTemplateByName config template); [by eauto|].
  split; [done|by intros []].
Qed.

Lemma validate_None_plan config service plan :
  validate config = None -> service ∈ services config -> plan ∈ offering_Plans service ->
  validate_plan config service plan = None.
Proof.
  unfold validate. rewrite or_error_None, first_error_None. intros [Hs _] Hin Hp.
  specialize (Hs _ Hin). simpl in Hs. rewrite first_error_None in Hs. auto.
Qed.

Lemma validate_None_binding config binding :
  validate config = None -> binding ∈ bindings config -> validate_binding config binding = None.
Proof. unfold validate. rewrite or_error_None, !first_error_None. naive_solver. Qed.

Lemma validate_binding_None config binding :
  validate_binding config binding = None <->
  does_nothing (binding_ServiceInstance binding) = false /\
  (forall l, binding_ServiceBinding binding = Some l -> does_nothing l = false) /\
  (forall t, t ∈ list_Templates (binding_ServiceInstance binding) -> is_Some (getTemplateByName config t)) /\
  (forall l t, binding_ServiceBinding binding = Some l -> t ∈ list_Templates l ->
     is_Some (getTemplateByName config t)).
Proof.
  unfold validate_binding. rewrite !or_error_None, first_error_None.
  setoid_rewrite missing_template_None.
  destruct (does_nothing (binding_ServiceInstance binding)); [naive_solver|].
  destruct (binding_ServiceBinding binding) as [l|]; [|naive_solver].
  rewrite first_error_None. setoid_rewrite missing_template_None.
  destruct (does_nothing l) eqn:El; [|naive_solver].
  split; [naive_solver|]. intros (_ & Hl & _). specialize (Hl l eq_refl). congruence.
Qed.

(** Looking up the IDs of a plan of the catalog finds a plan of the catalog. *)
Lemma GetServiceAndPlanNames_Ok config serviceID planID service plan :
  GetServiceAndPlanNames config serviceID planID = Ok (service, plan) ->
  exists o p, o ∈ services config /\ p ∈ offering_Plans o /\ offering_ID o = serviceID /\
    plan_ID p = planID /\ offering_Name o = service /\ plan_Name p = plan.
Proof.
  unfold GetServiceAndPlanNames. destruct (find_first _ (services config)) as [o|] eqn:Ho; [|done].
  destruct (find_first _ (offering_Plans o)) as [p|] eqn:Hp; [|done]. intros [= <- <-].
  apply find_first_Some in Ho as [? Ho], Hp as [? Hp]. bool_solver. eauto 10.
Qed.

Section Lemmas.
Context {W : Type} `{PlatformLaws W}.

Implicit Types s : sys W.

Lemma wp_updateStatus config Q s :
  (forall s', unchanged s s' -> Q (validate config) s') -> wp (updateStatus config) Q s.
Proof.
  intros HQ. unfold updateStatus. apply wp_bind, wp_quiet; [done..|]. intros s1 Hs1.
  case_bool_decide; [by apply wp_ret, HQ|].
  apply wp_bind, wp_quiet; [done..|]. intros s2 Hs2. apply wp_ret, HQ. by etransitivity.
Qed.

Lemma wp_ConfigWrite c Q s :
  (forall s', stored (world s') = stored (world s) -> configured (world s') = c ->
     spawned s' = spawned s -> Q tt s') ->
  wp (call (ConfigWrite c)) Q s.
Proof.
  intros HQ. apply wp_call. destruct (perform (ConfigWrite c) (world s)).1 eqn:E.
  apply HQ; simpl; [by apply stored_frame|by apply config_write|done].
Qed.

(** Both ways in which the handlers write the pointer under the lock. *)
Lemma wp_locked_write c (Q : sys W -> Prop) s :
  (forall s', stored (world s') = stored (world s) -> configured (world s') = c -> Q s') ->
  wp (_ <- call MutexLock ;; _ <- call (ConfigWrite c) ;; call MutexUnlock) (fun _ => Q) s /\
  wp (_ <- call MutexLock ;; defer (call MutexUnlock) (call (ConfigWrite c))) (fun _ => Q) s.
Proof.
  intros HQ. split; apply wp_bind, wp_quiet; try done; intros s1 [Hs1 _]; [apply wp_bind|apply wp_defer];
    apply wp_ConfigWrite; intros s2 Hs2 Hc _; apply wp_quiet; try done; intros s3 [Hs3 [Hc3 _]]; apply HQ; congruence.
Qed.
End Lemmas.

(** ** Properties *)

Lemma validate_plan_binding config service plan :
  validate config = None -> service ∈ services config -> plan ∈ offering_Plans service ->
  exists binding,
    getBindingForServicePlan config (offering_Name service) (plan_Name plan) = Some binding /\
    binding ∈ bindings config /\
    (plan_bindable service plan = true <-> is_Some (binding_ServiceBinding binding)) /\
    does_nothing (binding_ServiceInstance binding) = false /\
    (forall t, t ∈ list_Templates (binding_ServiceInstance binding) -> is_Some (getTemplateByName config t)) /\
    (forall l t, binding_ServiceBinding binding = Some l -> t ∈ list_Templates l ->
       is_Some (getTemplateByName config t)).
Proof.
  intros Hv Hs Hp. destruct (validate_plan_None _ _ _ (validate_None_plan _ _ _ Hv Hs Hp)) as (b & Hb & Hbind).
  pose proof (find_first_Some _ _ _ Hb) as [Hin _].
  destruct (proj1 (validate_binding_None _ _) (validate_None_binding _ _ Hv Hin)) as (?&?&?&?).
  exists b. eauto 10.
Qed.

(** C25: soundness of validation.  In an accepted configuration every plan of
    the catalog has the configuration binding that the request path looks up,
    it defines service bindings exactly when the plan is bindable, it is not
    empty, and all templates listed at its top level exist. *)
Theorem validate_sound config service plan :
  validate config = None -> service ∈ services config -> plan ∈ offering_Plans service ->
  exists binding,
    getBindingForServicePlan config (offering_Name service) (plan_Name plan) = Some binding /\
    binding ∈ bindings config /\
    (plan_bindable service plan = true <-> is_Some (binding_ServiceBinding binding)) /\
    does_nothing (binding_ServiceInstance binding) = false /\
    (forall t, t ∈ list_Templates (binding_ServiceInstance binding) -> is_Some (getTemplateByName config t)) /\
    (forall l t, binding_ServiceBinding binding = Some l -> t ∈ list_Templates l ->
       is_Some (getTemplateByName config t)).
Proof. apply validate_plan_binding. Qed.

(** The request path never misses a binding.  With an accepted
    configuration, if the IDs of a request name a plan of the catalog then the
    template bindings of the request are found. *)
Lemma validated_bindings_found config serviceID planID names :
  validate config = None -> GetServiceAndPlanNames config serviceID planID = Ok names ->
  exists binding, GetTemplateBindings config serviceID planID = Ok binding /\ binding ∈ bindings config.
Proof.
  intros Hv Hn. destruct names as [service plan]. unfold GetTemplateBindings. rewrite Hn. simpl.
  apply GetServiceAndPlanNames_Ok in Hn as (o & p & Ho & Hp & _ & _ & <- & <-).
  destruct (validate_plan_binding _ _ _ Hv Ho Hp) as (b & Hb & Hin & _).
  unfold getBindingForServicePlan in Hb. rewrite Hb. eauto.
Qed.

(** The event handlers install only valid configurations.  Whether or not
    the status update reaches the API server, a created or updated resource of
    the right name becomes the global configuration if it validates and clears
    it if it does not, a deleted one clears it, other resources change
    nothing; the stored secrets are never touched. *)
Lemma handlers_install {W} `{PlatformLaws W} name config old (s : sys W) :
  let installed s' :=
    stored (world s') = stored (world s) /\
    configured (world s') =
      (if config_Name config =?s name
       then match validate config with None => Some config | Some _ => None end
       else configured (world s)) in
  wp (createHandler name (Some config)) (fun _ => installed) s /\
  wp (updateHandler name old (Some config)) (fun _ => installed) s /\
  wp (deleteHandler name (Some config)) (fun _ s' =>
    stored (world s') = stored (world s) /\
    configured (world s') = (if config_Name config =?s name then None else configured (world s))) s.
Proof.
  intros installed. unfold createHandler, updateHandler, deleteHandler, installed.
  destruct (config_Name config =?s name); cbn [negb]; [|by repeat split].
  assert (forall s1 c, unchanged s s1 -> forall s', stored (world s') = stored (world s1) -> configured (world s') = c ->
    stored (world s') = stored (world s) /\ configured (world s') = c) as Hw.
  { intros s1 c [Hs1 _] s' Hs' Hc. split; [congruence|done]. }
  split; [|split; [|by eapply wp_locked_write, Hw]]; apply wp_bind, wp_updateStatus; intros s1 Hs1;
    destruct (validate config); by eapply wp_locked_write, Hw.
Qed.

(** C34: the status condition is stable.  When the status already holds just the
    condition of an earlier run with the same verdict, the condition is the
    same whenever it is computed again, so that no update is sent to the API
    server: processing the resource that the broker's own status update makes
    the informer deliver ends there. *)
Theorem status_fixpoint config now later :
  let reported := set_status config (mkConfigStatus [valid_condition config now]) in
  valid_condition reported later = valid_condition config now /\
  forall W (HW : World W) (s : sys W), (run (updateStatus reported) s).1 = Done (validate config) /\
    world (run (updateStatus reported) s).2 = (perform TimeNow (world s)).2.
Proof.
  intros reported.
  assert (forall t, valid_condition reported t = valid_condition config now) as Hfix.
  { intros t. unfold valid_condition at 1. change (validate reported) with (validate config). simpl.
    assert (cond_Type (valid_condition config now) = ConfigurationValid) as Ht.
    { unfold valid_condition. by repeat case_match. }
    rewrite Ht, bool_decide_true by done.
    unfold valid_condition. by repeat (case_match; simpl in * ); rewrite ?bool_decide_true by done. }
  split; [done|]. intros W HW s. unfold updateStatus. simpl.
  destruct (perform TimeNow (world s)) as [t w]. rewrite Hfix.
  by rewrite bool_decide_true.
Qed.

(** ** What validation leaves out: steps *)

Definition map_list_steps (f : option (list ServiceBrokerTemplateListStep) -> option (list ServiceBrokerTemplateListStep))
    (l : ServiceBrokerTemplateList) : ServiceBrokerTemplateList :=
  mkTemplateList (list_Registry l) (list_Templates l) (list_ReadinessChecks l) (f (list_Steps l)).

Definition map_binding_steps f (b : ConfigurationBinding) : ConfigurationBinding :=
  mkConfigurationBinding (binding_Name b) (binding_RegistryScope b) (binding_RegistryNamespace b)
    (binding_Service b) (binding_Plan b) (map_list_steps f (binding_ServiceInstance b))
    (map_list_steps f <$> binding_ServiceBinding b).

(** The configuration with every list of steps replaced by [f] of it. *)
Definition map_steps f (c : ServiceBrokerConfig) : ServiceBrokerConfig :=
  mkConfig (config_Name c) (config_Namespace c) (config_Labels c)
    (mkConfigSpec (spec_Catalog (config_Spec c)) (templates c) (map_binding_steps f <$> bindings c))
    (config_Status c).

Lemma find_first_fmap {A B} (f : A -> B) (p : B -> bool) (l : list A) :
  find_first p (f <$> l) = f <$> find_first (fun x => p (f x)) l.
Proof. induction l as [|x l IH]; simpl; [done|]. by destruct (p (f x)). Qed.

Lemma first_error_fmap {A B E} (f : A -> B) (g : B -> option E) (l : list A) :
  first_error g (f <$> l) = first_error (fun x => g (f x)) l.
Proof. induction l as [|x l IH]; simpl; [done|]. by destruct (g (f x)). Qed.

Lemma first_error_ext {A E} (f g : A -> option E) (l : list A) :
  (forall x, f x = g x) -> first_error f l = first_error g l.
Proof. intros Hfg. induction l as [|x l IH]; simpl; [done|]. by rewrite Hfg, IH. Qed.

(** The steps of a binding are not validated.  The verdict on a
    configuration does not change when its lists of steps are replaced by any
    others, although the templates of the steps are what is rendered when a
    list of steps is present; and a binding whose service instance part has
    neither registry values nor top-level templates is refused whatever its
    steps are. *)
Lemma validate_ignores_steps f config :
  validate (map_steps f config) = validate config /\
  (forall binding, list_Registry (binding_ServiceInstance binding) = [] ->
     list_Templates (binding_ServiceInstance binding) = [] ->
     validate_binding config binding <> None).
Proof.
  split.
  - unfold validate. f_equal.
    + apply first_error_ext. intros o. apply first_error_ext. intros p.
      unfold validate_plan, getBindingForServicePlan. simpl. unfold bindings at 1. simpl.
      rewrite find_first_fmap. simpl.
      destruct (find_first _ (bindings config)) as [b|]; [|done]. simpl.
      by destruct (binding_ServiceBinding b).
    + unfold bindings at 1. simpl. rewrite first_error_fmap. apply first_error_ext. intros b.
      unfold validate_binding. simpl. by destruct (binding_ServiceBinding b).
  - intros b Hr Ht [Hn _]%validate_binding_None. unfold does_nothing in Hn. by rewrite Hr, Ht in Hn.
Qed.

Module ConfigWitness.
Import Fixture.

Lemma validate_sound_witness :
  validate Fixture.config = None /\
  exists binding, getBindingForServicePlan Fixture.config "database" "small" = Some binding /\
    (plan_bindable database small = true <-> is_Some (binding_ServiceBinding binding)).
Proof.
  split; [vm_compute; reflexivity|].
  destruct (validate_sound Fixture.config database small) as (b & Hb & _ & Hbind & _);
    [vm_compute; reflexivity|apply list_elem_of_singleton; reflexivity|apply list_elem_of_singleton; reflexivity|].
  exists b. split; [exact Hb|exact Hbind].
Defined.

Lemma validated_bindings_found_witness :
  GetServiceAndPlanNames Fixture.config "s1" "p1" = Ok ("database", "small") /\
  exists binding, GetTemplateBindings Fixture.config "s1" "p1" = Ok binding /\ binding ∈ bindings Fixture.config.
Proof.
  split; [vm_compute; reflexivity|].
  apply (validated_bindings_found Fixture.config "s1" "p1" ("database", "small")); vm_compute; reflexivity.
Defined.
End ConfigWitness.
