(* ===== verification/Lock.v ===== *)
(** * The lock of the configuration ([pkg/config/config.go])

    The global configuration is guarded by a [sync.RWMutex]: requests hold it
    for reading while they are processed, the event handlers of the
    configuration resource hold it for writing while they replace the pointer.
    Here: what that mutex does to goroutines that interleave ([locked_step]),
    when a program uses it properly ([disciplined]), and the same broker without
    any lock, in which a request works on a snapshot of the configuration
    ([snapshot_step]). That the programs of the broker are disciplined, and what
    follows, is in [LockFacts]. *)

From S2P Require Import Prelude Json Errors Types Platform.
From stdpp Require Import gmap relations.

Local Open Scope broker_scope.

(** ** The mutex

    The goroutines that hold it for reading, and the one that waits for it
    ([false]) or holds it ([true]) for writing. A goroutine that has called
    [Lock] excludes new readers already while it waits. (When it unlocks, Go
    lets the readers that wait go before the next writer; that order is left
    open here.) *)
Record RWMutex : Type := mkRWMutex {
  rw_readers : gset nat;
  rw_writer : option (nat * bool);
}.

Definition unlocked : RWMutex := mkRWMutex ∅ None.

(** The call of goroutine [i] returns: the mutex afterwards; [None] while the call
    blocks (or is a misuse of the mutex: unlocking what is not locked, reading
    twice). *)
Definition acquire (i : nat) {X} (e : event X) (m : RWMutex) : option RWMutex :=
  match e with
  | MutexRLock =>
      match rw_writer m with
      | None => if decide (i ∈ rw_readers m) then None else Some (mkRWMutex ({[i]} ∪ rw_readers m) None)
      | Some _ => None
      end
  | MutexRUnlock =>
      if decide (i ∈ rw_readers m) then Some (mkRWMutex (rw_readers m ∖ {[i]}) (rw_writer m)) else None
  | MutexLock =>
      if decide (rw_writer m = Some (i, false) /\ rw_readers m = ∅) then Some (mkRWMutex ∅ (Some (i, true))) else None
  | MutexUnlock =>
      if decide (rw_writer m = Some (i, true)) then Some (mkRWMutex (rw_readers m) None) else None
  | _ => Some m
  end.


Definition acquire_next (i : nat) (p : prog unit) (m : RWMutex) : option RWMutex :=
  match p with Vis e _ => acquire i e m | _ => Some m end.

Definition wants_lock (p : prog unit) : bool :=
  match p with Vis MutexLock _ => true | _ => false end.

Section Steps.
Context {W : Type} `{World W}.

(** Goroutines interleave at their calls, as the mutex lets them. *)
Inductive locked_step : RWMutex * sys W -> RWMutex * sys W -> Prop :=
  | step_announce m s i p :
      spawned s !! i = Some p -> wants_lock p = true -> rw_writer m = None ->
      locked_step (m, s) (mkRWMutex (rw_readers m) (Some (i, false)), s)
  | step_call m m' s i p p' w' started :
      spawned s !! i = Some p -> acquire_next i p m = Some m' -> advance p (world s) = Some (p', w', started) ->
      locked_step (m, s) (m', mkSys w' (<[i := p']> (spawned s) ++ started)).

(** A schedule: the goroutine of each number does what it can. *)
Definition locked_at (c : RWMutex * sys W) (i : nat) : RWMutex * sys W :=
  let '(m, s) := c in
  match spawned s !! i with
  | Some p =>
      match acquire_next i p m, advance p (world s) with
      | Some m', Some (p', w', started) => (m', mkSys w' (<[i := p']> (spawned s) ++ started))
      | _, _ =>
          if wants_lock p then
            match rw_writer m with
            | None => (mkRWMutex (rw_readers m) (Some (i, false)), s)
            | Some _ => c
            end
          else c
      end
  | None => c
  end.

Lemma locked_schedule l c : rtc locked_step c (foldl locked_at c l).
Proof.
  revert c. induction l as [|i l IH]; intros c; [done|]. cbn [foldl]. transitivity (locked_at c i); [|apply IH].
  destruct c as [m s]. unfold locked_at. destruct (spawned s !! i) as [p|] eqn:Hi; [|done].
  assert (rtc locked_step (m, s) (if wants_lock p then
            match rw_writer m with None => (mkRWMutex (rw_readers m) (Some (i, false)), s) | Some _ => (m, s) end
          else (m, s))) as Hwait.
  { destruct (wants_lock p) eqn:Hw; [|done]. destruct (rw_writer m) eqn:Hm; [done|]. eapply rtc_once, step_announce; done. }
  destruct (acquire_next i p m) as [m'|] eqn:Hm; [|exact Hwait].
  destruct (advance p (world s)) as [[[p' w'] started]|] eqn:Ha; [|exact Hwait]. eapply rtc_once, step_call; done.
Qed.

(** The mutex only takes executions away. *)
Lemma locked_thread_steps c c' : rtc locked_step c c' -> rtc thread_step c.2 c'.2.
Proof.
  intros Hs. induction Hs as [c|c1 c2 c3 H12 _ IH]; [done|]. etransitivity; [|exact IH].
  destruct H12 as [m s i p _ _ _|m m' s i p p' w' started Hi _ Ha]; [done|]. eapply rtc_once, step_thread; done.
Qed.
End Steps.

(** ** A request on a snapshot of the configuration *)

(** The configuration is read from the snapshot. *)
Definition answer (c : option ServiceBrokerConfig) {X} (e : event X) : X -> X :=
  match e in event X return X -> X with
  | ConfigRead => fun _ => c
  | _ => fun x => x
  end.

Definition unlocks {X} (e : event X) : bool := match e with MutexRUnlock => true | _ => false end.

(** [p] reads [c] as the configuration, until it gives the read lock back. *)
Fixpoint with_snapshot (c : option ServiceBrokerConfig) {A : Type} (p : prog A) : prog A :=
  match p with
  | Ret a => Ret a
  | Halt h => Halt h
  | Vis e k => Vis e (fun x => if unlocks e then k x else with_snapshot c (k (answer c e x)))
  | Go t p => Go t (with_snapshot c p)
  end.

Definition locks_for_reading (p : prog unit) : bool :=
  match p with Vis MutexRLock _ => true | _ => false end.

Section Snapshots.
Context {W : Type} `{PlatformLaws W}.

(** Goroutines interleave freely; the read lock is taken by taking a snapshot. *)
Inductive snapshot_step : sys W -> sys W -> Prop :=
  | step_snapshot s i p p' w' started :
      spawned s !! i = Some p -> advance p (world s) = Some (p', w', started) ->
      snapshot_step s
        (mkSys w' (<[i := if locks_for_reading p then with_snapshot (configured (world s)) p' else p']> (spawned s) ++ started)).
End Snapshots.

(** ** Proper use of the lock *)

(** What a program holds: nothing, the lock for reading, the lock for writing;
    or it is a background program, which runs without the lock. *)
Inductive mode : Type := Free | Reading | Writing | Background.

#[export] Instance mode_eq_dec : EqDecision mode.
Proof. solve_decision. Defined.

Section Discipline.
(** The configurations that may be installed. *)
Context (accepts : ServiceBrokerConfig -> Prop).

Definition permitted (m : mode) {X} (e : event X) : Prop :=
  match e with
  | ConfigRead => m = Reading \/ m = Background
  | ConfigWrite c => m = Writing /\ forall c', c = Some c' -> accepts c'
  | MutexRLock | MutexLock => m = Free
  | MutexRUnlock => m = Reading
  | MutexUnlock => m = Writing
  | _ => True
  end.

Definition next_mode (m : mode) {X} (e : event X) : mode :=
  match e with
  | MutexRLock => Reading
  | MutexLock => Writing
  | MutexRUnlock | MutexUnlock => Free
  | _ => m
  end.

(** A program that makes permitted calls and leaves the lock as it is. *)
Fixpoint steady (m : mode) {A : Type} (p : prog A) : Prop :=
  match p with
  | Ret _ | Halt _ => True
  | Vis e k => permitted m e /\ next_mode m e = m /\ forall x, steady m (k x)
  | Go t p => steady Background t /\ steady m p
  end.

(** A program that makes permitted calls and in the end has unlocked what it locked. *)
Fixpoint disciplined (m : mode) {A : Type} (p : prog A) : Prop :=
  match p with
  | Ret _ | Halt _ => m = Free \/ m = Background
  | Vis e k => permitted m e /\ forall x, disciplined (next_mode m e) (k x)
  | Go t p => steady Background t /\ disciplined m p
  end.

(** *** Rules *)

Lemma steady_bind m {A B} (p : prog A) (k : A -> prog B) :
  steady m p -> (forall a, steady m (k a)) -> steady m (bind p k).
Proof.
  intros Hp Hk. induction p as [A a|A h|A X e k' IH|A t _ p IH]; simpl in *; [auto|done| |].
  - destruct Hp as (? & ? & Hp). do 2 (split; [done|]). intros x. by apply IH.
  - destruct Hp as [? Hp]. split; [done|]. by apply IH.
Qed.

Lemma steady_try m {A B} (p : prog (result A)) (k : A -> prog (result B)) :
  steady m p -> (forall a, steady m (k a)) -> steady m (try_bind p k).
Proof. intros Hp Hk. apply steady_bind; [done|]. intros [a|err]; [apply Hk|done]. Qed.

Lemma steady_call m {X} (e : event X) : permitted m e -> next_mode m e = m -> steady m (call e).
Proof. done. Qed.

Lemma steady_disciplined m {A} (p : prog A) : m = Free \/ m = Background -> steady m p -> disciplined m p.
Proof.
  intros Hm. induction p as [A a|A h|A X e k IH|A t _ p IH]; simpl; [done|done| |].
  - intros (Hp & Hn & Hk). split; [done|]. rewrite Hn. intros x. by apply IH.
  - intros [? Hp]. split; [done|]. by apply IH.
Qed.

(** Deferring the unlocking. *)
Lemma disciplined_defer m (e : event unit) {A} (p : prog A) :
  permitted m e -> next_mode m e = Free -> steady m p -> disciplined m (defer (call e) p).
Proof.
  intros He Hf. induction p as [A a|A h|A X e' k IH|A t _ p IH]; simpl.
  - intros _. split; [done|]. intros _. by left.
  - intros _. split; [done|]. intros _. by left.
  - intros (Hp & Hn & Hk). split; [done|]. rewrite Hn. intros x. by apply IH.
  - intros [? Hp]. split; [done|]. by apply IH.
Qed.

Lemma disciplined_ret m {A B} (p : prog A) (f : A -> B) :
  disciplined m p -> disciplined m (bind p (fun a => Ret (f a))).
Proof.
  induction p as [A a|A h|A X e k IH|A t _ p IH] in m, f |- *; simpl; [done|done| |].
  - intros [Hp Hk]. split; [done|]. intros x. by apply IH.
  - intros [? Hp]. split; [done|]. by apply IH.
Qed.

(** A program that writes nothing and does not lock, where reading is permitted. *)
Lemma effects_steady (P : forall X, event X -> bool) m {A} (p : prog A) :
  (forall X (e : event X), P X e = true -> mutates_config e = false /\ locks e = false) ->
  m = Reading \/ m = Background -> effects P p -> steady m p.
Proof.
  intros HP Hm. induction p as [A a|A h|A X e k IH|A t _ p IH]; simpl; [done|done| |done].
  intros [He Hk]. destruct (HP X e He) as [Hw Hl]. split; [by destruct e|]. split; [by destruct e|]. intros x. by apply IH.
Qed.
End Discipline.
