(* ===== verification/LockFacts.v ===== *)
(** * Properties of the lock of the configuration ([pkg/config/config.go])

    For goroutines whose programs use the lock properly ([disciplined]), in any
    interleaving that the mutex allows: who holds the lock for writing holds it
    alone; a program that holds it for reading cannot tell that it does not work
    on a snapshot of the configuration; nobody waits for ever, and no execution
    is infinite. *)

From S2P Require Import Prelude Json Errors Types Platform Threads Lock.
From stdpp Require Import gmap relations.
From Stdlib Require Import Lia.

Local Open Scope broker_scope.

Section Mutex.
Context {W : Type} `{PlatformLaws W} (accepts : ServiceBrokerConfig -> Prop).

Implicit Types s : sys W.
Implicit Types m : RWMutex.
Implicit Types μ : mode.

(** ** Who holds the mutex *)

Definition holds (m : RWMutex) (i : nat) (μ : mode) : Prop :=
  match μ with
  | Reading => i ∈ rw_readers m
  | Writing => rw_writer m = Some (i, true)
  | Free | Background => (i ∉ rw_readers m) /\ rw_writer m <> Some (i, true)
  end.

(** A writer is alone. *)
Definition exclusive m : Prop := forall i, rw_writer m = Some (i, true) -> rw_readers m = ∅.

Ltac mutex_cases e :=
  destruct e; cbn [acquire permitted next_mode] in *;
  repeat match goal with
         | Ha : (match rw_writer ?m with _ => _ end) = Some _ |- _ => destruct (rw_writer m) eqn:?; [done|]
         | Ha : (if decide ?P then Some _ else None) = Some _ |- _ => destruct (decide P); [|done]
         | Ha : (if decide ?P then None else Some _) = Some _ |- _ => destruct (decide P); [done|]
         end; simplify_eq.

Lemma acquire_mode i {X} (e : event X) m m' μ :
  acquire i e m = Some m' -> exclusive m -> holds m i μ -> permitted accepts μ e -> holds m' i (next_mode μ e).
Proof.
  intros Ha Hx Hh Hp. mutex_cases e; try done; cbn in *; [set_solver| |].
  - split; [set_solver|]. intros Hw. apply Hx in Hw. set_solver.
  - split; [|done]. rewrite (Hx i Hh). set_solver.
Qed.

Lemma acquire_other i j {X} (e : event X) m m' μ :
  acquire i e m = Some m' -> i <> j -> holds m j μ -> holds m' j μ.
Proof.
  intros Ha Hne Hh. mutex_cases e; try done; destruct μ; cbn in *; try set_solver.
Qed.

Lemma acquire_exclusive i {X} (e : event X) m m' :
  acquire i e m = Some m' -> exclusive m -> exclusive m'.
Proof. intros Ha Hx j Hw. mutex_cases e; cbn in *; try done; apply Hx in Hw; set_solver. Qed.

Lemma acquire_readers i {X} (e : event X) m m' j :
  acquire i e m = Some m' -> i <> j -> j ∈ rw_readers m' <-> j ∈ rw_readers m.
Proof. intros Ha Hne. mutex_cases e; try done; cbn; set_solver. Qed.

Lemma acquire_writer i {X} (e : event X) m m' j b :
  acquire i e m = Some m' -> rw_writer m' = Some (j, b) -> rw_writer m = Some (j, b) \/ j = i /\ b = true.
Proof. intros Ha Hw. mutex_cases e; cbn in *; simplify_eq; auto. Qed.

(** ** The state that all goroutines keep

    The first [arrived] of them do not run in the background. *)

Context (arrived : nat).

Record proper (c : RWMutex * sys W) : Prop := {
  proper_goroutine i p : spawned c.2 !! i = Some p -> exists μ, holds c.1 i μ /\ disciplined accepts μ p /\ (i < arrived -> μ <> Background);
  proper_reader i : i ∈ rw_readers c.1 -> i < length (spawned c.2);
  proper_arrived : arrived <= length (spawned c.2);
  proper_exclusive : exclusive c.1;
  proper_writer i b : rw_writer c.1 = Some (i, b) ->
    exists p, spawned c.2 !! i = Some p /\ (b = false -> wants_lock p = true);
}.

(** Before anything has run. *)
Lemma proper_start s :
  arrived = length (spawned s) -> Forall (disciplined accepts Free) (spawned s) -> proper (unlocked, s).
Proof.
  intros Ha Hd. split; [|set_solver|cbn; lia|done|done]. intros i p Hi. exists Free. split; [split; [set_solver|done]|].
  split; [by eapply Forall_lookup_1|done].
Qed.

Lemma advance_disciplined i p w p' w' started m m' μ :
  advance p w = Some (p', w', started) -> acquire_next i p m = Some m' -> exclusive m ->
  holds m i μ -> disciplined accepts μ p ->
  (exists μ', holds m' i μ' /\ disciplined accepts μ' p' /\ (μ <> Background -> μ' <> Background)) /\
  Forall (disciplined accepts Background) started.
Proof.
  intros Ha Hm Hx Hh Hd. destruct p as [| |X e k|t k]; cbn [advance acquire_next disciplined] in *; try done.
  - destruct Hd as [Hp Hk]. destruct (perform e w) as [x w1]. injection Ha as <- <- <-. split; [|constructor].
    exists (next_mode μ e). split; [by eapply acquire_mode|]. split; [apply Hk|by destruct e].
  - injection Ha as <- <- <-. injection Hm as <-. destruct Hd as [Ht Hk]. split; [by exists μ|].
    constructor; [|constructor]. apply steady_disciplined; [by right|done].
Qed.

Lemma acquire_next_other i j p m m' μ :
  acquire_next i p m = Some m' -> i <> j -> holds m j μ -> holds m' j μ.
Proof. destruct p; cbn [acquire_next]; try (by intros [= <-]). apply acquire_other. Qed.

Lemma acquire_next_exclusive i p m m' : acquire_next i p m = Some m' -> exclusive m -> exclusive m'.
Proof. destruct p; cbn [acquire_next]; try (by intros [= <-]). apply acquire_exclusive. Qed.

Lemma acquire_next_readers i p m m' j :
  acquire_next i p m = Some m' -> i <> j -> j ∈ rw_readers m' <-> j ∈ rw_readers m.
Proof. destruct p; cbn [acquire_next]; try (by intros [= <-]). apply acquire_readers. Qed.

Lemma acquire_next_writer i p m m' j b :
  acquire_next i p m = Some m' -> rw_writer m' = Some (j, b) -> rw_writer m = Some (j, b) \/ j = i /\ b = true.
Proof. destruct p; cbn [acquire_next]; try (intros [= <-]; by left). apply acquire_writer. Qed.

Lemma wanted_lock i p m m' : wants_lock p = true -> acquire_next i p m = Some m' -> rw_writer m' = Some (i, true).
Proof. destruct p as [| |X [] k|]; try done. cbn. case_decide; [|done]. by intros _ [= <-]. Qed.

(** A goroutine that has not been started holds nothing. *)
Lemma holds_nothing c i : proper c -> length (spawned c.2) <= i -> holds c.1 i Background.
Proof.
  intros Hc Hi. split; [intros Hr%(proper_reader _ Hc); lia|].
  intros (p & Hp & _)%(proper_writer _ Hc). apply lookup_lt_Some in Hp. lia.
Qed.

(** The goroutines after a step of [i]. *)
Lemma lookup_stepped (l started : list (prog unit)) i p' j q :
  (<[i := p']> l ++ started) !! j = Some q ->
  (j = i /\ q = p' /\ i < length l) \/ (j <> i /\ l !! j = Some q) \/ (length l <= j /\ q ∈ started).
Proof.
  rewrite lookup_app_Some, length_insert. intros [Hj|[Hj Hq]].
  - destruct (decide (j = i)) as [->|Hne]; [|rewrite list_lookup_insert_ne in Hj by done; by eauto].
    apply list_lookup_insert_Some in Hj as [(_ & <- & Hl)|[? _]]; [by left|done].
  - apply list_elem_of_lookup_2 in Hq. eauto.
Qed.

Lemma proper_step c c' : locked_step c c' -> proper c -> proper c'.
Proof.
  intros [m s i p Hi Hw Hm|m m' s i p p' w' started Hi Hm Ha] Hc; pose proof Hc as [Hg Hr Hl Hx Hwr]; cbn [fst snd] in *.
  - split; cbn [fst snd].
    + intros j q Hj. destruct (Hg j q Hj) as (μ & Hh & Hd). exists μ. split; [|exact Hd].
      destruct μ; cbn in *; [by destruct Hh as [? _]; split; [|congruence]|done|congruence|by destruct Hh as [? _]; split; [|congruence]].
    + done.
    + done.
    + by intros j [=].
    + intros j b [= <- <-]. by exists p.
  - destruct (Hg i p Hi) as (μ & Hh & Hd & Hμ). pose proof (lookup_lt_Some _ _ _ Hi) as Hlt.
    destruct (advance_disciplined _ _ _ _ _ _ _ _ _ Ha Hm Hx Hh Hd) as [(μ' & Hh' & Hd' & Hμ') Hnew].
    split; cbn [fst snd spawned].
    + intros j q [(-> & -> & _)|[[Hne Hj]|[Hj Hq]]]%lookup_stepped; [exists μ'; auto| |].
      * destruct (Hg j q Hj) as (μj & Hhj & Hdj). exists μj. split; [by eapply acquire_next_other|done].
      * exists Background. split; [|split; [by eapply Forall_forall in Hq|lia]].
        eapply acquire_next_other; [exact Hm|lia|]. by apply (holds_nothing (m, s)).
    + intros j Hj. rewrite length_app, length_insert. destruct (decide (i = j)) as [<-|Hne]; [lia|].
      apply (acquire_next_readers _ _ _ _ _ Hm Hne), Hr in Hj. lia.
    + rewrite length_app, length_insert. lia.
    + by eapply acquire_next_exclusive.
    + intros j b Hj.
      assert (j = i /\ b = true \/ j <> i /\ rw_writer m = Some (j, b)) as [[-> ->]|[Hne Hwj]].
      { destruct (acquire_next_writer _ _ _ _ _ _ Hm Hj) as [Hwj|]; [|by left].
        destruct (decide (j = i)) as [->|Hne]; [|by right]. left. split; [done|]. destruct b; [done|].
        destruct (Hwr _ _ Hwj) as (q & Hq & Hwant). rewrite Hi in Hq. injection Hq as <-.
        pose proof (wanted_lock _ _ _ _ (Hwant eq_refl) Hm) as Hw'. congruence. }
      * exists p'. split; [|done]. rewrite lookup_app_l by (by rewrite length_insert). by apply list_lookup_insert_eq.
      * destruct (Hwr _ _ Hwj) as (q & Hq & Hwant). exists q. split; [|done].
        rewrite lookup_app_l by (rewrite length_insert; by eapply lookup_lt_Some). by rewrite list_lookup_insert_ne.
Qed.

Lemma proper_steps c c' : rtc locked_step c c' -> proper c -> proper c'.
Proof. intros Hs. induction Hs as [c|c1 c2 c3 H12 _ IH]; [done|]. intros Hc. by eapply IH, proper_step. Qed.
(** ** The configuration *)

(** Who is about to write the configuration holds the lock, alone. *)
Lemma writer_alone c i x k :
  proper c -> spawned c.2 !! i = Some (Vis (ConfigWrite x) k) ->
  rw_writer c.1 = Some (i, true) /\ rw_readers c.1 = ∅ /\ forall y, x = Some y -> accepts y.
Proof.
  intros Hc Hi. destruct (proper_goroutine _ Hc _ _ Hi) as (μ & Hh & [[-> Hy] _] & _).
  split; [exact Hh|]. split; [by eapply proper_exclusive|done].
Qed.

(** Only a step of a writer changes the configuration, while nobody reads. *)
Lemma advance_configured p w p' w' started :
  advance p w = Some (p', w', started) ->
  configured w' = configured w \/ exists x k, p = Vis (ConfigWrite x) k /\ configured w' = x.
Proof.
  destruct p as [| |X e k|t k]; cbn [advance]; try done; [|intros [= _ <- _]; by left].
  destruct (mutates_config e) eqn:He.
  - destruct e; try done. intros Ha. right. exists config, k. split; [done|].
    pose proof (config_write config w) as Hw. destruct (perform (ConfigWrite config) w). by injection Ha as _ <- _.
  - intros Ha. left. pose proof (configured_frame _ e w He) as Hw. destruct (perform e w). by injection Ha as _ <- _.
Qed.

Lemma step_configured c c' :
  locked_step c c' -> proper c ->
  configured (world c'.2) = configured (world c.2) \/
  rw_readers c.1 = ∅ /\ forall y, configured (world c'.2) = Some y -> accepts y.
Proof.
  intros [m s i p Hi Hw Hm|m m' s i p p' w' started Hi Hm Ha] Hc; cbn [fst snd world]; [by left|].
  destruct (advance_configured _ _ _ _ _ Ha) as [?|(x & k & -> & <-)]; [by left|right].
  by destruct (writer_alone (m, s) i _ _ Hc Hi) as (_ & ? & ?).
Qed.

(** ** Snapshots *)

(** The same state without a lock: who reads works on a snapshot, which is the
    current configuration. *)
Definition snapshots (c : RWMutex * sys W) (s : sys W) : Prop :=
  world s = world c.2 /\
  forall i, spawned s !! i =
    if decide (i ∈ rw_readers c.1) then with_snapshot (configured (world c.2)) <$> spawned c.2 !! i else spawned c.2 !! i.

Lemma snapshots_length c s : snapshots c s -> length (spawned s) = length (spawned c.2).
Proof.
  intros [_ Hs]. assert (spawned s = imap (fun i p => if decide (i ∈ rw_readers c.1) then with_snapshot (configured (world c.2)) p else p) (spawned c.2)) as ->;
    [|by rewrite length_imap].
  apply list_eq. intros i. rewrite list_lookup_imap, Hs. destruct (spawned c.2 !! i); by case_decide.
Qed.

(** A reader advances as its snapshot does. *)
Lemma advance_reader i p w p' w' started m m' :
  advance p w = Some (p', w', started) -> acquire_next i p m = Some m' -> disciplined accepts Reading p ->
  i ∈ rw_readers m ->
  advance (with_snapshot (configured w) p) w =
    Some (if decide (i ∈ rw_readers m') then with_snapshot (configured w) p' else p', w', started) /\
  locks_for_reading (with_snapshot (configured w) p) = false /\ configured w' = configured w.
Proof.
  intros Ha Hm Hd Hi. destruct p as [| |X e k|t k]; cbn [advance acquire_next disciplined with_snapshot] in *; try done.
  - destruct Hd as [Hp _].
    assert (answer (configured w) e (perform e w).1 = (perform e w).1) as Hans.
    { destruct e; try done. cbn [answer]. by rewrite config_read. }
    assert (configured (perform e w).2 = configured w) as Hc.
    { apply configured_frame. destruct e; try done. by destruct Hp. }
    destruct (perform e w) as [x w1]. injection Ha as <- <- <-. cbn [fst snd] in Hans, Hc. rewrite Hans.
    split; [|split; [by destruct e|done]].
    destruct e; cbn [acquire unlocks permitted] in *; simplify_eq; rewrite ?decide_True by done; try done.
    rewrite decide_True in Hm by done. injection Hm as <-. rewrite decide_False; [done|]. cbn. set_solver.
  - injection Ha as <- <- <-. injection Hm as <-. by rewrite decide_True.
Qed.

(** Any other advances as it is; it starts to read with a snapshot. *)
Lemma advance_other i p w p' w' started m m' :
  advance p w = Some (p', w', started) -> acquire_next i p m = Some m' -> i ∉ rw_readers m ->
  locks_for_reading p = bool_decide (i ∈ rw_readers m') /\ (locks_for_reading p = true -> configured w' = configured w).
Proof.
  intros Ha Hm Hi. destruct p as [| |X e k|t k]; cbn [advance acquire_next] in *; try done.
  2:{ injection Hm as <-. by rewrite bool_decide_false. }
  pose proof (configured_frame _ e w) as Hc. destruct (perform e w) as [x w1]. injection Ha as <- <- <-.
  mutex_cases e; cbn; rewrite ?bool_decide_true by set_solver; rewrite ?bool_decide_false by set_solver; try done.
  split; [done|]. intros _. by apply Hc.
Qed.

Lemma snapshots_step c c' s :
  locked_step c c' -> proper c -> snapshots c s -> exists s', rtc snapshot_step s s' /\ snapshots c' s'.
Proof.
  intros Hstep Hc Hs. pose proof (step_configured _ _ Hstep Hc) as Hconf. pose proof (snapshots_length _ _ Hs) as Hlen.
  destruct Hstep as [m s1 i p Hi Hw Hm|m m' s1 i p p' w' started Hi Hm Ha]; [by exists s|].
  destruct Hs as [Hworld Hs]; cbn [fst snd world] in *.
  destruct (proper_goroutine _ Hc _ _ Hi) as (μ & Hh & Hd & _); cbn [fst] in Hh.
  set (q := if decide (i ∈ rw_readers m) then with_snapshot (configured (world s1)) p else p).
  set (q' := if decide (i ∈ rw_readers m') then with_snapshot (configured (world s1)) p' else p').
  assert (spawned s !! i = Some q) as Hq by (rewrite Hs, Hi; unfold q; by case_decide).
  assert ((exists q0, advance q (world s) = Some (q0, w', started) /\
            (if locks_for_reading q then with_snapshot (configured (world s)) q0 else q0) = q') /\
          (i ∈ rw_readers m' -> configured w' = configured (world s1))) as [(q0 & Hq0 & Hq0') Hsame].
  { rewrite Hworld. unfold q, q'. case_decide as Hr.
    - assert (μ = Reading) as ->.
      { destruct μ; [by destruct Hh|done| |by destruct Hh]. pose proof (proper_exclusive _ Hc i Hh) as He. cbn in He. set_solver. }
      destruct (advance_reader _ _ _ _ _ _ _ _ Ha Hm Hd Hr) as (Hr1 & Hr2 & Hr3). rewrite Hr1, Hr2. eauto.
    - destruct (advance_other _ _ _ _ _ _ _ _ Ha Hm Hr) as (Hr1 & Hr2). split.
      + exists p'. split; [done|]. rewrite Hr1. by repeat case_decide; rewrite ?bool_decide_true, ?bool_decide_false by done.
      + intros Hin. apply Hr2. rewrite Hr1. by apply bool_decide_true. }
  exists (mkSys w' (<[i := q']> (spawned s) ++ started)). split.
  { apply rtc_once. rewrite <- Hq0'. eapply step_snapshot; done. }
  split; [done|]. cbn [fst snd world spawned]. intros j.
  destruct (decide (j = i)) as [->|Hne].
  { pose proof (lookup_lt_Some _ _ _ Hi) as Hlt.
    rewrite !lookup_app_l by (rewrite length_insert; lia). rewrite !list_lookup_insert_eq by lia. cbn. unfold q'.
    case_decide; [|done]. by rewrite Hsame. }
  assert (j ∈ rw_readers m' <-> j ∈ rw_readers m) as Hiff by (eapply acquire_next_readers; [exact Hm|done]).
  rewrite (decide_ext _ (j ∈ rw_readers m)) by done.
  destruct (decide (j < length (spawned s1))) as [Hlt|Hge].
  - rewrite !lookup_app_l by (rewrite length_insert; lia). rewrite !list_lookup_insert_ne by done. rewrite Hs.
    case_decide; [|done]. destruct Hconf as [->|[He _]]; [done|set_solver].
  - rewrite !lookup_app_r by (rewrite length_insert; lia). rewrite !length_insert, Hlen.
    rewrite decide_False; [done|]. intros Hr. apply (proper_reader _ Hc) in Hr. cbn in Hr. lia.
Qed.

Lemma snapshots_steps c c' s :
  rtc locked_step c c' -> proper c -> snapshots c s -> exists s', rtc snapshot_step s s' /\ snapshots c' s'.
Proof.
  intros Hsteps. revert s. induction Hsteps as [c|c1 c2 c3 H12 _ IH]; intros s Hc Hs; [by exists s|].
  destruct (snapshots_step _ _ _ H12 Hc Hs) as (s2 & Hs2 & H2). destruct (IH s2) as (s3 & Hs3 & H3); [by eapply proper_step|done|].
  exists s3. split; [by etransitivity|done].
Qed.

Lemma snapshots_start s : snapshots (unlocked, s) s.
Proof. split; [done|]. intros i. by rewrite decide_False by set_solver. Qed.

(** Programs that have ended have ended in the same way. *)
Lemma snapshots_ended c s i p :
  snapshots c s -> spawned c.2 !! i = Some p -> ended_goroutine p = true -> spawned s !! i = Some p.
Proof. intros [_ Hs] Hi Hp. rewrite Hs, Hi. case_decide; [|done]. by destruct p. Qed.

(** ** Nobody waits for ever *)

(** The mutex when [i] has unlocked it. *)
Definition release (i : nat) (μ : mode) m : RWMutex :=
  match μ with
  | Reading => mkRWMutex (rw_readers m ∖ {[i]}) (rw_writer m)
  | Writing => mkRWMutex (rw_readers m) None
  | Free | Background => m
  end.

Lemma step_index m m' s i p p' w' started :
  spawned s !! i = Some p -> acquire_next i p m = Some m' -> advance p (world s) = Some (p', w', started) ->
  exists s', locked_step (m, s) (m', s') /\ spawned s' !! i = Some p' /\
    spawned s' = <[i := p']> (spawned s) ++ started.
Proof.
  intros Hi Hm Ha. eexists. split; [by eapply step_call|]. split; [|done]. cbn [spawned].
  pose proof (lookup_lt_Some _ _ _ Hi). rewrite lookup_app_l by (by rewrite length_insert). by apply list_lookup_insert_eq.
Qed.

(** Nothing but the lock blocks; what is held can be given back. *)
Lemma acquire_held i μ {X} (e : event X) m :
  μ = Reading \/ μ = Writing -> holds m i μ -> permitted accepts μ e ->
  acquire i e m = Some m /\ next_mode μ e = μ \/ acquire i e m = Some (release i μ m) /\ next_mode μ e = Free.
Proof.
  intros Hμ Hh Hp. destruct e; cbn in *; try (by left); try (subst μ; destruct Hμ; done).
  - subst μ. right. by rewrite decide_True.
  - subst μ. right. by rewrite decide_True.
Qed.

Lemma run_held p μ i m s :
  μ = Reading \/ μ = Writing -> spawned s !! i = Some p -> holds m i μ -> disciplined accepts μ p ->
  exists s', rtc locked_step (m, s) (release i μ m, s').
Proof.
  intros Hμ. revert s. induction p as [a|h|X e k IH|t p _ IH] using goroutine_ind; intros s Hi Hh Hd; cbn [disciplined] in *.
  - destruct Hd; destruct Hμ; congruence.
  - destruct Hd; destruct Hμ; congruence.
  - destruct Hd as [Hp Hk]. destruct (perform e (world s)) as [x w'] eqn:He.
    destruct (acquire_held i μ e m Hμ Hh Hp) as [[Ha Hn]|[Ha Hn]];
      (destruct (step_index m _ s i _ (k x) w' [] Hi Ha) as (s1 & H1 & H1i & _); [cbn [advance]; by rewrite He|]).
    + destruct (IH x s1 H1i Hh) as [s2 H2]; [by rewrite Hn in Hk|]. exists s2. by eapply rtc_l.
    + exists s1. by apply rtc_once.
  - destruct Hd as [_ Hd]. destruct (step_index m m s i _ p (world s) [t] Hi) as (s1 & H1 & H1i & _); [done..|].
    destruct (IH s1 H1i Hh Hd) as [s2 H2]. exists s2. by eapply rtc_l.
Qed.

(** Who reads can be done. *)
Lemma readers_leave c : proper c -> exists c', rtc locked_step c c' /\ proper c' /\ rw_readers c'.1 = ∅.
Proof.
  destruct c as [m s]. remember (size (rw_readers m)) as n eqn:Hn. revert m s Hn.
  induction n as [|n IH]; intros m s Hn Hc.
  - exists (m, s). split; [done|]. split; [done|]. apply leibniz_equiv, size_empty_inv. by cbn.
  - destruct (size_pos_elem_of (rw_readers m)) as [i Hi]; [lia|].
    destruct (lookup_lt_is_Some_2 _ _ (proper_reader _ Hc i Hi)) as [p Hp].
    destruct (proper_goroutine _ Hc _ _ Hp) as (μ & Hh & Hd & _).
    assert (μ = Reading) as ->.
    { destruct μ; [by destruct Hh|done| |by destruct Hh]. pose proof (proper_exclusive _ Hc i Hh) as He. cbn in He. set_solver. }
    destruct (run_held p Reading i m s) as [s1 Hs1]; [by left|done..|].
    destruct (IH (release i Reading m) s1) as (c' & Hs & Hc').
    + cbn. rewrite size_difference by set_solver. rewrite size_singleton. lia.
    + by eapply proper_steps.
    + exists c'. split; [by etransitivity|done].
Qed.

(** And who writes, and who waits to. *)
Lemma writer_leaves c :
  proper c -> rw_readers c.1 = ∅ -> exists s', rtc locked_step c (unlocked, s') /\ proper (unlocked, s').
Proof.
  destruct c as [m s]. intros Hc Hr. cbn in Hr.
  assert (forall s i, proper (mkRWMutex ∅ (Some (i, true)), s) ->
            exists s', rtc locked_step (mkRWMutex ∅ (Some (i, true)), s) (unlocked, s') /\ proper (unlocked, s')) as Hwrite.
  { clear m s Hc Hr. intros s i Hc. destruct (proper_writer _ Hc i true eq_refl) as (p & Hp & _).
    destruct (proper_goroutine _ Hc _ _ Hp) as (μ & Hh & Hd & _).
    assert (μ = Writing) as -> by (destruct μ; [by destruct Hh|cbn in Hh; set_solver|done|by destruct Hh]).
    destruct (run_held p Writing i _ s (or_intror eq_refl) Hp Hh Hd) as [s1 Hs1]. exists s1. split; [exact Hs1|].
    by eapply (proper_steps _ _ Hs1). }
  destruct m as [readers [[i []]|]]; cbn in Hr; subst readers.
  - by apply Hwrite.
  - destruct (proper_writer _ Hc i false eq_refl) as (p & Hp & Hw). specialize (Hw eq_refl). cbn in Hp.
    destruct p as [| |X [] k|]; try done. destruct (perform MutexLock (world s)) as [x w'] eqn:He.
    destruct (step_index (mkRWMutex ∅ (Some (i, false))) (mkRWMutex ∅ (Some (i, true))) s i _ (k x) w' [] Hp) as (s1 & H1 & _).
    { cbn. by rewrite decide_True. }
    { cbn [advance]. by rewrite He. }
    destruct (Hwrite s1 i) as (s2 & H2 & Hc2); [by eapply proper_step|]. exists s2. split; [by eapply rtc_l|done].
  - by exists s.
Qed.

(** The mutex when [i] alone holds it. *)
Definition held_by (i : nat) (μ : mode) : RWMutex :=
  match μ with
  | Free | Background => unlocked
  | Reading => mkRWMutex {[i]} None
  | Writing => mkRWMutex ∅ (Some (i, true))
  end.

Lemma acquire_alone i μ {X} (e : event X) s k :
  permitted accepts μ e -> spawned s !! i = Some (Vis e k) ->
  exists m, rtc locked_step (held_by i μ, s) (m, s) /\ acquire i e m = Some (held_by i (next_mode μ e)).
Proof.
  intros Hp Hi. destruct e; cbn [permitted next_mode acquire] in *; try (exists (held_by i μ); by split).
  - subst μ. exists unlocked. split; [done|]. cbn. rewrite decide_False by set_solver. do 2 f_equal. set_solver.
  - subst μ. exists (held_by i Reading). split; [done|]. cbn. rewrite decide_True by set_solver. unfold unlocked. do 2 f_equal. set_solver.
  - subst μ. exists (mkRWMutex ∅ (Some (i, false))). split; [by eapply rtc_once, step_announce|]. cbn. by rewrite decide_True.
  - subst μ. exists (held_by i Writing). split; [done|]. cbn. by rewrite decide_True.
Qed.

(** What a goroutine that runs alone leaves: it has ended, and so has whatever it started. *)
Definition ran_alone (i : nat) s s' : Prop :=
  length (spawned s) <= length (spawned s') /\
  (forall j, j < length (spawned s) -> j <> i -> spawned s' !! j = spawned s !! j) /\
  forall j q, spawned s' !! j = Some q -> j = i \/ length (spawned s) <= j -> ended_goroutine q = true.

Lemma run_alone p i μ s :
  spawned s !! i = Some p -> disciplined accepts μ p ->
  exists s', rtc locked_step (held_by i μ, s) (unlocked, s') /\ ran_alone i s s'.
Proof.
  revert i μ s. induction p as [a|h|X e k IH|t p IHt IH] using goroutine_ind; intros i μ s Hi Hd; cbn [disciplined] in *;
    pose proof (lookup_lt_Some _ _ _ Hi) as Hlt.
  - exists s. split; [by destruct Hd as [->| ->]|]. split; [done|]. split; [done|].
    intros j q Hj [->|Hl]; [by simplify_eq|]. apply lookup_lt_Some in Hj. lia.
  - exists s. split; [by destruct Hd as [->| ->]|]. split; [done|]. split; [done|].
    intros j q Hj [->|Hl]; [by simplify_eq|]. apply lookup_lt_Some in Hj. lia.
  - destruct Hd as [Hp Hk]. destruct (perform e (world s)) as [x w'] eqn:He.
    destruct (acquire_alone i μ e s k Hp Hi) as (m & Hm & Ha).
    destruct (step_index m _ s i _ (k x) w' [] Hi Ha) as (s1 & H1 & H1i & Hl1); [cbn [advance]; by rewrite He|].
    destruct (IH x i _ s1 H1i (Hk x)) as (s2 & H2 & Hlen & Hsame & Hend). exists s2.
    split; [etransitivity; [exact Hm|by eapply rtc_l]|]. rewrite Hl1, app_nil_r in *. rewrite length_insert in *.
    split; [done|]. split; [|done]. intros j Hj Hne. rewrite Hsame by done. by apply list_lookup_insert_ne.
  - destruct Hd as [Ht Hd]. destruct (step_index (held_by i μ) (held_by i μ) s i _ p (world s) [t] Hi) as (s1 & H1 & H1i & Hl1); [done..|].
    destruct (IH i _ s1 H1i Hd) as (s2 & H2 & Hlen2 & Hsame2 & Hend2).
    rewrite Hl1, length_app, length_insert in Hlen2, Hsame2, Hend2. cbn [length] in *.
    assert (spawned s2 !! length (spawned s) = Some t) as Ht2.
    { rewrite Hsame2 by lia. apply list_lookup_middle. by rewrite length_insert. }
    destruct (IHt (length (spawned s)) Background s2 Ht2) as (s3 & H3 & Hlen3 & Hsame3 & Hend3).
    { apply steady_disciplined; [by right|done]. }
    exists s3. split; [eapply rtc_l; [exact H1|by etransitivity]|]. split; [lia|]. split.
    + intros j Hj Hne. rewrite Hsame3, Hsame2 by lia. rewrite lookup_app_l by (rewrite length_insert; lia). by apply list_lookup_insert_ne.
    + intros j q Hq Hj. destruct (decide (j = length (spawned s))) as [->|Hn]; [by apply (Hend3 _ _ Hq); left|].
      destruct (decide (length (spawned s2) <= j)); [by apply (Hend3 _ _ Hq); right|].
      rewrite Hsame3 in Hq by lia. apply (Hend2 _ _ Hq). lia.
Qed.

(** When the lock is free, one goroutine after the other. *)
Lemma all_end n s :
  proper (unlocked, s) -> n <= length (spawned s) ->
  exists s', rtc locked_step (unlocked, s) (unlocked, s') /\ length (spawned s) <= length (spawned s') /\
    forall j q, spawned s' !! j = Some q -> j < n \/ length (spawned s) <= j -> ended_goroutine q = true.
Proof.
  induction n as [|n IH]; intros Hc Hn.
  - exists s. split; [done|]. split; [done|]. intros j q Hj%lookup_lt_Some. lia.
  - destruct IH as (s1 & H1 & Hlen1 & Hend1); [done|lia|].
    destruct (lookup_lt_is_Some_2 (spawned s1) n) as [p Hp]; [lia|].
    destruct (proper_goroutine _ (proper_steps _ _ H1 Hc) _ _ Hp) as (μ & Hh & Hd & _).
    assert (held_by n μ = unlocked) as Hfree by (destruct μ; cbn in Hh; [done|set_solver|done|done]).
    destruct (run_alone p n μ s1 Hp Hd) as (s2 & H2 & Hlen2 & Hsame2 & Hend2). rewrite Hfree in H2.
    exists s2. split; [by etransitivity|]. split; [lia|]. intros j q Hq Hj.
    destruct (decide (j = n \/ length (spawned s1) <= j)) as [Hj'|Hj']; [by apply (Hend2 _ _ Hq)|].
    rewrite Hsame2 in Hq by lia. apply (Hend1 _ _ Hq). lia.
Qed.

Lemma proper_ends c :
  proper c -> exists s', rtc locked_step c (unlocked, s') /\ Forall (fun p => ended_goroutine p = true) (spawned s').
Proof.
  intros Hc. destruct (readers_leave c Hc) as (c1 & H1 & Hc1 & Hr). destruct (writer_leaves c1 Hc1 Hr) as (s2 & H2 & Hc2).
  destruct (all_end (length (spawned s2)) s2 Hc2) as (s3 & H3 & _ & Hend); [done|].
  exists s3. split; [by repeat (etransitivity; [eassumption|])|]. apply Forall_lookup. intros j q Hq. apply (Hend j q Hq). lia.
Qed.
(** Whoever has not ended, somebody can go on. *)
Lemma proper_progress c :
  proper c -> nf locked_step c -> c.1 = unlocked /\ Forall (fun p => ended_goroutine p = true) (spawned c.2).
Proof.
  intros Hc Hn. destruct (proper_ends c Hc) as (s' & Hs & Hend).
  inversion Hs as [|c1 c2 c3 H12]; subst; [done|]. destruct Hn. by exists c2.
Qed.
End Mutex.

(** ** Every execution ends *)

(** However goroutines are scheduled, under the lock. *)
Lemma locked_terminates `{World W} (c : RWMutex * sys W) : sn locked_step c.
Proof.
  destruct c as [m s]. remember (spawned s) as l eqn:Hl. revert m s Hl.
  induction (sn_goroutines l) as [l _ IH]. intros m s ->.
  assert (forall m s' c', spawned s' = spawned s -> locked_step (m, s') c' -> rw_writer m <> None -> sn locked_step c') as Hcall.
  { intros m1 s' c' Hs Hstep Hw. inversion Hstep as [|m2 m' s2 i p p' w' started Hi Hm Ha]; simplify_eq.
    eapply IH; [|done]. rewrite <- Hs. by eapply advance_replaces. }
  constructor. intros c' Hstep. inversion Hstep as [m1 s1 i p Hi Hp Hw|m1 m' s1 i p p' w' started Hi Hm Ha]; simplify_eq.
  - constructor. intros c2 H2. by eapply Hcall.
  - eapply IH; [|done]. by eapply advance_replaces.
Qed.
