(* ===== verification/Heap.v ===== *)
(** * The memory of Go: addresses, types and the contents of variables

    Pointers matter where the code copies configurations: two variables may
    share what they point to.  A heap maps addresses to the values of
    variables that have no parts; a struct is laid out as its fields and the
    array of a slice as its elements, so that [&x.f] and [&x[i]] are addresses
    as well.  The types say what lies where, what [*dst = *src] copies, and
    what can be reached from a variable ([reads]). *)

From S2P Require Import Prelude.
From stdpp Require Import fin_maps infinite.
From Stdlib Require Import Lia.

Declare Scope memory_scope.
Delimit Scope memory_scope with memory.
Local Open Scope broker_scope.
Local Open Scope memory_scope.

(** ** Types *)

Inductive gotype : Type :=
  | GoString
  | GoBool
  | GoInt
  | GoByte
  | GoPointer (T : gotype)
  | GoSlice (T : gotype)
  | GoEnd
  | GoField (name : string) (T rest : gotype).

(** [struct { name1 T1; name2 T2; ... }] *)
Fixpoint GoStruct (fields : list (string * gotype)) : gotype :=
  match fields with
  | [] => GoEnd
  | (name, T) :: rest => GoField name T (GoStruct rest)
  end.

Fixpoint names (T : gotype) : list string :=
  match T with
  | GoField name _ rest => name :: names rest
  | _ => []
  end.

(** The fields of a struct have different names. *)
Fixpoint wf_type (T : gotype) : bool :=
  match T with
  | GoPointer T | GoSlice T => wf_type T
  | GoField name T rest => wf_type T && wf_type rest && negb (bool_decide (name ∈ names rest))
  | _ => true
  end.

(** Types of which a copy shares nothing. *)
Fixpoint flat (T : gotype) : bool :=
  match T with
  | GoPointer _ | GoSlice _ => false
  | GoField _ T rest => flat T && flat rest
  | _ => true
  end.

(** ** Addresses and heaps *)

Definition selector : Type := string + nat.

(** A block that was allocated, and the way to a part of it. *)
Definition addr : Type := nat * list selector.

#[export] Instance addr_eq_dec : EqDecision addr.
Proof. unfold addr, selector. apply _. Defined.
#[export] Instance addr_countable : Countable addr.
Proof. unfold addr, selector. apply _. Defined.

Definition within (a : addr) (π : list selector) : addr := (a.1, a.2 ++ π).
Definition field (a : addr) (name : string) : addr := within a [inl name].
Definition index (a : addr) (i : nat) : addr := within a [inr i].

(** The value of a variable without parts.  A slice is the address of its
    array with its length. *)
Inductive leaf : Type :=
  | LString (s : string)
  | LBool (b : bool)
  | LInt (z : Z)
  | LByte (c : ascii)
  | LPointer (p : option addr)
  | LSlice (s : option (addr * nat)).

Abbreviation heap := (gmap addr leaf).

(** ** Code

    What runs on a heap; [None] is a panic. *)

Definition mem (A : Type) : Type := heap -> option (A * heap).

Definition return_ {A} (a : A) : mem A := fun h => Some (a, h).
Definition mem_bind {A B} (m : mem A) (k : A -> mem B) : mem B := fun h =>
  match m h with
  | Some (a, h') => k a h'
  | None => None
  end.
Definition panics {A} : mem A := fun _ => None.

Notation "x <-* m ;; k" := (mem_bind m (fun x => k))
  (at level 20, m at level 99, k at level 200) : memory_scope.
Notation "m ;;* k" := (mem_bind m (fun _ => k))
  (at level 100, k at level 200, right associativity) : memory_scope.

Definition load (a : addr) : mem leaf := fun h =>
  match h !! a with
  | Some v => Some (v, h)
  | None => None
  end.

Definition store (a : addr) (v : leaf) : mem unit := fun h =>
  match h !! a with
  | Some _ => Some (tt, <[a := v]> h)
  | None => None
  end.

(** The value of a pointer variable that is dereferenced. *)
Definition load_pointer (a : addr) : mem addr :=
  v <-* load a ;;
  match v with
  | LPointer (Some p) => return_ p
  | _ => panics
  end.

(** A slice as its array and length: [nil] has length 0. *)
Definition load_slice (a : addr) : mem (option (addr * nat)) :=
  v <-* load a ;;
  match v with
  | LSlice s => return_ s
  | _ => panics
  end.

Definition is_nil (a : addr) : mem bool :=
  v <-* load a ;;
  match v with
  | LPointer None | LSlice None => return_ true
  | LPointer (Some _) | LSlice (Some _) => return_ false
  | _ => panics
  end.

(** The address of an element of the slice at [a]. *)
Definition element (a : addr) (i : nat) : mem addr :=
  s <-* load_slice a ;;
  match s with
  | Some (array, len) => if decide (i < len) then return_ (index array i) else panics
  | None => panics
  end.

(** The zero value of a variable of type [T] at [a]. *)
Fixpoint zero (T : gotype) (a : addr) : heap :=
  match T with
  | GoString => {[a := LString ""]}
  | GoBool => {[a := LBool false]}
  | GoInt => {[a := LInt 0]}
  | GoByte => {[a := LByte "000"]}
  | GoPointer _ => {[a := LPointer None]}
  | GoSlice _ => {[a := LSlice None]}
  | GoEnd => ∅
  | GoField name T rest => zero T (field a name) ∪ zero rest a
  end.

Fixpoint zeros (T : gotype) (a : addr) (l : list nat) : heap :=
  match l with
  | [] => ∅
  | i :: l => zero T (index a i) ∪ zeros T a l
  end.

Definition fresh_block (h : heap) : nat := fresh (map fst (map fst (map_to_list h))).

(** [new(T)] *)
Definition new (T : gotype) : mem addr := fun h =>
  let a := (fresh_block h, []) in Some (a, h ∪ zero T a).

(** [make([]T, n)] *)
Definition make (T : gotype) (n : nat) : mem addr := fun h =>
  let a := (fresh_block h, []) in Some (a, h ∪ zeros T a (seq 0 n)).

(** [*dst = *src] for variables of type [T] *)
Fixpoint assign (T : gotype) (src dst : addr) : mem unit :=
  match T with
  | GoEnd => return_ tt
  | GoField name T rest => assign T (field src name) (field dst name) ;;* assign rest src dst
  | _ => v <-* load src ;; store dst v
  end.

(** [for i := range s { body(i) }] over the indices of a slice. *)
Fixpoint for_each (l : list nat) (body : nat -> mem unit) : mem unit :=
  match l with
  | [] => return_ tt
  | i :: l => body i ;;* for_each l body
  end.

(** ** Contents

    What a variable of a type holds, with everything it points to. *)

Fixpoint contents (T : gotype) : Type :=
  match T with
  | GoString => string
  | GoBool => bool
  | GoInt => Z
  | GoByte => ascii
  | GoPointer T => option (contents T)
  | GoSlice T => option (list (contents T))
  | GoEnd => unit
  | GoField _ T rest => contents T * contents rest
  end.

(** In the heap [h] alone, the variable of type [T] at [a] holds [x]. *)
Fixpoint reads (T : gotype) (a : addr) (h : heap) : contents T -> Prop :=
  match T return contents T -> Prop with
  | GoString => fun s => h !! a = Some (LString s)
  | GoBool => fun b => h !! a = Some (LBool b)
  | GoInt => fun z => h !! a = Some (LInt z)
  | GoByte => fun c => h !! a = Some (LByte c)
  | GoPointer T => fun x =>
      match x with
      | None => h !! a = Some (LPointer None)
      | Some y => exists p, h !! a = Some (LPointer (Some p)) /\ reads T p h y
      end
  | GoSlice T => fun x =>
      match x with
      | None => h !! a = Some (LSlice None)
      | Some l => exists p, h !! a = Some (LSlice (Some (p, length l))) /\
                            forall i y, l !! i = Some y -> reads T (index p i) h y
      end
  | GoEnd => fun _ => True
  | GoField name T rest => fun x => reads T (field a name) h x.1 /\ reads rest a h x.2
  end.

(** [P] of the elements of a list from the [i]th on, each in its own part of [h]. *)
Fixpoint each {A : Type} (P : nat -> heap -> A -> Prop) (i : nat) (h : heap) (l : list A) : Prop :=
  match l with
  | [] => True
  | y :: l => exists h1 h2, h1 ##ₘ h2 /\ h1 ∪ h2 ⊆ h /\ P i h1 y /\ each P (S i) h2 l
  end.

(** As [reads], and nothing in [h] is reached in two ways. *)
Fixpoint owns (T : gotype) (a : addr) (h : heap) : contents T -> Prop :=
  match T return contents T -> Prop with
  | GoPointer T => fun x =>
      match x with
      | None => h !! a = Some (LPointer None)
      | Some y => exists p h1 h2, h1 ##ₘ h2 /\ h1 ∪ h2 ⊆ h /\
                    h1 !! a = Some (LPointer (Some p)) /\ owns T p h2 y
      end
  | GoSlice T => fun x =>
      match x with
      | None => h !! a = Some (LSlice None)
      | Some l => exists p h1 h2, h1 ##ₘ h2 /\ h1 ∪ h2 ⊆ h /\
                    h1 !! a = Some (LSlice (Some (p, length l))) /\
                    each (fun i h y => owns T (index p i) h y) 0 h2 l
      end
  | GoField name T rest => fun x =>
      exists h1 h2, h1 ##ₘ h2 /\ h1 ∪ h2 ⊆ h /\ owns T (field a name) h1 x.1 /\ owns rest a h2 x.2
  | T => reads T a h
  end.

(** [h] is a variable of type [T] at [a], whatever it holds. *)
Fixpoint allocated (T : gotype) (a : addr) (h : heap) : Prop :=
  match T with
  | GoEnd => h = ∅
  | GoField name T rest =>
      exists h1 h2, h = h1 ∪ h2 /\ h1 ##ₘ h2 /\ allocated T (field a name) h1 /\ allocated rest a h2
  | _ => exists v, h = {[a := v]}
  end.

(** [h] is a variable at [dst] that was assigned the variable at [src] of [h0]. *)
Fixpoint shallow (T : gotype) (src dst : addr) (h0 h : heap) : Prop :=
  match T with
  | GoEnd => h = ∅
  | GoField name T rest =>
      exists h1 h2, h = h1 ∪ h2 /\ h1 ##ₘ h2 /\
        shallow T (field src name) (field dst name) h0 h1 /\ shallow rest src dst h0 h2
  | _ => exists v, h0 !! src = Some v /\ h = {[dst := v]}
  end.

(** The variables of a slice. *)
Fixpoint all_allocated (T : gotype) (a : addr) (l : list nat) (h : heap) : Prop :=
  match l with
  | [] => h = ∅
  | i :: l => exists h1 h2, h = h1 ∪ h2 /\ h1 ##ₘ h2 /\ allocated T (index a i) h1 /\ all_allocated T a l h2
  end.

(** ** Lemmas *)

Lemma within_app a π π' : within (within a π) π' = within a (π ++ π').
Proof. unfold within. cbn. by rewrite app_assoc. Qed.

Lemma within_inj a π π' : within a π = within a π' -> π = π'.
Proof. intros [= ?]. by simplify_list_eq. Qed.

Lemma reads_mono T a h h' x : h ⊆ h' -> reads T a h x -> reads T a h' x.
Proof.
  intros Hh. revert a x.
  induction T as [| | | |T IH|T IH| |n T IH rest IHr]; cbn [contents reads]; intros a x Hr;
    try (by eapply lookup_weaken).
  - destruct x as [y|]; [|by eapply lookup_weaken]. destruct Hr as (p & Hp & Hr).
    exists p. split; [by eapply lookup_weaken|by apply IH].
  - destruct x as [l|]; [|by eapply lookup_weaken]. destruct Hr as (p & Hp & Hr).
    exists p. split; [by eapply lookup_weaken|]. intros i y Hi. by apply IH, Hr.
  - done.
  - destruct Hr as [H1 H2]. by split; [apply IH|apply IHr].
Qed.

Lemma reads_l T a h1 h2 x : reads T a h1 x -> reads T a (h1 ∪ h2) x.
Proof. apply reads_mono, map_union_subseteq_l. Qed.

Lemma owns_mono T a h h' x : h ⊆ h' -> owns T a h x -> owns T a h' x.
Proof.
  intros Hh. destruct T as [| | | |T|T| |n T rest]; try by apply reads_mono.
  - destruct x as [y|]; [|by apply (reads_mono (GoPointer T) _ _ _ None)]. cbn [owns].
    intros (p & h1 & h2 & Hd & Hs & Ho). exists p, h1, h2. split; [done|]. split; [by etrans|done].
  - destruct x as [l|]; [|by apply (reads_mono (GoSlice T) _ _ _ None)]. cbn [owns].
    intros (p & h1 & h2 & Hd & Hs & Ho). exists p, h1, h2. split; [done|]. split; [by etrans|done].
  - cbn [owns]. intros (h1 & h2 & Hd & Hs & Ho). exists h1, h2. split; [done|]. split; [by etrans|done].
Qed.

(** The parts of two heaps that share nothing and lie in a third. *)
Lemma parts_subseteq (h1 h2 h : heap) : h1 ##ₘ h2 -> h1 ∪ h2 ⊆ h -> h1 ⊆ h /\ h2 ⊆ h.
Proof.
  intros Hd Hs. split; (etrans; [|exact Hs]); [apply map_union_subseteq_l|by apply map_union_subseteq_r].
Qed.

Lemma owns_reads T a h x : owns T a h x -> reads T a h x.
Proof.
  revert a h x.
  induction T as [| | | |T IH|T IH| |n T IH rest IHr]; intros a h x; try done.
  - destruct x as [y|]; [|done]. cbn [owns reads]. intros (p & h1 & h2 & Hd & [H1 H2]%parts_subseteq & Hp & Ho); [|done].
    exists p. split; [by eapply lookup_weaken|]. eapply reads_mono; [exact H2|by apply IH].
  - destruct x as [l|]; [|done]. cbn [owns].
    intros (p & h1 & h2 & Hd & [H1 H2]%parts_subseteq & Hp & Ho); [|done]. cbn [reads].
    exists p. split; [by eapply lookup_weaken|]. clear Hp Hd h1 H1.
    assert (forall k i y, l !! i = Some y -> each (fun i h y => owns T (index p i) h y) k h2 l -> reads T (index p (k + i)) h y) as Hall;
      [|intros i y Hi; by apply (Hall 0)].
    clear Ho. revert h2 H2. induction l as [|z l IHl]; intros h2 H2 k i y Hi Ho; [done|].
    destruct Ho as (h3 & h4 & Hd & [H3 H4]%parts_subseteq & Hz & Ho); [|done].
    destruct i as [|i]; cbn in Hi.
    + simplify_eq. rewrite Nat.add_0_r. eapply reads_mono; [|by apply IH]. by etrans.
    + rewrite Nat.add_succ_r. eapply (IHl h4 ltac:(by etrans) (S k) i y Hi Ho).
  - cbn [owns reads]. intros (h1 & h2 & Hd & [H1 H2]%parts_subseteq & Ha & Hr); [|done]. split.
    + eapply reads_mono; [exact H1|by apply IH].
    + eapply reads_mono; [exact H2|by apply IHr].
Qed.

Lemma shallow_mono T src dst h0 h0' h : h0 ⊆ h0' -> shallow T src dst h0 h -> shallow T src dst h0' h.
Proof.
  intros Hh. revert src dst h.
  induction T as [| | | |T IH|T IH| |n T IH rest IHr]; cbn [shallow]; intros src dst h Hs;
    try (destruct Hs as (v & Hv & ->); exists v; split; [by eapply lookup_weaken|done]); [done|].
  destruct Hs as (h1 & h2 & -> & Hd & H1 & H2). exists h1, h2. split_and!; auto.
Qed.

Lemma shallow_mono_rev T src dst h0 h0' h x :
  h0 ⊆ h0' -> reads T src h0 x -> shallow T src dst h0' h -> shallow T src dst h0 h.
Proof.
  intros Hh. revert src dst h x.
  assert (forall a v w, h0 !! a = Some w -> h0' !! a = Some v -> h0 !! a = Some v) as Hl.
  { intros a v w H1 H2. pose proof (lookup_weaken _ _ _ _ H1 Hh) as H3. congruence. }
  induction T as [| | | |T IH|T IH| |n T IH rest IHr]; cbn [shallow contents reads]; intros src dst h x Hr Hs;
    [.. | done |];
    try (destruct Hs as (v & Hv & ->); exists v; split; [|done];
         first [by eapply Hl | destruct x; [destruct Hr as (p & Hr & _)|]; by eapply Hl]).
  destruct Hr as [Hr1 Hr2], Hs as (h1 & h2 & -> & Hd & H1 & H2). exists h1, h2. split_and!; eauto.
Qed.

Lemma shallow_allocated T src dst h0 h : shallow T src dst h0 h -> allocated T dst h.
Proof.
  revert src dst h.
  induction T as [| | | |T IH|T IH| |n T IH rest IHr]; cbn [shallow allocated]; intros src dst h Hs;
    [.. | done |]; try (by destruct Hs as (v & _ & ->); exists v).
  destruct Hs as (h1 & h2 & -> & Hd & H1 & H2). exists h1, h2. split_and!; eauto.
Qed.

(** A copy of a flat variable holds what the variable holds. *)
Lemma shallow_owns T src dst h0 h x :
  flat T -> reads T src h0 x -> shallow T src dst h0 h -> owns T dst h x.
Proof.
  revert src dst h x.
  induction T as [| | | |T IH|T IH| |n T IH rest IHr]; cbn [flat shallow contents reads owns]; intros src dst h x Hf Hr Hs;
    [.. | done |]; try done;
    try (destruct Hs as (v & Hv & ->); rewrite Hv in Hr; simplify_eq; by rewrite lookup_singleton_eq).
  apply andb_True in Hf as [Hf1 Hf2].
  destruct Hr as [Hr1 Hr2], Hs as (h1 & h2 & -> & Hd & H1 & H2). exists h1, h2. eauto 6.
Qed.

(** *** New variables *)

Lemma within_nil a : within a [] = a.
Proof. destruct a as [b l]. unfold within. cbn. by rewrite app_nil_r. Qed.

Lemma zero_cells T a b v :
  zero T a !! b = Some v ->
  exists π, b = within a π /\ forall n π', π = inl n :: π' -> n ∈ names T.
Proof.
  revert a b v.
  induction T as [| | | |T IH|T IH| |n T IH rest IHr]; cbn [zero names]; intros a b v Hb;
    try (apply lookup_singleton_Some in Hb as [<- _]; exists []; by rewrite within_nil); [done|].
  apply lookup_union_Some_raw in Hb as [Hb|[_ Hb]].
  - apply IH in Hb as (π & -> & _). exists (inl n :: π). unfold field. rewrite within_app. split; [done|].
    intros ? ? [= -> _]. by left.
  - apply IHr in Hb as (π & -> & Hn). exists π. split; [done|]. intros m π' ->. right. by eapply Hn.
Qed.

Lemma zero_allocated T a : wf_type T -> allocated T a (zero T a).
Proof.
  revert a.
  induction T as [| | | |T IH|T IH| |n T IH rest IHr]; cbn [zero allocated wf_type]; intros a Hwf; eauto.
  apply andb_True in Hwf as [[H1 H2]%andb_True Hn]. apply negb_True in Hn. rewrite bool_decide_spec in Hn.
  eexists _, _. split_and!; [done| |by apply IH|by apply IHr].
  apply map_disjoint_spec. intros b v w (π & -> & _)%zero_cells (π' & Hπ & Hin)%zero_cells.
  unfold field in Hπ. rewrite within_app in Hπ. apply within_inj in Hπ. by eapply Hn, Hin.
Qed.

Lemma zeros_cells T a l b v :
  zeros T a l !! b = Some v -> exists i π, i ∈ l /\ b = within a (inr i :: π).
Proof.
  induction l as [|i l IH]; cbn [zeros]; [done|]. intros [Hb|[_ Hb]]%lookup_union_Some_raw.
  - apply zero_cells in Hb as (π & -> & _). exists i, π. unfold index. rewrite within_app. split; [by left|done].
  - apply IH in Hb as (j & π & Hj & ->). exists j, π. split; [by right|done].
Qed.

Lemma zeros_allocated T a l : wf_type T -> NoDup l -> all_allocated T a l (zeros T a l).
Proof.
  intros Hwf. induction 1 as [|i l Hi Hl IH]; cbn [zeros all_allocated]; [done|].
  eexists _, _. split_and!; [done| |by apply zero_allocated|done].
  apply map_disjoint_spec. intros b v w (π & -> & _)%zero_cells (j & π' & Hj & Hb)%zeros_cells.
  unfold index in Hb. rewrite within_app in Hb. apply within_inj in Hb. by simplify_eq/=.
Qed.

Lemma fresh_block_None h l : h !! (fresh_block h, l) = None.
Proof.
  destruct (h !! (fresh_block h, l)) as [v|] eqn:Hv; [|done]. exfalso.
  assert (fresh_block h ∈ map fst (map fst (map_to_list h))) as Hin.
  { change (fresh_block h) with (fresh_block h, l, v).1.1.
    by apply (list_elem_of_fmap_2 fst), (list_elem_of_fmap_2 fst), elem_of_map_to_list. }
  by apply infinite_is_fresh in Hin.
Qed.

Lemma fresh_disjoint h z :
  (forall b v, z !! b = Some v -> exists π, b = within (fresh_block h, []) π) -> h ##ₘ z.
Proof.
  intros Hz. apply map_disjoint_spec. intros b v w Hv (π & ->)%Hz.
  unfold within in Hv. cbn in Hv. by rewrite fresh_block_None in Hv.
Qed.

Lemma new_spec T h :
  wf_type T -> exists a z, new T h = Some (a, h ∪ z) /\ h ##ₘ z /\ allocated T a z.
Proof.
  intros Hwf. unfold new. eexists _, _. split_and!; [done| |by apply zero_allocated].
  apply fresh_disjoint. intros b v (π & -> & _)%zero_cells. by exists π.
Qed.

Lemma make_spec T n h :
  wf_type T -> exists a z, make T n h = Some (a, h ∪ z) /\ h ##ₘ z /\ all_allocated T a (seq 0 n) z.
Proof.
  intros Hwf. unfold make. eexists _, _. split_and!; [done| |apply zeros_allocated; [done|apply NoDup_seq]].
  apply fresh_disjoint. intros b v (i & π & _ & ->)%zeros_cells. by eexists.
Qed.

(** *** Reading and writing *)

Lemma mem_bind_Some {A B} (m : mem A) (k : A -> mem B) h a h' :
  m h = Some (a, h') -> mem_bind m k h = k a h'.
Proof. intros Hm. unfold mem_bind. by rewrite Hm. Qed.

Lemma load_spec a v h0 h : h0 !! a = Some v -> load a (h0 ∪ h) = Some (v, h0 ∪ h).
Proof. intros Ha. unfold load. by rewrite (lookup_union_Some_l _ _ _ _ Ha). Qed.

Lemma store_spec a v w h0 :
  h0 ##ₘ {[a := w]} ->
  store a v (h0 ∪ {[a := w]}) = Some (tt, h0 ∪ {[a := v]}) /\ h0 ##ₘ {[a := v]}.
Proof.
  intros Hd%map_disjoint_singleton_r. unfold store.
  rewrite (lookup_union_r _ _ _ Hd), lookup_singleton_eq, insert_union_r, insert_singleton_eq by done.
  split; [done|]. by apply map_disjoint_singleton_r.
Qed.

(** [*dst = *src], where the variable at [dst] lies outside of what is kept. *)
Lemma assign_spec T src dst h0 h x :
  h0 ##ₘ h -> reads T src h0 x -> allocated T dst h ->
  exists h', assign T src dst (h0 ∪ h) = Some (tt, h0 ∪ h') /\ h0 ##ₘ h' /\ shallow T src dst h0 h'.
Proof.
  revert src dst h0 h x.
  assert (forall src dst h0 h v, h0 ##ₘ h -> h0 !! src = Some v -> (exists w, h = {[dst := w]}) ->
    exists h', (v <-* load src ;; store dst v) (h0 ∪ h) = Some (tt, h0 ∪ h') /\ h0 ##ₘ h' /\
      exists v, h0 !! src = Some v /\ h' = {[dst := v]}) as Hleaf.
  { intros src dst h0 h v Hd Hv [w ->]. rewrite (mem_bind_Some _ _ _ _ _ (load_spec _ _ _ _ Hv)).
    destruct (store_spec dst v w h0 Hd) as [-> Hd']. eauto 6. }
  induction T as [| | | |T IH|T IH| |n T IH rest IHr]; cbn [assign shallow allocated contents reads];
    intros src dst h0 h x Hd Hr Ha; [by eapply Hleaf..| | | |].
  - destruct x as [y|]; [destruct Hr as (p & Hr & _)|]; by eapply Hleaf.
  - destruct x as [y|]; [destruct Hr as (p & Hr & _)|]; by eapply Hleaf.
  - subst. by exists ∅.
  - destruct Hr as [Hr1 Hr2], Ha as (h1 & h2 & -> & Hd12 & H1 & H2).
    apply map_disjoint_union_r in Hd as [Hd1 Hd2].
    destruct (IH (field src n) (field dst n) (h0 ∪ h2) h1 x.1) as (h1' & He1 & Hd1' & Hs1);
      [by apply map_disjoint_union_l|by apply reads_l|done|].
    apply map_disjoint_union_l in Hd1' as [Hd01 Hd21].
    destruct (IHr src dst (h0 ∪ h1') h2 x.2) as (h2' & He2 & Hd2' & Hs2);
      [by apply map_disjoint_union_l|by apply reads_l|done|].
    apply map_disjoint_union_l in Hd2' as [Hd02 Hd12'].
    exists (h1' ∪ h2'). split_and!.
    + erewrite mem_bind_Some; [|rewrite (map_union_comm h1 h2), map_union_assoc by done; exact He1].
      rewrite <- map_union_assoc, (map_union_comm h2 h1'), map_union_assoc, He2 by done.
      by rewrite map_union_assoc.
    + by apply map_disjoint_union_r.
    + exists h1', h2'. split_and!; [done..| |].
      * eapply shallow_mono_rev; [apply map_union_subseteq_l|done|done].
      * eapply shallow_mono_rev; [apply map_union_subseteq_l|done|done].
Qed.

(** A variable of [h0] as it is seen during a copy. *)
Lemma lookup_kept (h0 h : heap) a v : h0 !! a = Some v -> (h0 ∪ h) !! a = Some v.
Proof. apply lookup_union_Some_l. Qed.

Lemma lookup_target (h0 : heap) a v : h0 ##ₘ {[a := v]} -> (h0 ∪ {[a := v]}) !! a = Some v.
Proof. intros Hd%map_disjoint_singleton_r. by rewrite (lookup_union_r _ _ _ Hd), lookup_singleton_eq. Qed.

(** A variable that was assigned shares what the other one points to. *)
Lemma shallow_reads T src dst h0 h x :
  h0 ##ₘ h -> reads T src h0 x -> shallow T src dst h0 h -> reads T dst (h0 ∪ h) x.
Proof.
  revert src dst h x.
  induction T as [| | | |T IH|T IH| |n T IH rest IHr]; cbn [shallow contents reads]; intros src dst h x Hd Hr Hs;
    [.. | done |]; try (destruct Hs as (v & Hv & ->)).
  1-4: rewrite Hv in Hr; injection Hr as ->; by apply lookup_target.
  - destruct x as [y|]; [destruct Hr as (p & Hp & Hr)|rename Hr into Hp]; rewrite Hp in Hv; injection Hv as <-;
      [|by apply lookup_target]. exists p. split; [by apply lookup_target|by apply reads_l].
  - destruct x as [l|]; [destruct Hr as (p & Hp & Hr)|rename Hr into Hp]; rewrite Hp in Hv; injection Hv as <-;
      [|by apply lookup_target]. exists p. split; [by apply lookup_target|]. intros i y Hi. by apply reads_l, Hr.
  - destruct Hr as [Hr1 Hr2], Hs as (h1 & h2 & -> & Hd12 & H1 & H2).
    apply map_disjoint_union_r in Hd as [Hd1 Hd2]. split.
    + rewrite map_union_assoc. apply reads_l. by eapply IH.
    + rewrite (map_union_comm h1 h2), map_union_assoc by done. apply reads_l. by eapply IHr.
Qed.

(** The variable itself, without what it points to. *)
Lemma owns_cells T a h x : owns T a h x -> exists c, c ⊆ h /\ allocated T a c.
Proof.
  revert a h x.
  assert (forall a h v, h !! a = Some v -> exists c : heap, c ⊆ h /\ exists v, c = {[a := v]}) as Hleaf.
  { intros a h v Hv. exists {[a := v]}. split; [by apply map_singleton_subseteq_l|by exists v]. }
  induction T as [| | | |T IH|T IH| |n T IH rest IHr]; cbn [owns contents allocated]; intros a h x Ho;
    try (by eapply Hleaf).
  - destruct x as [y|]; [|by eapply Hleaf]. destruct Ho as (p & h1 & h2 & Hd & [H1 _]%parts_subseteq & Hp & _); [|done].
    eapply Hleaf. by eapply lookup_weaken.
  - destruct x as [l|]; [|by eapply Hleaf]. destruct Ho as (p & h1 & h2 & Hd & [H1 _]%parts_subseteq & Hp & _); [|done].
    eapply Hleaf. by eapply lookup_weaken.
  - exists ∅. split; [apply map_empty_subseteq|done].
  - destruct Ho as (h1 & h2 & Hd & Hs & H1 & H2).
    apply IH in H1 as (c1 & Hc1 & Ha1). apply IHr in H2 as (c2 & Hc2 & Ha2).
    assert (c1 ##ₘ c2) as Hdc by (by eapply map_disjoint_weaken).
    exists (c1 ∪ c2). split; [|by exists c1, c2]. etrans; [|exact Hs]. apply map_union_least; etrans; [exact Hc1|apply map_union_subseteq_l|exact Hc2|by apply map_union_subseteq_r].
Qed.
