(* ===== verification/DeepCopy.v ===== *)
(** * Deep copies ([zz_generated.deepcopy.go], [pkg/api/deepcopy.go])

    The layout of the configuration resource and of the requests, and the
    functions that copy them with everything they point to; and the two places
    where the broker changes such a copy: [renderTemplate] of
    [pkg/provisioners/util.go] and [updateStatus] of [pkg/config].  The types
    of the Kubernetes libraries and their copies are the class
    [Apimachinery]. *)

From S2P Require Import Prelude Errors Heap.
From stdpp Require Import fin_maps.
From Stdlib Require Import Lia.

Local Open Scope broker_scope.
Local Open Scope memory_scope.

(** ** What generated code consists of *)

(** [if in.F != nil { in, out := &in.F, &out.F; *out = new(T);
    (( *in)).DeepCopyInto( *out) }], where [src] is [&in.F] and [dst] is
    [&out.F]. *)
Definition copy_pointer (T : gotype) (into : addr -> addr -> mem unit) (src dst : addr) : mem unit :=
  nil <-* is_nil src ;;
  if nil : bool then return_ tt
  else
    p <-* new T ;;
    store dst (LPointer (Some p)) ;;*
    src' <-* load_pointer src ;;
    dst' <-* load_pointer dst ;;
    into src' dst'.

(** The length of the slice at [a]. *)
Definition len (a : addr) : mem nat :=
  s <-* load_slice a ;;
  match s with
  | Some (_, n) => return_ n
  | None => return_ 0
  end.

(** [*out = make([]T, len( *in))], then what [fill] does with both. *)
Definition make_slice (T : gotype) (fill : addr -> addr -> mem unit) (src dst : addr) : mem unit :=
  nil <-* is_nil src ;;
  if nil : bool then return_ tt
  else
    n <-* len src ;;
    a <-* make T n ;;
    store dst (LSlice (Some (a, n))) ;;*
    fill src dst.

(** [for i := range *in { ( *in)[i].DeepCopyInto(&( *out)[i]) }] *)
Definition copy_elements (into : addr -> addr -> mem unit) (src dst : addr) : mem unit :=
  n <-* len src ;;
  for_each (seq 0 n) (fun i =>
    src' <-* element src i ;;
    dst' <-* element dst i ;;
    into src' dst').

(** [copy( *out, *in)] *)
Definition copy (T : gotype) (src dst : addr) : mem unit :=
  n <-* len src ;;
  m <-* len dst ;;
  for_each (seq 0 (Nat.min n m)) (fun i =>
    src' <-* element src i ;;
    dst' <-* element dst i ;;
    assign T src' dst').

Definition copy_slice (T : gotype) (into : addr -> addr -> mem unit) : addr -> addr -> mem unit :=
  make_slice T (copy_elements into).

Definition clone_slice (T : gotype) : addr -> addr -> mem unit :=
  make_slice T (copy T).

(** [if in == nil { return nil }; out := new(T); in.DeepCopyInto(out); return out] *)
Definition deep_copy (T : gotype) (into : addr -> addr -> mem unit) (in_ : option addr) : mem (option addr) :=
  match in_ with
  | None => return_ None
  | Some in_ =>
      out <-* new T ;;
      into in_ out ;;*
      return_ (Some out)
  end.

(** ** The Kubernetes libraries *)

Class Apimachinery : Type := {
  (** What the interface [runtime.Object] in a [runtime.RawExtension] holds. *)
  Object_t : gotype;
  ObjectMeta_t : gotype;
  ListMeta_t : gotype;
  Time_t : gotype;
  RawExtension_DeepCopyInto : addr -> addr -> mem unit;
  RawExtension_DeepCopy : option addr -> mem (option addr);
  ObjectMeta_DeepCopyInto : addr -> addr -> mem unit;
  ListMeta_DeepCopyInto : addr -> addr -> mem unit;
  Time_DeepCopyInto : addr -> addr -> mem unit;
}.

Section DeepCopy.
Context `{Apimachinery}.

Definition RawExtension_t : gotype := GoStruct [("Raw", GoSlice GoByte); ("Object", Object_t)].
Definition TypeMeta_t : gotype := GoStruct [("Kind", GoString); ("APIVersion", GoString)].
Definition Duration_t : gotype := GoStruct [("Duration", GoInt)].

(** ** The configuration resource *)

(** *** [InputParamtersSchema] *)

Definition InputParamtersSchema_t : gotype :=
  GoStruct [("Parameters", GoPointer RawExtension_t)].

Definition InputParamtersSchema_DeepCopyInto (in_ out : addr) : mem unit :=
  assign InputParamtersSchema_t in_ out ;;*
  copy_pointer RawExtension_t RawExtension_DeepCopyInto (field in_ "Parameters") (field out "Parameters") ;;*
  return_ tt.

Definition InputParamtersSchema_DeepCopy : option addr -> mem (option addr) :=
  deep_copy InputParamtersSchema_t InputParamtersSchema_DeepCopyInto.

(** *** [ServiceInstanceSchema] *)

Definition ServiceInstanceSchema_t : gotype :=
  GoStruct [("Create", GoPointer InputParamtersSchema_t); ("Update", GoPointer InputParamtersSchema_t)].

Definition ServiceInstanceSchema_DeepCopyInto (in_ out : addr) : mem unit :=
  assign ServiceInstanceSchema_t in_ out ;;*
  copy_pointer InputParamtersSchema_t InputParamtersSchema_DeepCopyInto
    (field in_ "Create") (field out "Create") ;;*
  copy_pointer InputParamtersSchema_t InputParamtersSchema_DeepCopyInto
    (field in_ "Update") (field out "Update") ;;*
  return_ tt.

Definition ServiceInstanceSchema_DeepCopy : option addr -> mem (option addr) :=
  deep_copy ServiceInstanceSchema_t ServiceInstanceSchema_DeepCopyInto.

(** *** [ServiceBindingSchema] *)

Definition ServiceBindingSchema_t : gotype :=
  GoStruct [("Create", GoPointer InputParamtersSchema_t)].

Definition ServiceBindingSchema_DeepCopyInto (in_ out : addr) : mem unit :=
  assign ServiceBindingSchema_t in_ out ;;*
  copy_pointer InputParamtersSchema_t InputParamtersSchema_DeepCopyInto
    (field in_ "Create") (field out "Create") ;;*
  return_ tt.

Definition ServiceBindingSchema_DeepCopy : option addr -> mem (option addr) :=
  deep_copy ServiceBindingSchema_t ServiceBindingSchema_DeepCopyInto.

(** *** [Schemas] *)

Definition Schemas_t : gotype :=
  GoStruct [("ServiceInstance", GoPointer ServiceInstanceSchema_t);
            ("ServiceBinding", GoPointer ServiceBindingSchema_t)].

Definition Schemas_DeepCopyInto (in_ out : addr) : mem unit :=
  assign Schemas_t in_ out ;;*
  copy_pointer ServiceInstanceSchema_t ServiceInstanceSchema_DeepCopyInto
    (field in_ "ServiceInstance") (field out "ServiceInstance") ;;*
  copy_pointer ServiceBindingSchema_t ServiceBindingSchema_DeepCopyInto
    (field in_ "ServiceBinding") (field out "ServiceBinding") ;;*
  return_ tt.

Definition Schemas_DeepCopy : option addr -> mem (option addr) :=
  deep_copy Schemas_t Schemas_DeepCopyInto.

(** *** [ServicePlan] *)

Definition ServicePlan_t : gotype :=
  GoStruct [("ID", GoString); ("Name", GoString); ("Description", GoString);
            ("Metadata", GoPointer RawExtension_t); ("Free", GoBool); ("Bindable", GoPointer GoBool);
            ("Schemas", GoPointer Schemas_t)].

Definition ServicePlan_DeepCopyInto (in_ out : addr) : mem unit :=
  assign ServicePlan_t in_ out ;;*
  copy_pointer RawExtension_t RawExtension_DeepCopyInto (field in_ "Metadata") (field out "Metadata") ;;*
  copy_pointer GoBool (assign GoBool) (field in_ "Bindable") (field out "Bindable") ;;*
  copy_pointer Schemas_t Schemas_DeepCopyInto (field in_ "Schemas") (field out "Schemas") ;;*
  return_ tt.

Definition ServicePlan_DeepCopy : option addr -> mem (option addr) :=
  deep_copy ServicePlan_t ServicePlan_DeepCopyInto.

(** *** [DashboardClient] *)

Definition DashboardClient_t : gotype :=
  GoStruct [("ID", GoString); ("Secret", GoString); ("RedirectedURI", GoString)].

Definition DashboardClient_DeepCopyInto (in_ out : addr) : mem unit :=
  assign DashboardClient_t in_ out ;;*
  return_ tt.

Definition DashboardClient_DeepCopy : option addr -> mem (option addr) :=
  deep_copy DashboardClient_t DashboardClient_DeepCopyInto.

(** *** [ServiceOffering] *)

Definition ServiceOffering_t : gotype :=
  GoStruct [("Name", GoString); ("ID", GoString); ("Description", GoString); ("Tags", GoSlice GoString);
            ("Requires", GoSlice GoString); ("Bindable", GoBool); ("Metadata", GoPointer RawExtension_t);
            ("DashboardClient", GoPointer DashboardClient_t); ("PlanUpdatable", GoBool);
            ("Plans", GoSlice ServicePlan_t)].

Definition ServiceOffering_DeepCopyInto (in_ out : addr) : mem unit :=
  assign ServiceOffering_t in_ out ;;*
  clone_slice GoString (field in_ "Tags") (field out "Tags") ;;*
  clone_slice GoString (field in_ "Requires") (field out "Requires") ;;*
  copy_pointer RawExtension_t RawExtension_DeepCopyInto (field in_ "Metadata") (field out "Metadata") ;;*
  copy_pointer DashboardClient_t (assign DashboardClient_t)
    (field in_ "DashboardClient") (field out "DashboardClient") ;;*
  copy_slice ServicePlan_t ServicePlan_DeepCopyInto (field in_ "Plans") (field out "Plans") ;;*
  return_ tt.

Definition ServiceOffering_DeepCopy : option addr -> mem (option addr) :=
  deep_copy ServiceOffering_t ServiceOffering_DeepCopyInto.

(** *** [ServiceCatalog] *)

Definition ServiceCatalog_t : gotype :=
  GoStruct [("Services", GoSlice ServiceOffering_t)].

Definition ServiceCatalog_DeepCopyInto (in_ out : addr) : mem unit :=
  assign ServiceCatalog_t in_ out ;;*
  copy_slice ServiceOffering_t ServiceOffering_DeepCopyInto (field in_ "Services") (field out "Services") ;;*
  return_ tt.

Definition ServiceCatalog_DeepCopy : option addr -> mem (option addr) :=
  deep_copy ServiceCatalog_t ServiceCatalog_DeepCopyInto.

(** *** [MaintenanceInfo] *)

Definition MaintenanceInfo_t : gotype :=
  GoStruct [("Version", GoString)].

Definition MaintenanceInfo_DeepCopyInto (in_ out : addr) : mem unit :=
  assign MaintenanceInfo_t in_ out ;;*
  return_ tt.

Definition MaintenanceInfo_DeepCopy : option addr -> mem (option addr) :=
  deep_copy MaintenanceInfo_t MaintenanceInfo_DeepCopyInto.

(** *** [ConfigurationTemplate] *)

Definition ConfigurationTemplate_t : gotype :=
  GoStruct [("Name", GoString); ("Template", GoPointer RawExtension_t); ("Singleton", GoBool)].

Definition ConfigurationTemplate_DeepCopyInto (in_ out : addr) : mem unit :=
  assign ConfigurationTemplate_t in_ out ;;*
  copy_pointer RawExtension_t RawExtension_DeepCopyInto (field in_ "Template") (field out "Template") ;;*
  return_ tt.

Definition ConfigurationTemplate_DeepCopy : option addr -> mem (option addr) :=
  deep_copy ConfigurationTemplate_t ConfigurationTemplate_DeepCopyInto.

(** *** [RegistryValue] *)

Definition RegistryValue_t : gotype :=
  GoStruct [("Name", GoString); ("Value", GoString)].

Definition RegistryValue_DeepCopyInto (in_ out : addr) : mem unit :=
  assign RegistryValue_t in_ out ;;*
  return_ tt.

Definition RegistryValue_DeepCopy : option addr -> mem (option addr) :=
  deep_copy RegistryValue_t RegistryValue_DeepCopyInto.

(** *** [ConfigurationReadinessCheckCondition] *)

Definition ConfigurationReadinessCheckCondition_t : gotype :=
  GoStruct [("APIVersion", GoString); ("Kind", GoString); ("Namespace", GoString); ("Name", GoString);
            ("Type", GoString); ("Status", GoString)].

Definition ConfigurationReadinessCheckCondition_DeepCopyInto (in_ out : addr) : mem unit :=
  assign ConfigurationReadinessCheckCondition_t in_ out ;;*
  return_ tt.

Definition ConfigurationReadinessCheckCondition_DeepCopy : option addr -> mem (option addr) :=
  deep_copy ConfigurationReadinessCheckCondition_t ConfigurationReadinessCheckCondition_DeepCopyInto.

(** *** [ConfigurationReadinessCheck] *)

Definition ConfigurationReadinessCheck_t : gotype :=
  GoStruct [("Name", GoString); ("Condition", GoPointer ConfigurationReadinessCheckCondition_t);
            ("Timeout", GoPointer Duration_t)].

Definition ConfigurationReadinessCheck_DeepCopyInto (in_ out : addr) : mem unit :=
  assign ConfigurationReadinessCheck_t in_ out ;;*
  copy_pointer ConfigurationReadinessCheckCondition_t (assign ConfigurationReadinessCheckCondition_t)
    (field in_ "Condition") (field out "Condition") ;;*
  copy_pointer Duration_t (assign Duration_t) (field in_ "Timeout") (field out "Timeout") ;;*
  return_ tt.

Definition ConfigurationReadinessCheck_DeepCopy : option addr -> mem (option addr) :=
  deep_copy ConfigurationReadinessCheck_t ConfigurationReadinessCheck_DeepCopyInto.

(** *** [ServiceBrokerTemplateListStep] *)

Definition ServiceBrokerTemplateListStep_t : gotype :=
  GoStruct [("Name", GoString); ("Templates", GoSlice GoString);
            ("ReadinessChecks", GoSlice ConfigurationReadinessCheck_t)].

Definition ServiceBrokerTemplateListStep_DeepCopyInto (in_ out : addr) : mem unit :=
  assign ServiceBrokerTemplateListStep_t in_ out ;;*
  clone_slice GoString (field in_ "Templates") (field out "Templates") ;;*
  copy_slice ConfigurationReadinessCheck_t ConfigurationReadinessCheck_DeepCopyInto
    (field in_ "ReadinessChecks") (field out "ReadinessChecks") ;;*
  return_ tt.

Definition ServiceBrokerTemplateListStep_DeepCopy : option addr -> mem (option addr) :=
  deep_copy ServiceBrokerTemplateListStep_t ServiceBrokerTemplateListStep_DeepCopyInto.

(** *** [ServiceBrokerTemplateList] *)

Definition ServiceBrokerTemplateList_t : gotype :=
  GoStruct [("Registry", GoSlice RegistryValue_t); ("Templates", GoSlice GoString);
            ("ReadinessChecks", GoSlice ConfigurationReadinessCheck_t);
            ("Steps", GoSlice ServiceBrokerTemplateListStep_t)].

Definition ServiceBrokerTemplateList_DeepCopyInto (in_ out : addr) : mem unit :=
  assign ServiceBrokerTemplateList_t in_ out ;;*
  clone_slice RegistryValue_t (field in_ "Registry") (field out "Registry") ;;*
  clone_slice GoString (field in_ "Templates") (field out "Templates") ;;*
  copy_slice ConfigurationReadinessCheck_t ConfigurationReadinessCheck_DeepCopyInto
    (field in_ "ReadinessChecks") (field out "ReadinessChecks") ;;*
  copy_slice ServiceBrokerTemplateListStep_t ServiceBrokerTemplateListStep_DeepCopyInto
    (field in_ "Steps") (field out "Steps") ;;*
  return_ tt.

Definition ServiceBrokerTemplateList_DeepCopy : option addr -> mem (option addr) :=
  deep_copy ServiceBrokerTemplateList_t ServiceBrokerTemplateList_DeepCopyInto.

(** *** [ConfigurationBinding] *)

Definition ConfigurationBinding_t : gotype :=
  GoStruct [("Name", GoString); ("RegistryScope", GoString); ("RegistryNamespace", GoString);
            ("Service", GoString); ("Plan", GoString); ("ServiceInstance", ServiceBrokerTemplateList_t);
            ("ServiceBinding", GoPointer ServiceBrokerTemplateList_t)].

Definition ConfigurationBinding_DeepCopyInto (in_ out : addr) : mem unit :=
  assign ConfigurationBinding_t in_ out ;;*
  ServiceBrokerTemplateList_DeepCopyInto (field in_ "ServiceInstance") (field out "ServiceInstance") ;;*
  copy_pointer ServiceBrokerTemplateList_t ServiceBrokerTemplateList_DeepCopyInto
    (field in_ "ServiceBinding") (field out "ServiceBinding") ;;*
  return_ tt.

Definition ConfigurationBinding_DeepCopy : option addr -> mem (option addr) :=
  deep_copy ConfigurationBinding_t ConfigurationBinding_DeepCopyInto.

(** *** [ServiceBrokerConfigSpec] *)

Definition ServiceBrokerConfigSpec_t : gotype :=
  GoStruct [("Catalog", ServiceCatalog_t); ("Templates", GoSlice ConfigurationTemplate_t);
            ("Bindings", GoSlice ConfigurationBinding_t)].

Definition ServiceBrokerConfigSpec_DeepCopyInto (in_ out : addr) : mem unit :=
  assign ServiceBrokerConfigSpec_t in_ out ;;*
  ServiceCatalog_DeepCopyInto (field in_ "Catalog") (field out "Catalog") ;;*
  copy_slice ConfigurationTemplate_t ConfigurationTemplate_DeepCopyInto
    (field in_ "Templates") (field out "Templates") ;;*
  copy_slice ConfigurationBinding_t ConfigurationBinding_DeepCopyInto
    (field in_ "Bindings") (field out "Bindings") ;;*
  return_ tt.

Definition ServiceBrokerConfigSpec_DeepCopy : option addr -> mem (option addr) :=
  deep_copy ServiceBrokerConfigSpec_t ServiceBrokerConfigSpec_DeepCopyInto.

(** *** [ServiceBrokerConfigCondition] *)

Definition ServiceBrokerConfigCondition_t : gotype :=
  GoStruct [("Type", GoString); ("Status", GoString); ("LastTransitionTime", Time_t); ("Reason", GoString);
            ("Message", GoString)].

Definition ServiceBrokerConfigCondition_DeepCopyInto (in_ out : addr) : mem unit :=
  assign ServiceBrokerConfigCondition_t in_ out ;;*
  Time_DeepCopyInto (field in_ "LastTransitionTime") (field out "LastTransitionTime") ;;*
  return_ tt.

Definition ServiceBrokerConfigCondition_DeepCopy : option addr -> mem (option addr) :=
  deep_copy ServiceBrokerConfigCondition_t ServiceBrokerConfigCondition_DeepCopyInto.

(** *** [ServiceBrokerConfigStatus] *)

Definition ServiceBrokerConfigStatus_t : gotype :=
  GoStruct [("Conditions", GoSlice ServiceBrokerConfigCondition_t)].

Definition ServiceBrokerConfigStatus_DeepCopyInto (in_ out : addr) : mem unit :=
  assign ServiceBrokerConfigStatus_t in_ out ;;*
  copy_slice ServiceBrokerConfigCondition_t ServiceBrokerConfigCondition_DeepCopyInto
    (field in_ "Conditions") (field out "Conditions") ;;*
  return_ tt.

Definition ServiceBrokerConfigStatus_DeepCopy : option addr -> mem (option addr) :=
  deep_copy ServiceBrokerConfigStatus_t ServiceBrokerConfigStatus_DeepCopyInto.

(** *** [ServiceBrokerConfig] *)

Definition ServiceBrokerConfig_t : gotype :=
  GoStruct [("TypeMeta", TypeMeta_t); ("ObjectMeta", ObjectMeta_t); ("Spec", ServiceBrokerConfigSpec_t);
            ("Status", ServiceBrokerConfigStatus_t)].

Definition ServiceBrokerConfig_DeepCopyInto (in_ out : addr) : mem unit :=
  assign ServiceBrokerConfig_t in_ out ;;*
  assign TypeMeta_t (field in_ "TypeMeta") (field out "TypeMeta") ;;*
  ObjectMeta_DeepCopyInto (field in_ "ObjectMeta") (field out "ObjectMeta") ;;*
  ServiceBrokerConfigSpec_DeepCopyInto (field in_ "Spec") (field out "Spec") ;;*
  ServiceBrokerConfigStatus_DeepCopyInto (field in_ "Status") (field out "Status") ;;*
  return_ tt.

Definition ServiceBrokerConfig_DeepCopy : option addr -> mem (option addr) :=
  deep_copy ServiceBrokerConfig_t ServiceBrokerConfig_DeepCopyInto.

Definition ServiceBrokerConfig_DeepCopyObject (in_ : option addr) : mem (option addr) :=
  c <-* ServiceBrokerConfig_DeepCopy in_ ;; match c with Some c => return_ (Some c) | None => return_ None end.

(** *** [ServiceBrokerConfigList] *)

Definition ServiceBrokerConfigList_t : gotype :=
  GoStruct [("TypeMeta", TypeMeta_t); ("ListMeta", ListMeta_t); ("Items", GoSlice ServiceBrokerConfig_t)].

Definition ServiceBrokerConfigList_DeepCopyInto (in_ out : addr) : mem unit :=
  assign ServiceBrokerConfigList_t in_ out ;;*
  assign TypeMeta_t (field in_ "TypeMeta") (field out "TypeMeta") ;;*
  ListMeta_DeepCopyInto (field in_ "ListMeta") (field out "ListMeta") ;;*
  copy_slice ServiceBrokerConfig_t ServiceBrokerConfig_DeepCopyInto (field in_ "Items") (field out "Items") ;;*
  return_ tt.

Definition ServiceBrokerConfigList_DeepCopy : option addr -> mem (option addr) :=
  deep_copy ServiceBrokerConfigList_t ServiceBrokerConfigList_DeepCopyInto.

Definition ServiceBrokerConfigList_DeepCopyObject (in_ : option addr) : mem (option addr) :=
  c <-* ServiceBrokerConfigList_DeepCopy in_ ;; match c with Some c => return_ (Some c) | None => return_ None end.

(** ** Requests *)

(** [out := *in], the fields that are pointers, [return &out]; a method call
    with a nil receiver panics. *)
Definition clone (T : gotype) (fields : addr -> addr -> mem unit) (in_ : option addr) : mem (option addr) :=
  match in_ with
  | None => panics
  | Some in_ =>
      out <-* new T ;;
      assign T in_ out ;;*
      fields in_ out ;;*
      return_ (Some out)
  end.

(** [if in.F != nil { out.F = in.F.DeepCopy() }] *)
Definition copy_field (DeepCopy : option addr -> mem (option addr)) (src dst : addr) : mem unit :=
  nil <-* is_nil src ;;
  if nil : bool then return_ tt
  else
    p <-* load_pointer src ;;
    q <-* DeepCopy (Some p) ;;
    store dst (LPointer q).

Definition api_MaintenanceInfo_t : gotype :=
  GoStruct [("Version", GoString)].

Definition api_MaintenanceInfo_DeepCopy : option addr -> mem (option addr) :=
  clone api_MaintenanceInfo_t (fun in_ out =>
    return_ tt).

Definition CreateServiceInstanceRequest_t : gotype :=
  GoStruct [("ServiceID", GoString); ("PlanID", GoString); ("Context", GoPointer RawExtension_t);
            ("OrganizationGUID", GoString); ("SpaceGUID", GoString);
            ("Parameters", GoPointer RawExtension_t); ("MaintenanceInfo", GoPointer api_MaintenanceInfo_t)].

Definition CreateServiceInstanceRequest_DeepCopy : option addr -> mem (option addr) :=
  clone CreateServiceInstanceRequest_t (fun in_ out =>
    copy_field RawExtension_DeepCopy (field in_ "Context") (field out "Context") ;;*
    copy_field RawExtension_DeepCopy (field in_ "Parameters") (field out "Parameters") ;;*
    copy_field api_MaintenanceInfo_DeepCopy (field in_ "MaintenanceInfo") (field out "MaintenanceInfo") ;;*
    return_ tt).

Definition UpdateServiceInstanceRequestPreviousValues_t : gotype :=
  GoStruct [("ServiceID", GoString); ("PlanID", GoString); ("OrganizationID", GoString);
            ("SpaceID", GoString); ("MaintenanceInfo", GoPointer api_MaintenanceInfo_t)].

Definition UpdateServiceInstanceRequestPreviousValues_DeepCopy : option addr -> mem (option addr) :=
  clone UpdateServiceInstanceRequestPreviousValues_t (fun in_ out =>
    copy_field api_MaintenanceInfo_DeepCopy (field in_ "MaintenanceInfo") (field out "MaintenanceInfo") ;;*
    return_ tt).

Definition UpdateServiceInstanceRequest_t : gotype :=
  GoStruct [("Context", GoPointer RawExtension_t); ("ServiceID", GoString); ("PlanID", GoString);
            ("Parameters", GoPointer RawExtension_t);
            ("PreviousValues", GoPointer UpdateServiceInstanceRequestPreviousValues_t);
            ("MaintenanceInfo", GoPointer api_MaintenanceInfo_t)].

Definition UpdateServiceInstanceRequest_DeepCopy : option addr -> mem (option addr) :=
  clone UpdateServiceInstanceRequest_t (fun in_ out =>
    copy_field RawExtension_DeepCopy (field in_ "Context") (field out "Context") ;;*
    copy_field RawExtension_DeepCopy (field in_ "Parameters") (field out "Parameters") ;;*
    copy_field UpdateServiceInstanceRequestPreviousValues_DeepCopy
      (field in_ "PreviousValues") (field out "PreviousValues") ;;*
    copy_field api_MaintenanceInfo_DeepCopy (field in_ "MaintenanceInfo") (field out "MaintenanceInfo") ;;*
    return_ tt).

Definition CreateServiceBindingRequest_t : gotype :=
  GoStruct [("Context", GoPointer RawExtension_t); ("ServiceID", GoString); ("PlanID", GoString);
            ("AppGUID", GoString); ("BindResource", GoPointer RawExtension_t);
            ("Parameters", GoPointer RawExtension_t)].

Definition CreateServiceBindingRequest_DeepCopy : option addr -> mem (option addr) :=
  clone CreateServiceBindingRequest_t (fun in_ out =>
    copy_field RawExtension_DeepCopy (field in_ "Context") (field out "Context") ;;*
    copy_field RawExtension_DeepCopy (field in_ "BindResource") (field out "BindResource") ;;*
    copy_field RawExtension_DeepCopy (field in_ "Parameters") (field out "Parameters") ;;*
    return_ tt).

(** ** Copies that are changed *)

Definition load_string (a : addr) : mem string :=
  v <-* load a ;;
  match v with
  | LString s => return_ s
  | _ => panics
  end.

(** The text of the bytes from the [i]th on, [n] of them. *)
Fixpoint load_bytes (array : addr) (i n : nat) : mem string :=
  match n with
  | 0 => return_ ""
  | S n =>
      v <-* load (index array i) ;;
      match v with
      | LByte c => s <-* load_bytes array (S i) n ;; return_ (String c s)
      | _ => panics
      end
  end.

(** The text of the byte slice at [a]. *)
Definition load_text (a : addr) : mem string :=
  s <-* load_slice a ;;
  match s with
  | Some (array, n) => load_bytes array 0 n
  | None => return_ ""
  end.

(** A new array of bytes. *)
Fixpoint bytes_at (a : addr) (i : nat) (s : string) : heap :=
  match s with
  | EmptyString => ∅
  | String c s => {[index a i := LByte c]} ∪ bytes_at a (S i) s
  end.

(** A new byte slice with a text. *)
Definition new_text (s : string) : mem leaf := fun h =>
  let a := (fresh_block h, []) in
  Some (LSlice (Some (a, String.length s)), h ∪ bytes_at a 0 s).

(** [template.Template == nil || template.Template.Raw == nil] *)
Definition is_undefined (template : addr) : mem bool :=
  nil <-* is_nil (field template "Template") ;;
  if nil : bool then return_ true
  else
    p <-* load_pointer (field template "Template") ;;
    is_nil (field p "Raw").

(** [renderTemplate]: the template of the configuration at [template] is
    cloned, and the text of the clone replaced by what [rendered] makes of it:
    the decoded text rendered (definition [recurseRenderTemplate]) and encoded
    again. *)
Definition renderTemplate_clone (rendered : string -> mem (res error string)) (template : addr)
    : mem (res error addr) :=
  name <-* load_string (field template "Name") ;;
  undefined <-* is_undefined template ;;
  if undefined : bool then return_ (Err (NewConfigurationError ("template " +++ name +++ " is not defined")))
  else
    t <-* ConfigurationTemplate_DeepCopy (Some template) ;;
    match t with
    | None => panics
    | Some t =>
        p <-* load_pointer (field t "Template") ;;
        source <-* load_text (field p "Raw") ;;
        raw <-* rendered source ;;
        match raw with
        | Err err => return_ (Err err)
        | Ok raw =>
            bytes <-* new_text raw ;;
            p <-* load_pointer (field t "Template") ;;
            store (field p "Raw") bytes ;;*
            return_ (Ok t)
        end
    end.

(** The resource that [updateStatus] sends: a copy of the one at [config] with
    the status of the variable at [status]. *)
Definition updateStatus_clone (config status : addr) : mem addr :=
  newConfig <-* ServiceBrokerConfig_DeepCopy (Some config) ;;
  match newConfig with
  | None => panics
  | Some newConfig =>
      assign ServiceBrokerConfigStatus_t status (field newConfig "Status") ;;*
      return_ newConfig
  end.

End DeepCopy.
