(* ===== verification/CopyFacts.v ===== *)
(** * What copying promises

    [DeepCopyInto] makes a copy that holds what the original holds, in memory
    that was not in use before and is not shared within the copy either, and
    changes nothing else ([copies_into]).  Each statement of the generated code
    keeps a promise of this kind for its field ([completes]); so does a
    function, by the lemmas for the statements it consists of. *)

From S2P Require Import Prelude Heap DeepCopy.
From stdpp Require Import fin_maps.
From Stdlib Require Import Lia.

Local Open Scope broker_scope.
Local Open Scope memory_scope.

(** ** Specifications *)

(** [m], with the variable [h] at [dst] and [h0] in memory, leaves [h0] as it
    is and makes of [h] a copy of what [x] says. *)
Definition makes (m : mem unit) (T : gotype) (dst : addr) (h0 h : heap) (x : contents T) : Prop :=
  exists h', m (h0 ∪ h) = Some (tt, h0 ∪ h') /\ h0 ##ₘ h' /\ owns T dst h' x.

Definition copies_into (T : gotype) (into : addr -> addr -> mem unit) : Prop :=
  forall src dst h0 h x,
    h0 ##ₘ h -> reads T src h0 x -> allocated T dst h -> makes (into src dst) T dst h0 h x.

(** The same after [*dst = *src]. *)
Definition completes (T : gotype) (stmt : addr -> addr -> mem unit) : Prop :=
  forall src dst h0 h x,
    h0 ##ₘ h -> reads T src h0 x -> shallow T src dst h0 h -> makes (stmt src dst) T dst h0 h x.

Definition deep_copies (T : gotype) (DeepCopy : option addr -> mem (option addr)) : Prop :=
  forall a h x, reads T a h x ->
    exists b h', DeepCopy (Some a) h = Some (Some b, h ∪ h') /\ h ##ₘ h' /\ owns T b h' x.

(** ** Statements *)

Lemma completes_into T into : copies_into T into -> completes T into.
Proof. intros Hi src dst h0 h x Hd Hr Hs. eapply Hi; eauto using shallow_allocated. Qed.

Lemma copies_assign T : flat T -> copies_into T (assign T).
Proof.
  intros Hf src dst h0 h x Hd Hr Ha. edestruct assign_spec as (h' & He & Hd' & Hs); [done..|].
  exists h'. eauto using shallow_owns.
Qed.

Lemma completes_end : completes GoEnd (fun _ _ => return_ tt).
Proof. intros src dst h0 h x Hd _ ->. by exists ∅. Qed.

Lemma completes_skip n T rest body :
  flat T -> completes rest body -> completes (GoField n T rest) body.
Proof.
  intros Hf Hb src dst h0 h x Hd [Hr1 Hr2] (h1 & h2 & -> & Hd12 & H1 & H2).
  apply map_disjoint_union_r in Hd as [Hd1 Hd2].
  destruct (Hb src dst (h0 ∪ h1) h2 x.2) as (h' & He & Hd' & Ho);
    [by apply map_disjoint_union_l|by apply reads_l|by eapply shallow_mono, H2; apply map_union_subseteq_l|].
  apply map_disjoint_union_l in Hd' as [Hd0' Hd1'].
  exists (h1 ∪ h'). rewrite !map_union_assoc, He. split_and!; [done|by apply map_disjoint_union_r|].
  exists h1, h'. split_and!; eauto using shallow_owns.
Qed.

Lemma completes_field n T rest stmt body :
  completes T stmt -> completes rest body ->
  completes (GoField n T rest) (fun in_ out => stmt (field in_ n) (field out n) ;;* body in_ out).
Proof.
  intros Ht Hb src dst h0 h x Hd [Hr1 Hr2] (h1 & h2 & -> & Hd12 & H1 & H2).
  apply map_disjoint_union_r in Hd as [Hd1 Hd2].
  destruct (Ht (field src n) (field dst n) (h0 ∪ h2) h1 x.1) as (h1' & He1 & Hd1' & Ho1);
    [by apply map_disjoint_union_l|by apply reads_l|by eapply shallow_mono, H1; apply map_union_subseteq_l|].
  apply map_disjoint_union_l in Hd1' as [Hd01 Hd21].
  destruct (Hb src dst (h0 ∪ h1') h2 x.2) as (h2' & He2 & Hd2' & Ho2);
    [by apply map_disjoint_union_l|by apply reads_l|by eapply shallow_mono, H2; apply map_union_subseteq_l|].
  apply map_disjoint_union_l in Hd2' as [Hd02 Hd12'].
  exists (h1' ∪ h2'). split_and!; [|by apply map_disjoint_union_r|by exists h1', h2'].
  erewrite mem_bind_Some; [|rewrite (map_union_comm h1 h2), map_union_assoc by done; exact He1].
  by rewrite <- map_union_assoc, (map_union_comm h2 h1'), map_union_assoc, He2, map_union_assoc by done.
Qed.

(** A function that assigns and then completes the fields. *)
Lemma copies_struct T body :
  completes T body -> copies_into T (fun in_ out => assign T in_ out ;;* body in_ out).
Proof.
  intros Hb src dst h0 h x Hd Hr Ha. edestruct assign_spec as (h1 & He & Hd1 & Hs); [done..|].
  destruct (Hb src dst h0 h1 x) as (h2 & He2 & Hd2 & Ho); [done..|].
  exists h2. by erewrite mem_bind_Some by exact He.
Qed.

(** *** Pointers *)

Lemma union_swap (h0 h1 h2 : heap) : h1 ##ₘ h2 -> h0 ∪ h1 ∪ h2 = h0 ∪ h2 ∪ h1.
Proof. intros Hd. by rewrite <- !map_union_assoc, (map_union_comm h1 h2). Qed.

Lemma is_nil_pointer a p h : h !! a = Some (LPointer p) -> is_nil a h = Some (bool_decide (p = None), h).
Proof. intros Ha. unfold is_nil, mem_bind, load. rewrite Ha. by destruct p. Qed.

Lemma is_nil_slice a s h : h !! a = Some (LSlice s) -> is_nil a h = Some (bool_decide (s = None), h).
Proof. intros Ha. unfold is_nil, mem_bind, load. rewrite Ha. by destruct s. Qed.

Lemma load_pointer_spec a p h : h !! a = Some (LPointer (Some p)) -> load_pointer a h = Some (p, h).
Proof. intros Ha. unfold load_pointer, mem_bind, load. by rewrite Ha. Qed.

Lemma len_spec a p n h : h !! a = Some (LSlice (Some (p, n))) -> len a h = Some (n, h).
Proof. intros Ha. unfold len, load_slice, mem_bind, load. by rewrite Ha. Qed.

Lemma element_spec a p n i h :
  h !! a = Some (LSlice (Some (p, n))) -> i < n -> element a i h = Some (index p i, h).
Proof. intros Ha Hi. unfold element, load_slice, mem_bind, load. rewrite Ha. cbn. by rewrite decide_True. Qed.

(** Something is made in new memory, and [dst] set to what it is. *)
Lemma make_and_set (m : mem addr) (f : addr -> leaf) dst w h0 q z :
  h0 ##ₘ {[dst := w]} -> m (h0 ∪ {[dst := w]}) = Some (q, h0 ∪ {[dst := w]} ∪ z) -> h0 ∪ {[dst := w]} ##ₘ z ->
  h0 ##ₘ {[dst := f q]} /\ h0 ∪ {[dst := f q]} ##ₘ z /\
  forall (A : Type) (k : addr -> mem A),
    (p <-* m ;; store dst (f p) ;;* k p) (h0 ∪ {[dst := w]}) = k q (h0 ∪ {[dst := f q]} ∪ z).
Proof.
  intros Hd Hm [Hz0 Hzd]%map_disjoint_union_l.
  destruct (store_spec dst (f q) w (h0 ∪ z)) as [Hst Hd']; [by apply map_disjoint_union_l|].
  apply map_disjoint_union_l in Hd' as [Hd0 Hdz].
  split_and!; [done|by apply map_disjoint_union_l|]. intros A k.
  erewrite mem_bind_Some by exact Hm. rewrite union_swap by done.
  erewrite mem_bind_Some by exact Hst. by rewrite union_swap.
Qed.

Lemma completes_pointer T into :
  wf_type T -> copies_into T into -> completes (GoPointer T) (copy_pointer T into).
Proof.
  intros Hwf Hi src dst h0 h x Hd Hr (v & Hv & ->). unfold makes, copy_pointer.
  destruct x as [y|]; cbn [contents reads] in Hr; [destruct Hr as (p & Hp & Hr)|].
  - rewrite Hp in Hv. injection Hv as <-.
    rewrite (mem_bind_Some _ _ _ _ _ (is_nil_pointer _ _ _ (lookup_kept _ _ _ _ Hp))), bool_decide_false by done.
    destruct (new_spec T (h0 ∪ {[dst := LPointer (Some p)]}) Hwf) as (q & z & Hn & Hz & Ha).
    destruct (make_and_set (new T) (fun q => LPointer (Some q)) dst _ h0 q z Hd Hn Hz) as (Hd0 & Hz' & ->).
    clear Hz. rename Hz' into Hz.
    rewrite (mem_bind_Some _ _ _ _ _ (load_pointer_spec _ _ _ (lookup_kept _ _ _ _ (lookup_kept _ _ _ _ Hp)))).
    rewrite (mem_bind_Some _ _ _ _ _ (load_pointer_spec _ _ _ (lookup_kept _ _ _ _ (lookup_target _ _ _ Hd0)))).
    destruct (Hi p q (h0 ∪ {[dst := LPointer (Some q)]}) z y) as (z' & -> & Hz' & Ho); [done|by apply reads_l|done|].
    apply map_disjoint_union_l in Hz' as [Hz0 Hzd].
    exists ({[dst := LPointer (Some q)]} ∪ z'). rewrite map_union_assoc.
    split_and!; [done|by apply map_disjoint_union_r|].
    exists q, {[dst := LPointer (Some q)]}, z'. split_and!; [done..|by rewrite lookup_singleton_eq|done].
  - rewrite Hr in Hv. injection Hv as <-.
    rewrite (mem_bind_Some _ _ _ _ _ (is_nil_pointer _ _ _ (lookup_kept _ _ _ _ Hr))), bool_decide_true by done.
    eexists. split_and!; [done..|]. cbn. by rewrite lookup_singleton_eq.
Qed.

(** *** Slices *)

(** What fills the new array of a slice with copies of the elements. *)
Definition fills (T : gotype) (fill : addr -> addr -> mem unit) : Prop :=
  forall src dst p q l h0 z,
    h0 !! src = Some (LSlice (Some (p, length l))) -> h0 !! dst = Some (LSlice (Some (q, length l))) ->
    (forall i y, l !! i = Some y -> reads T (index p i) h0 y) ->
    h0 ##ₘ z -> all_allocated T q (seq 0 (length l)) z ->
    exists z', fill src dst (h0 ∪ z) = Some (tt, h0 ∪ z') /\ h0 ##ₘ z' /\
               each (fun i h y => owns T (index q i) h y) 0 z' l.

Lemma for_each_copies T into (body : nat -> mem unit) p q l k h0 h :
  copies_into T into ->
  (forall i h', k <= i < k + length l -> h0 ⊆ h' -> body i h' = into (index p i) (index q i) h') ->
  (forall i y, l !! i = Some y -> reads T (index p (k + i)) h0 y) ->
  h0 ##ₘ h -> all_allocated T q (seq k (length l)) h ->
  exists h', for_each (seq k (length l)) body (h0 ∪ h) = Some (tt, h0 ∪ h') /\ h0 ##ₘ h' /\
             each (fun i h y => owns T (index q i) h y) k h' l.
Proof.
  intros Hi. revert k h0 h. induction l as [|y l IH]; intros k h0 h Hb Hr Hd Ha; cbn in Ha |- *.
  { subst. by exists ∅. }
  destruct Ha as (h1 & h2 & -> & Hd12 & H1 & H2). apply map_disjoint_union_r in Hd as [Hd1 Hd2].
  destruct (Hi (index p k) (index q k) (h0 ∪ h2) h1 y) as (h1' & He1 & Hd1' & Ho1);
    [by apply map_disjoint_union_l|apply reads_l; rewrite <- (Nat.add_0_r k); by apply Hr|done|].
  apply map_disjoint_union_l in Hd1' as [Hd01 Hd21].
  destruct (IH (S k) (h0 ∪ h1') h2) as (h2' & He2 & Hd2' & Ho2).
  { intros i h' Hki Hs. apply Hb; [cbn; lia|]. etrans; [apply map_union_subseteq_l|exact Hs]. }
  { intros i x Hx. apply reads_l. replace (S k + i) with (k + S i) by lia. by apply Hr. }
  { by apply map_disjoint_union_l. }
  { done. }
  apply map_disjoint_union_l in Hd2' as [Hd02 Hd12'].
  exists (h1' ∪ h2'). split_and!; [|by apply map_disjoint_union_r|by exists h1', h2'].
  erewrite mem_bind_Some.
  - by rewrite map_union_assoc, <- He2, (union_swap h0 h1' h2).
  - rewrite Hb; [|cbn; lia|apply map_union_subseteq_l].
    by rewrite (map_union_comm h1 h2), map_union_assoc, He1 by done.
Qed.

(** One round of a loop over the elements of two slices. *)
Lemma element_pair (into : addr -> addr -> mem unit) src dst p q n (h0 h : heap) i :
  h0 !! src = Some (LSlice (Some (p, n))) -> h0 !! dst = Some (LSlice (Some (q, n))) ->
  i < n -> h0 ⊆ h ->
  (src' <-* element src i ;; dst' <-* element dst i ;; into src' dst') h = into (index p i) (index q i) h.
Proof.
  intros Hs Ht Hi Hh.
  rewrite (mem_bind_Some _ _ _ _ _ (element_spec _ _ _ _ _ (lookup_weaken _ _ _ _ Hs Hh) Hi)).
  by rewrite (mem_bind_Some _ _ _ _ _ (element_spec _ _ _ _ _ (lookup_weaken _ _ _ _ Ht Hh) Hi)).
Qed.

Lemma fills_elements T into : copies_into T into -> fills T (copy_elements into).
Proof.
  intros Hi src dst p q l h0 z Hs Ht Hr Hd Ha. unfold copy_elements.
  rewrite (mem_bind_Some _ _ _ _ _ (len_spec _ _ _ _ (lookup_kept _ _ _ _ Hs))).
  eapply for_each_copies; [done| |done..]. intros i h' [_ Hl] Hh. by eapply element_pair.
Qed.

Lemma fills_copy T : flat T -> fills T (copy T).
Proof.
  intros Hf src dst p q l h0 z Hs Ht Hr Hd Ha. unfold copy.
  rewrite (mem_bind_Some _ _ _ _ _ (len_spec _ _ _ _ (lookup_kept _ _ _ _ Hs))).
  rewrite (mem_bind_Some _ _ _ _ _ (len_spec _ _ _ _ (lookup_kept _ _ _ _ Ht))), Nat.min_id.
  eapply for_each_copies; [by apply copies_assign| |done..]. intros i h' [_ Hl] Hh. by eapply element_pair.
Qed.

Lemma completes_make_slice T fill :
  wf_type T -> fills T fill -> completes (GoSlice T) (make_slice T fill).
Proof.
  intros Hwf Hf src dst h0 h x Hd Hr (v & Hv & ->). unfold makes, make_slice.
  destruct x as [l|]; cbn [contents reads] in Hr; [destruct Hr as (p & Hp & Hr)|].
  - rewrite Hp in Hv. injection Hv as <-.
    rewrite (mem_bind_Some _ _ _ _ _ (is_nil_slice _ _ _ (lookup_kept _ _ _ _ Hp))), bool_decide_false by done.
    rewrite (mem_bind_Some _ _ _ _ _ (len_spec _ _ _ _ (lookup_kept _ _ _ _ Hp))).
    destruct (make_spec T (length l) (h0 ∪ {[dst := LSlice (Some (p, length l))]}) Hwf) as (q & z & Hm & Hz & Ha).
    destruct (make_and_set (make T (length l)) (fun q => LSlice (Some (q, length l))) dst _ h0 q z Hd Hm Hz)
      as (Hd0 & Hz' & ->).
    destruct (Hf src dst p q l (h0 ∪ {[dst := LSlice (Some (q, length l))]}) z) as (z' & -> & Hd' & Ho);
      [by apply lookup_kept|by apply lookup_target|intros i y Hy; by apply reads_l, Hr|done..|].
    apply map_disjoint_union_l in Hd' as [Hd1 Hd2].
    exists ({[dst := LSlice (Some (q, length l))]} ∪ z'). rewrite map_union_assoc.
    split_and!; [done|by apply map_disjoint_union_r|].
    exists q, {[dst := LSlice (Some (q, length l))]}, z'. split_and!; [done..|by rewrite lookup_singleton_eq|done].
  - rewrite Hr in Hv. injection Hv as <-.
    rewrite (mem_bind_Some _ _ _ _ _ (is_nil_slice _ _ _ (lookup_kept _ _ _ _ Hr))), bool_decide_true by done.
    eexists. split_and!; [done..|]. cbn. by rewrite lookup_singleton_eq.
Qed.

(** ** Functions *)

Lemma deep_copy_copies T into : wf_type T -> copies_into T into -> deep_copies T (deep_copy T into).
Proof.
  intros Hwf Hi a h x Hr. unfold deep_copy.
  destruct (new_spec T h Hwf) as (b & z & Hn & Hz & Ha). rewrite (mem_bind_Some _ _ _ _ _ Hn).
  destruct (Hi a b h z x) as (h' & He & Hd & Ho); [done..|]. rewrite (mem_bind_Some _ _ _ _ _ He).
  by exists b, h'.
Qed.

Lemma clone_copies T fields : wf_type T -> completes T fields -> deep_copies T (clone T fields).
Proof.
  intros Hwf Hf a h x Hr. unfold clone.
  destruct (new_spec T h Hwf) as (b & z & Hn & Hz & Ha). rewrite (mem_bind_Some _ _ _ _ _ Hn).
  destruct (assign_spec T a b h z x) as (h1 & He1 & Hd1 & Hs); [done..|]. rewrite (mem_bind_Some _ _ _ _ _ He1).
  destruct (Hf a b h h1 x) as (h2 & He2 & Hd2 & Ho); [done..|]. rewrite (mem_bind_Some _ _ _ _ _ He2).
  by exists b, h2.
Qed.

Lemma completes_copy_field T DeepCopy : deep_copies T DeepCopy -> completes (GoPointer T) (copy_field DeepCopy).
Proof.
  intros Hc src dst h0 h x Hd Hr (v & Hv & ->). unfold makes, copy_field.
  destruct x as [y|]; cbn [contents reads] in Hr; [destruct Hr as (p & Hp & Hr)|].
  - rewrite Hp in Hv. injection Hv as <-.
    rewrite (mem_bind_Some _ _ _ _ _ (is_nil_pointer _ _ _ (lookup_kept _ _ _ _ Hp))), bool_decide_false by done.
    rewrite (mem_bind_Some _ _ _ _ _ (load_pointer_spec _ _ _ (lookup_kept _ _ _ _ Hp))).
    destruct (Hc p (h0 ∪ {[dst := LPointer (Some p)]}) y) as (q & z & He & Hz & Ho); [by apply reads_l|].
    rewrite (mem_bind_Some _ _ _ _ _ He). apply map_disjoint_union_l in Hz as [Hz0 Hzd].
    rewrite union_swap by done.
    destruct (store_spec dst (LPointer (Some q)) (LPointer (Some p)) (h0 ∪ z)) as [-> Hd'];
      [by apply map_disjoint_union_l|]. apply map_disjoint_union_l in Hd' as [Hd0 Hdz].
    exists ({[dst := LPointer (Some q)]} ∪ z). rewrite union_swap, map_union_assoc by done.
    split_and!; [done|by apply map_disjoint_union_r|].
    exists q, {[dst := LPointer (Some q)]}, z. split_and!; [done..|by rewrite lookup_singleton_eq|done].
  - rewrite Hr in Hv. injection Hv as <-.
    rewrite (mem_bind_Some _ _ _ _ _ (is_nil_pointer _ _ _ (lookup_kept _ _ _ _ Hr))), bool_decide_true by done.
    eexists. split_and!; [done..|]. cbn. by rewrite lookup_singleton_eq.
Qed.
