(* ===== verification/DeepCopyFacts.v ===== *)
(** * Properties of deep copies ([zz_generated.deepcopy.go], [pkg/api/deepcopy.go])

    Every function keeps the promises of [CopyFacts]; so the broker may change
    a copy in place, as it does when it renders a template and when it updates
    the status of its configuration. *)

From S2P Require Import Prelude Errors Types Heap DeepCopy CopyFacts.
From stdpp Require Import fin_maps.
From Stdlib Require Import Lia.

Local Open Scope broker_scope.
Local Open Scope memory_scope.

(** ** The Kubernetes libraries

    Their generated copies keep the same promise, and their structs have
    fields of different names. *)
Class ApimachineryLaws `{Apimachinery} : Prop := {
  wf_Object : wf_type Object_t = true;
  wf_ObjectMeta : wf_type ObjectMeta_t = true;
  wf_ListMeta : wf_type ListMeta_t = true;
  wf_Time : wf_type Time_t = true;
  RawExtension_copies : copies_into RawExtension_t RawExtension_DeepCopyInto;
  RawExtension_deep : deep_copies RawExtension_t RawExtension_DeepCopy;
  ObjectMeta_copies : copies_into ObjectMeta_t ObjectMeta_DeepCopyInto;
  ListMeta_copies : copies_into ListMeta_t ListMeta_DeepCopyInto;
  Time_copies : copies_into Time_t Time_DeepCopyInto;
}.

Create HintDb deep_copy discriminated.
Create Rewrite HintDb wf_types.

(** The constant that is applied. *)
Ltac head_of t := lazymatch t with ?f _ => head_of f | _ => t end.

Ltac wf_solver :=
  lazymatch goal with |- wf_type ?T = true => let t := head_of T in unfold t end;
  cbn [GoStruct wf_type names]; autorewrite with wf_types; reflexivity.

(** The statement for one field: what it does is in its name. *)
Ltac stmt_solver :=
  first
    [ apply completes_pointer; [by autorewrite with wf_types|]
    | apply completes_make_slice; [by autorewrite with wf_types|];
      first [apply fills_copy; reflexivity | apply fills_elements]
    | apply completes_copy_field
    | apply completes_into ];
  first [apply copies_assign; reflexivity | solve [eauto with deep_copy] | idtac].

Ltac completes_solver :=
  repeat first
    [ exact completes_end
    | eapply completes_field; [solve [stmt_solver]|]
    | apply completes_skip; [reflexivity|] ].

Ltac copies_solver :=
  lazymatch goal with
  | |- copies_into ?T ?f =>
      let g := head_of f in let t := head_of T in unfold g; apply copies_struct; unfold t
  | |- deep_copies ?T ?f =>
      let g := head_of f in let t := head_of T in
      unfold g; apply clone_copies; [by autorewrite with wf_types|]; unfold t
  end;
  cbn [GoStruct]; completes_solver.

Section Copies.
Context `{ApimachineryLaws}.

#[local] Hint Rewrite wf_Object wf_ObjectMeta wf_ListMeta wf_Time : wf_types.
#[local] Hint Resolve RawExtension_copies RawExtension_deep ObjectMeta_copies ListMeta_copies Time_copies : deep_copy.

Lemma wf_RawExtension : wf_type RawExtension_t = true.
Proof. wf_solver. Qed.
#[local] Hint Rewrite wf_RawExtension : wf_types.

Lemma wf_InputParamtersSchema : wf_type InputParamtersSchema_t = true.
Proof. wf_solver. Qed.
#[local] Hint Rewrite wf_InputParamtersSchema : wf_types.

Lemma wf_ServiceInstanceSchema : wf_type ServiceInstanceSchema_t = true.
Proof. wf_solver. Qed.
#[local] Hint Rewrite wf_ServiceInstanceSchema : wf_types.

Lemma wf_ServiceBindingSchema : wf_type ServiceBindingSchema_t = true.
Proof. wf_solver. Qed.
#[local] Hint Rewrite wf_ServiceBindingSchema : wf_types.

Lemma wf_Schemas : wf_type Schemas_t = true.
Proof. wf_solver. Qed.
#[local] Hint Rewrite wf_Schemas : wf_types.

Lemma wf_ServicePlan : wf_type ServicePlan_t = true.
Proof. wf_solver. Qed.
#[local] Hint Rewrite wf_ServicePlan : wf_types.

Lemma wf_DashboardClient : wf_type DashboardClient_t = true.
Proof. wf_solver. Qed.
#[local] Hint Rewrite wf_DashboardClient : wf_types.

Lemma wf_ServiceOffering : wf_type ServiceOffering_t = true.
Proof. wf_solver. Qed.
#[local] Hint Rewrite wf_ServiceOffering : wf_types.

Lemma wf_ServiceCatalog : wf_type ServiceCatalog_t = true.
Proof. wf_solver. Qed.
#[local] Hint Rewrite wf_ServiceCatalog : wf_types.

Lemma wf_MaintenanceInfo : wf_type MaintenanceInfo_t = true.
Proof. wf_solver. Qed.
#[local] Hint Rewrite wf_MaintenanceInfo : wf_types.

Lemma wf_ConfigurationTemplate : wf_type ConfigurationTemplate_t = true.
Proof. wf_solver. Qed.
#[local] Hint Rewrite wf_ConfigurationTemplate : wf_types.

Lemma wf_RegistryValue : wf_type RegistryValue_t = true.
Proof. wf_solver. Qed.
#[local] Hint Rewrite wf_RegistryValue : wf_types.

Lemma wf_ConfigurationReadinessCheckCondition : wf_type ConfigurationReadinessCheckCondition_t = true.
Proof. wf_solver. Qed.
#[local] Hint Rewrite wf_ConfigurationReadinessCheckCondition : wf_types.

Lemma wf_ConfigurationReadinessCheck : wf_type ConfigurationReadinessCheck_t = true.
Proof. wf_solver. Qed.
#[local] Hint Rewrite wf_ConfigurationReadinessCheck : wf_types.

Lemma wf_ServiceBrokerTemplateListStep : wf_type ServiceBrokerTemplateListStep_t = true.
Proof. wf_solver. Qed.
#[local] Hint Rewrite wf_ServiceBrokerTemplateListStep : wf_types.

Lemma wf_ServiceBrokerTemplateList : wf_type ServiceBrokerTemplateList_t = true.
Proof. wf_solver. Qed.
#[local] Hint Rewrite wf_ServiceBrokerTemplateList : wf_types.

Lemma wf_ConfigurationBinding : wf_type ConfigurationBinding_t = true.
Proof. wf_solver. Qed.
#[local] Hint Rewrite wf_ConfigurationBinding : wf_types.

Lemma wf_ServiceBrokerConfigSpec : wf_type ServiceBrokerConfigSpec_t = true.
Proof. wf_solver. Qed.
#[local] Hint Rewrite wf_ServiceBrokerConfigSpec : wf_types.

Lemma wf_ServiceBrokerConfigCondition : wf_type ServiceBrokerConfigCondition_t = true.
Proof. wf_solver. Qed.
#[local] Hint Rewrite wf_ServiceBrokerConfigCondition : wf_types.

Lemma wf_ServiceBrokerConfigStatus : wf_type ServiceBrokerConfigStatus_t = true.
Proof. wf_solver. Qed.
#[local] Hint Rewrite wf_ServiceBrokerConfigStatus : wf_types.

Lemma wf_ServiceBrokerConfig : wf_type ServiceBrokerConfig_t = true.
Proof. wf_solver. Qed.
#[local] Hint Rewrite wf_ServiceBrokerConfig : wf_types.

Lemma wf_ServiceBrokerConfigList : wf_type ServiceBrokerConfigList_t = true.
Proof. wf_solver. Qed.
#[local] Hint Rewrite wf_ServiceBrokerConfigList : wf_types.

Lemma wf_api_MaintenanceInfo : wf_type api_MaintenanceInfo_t = true.
Proof. wf_solver. Qed.
#[local] Hint Rewrite wf_api_MaintenanceInfo : wf_types.

Lemma wf_CreateServiceInstanceRequest : wf_type CreateServiceInstanceRequest_t = true.
Proof. wf_solver. Qed.
#[local] Hint Rewrite wf_CreateServiceInstanceRequest : wf_types.

Lemma wf_UpdateServiceInstanceRequestPreviousValues : wf_type UpdateServiceInstanceRequestPreviousValues_t = true.
Proof. wf_solver. Qed.
#[local] Hint Rewrite wf_UpdateServiceInstanceRequestPreviousValues : wf_types.

Lemma wf_UpdateServiceInstanceRequest : wf_type UpdateServiceInstanceRequest_t = true.
Proof. wf_solver. Qed.
#[local] Hint Rewrite wf_UpdateServiceInstanceRequest : wf_types.

Lemma wf_CreateServiceBindingRequest : wf_type CreateServiceBindingRequest_t = true.
Proof. wf_solver. Qed.
#[local] Hint Rewrite wf_CreateServiceBindingRequest : wf_types.

Lemma InputParamtersSchema_copies : copies_into InputParamtersSchema_t InputParamtersSchema_DeepCopyInto.
Proof. copies_solver. Qed.
#[local] Hint Resolve InputParamtersSchema_copies : deep_copy.

Lemma ServiceInstanceSchema_copies : copies_into ServiceInstanceSchema_t ServiceInstanceSchema_DeepCopyInto.
Proof. copies_solver. Qed.
#[local] Hint Resolve ServiceInstanceSchema_copies : deep_copy.

Lemma ServiceBindingSchema_copies : copies_into ServiceBindingSchema_t ServiceBindingSchema_DeepCopyInto.
Proof. copies_solver. Qed.
#[local] Hint Resolve ServiceBindingSchema_copies : deep_copy.

Lemma Schemas_copies : copies_into Schemas_t Schemas_DeepCopyInto.
Proof. copies_solver. Qed.
#[local] Hint Resolve Schemas_copies : deep_copy.

Lemma ServicePlan_copies : copies_into ServicePlan_t ServicePlan_DeepCopyInto.
Proof. copies_solver. Qed.
#[local] Hint Resolve ServicePlan_copies : deep_copy.

Lemma DashboardClient_copies : copies_into DashboardClient_t DashboardClient_DeepCopyInto.
Proof. copies_solver. Qed.
#[local] Hint Resolve DashboardClient_copies : deep_copy.

Lemma ServiceOffering_copies : copies_into ServiceOffering_t ServiceOffering_DeepCopyInto.
Proof. copies_solver. Qed.
#[local] Hint Resolve ServiceOffering_copies : deep_copy.

Lemma ServiceCatalog_copies : copies_into ServiceCatalog_t ServiceCatalog_DeepCopyInto.
Proof. copies_solver. Qed.
#[local] Hint Resolve ServiceCatalog_copies : deep_copy.

Lemma MaintenanceInfo_copies : copies_into MaintenanceInfo_t MaintenanceInfo_DeepCopyInto.
Proof. copies_solver. Qed.
#[local] Hint Resolve MaintenanceInfo_copies : deep_copy.

Lemma ConfigurationTemplate_copies : copies_into ConfigurationTemplate_t ConfigurationTemplate_DeepCopyInto.
Proof. copies_solver. Qed.
#[local] Hint Resolve ConfigurationTemplate_copies : deep_copy.

Lemma RegistryValue_copies : copies_into RegistryValue_t RegistryValue_DeepCopyInto.
Proof. copies_solver. Qed.
#[local] Hint Resolve RegistryValue_copies : deep_copy.

Lemma ConfigurationReadinessCheckCondition_copies : copies_into ConfigurationReadinessCheckCondition_t ConfigurationReadinessCheckCondition_DeepCopyInto.
Proof. copies_solver. Qed.
#[local] Hint Resolve ConfigurationReadinessCheckCondition_copies : deep_copy.

Lemma ConfigurationReadinessCheck_copies : copies_into ConfigurationReadinessCheck_t ConfigurationReadinessCheck_DeepCopyInto.
Proof. copies_solver. Qed.
#[local] Hint Resolve ConfigurationReadinessCheck_copies : deep_copy.

Lemma ServiceBrokerTemplateListStep_copies : copies_into ServiceBrokerTemplateListStep_t ServiceBrokerTemplateListStep_DeepCopyInto.
Proof. copies_solver. Qed.
#[local] Hint Resolve ServiceBrokerTemplateListStep_copies : deep_copy.

Lemma ServiceBrokerTemplateList_copies : copies_into ServiceBrokerTemplateList_t ServiceBrokerTemplateList_DeepCopyInto.
Proof. copies_solver. Qed.
#[local] Hint Resolve ServiceBrokerTemplateList_copies : deep_copy.

Lemma ConfigurationBinding_copies : copies_into ConfigurationBinding_t ConfigurationBinding_DeepCopyInto.
Proof. copies_solver. Qed.
#[local] Hint Resolve ConfigurationBinding_copies : deep_copy.

Lemma ServiceBrokerConfigSpec_copies : copies_into ServiceBrokerConfigSpec_t ServiceBrokerConfigSpec_DeepCopyInto.
Proof. copies_solver. Qed.
#[local] Hint Resolve ServiceBrokerConfigSpec_copies : deep_copy.

Lemma ServiceBrokerConfigCondition_copies : copies_into ServiceBrokerConfigCondition_t ServiceBrokerConfigCondition_DeepCopyInto.
Proof. copies_solver. Qed.
#[local] Hint Resolve ServiceBrokerConfigCondition_copies : deep_copy.

Lemma ServiceBrokerConfigStatus_copies : copies_into ServiceBrokerConfigStatus_t ServiceBrokerConfigStatus_DeepCopyInto.
Proof. copies_solver. Qed.
#[local] Hint Resolve ServiceBrokerConfigStatus_copies : deep_copy.

Lemma ServiceBrokerConfig_copies : copies_into ServiceBrokerConfig_t ServiceBrokerConfig_DeepCopyInto.
Proof. copies_solver. Qed.
#[local] Hint Resolve ServiceBrokerConfig_copies : deep_copy.

Lemma ServiceBrokerConfigList_copies : copies_into ServiceBrokerConfigList_t ServiceBrokerConfigList_DeepCopyInto.
Proof. copies_solver. Qed.
#[local] Hint Resolve ServiceBrokerConfigList_copies : deep_copy.

Lemma api_MaintenanceInfo_deep : deep_copies api_MaintenanceInfo_t api_MaintenanceInfo_DeepCopy.
Proof. copies_solver. Qed.
#[local] Hint Resolve api_MaintenanceInfo_deep : deep_copy.

Lemma CreateServiceInstanceRequest_deep : deep_copies CreateServiceInstanceRequest_t CreateServiceInstanceRequest_DeepCopy.
Proof. copies_solver. Qed.
#[local] Hint Resolve CreateServiceInstanceRequest_deep : deep_copy.

Lemma UpdateServiceInstanceRequestPreviousValues_deep : deep_copies UpdateServiceInstanceRequestPreviousValues_t UpdateServiceInstanceRequestPreviousValues_DeepCopy.
Proof. copies_solver. Qed.
#[local] Hint Resolve UpdateServiceInstanceRequestPreviousValues_deep : deep_copy.

Lemma UpdateServiceInstanceRequest_deep : deep_copies UpdateServiceInstanceRequest_t UpdateServiceInstanceRequest_DeepCopy.
Proof. copies_solver. Qed.
#[local] Hint Resolve UpdateServiceInstanceRequest_deep : deep_copy.

Lemma CreateServiceBindingRequest_deep : deep_copies CreateServiceBindingRequest_t CreateServiceBindingRequest_DeepCopy.
Proof. copies_solver. Qed.
#[local] Hint Resolve CreateServiceBindingRequest_deep : deep_copy.

(** ** Every function *)

Definition copiers : list (gotype * (option addr -> mem (option addr))) :=
  [(InputParamtersSchema_t, InputParamtersSchema_DeepCopy);
   (ServiceInstanceSchema_t, ServiceInstanceSchema_DeepCopy);
   (ServiceBindingSchema_t, ServiceBindingSchema_DeepCopy); (Schemas_t, Schemas_DeepCopy);
   (ServicePlan_t, ServicePlan_DeepCopy); (DashboardClient_t, DashboardClient_DeepCopy);
   (ServiceOffering_t, ServiceOffering_DeepCopy); (ServiceCatalog_t, ServiceCatalog_DeepCopy);
   (MaintenanceInfo_t, MaintenanceInfo_DeepCopy);
   (ConfigurationTemplate_t, ConfigurationTemplate_DeepCopy); (RegistryValue_t, RegistryValue_DeepCopy);
   (ConfigurationReadinessCheckCondition_t, ConfigurationReadinessCheckCondition_DeepCopy);
   (ConfigurationReadinessCheck_t, ConfigurationReadinessCheck_DeepCopy);
   (ServiceBrokerTemplateListStep_t, ServiceBrokerTemplateListStep_DeepCopy);
   (ServiceBrokerTemplateList_t, ServiceBrokerTemplateList_DeepCopy);
   (ConfigurationBinding_t, ConfigurationBinding_DeepCopy);
   (ServiceBrokerConfigSpec_t, ServiceBrokerConfigSpec_DeepCopy);
   (ServiceBrokerConfigCondition_t, ServiceBrokerConfigCondition_DeepCopy);
   (ServiceBrokerConfigStatus_t, ServiceBrokerConfigStatus_DeepCopy);
   (ServiceBrokerConfig_t, ServiceBrokerConfig_DeepCopy);
   (ServiceBrokerConfigList_t, ServiceBrokerConfigList_DeepCopy);
   (api_MaintenanceInfo_t, api_MaintenanceInfo_DeepCopy);
   (CreateServiceInstanceRequest_t, CreateServiceInstanceRequest_DeepCopy);
   (UpdateServiceInstanceRequestPreviousValues_t, UpdateServiceInstanceRequestPreviousValues_DeepCopy);
   (UpdateServiceInstanceRequest_t, UpdateServiceInstanceRequest_DeepCopy);
   (CreateServiceBindingRequest_t, CreateServiceBindingRequest_DeepCopy)].

(** What a copier promises holds of all of them. *)
Lemma copiers_copy : Forall (fun c => deep_copies c.1 c.2) copiers.
Proof.
  unfold copiers. repeat apply Forall_cons_2; [..|done]; cbn [fst snd];
    first [apply deep_copy_copies; [by autorewrite with wf_types|solve [eauto with deep_copy]]
          | solve [eauto with deep_copy]].
Qed.

(** C30: deep copies are deep.  Every [DeepCopy] of the configuration resource,
    of its parts and of the requests returns a pointer to a variable that
    holds what the original holds, in memory that was not in use and without
    sharing anything; nothing that was in memory changes. *)
Theorem copies_are_deep T DeepCopy a h x :
  (T, DeepCopy) ∈ copiers -> reads T a h x ->
  exists b h', DeepCopy (Some a) h = Some (Some b, h ∪ h') /\ h ##ₘ h' /\ owns T b h' x.
Proof.
  intros Hin Hr. pose proof copiers_copy as Hc. rewrite Forall_forall in Hc. by apply (Hc _ Hin).
Qed.

(** ** Texts *)

Lemma load_bytes_spec array l : forall i h,
  (forall j c, l !! j = Some c -> reads GoByte (index array (i + j)) h c) ->
  load_bytes array i (length l) h = Some (String.string_of_list_ascii l, h).
Proof.
  induction l as [|c l IH]; intros i h Hr; [done|]. cbn [length load_bytes].
  assert (h !! index array i = Some (LByte c)) as Hc by (rewrite <- (Nat.add_0_r i); by apply Hr).
  unfold mem_bind at 1, load. rewrite Hc. erewrite mem_bind_Some; [done|].
  apply IH. intros j d Hj. rewrite Nat.add_succ_comm. by apply Hr.
Qed.

Lemma load_text_spec a h l :
  reads (GoSlice GoByte) a h (Some l) -> load_text a h = Some (String.string_of_list_ascii l, h).
Proof.
  intros (p & Ha & Hr). unfold load_text, load_slice, mem_bind, load. rewrite Ha. cbn. by apply load_bytes_spec.
Qed.

Lemma bytes_at_cells a s : forall i b v, bytes_at a i s !! b = Some v -> exists j, i <= j /\ b = index a j.
Proof.
  induction s as [|c s IH]; cbn [bytes_at]; intros i b v; [done|].
  intros [[<- _]%lookup_singleton_Some|[_ (j & Hj & ->)%IH]]%lookup_union_Some_raw; [by exists i|].
  exists j. split; [lia|done].
Qed.

Lemma index_inj a i j : index a i = index a j -> i = j.
Proof. intros Hi. apply within_inj in Hi. by injection Hi. Qed.

Lemma bytes_at_reads a s : forall i j c,
  String.list_ascii_of_string s !! j = Some c -> bytes_at a i s !! index a (i + j) = Some (LByte c).
Proof.
  induction s as [|d s IH]; cbn [bytes_at String.list_ascii_of_string]; intros i j c Hj; [done|].
  destruct j as [|j]; cbn in Hj.
  - injection Hj as ->. rewrite Nat.add_0_r. by apply lookup_union_Some_l, lookup_singleton_eq.
  - rewrite lookup_union_r; [rewrite <- Nat.add_succ_comm; by apply IH|].
    apply lookup_singleton_ne. intros Hi%index_inj. lia.
Qed.

Lemma length_list_ascii s : length (String.list_ascii_of_string s) = String.length s.
Proof. induction s as [|c s IH]; cbn; congruence. Qed.

(** A new text, and where its bytes are. *)
Lemma new_text_spec s h :
  exists p z, new_text s h = Some (LSlice (Some (p, String.length s)), h ∪ z) /\ h ##ₘ z /\
    forall i c, String.list_ascii_of_string s !! i = Some c -> z !! index p i = Some (LByte c).
Proof.
  unfold new_text. eexists _, _. split_and!; [done| |by apply (bytes_at_reads _ _ 0)].
  apply fresh_disjoint. intros b v (j & _ & ->)%bytes_at_cells. by eexists.
Qed.

(** ** Changing a copy *)

(** The template that a variable holds. *)
Definition template_of (x : contents ConfigurationTemplate_t) : ConfigurationTemplate :=
  mkConfigurationTemplate x.1
    (option_map (fun raw => mkRaw (option_map String.string_of_list_ascii raw.1)) x.2.1) x.2.2.1.

(** Apart from the cell of its text, a template of its own is what it is
    without this cell. *)
Lemma template_parts t h name raw obj single :
  owns ConfigurationTemplate_t t h (name, (Some (raw, (obj, tt)), (single, tt))) ->
  exists p,
    let h1 := delete (field p "Raw") h in
    reads (GoSlice GoByte) (field p "Raw") h raw /\
    h1 !! field t "Name" = Some (LString name) /\
    h1 !! field t "Template" = Some (LPointer (Some p)) /\
    reads Object_t (field p "Object") h1 obj /\
    h1 !! field t "Singleton" = Some (LBool single).
Proof.
  cbn [ConfigurationTemplate_t GoStruct owns fst snd RawExtension_t].
  intros (hN & h1 & Hd1 & Hs1 & HN & hT & h2 & Hd2 & Hs2 & (p & hP & hX & Hd3 & Hs3 & HP & hR & h3 & Hd4 & Hs4 & HR & hO & hE & Hd5 & Hs5 & HO & _) & hS & hE' & Hd6 & Hs6 & HS & _).
  apply parts_subseteq in Hs1 as [HN1 H11], Hs2 as [HT1 H21], Hs3 as [HP1 HX1], Hs4 as [HR1 H31],
    Hs5 as [HO1 _], Hs6 as [HS1 _]; [|done..].
  exists p. cbn zeta.
  assert (exists v, hR !! field p "Raw" = Some v) as [v Hv].
  { destruct raw as [l|]; [destruct HR as (q & k1 & k2 & Hk & [Hk1 _]%parts_subseteq & Hq & _); [|done]|by eexists].
    eexists. by eapply lookup_weaken. }
  assert (forall (g g' : heap), g ##ₘ g' -> g ⊆ h -> hR ⊆ g' -> g ⊆ delete (field p "Raw") h) as Hother.
  { intros g g' Hd Hg Hg'. apply map_subseteq_spec. intros a w Ha. rewrite lookup_delete_Some.
    split; [|by eapply lookup_weaken]. intros <-.
    by apply (map_disjoint_spec _ _ ) with (1 := Hd) (2 := Ha) (3 := lookup_weaken _ _ _ _ Hv Hg'). }
  assert (hR ⊆ hT) as HRT by (by etrans).
  assert (hT ⊆ h) as HT by (by etrans).
  split_and!.
  - apply owns_reads. eapply owns_mono; [|exact HR]. by etrans.
  - eapply lookup_weaken; [exact HN|]. apply (Hother hN h1); [done..|by etrans].
  - eapply lookup_weaken; [exact HP|]. apply (Hother hP hX); [done|by etrans|done].
  - apply owns_reads. eapply owns_mono; [|exact HO]. etrans; [exact HO1|].
    apply (Hother h3 hR); [done|etrans; [exact H31|]; by etrans|done].
  - eapply lookup_weaken; [exact HS|]. etrans; [exact HS1|].
    apply (Hother h2 hT); [done|by etrans|done].
Qed.

Lemma load_string_spec a s h : h !! a = Some (LString s) -> load_string a h = Some (s, h).
Proof. intros Ha. unfold load_string, mem_bind, load. by rewrite Ha. Qed.

(** Its text, if it is defined. *)
Definition text_of (template : ConfigurationTemplate) : option string :=
  match template_Template template with
  | Some (mkRaw raw) => raw
  | None => None
  end.

Lemma is_undefined_spec template h x :
  reads ConfigurationTemplate_t template h x ->
  is_undefined template h = Some (bool_decide (text_of (template_of x) = None), h).
Proof.
  destruct x as [name [[[raw [obj []]]|] [single []]]]; intros (_ & Ht & _); cbn in Ht; unfold is_undefined, template_of, text_of.
  - destruct Ht as (p & Hp & Hraw & _).
    rewrite (mem_bind_Some _ _ _ _ _ (is_nil_pointer _ _ _ Hp)), bool_decide_false by done.
    rewrite (mem_bind_Some _ _ _ _ _ (load_pointer_spec _ _ _ Hp)).
    destruct raw as [l|]; [destruct Hraw as (q & Hq & _)|].
    + by rewrite (is_nil_slice _ _ _ Hq).
    + by rewrite (is_nil_slice _ _ _ Hraw).
  - by rewrite (mem_bind_Some _ _ _ _ _ (is_nil_pointer _ _ _ Ht)), bool_decide_true by done.
Qed.

(** The text of a template is replaced, as long as the template is not part of
    what is kept. *)
Lemma set_text t p name l obj single raw h hc h2 :
  h ##ₘ hc -> h ∪ hc ⊆ h2 ->
  let h1 := delete (field p "Raw") hc in
  reads (GoSlice GoByte) (field p "Raw") hc (Some l) ->
  h1 !! field t "Name" = Some (LString name) ->
  h1 !! field t "Template" = Some (LPointer (Some p)) ->
  reads Object_t (field p "Object") h1 obj ->
  h1 !! field t "Singleton" = Some (LBool single) ->
  exists h',
    (bytes <-* new_text raw ;;
     p <-* load_pointer (field t "Template") ;;
     store (field p "Raw") bytes ;;*
     return_ (Ok (E := error) t)) h2 = Some (Ok t, h') /\ h ⊆ h' /\
    reads ConfigurationTemplate_t t h' (name, (Some (Some (String.list_ascii_of_string raw), (obj, tt)), (single, tt))).
Proof.
  intros Hd Hh2 h1 (q0 & Hraw & _) Hn Ht Ho Hs.
  assert (hc ⊆ h2) as Hc by (etrans; [by apply map_union_subseteq_r|exact Hh2]).
  destruct (new_text_spec raw h2) as (q & z & Hnew & Hz & Hbytes). rewrite (mem_bind_Some _ _ _ _ _ Hnew).
  assert (h1 ⊆ h2 ∪ z) as H1z.
  { etrans; [apply delete_subseteq|]. etrans; [exact Hc|]. apply map_union_subseteq_l. }
  rewrite (mem_bind_Some _ _ _ _ _ (load_pointer_spec _ _ _ (lookup_weaken _ _ _ _ Ht H1z))).
  assert (h2 !! field p "Raw" = Some (LSlice (Some (q0, length l)))) as Hcell by (by eapply lookup_weaken).
  erewrite mem_bind_Some; cycle 1.
  { unfold store. by rewrite (lookup_union_Some_l _ _ _ _ Hcell). }
  eexists. split; [done|]. split.
  { apply insert_subseteq_r; [by eapply map_disjoint_Some_r|].
    etrans; [|apply map_union_subseteq_l]. etrans; [apply map_union_subseteq_l|exact Hh2]. }
  assert (h1 ⊆ <[field p "Raw" := LSlice (Some (q, String.length raw))]> (h2 ∪ z)) as H1'.
  { apply insert_subseteq_r; [apply lookup_delete_eq|done]. }
  cbn [reads ConfigurationTemplate_t RawExtension_t GoStruct fst snd]. split_and!.
  - by eapply lookup_weaken.
  - exists p. split_and!; [by eapply lookup_weaken| |by eapply reads_mono|done].
    exists q. rewrite lookup_insert_eq, length_list_ascii. split; [done|]. intros i c Hi%Hbytes.
    rewrite lookup_insert_ne.
    + by rewrite (lookup_union_r _ _ _ (map_disjoint_Some_r _ _ _ _ Hz Hi)).
    + intros Heq. rewrite <- Heq in Hi. eapply map_disjoint_spec; [exact Hz|exact Hcell|exact Hi].
  - by eapply lookup_weaken.
  - done.
Qed.

(** C31: rendering leaves the configuration alone.  [renderTemplate] changes the
    text of a template in place, in its own copy: whatever the text is rendered
    to, everything that was in memory stays as it was -- the configuration
    that all requests share with it -- and what is returned is the template
    with the rendered text.  A template without a text is refused. *)
Theorem rendering_keeps_configuration rendered template h x :
  (forall source h, exists r h', rendered source h = Some (r, h') /\ h ⊆ h') ->
  reads ConfigurationTemplate_t template h x ->
  exists r h', renderTemplate_clone rendered template h = Some (r, h') /\ h ⊆ h' /\
    match text_of (template_of x) with
    | None => r = Err (NewConfigurationError ("template " +++ template_Name (template_of x) +++ " is not defined"))
    | Some source =>
        exists h1 r' h2, h ⊆ h1 /\ rendered source h1 = Some (r', h2) /\
          match r' with
          | Err err => r = Err err
          | Ok raw => exists t x', r = Ok t /\ reads ConfigurationTemplate_t t h' x' /\
              template_of x' = mkConfigurationTemplate (template_Name (template_of x)) (Some (mkRaw (Some raw)))
                                 (template_Singleton (template_of x))
          end
    end.
Proof.
  intros Htot Hr. unfold renderTemplate_clone. pose proof Hr as [Hname _]. cbn in Hname.
  rewrite (mem_bind_Some _ _ _ _ _ (load_string_spec _ _ _ Hname)).
  rewrite (mem_bind_Some _ _ _ _ _ (is_undefined_spec _ _ _ Hr)).
  destruct (text_of (template_of x)) as [source|] eqn:Htext; cycle 1.
  { rewrite bool_decide_true by done. by eexists _, h. }
  rewrite bool_decide_false by done.
  destruct (deep_copy_copies _ _ (Is_true_true_2 _ wf_ConfigurationTemplate) ConfigurationTemplate_copies template h x Hr)
    as (t & hc & He & Hd & Ho).
  rewrite (mem_bind_Some _ _ _ _ _ He).
  destruct x as [name [[[[l|] [obj []]]|] [single []]]]; try discriminate Htext. cbn in Htext. injection Htext as <-.
  destruct (template_parts _ _ _ _ _ _ Ho) as (p & Hraw & Hn & Ht & Hobj & Hs).
  assert (hc ⊆ h ∪ hc) as Hc by (by apply map_union_subseteq_r).
  assert ((h ∪ hc) !! field t "Template" = Some (LPointer (Some p))) as Hp.
  { eapply lookup_weaken; [exact Ht|]. etrans; [apply delete_subseteq|exact Hc]. }
  rewrite (mem_bind_Some _ _ _ _ _ (load_pointer_spec _ _ _ Hp)).
  rewrite (mem_bind_Some _ _ _ _ _ (load_text_spec _ _ _ (reads_mono _ _ _ _ _ Hc Hraw))).
  destruct (Htot (String.string_of_list_ascii l) (h ∪ hc)) as (r & h2 & Hren & Hh2).
  rewrite (mem_bind_Some _ _ _ _ _ Hren). destruct r as [raw|err].
  - destruct (set_text t p name l obj single raw h hc h2) as (h' & -> & Hh' & Hr'); [done..|].
    eexists _, h'. split_and!; [done..|]. exists (h ∪ hc), (Ok raw), h2. split_and!; [apply map_union_subseteq_l|done|].
    eexists t, _. split_and!; [done|exact Hr'|]. unfold template_of. cbn. by rewrite String.string_of_list_ascii_of_string.
  - eexists _, h2. split_and!; [done|etrans; [apply map_union_subseteq_l|exact Hh2]|].
    exists (h ∪ hc), (Err err), h2. split_and!; [apply map_union_subseteq_l|done..].
Qed.

(** The resource of the event stays as it is when its copy, which is sent to
    the API server, gets a new status: the object belongs to the cache of the
    informer. *)
Lemma status_update_keeps_cache config status h x y :
  reads ServiceBrokerConfig_t config h x -> reads ServiceBrokerConfigStatus_t status h y ->
  exists new h', updateStatus_clone config status h = Some (new, h') /\ h ⊆ h' /\
    reads ServiceBrokerConfig_t new h' (x.1, (x.2.1, (x.2.2.1, (y, tt)))).
Proof.
  intros Hr Hy. unfold updateStatus_clone.
  destruct (deep_copy_copies _ _ (Is_true_true_2 _ wf_ServiceBrokerConfig) ServiceBrokerConfig_copies config h x Hr)
    as (new & hc & He & Hd & Ho).
  rewrite (mem_bind_Some _ _ _ _ _ He).
  destruct x as [tm [om [spec [st []]]]].
  destruct Ho as (h1 & hc1 & Hd1 & [H1 Hc1]%parts_subseteq & Htm & h2 & hc2 & Hd2 & [H2 Hc2]%parts_subseteq & Hom &
    h3 & hc3 & Hd3 & [H3 Hc3]%parts_subseteq & Hspec & h4 & hc4 & Hd4 & [H4 _]%parts_subseteq & Hst & _); [|done..].
  apply owns_cells in Hst as (c & Hc & Hcells).
  assert (c ⊆ hc3) as C3 by (by etrans). assert (c ⊆ hc2) as C2 by (by etrans).
  assert (c ⊆ hc1) as C1 by (by etrans). assert (c ⊆ hc) as C0 by (by etrans).
  assert (forall g g' : heap, g ##ₘ g' -> g ⊆ hc -> c ⊆ g' -> g ⊆ h ∪ hc ∖ c) as Hkept.
  { intros g g' Hg Hgc Hcg. apply map_union_subseteq_r'; [by eapply map_disjoint_weaken_r, map_subseteq_difference_l|].
    apply map_subseteq_spec. intros a v Ha. apply lookup_difference_Some. split; [by eapply lookup_weaken|].
    by eapply map_disjoint_Some_l, Ha; eapply map_disjoint_weaken_r. }
  assert (h ∪ hc = h ∪ hc ∖ c ∪ c) as ->.
  { rewrite <- map_union_assoc, (map_union_comm (hc ∖ c)), map_difference_union;
      [done..|by apply map_disjoint_difference_l1]. }
  destruct (assign_spec ServiceBrokerConfigStatus_t status (field new "Status") (h ∪ hc ∖ c) c y)
    as (c' & Ha & Hd' & Hs); [|by apply reads_l|done|].
  { apply map_disjoint_union_l. split; [by eapply map_disjoint_weaken_r|by apply map_disjoint_difference_l1]. }
  rewrite (mem_bind_Some _ _ _ _ _ Ha).
  eexists _, _. split_and!; [done|etrans; [|apply map_union_subseteq_l]; apply map_union_subseteq_l|].
  cbn [reads ServiceBrokerConfig_t GoStruct fst snd]. split_and!.
  - apply reads_l. eapply reads_mono; [apply (Hkept h1 hc1)|by apply owns_reads]; done.
  - apply reads_l. eapply reads_mono; [apply (Hkept h2 hc2)|by apply owns_reads]; [done|by etrans|done].
  - apply reads_l. eapply reads_mono; [apply (Hkept h3 hc3)|by apply owns_reads]; [done| |done].
    etrans; [exact H3|]. by etrans.
  - eapply shallow_reads; [done|by apply reads_l|].
    eapply shallow_mono; [|exact Hs]. done.
  - done.
Qed.
End Copies.

(** ** Witnesses *)

Module DeepCopyWitness.

(** Libraries with few fields, copied in the same way as the broker's types. *)
Definition RawExtension_into (in_ out : addr) : mem unit :=
  assign (GoStruct [("Raw", GoSlice GoByte); ("Object", GoEnd)]) in_ out ;;*
  clone_slice GoByte (field in_ "Raw") (field out "Raw") ;;*
  return_ tt.

Definition ObjectMeta_into (in_ out : addr) : mem unit :=
  assign (GoStruct [("Name", GoString); ("Finalizers", GoSlice GoString)]) in_ out ;;*
  clone_slice GoString (field in_ "Finalizers") (field out "Finalizers") ;;*
  return_ tt.

#[local] Instance libraries : Apimachinery := {|
  Object_t := GoEnd;
  ObjectMeta_t := GoStruct [("Name", GoString); ("Finalizers", GoSlice GoString)];
  ListMeta_t := GoStruct [("ResourceVersion", GoString)];
  Time_t := GoInt;
  RawExtension_DeepCopyInto := RawExtension_into;
  RawExtension_DeepCopy := deep_copy (GoStruct [("Raw", GoSlice GoByte); ("Object", GoEnd)]) RawExtension_into;
  ObjectMeta_DeepCopyInto := ObjectMeta_into;
  ListMeta_DeepCopyInto := assign (GoStruct [("ResourceVersion", GoString)]);
  Time_DeepCopyInto := assign GoInt;
|}.

Lemma RawExtension_into_copies : copies_into RawExtension_t RawExtension_into.
Proof. unfold RawExtension_into. apply copies_struct. cbn [GoStruct]. completes_solver. Qed.

#[local] Instance libraries_laws : ApimachineryLaws.
Proof.
  split; try reflexivity.
  - exact RawExtension_into_copies.
  - by apply deep_copy_copies, RawExtension_into_copies.
  - unfold ObjectMeta_DeepCopyInto, libraries, ObjectMeta_into. apply copies_struct. cbn [GoStruct]. completes_solver.
  - by apply copies_assign.
  - by apply copies_assign.
Qed.

(** A template of the configuration with the text [{}]. *)
Definition configured : heap :=
  {[ (0, [inl "Name"]) := LString "config-map";
     (0, [inl "Template"]) := LPointer (Some (1, []));
     (0, [inl "Singleton"]) := LBool false;
     (1, [inl "Raw"]) := LSlice (Some ((2, []), 2));
     (2, [inr 0]) := LByte "{";
     (2, [inr 1]) := LByte "}" ]}.

Definition held : contents ConfigurationTemplate_t :=
  ("config-map", (Some (Some ["{"%char; "}"%char], (tt, tt)), (false, tt))).

Lemma configured_holds : reads ConfigurationTemplate_t (0, []) configured held.
Proof.
  split; [reflexivity|]. split; [|by split]. exists (1, []). split; [reflexivity|]. split; [|done].
  exists (2, []). split; [reflexivity|]. intros [|[|i]] y Hy; [injection Hy as <-; reflexivity..|done].
Defined.

Lemma copies_are_deep_witness :
  (ConfigurationTemplate_t, ConfigurationTemplate_DeepCopy) ∈ copiers /\
  exists b h', ConfigurationTemplate_DeepCopy (Some (0, [])) configured = Some (Some b, configured ∪ h') /\
    configured ##ₘ h' /\ owns ConfigurationTemplate_t b h' held.
Proof.
  assert ((ConfigurationTemplate_t, ConfigurationTemplate_DeepCopy) ∈ copiers) as Hin
    by (unfold copiers; repeat (left; reflexivity) || right).
  split; [exact Hin|]. apply (copies_are_deep _ _ _ _ _ Hin), configured_holds.
Defined.

(** Instead of a rendering: the text twice. *)
Definition doubled (source : string) : mem (res error string) := return_ (Ok (source +++ source)).

Lemma doubled_ends source h : exists r h', doubled source h = Some (r, h') /\ h ⊆ h'.
Proof. by eexists _, h. Qed.

Lemma rendering_keeps_configuration_witness :
  (forall source h, exists r h', doubled source h = Some (r, h') /\ h ⊆ h') /\
  exists t h' x', renderTemplate_clone doubled (0, []) configured = Some (Ok t, h') /\ configured ⊆ h' /\
    reads ConfigurationTemplate_t t h' x' /\
    template_of x' = mkConfigurationTemplate "config-map" (Some (mkRaw (Some "{}{}"))) false.
Proof.
  split; [exact doubled_ends|].
  destruct (rendering_keeps_configuration doubled (0, []) configured held doubled_ends configured_holds)
    as (r & h' & He & Hh & h1 & r' & h2 & _ & Hr & Ho).
  unfold doubled, return_ in Hr. injection Hr as <- <-. destruct Ho as (t & x' & -> & Hx & Ht).
  exists t, h', x'. split; [exact He|]. split; [exact Hh|]. split; [exact Hx|exact Ht].
Defined.
End DeepCopyWitness.
