(* ===== verification/BrokerUtil.v ===== *)
(** * Request validation and the directory of instances ([pkg/broker/util.go])

    What the handlers share: query parameters, lookups in the catalog,
    validation of parameters, the namespace of a request, and the use of the
    registry's directory. *)

From S2P Require Import Prelude Json Errors Types Platform Vendor Sim Api Http Registry Config.

Local Open Scope broker_scope.

(** ** Bodies and query parameters *)

Definition jsonRequest `{Vendor} {T} `{Decode T} (r : Request) : result T :=
  match req_Body r with
  | Err err => Err (plainError ("unable to read body: " +++ Error err))
  | Ok body =>
      match decode body with
      | Ok data => Ok data
      | Err err => Err (NewParameterError ("unable to unmarshal body: " +++ Error err))
      end
  end.

(** [value, exists, err]: [Ok None] when the parameter does not exist. *)
Definition maygetSingleParameter (r : Request) (name : string) : result (option string) :=
  match ParseQuery (req_RawQuery r) with
  | Err err => Err (NewQueryError ("malformed query data: " +++ Error err))
  | Ok query =>
      match query_values query name with
      | None => Ok None
      | Some [value] => Ok (Some value)
      | Some _ => Err (NewQueryError ("query parameter " +++ name +++ " not unique"))
      end
  end.

Definition getSingleParameter (r : Request) (name : string) : result string :=
  let? o := maygetSingleParameter r name in
  match o with
  | Some value => Ok value
  | None => Err (NewQueryError ("query parameter " +++ name +++ " not found"))
  end.

Definition asyncRequired (r : Request) : option error :=
  match ParseQuery (req_RawQuery r) with
  | Err err => Some (NewQueryError ("malformed query data: " +++ Error err))
  | Ok query =>
      match query_values query "accepts_incomplete" with
      | Some (v :: _) =>
          if v =?s "true" then None
          else Some (NewAsyncRequiredError "client must support asynchronous instance creation")
      | _ => Some (NewAsyncRequiredError "client must support asynchronous instance creation")
      end
  end.

(** ** The catalog *)

Definition getServiceOffering (config : ServiceBrokerConfig) (serviceID : string) : result ServiceOffering :=
  match find_first (fun service => offering_ID service =?s serviceID) (services config) with
  | Some service => Ok service
  | None => Err (NewParameterError ("service offering '" +++ serviceID +++ "' not defined"))
  end.

Definition getServicePlan (config : ServiceBrokerConfig) (serviceID planID : string) : result ServicePlan :=
  let? service := getServiceOffering config serviceID in
  match find_first (fun plan => plan_ID plan =?s planID) (offering_Plans service) with
  | Some plan => Ok plan
  | None => Err (NewParameterError ("service plan " +++ planID +++ " not defined for service offering " +++ serviceID))
  end.

Definition validateServicePlan (config : ServiceBrokerConfig) (serviceID planID : string) : option error :=
  res_error (getServicePlan config serviceID planID).

(** [schemaType] and [schemaOperation], strings in the code. *)
Definition schemaTypeServiceInstance : string := "serviceInstance".
Definition schemaTypeServiceBinding : string := "serviceBinding".
Definition schemaOperationCreate : string := "create".
Definition schemaOperationUpdate : string := "update".

Definition getSchema (config : ServiceBrokerConfig) (serviceID planID t o : string)
    : result (option InputParamtersSchema) :=
  let? plan := getServicePlan config serviceID planID in
  match plan_Schemas plan with
  | None => Ok None
  | Some schemas =>
      if t =?s schemaTypeServiceInstance then
        match schemas_ServiceInstance schemas with
        | None => Ok None
        | Some i =>
            if o =?s schemaOperationCreate then Ok (instance_Create i)
            else if o =?s schemaOperationUpdate then Ok (instance_Update i)
            else Err (wrappedError ErrUnexpected ("unexpected schema operation: " +++ o))
        end
      else if t =?s schemaTypeServiceBinding then
        match schemas_ServiceBinding schemas with
        | None => Ok None
        | Some b =>
            if o =?s schemaOperationCreate then Ok (binding_Create b)
            else Err (wrappedError ErrUnexpected ("unexpected schema operation: " +++ o))
        end
      else Err (wrappedError ErrUnexpected ("unexpected schema type: " +++ t))
  end.

(** A schema object without a schema text makes the code dereference nil. *)
Definition validateParameters `{Vendor} (config : ServiceBrokerConfig) (serviceID planID t o : string)
    (parametersRaw : option RawExtension) : prog (option error) :=
  match getSchema config serviceID planID t o with
  | Err err => Ret (Some err)
  | Ok None => Ret None
  | Ok (Some schemaRaw) =>
      let data := match parametersRaw with Some r => default "" (Raw r) | None => "{}" end in
      match schema_Parameters schemaRaw with
      | None => nil_dereference
      | Some raw =>
          let text := default "" (Raw raw) in
          match (if valid_json text then Schema_UnmarshalJSON text else Err (json_error text)) with
          | Err err => Ret (Some (NewParameterError ("schema unmarshal failed: " +++ Error err)))
          | Ok schema =>
              match Unmarshal (T := value) data with
              | Err err => Ret (Some (NewParameterError ("parameters unmarshal failed: " +++ Error err)))
              | Ok parameters =>
                  match AgainstSchema schema parameters with
                  | Some err => Ret (Some (NewValidationError ("schema validation failed: " +++ Error err)))
                  | None => Ret None
                  end
              end
          end
      end
  end.

Definition planUpdatable (config : ServiceBrokerConfig) (serviceID planID newPlanID : string) : option error :=
  match getServiceOffering config serviceID with
  | Err err => Some err
  | Ok service =>
      if negb (offering_PlanUpdatable service) && negb (planID =?s newPlanID)
      then Some (NewParameterError ("service plan " +++ planID +++ " for service " +++ serviceID +++ " cannot be updated"))
      else None
  end.

Definition verifyBindable (config : ServiceBrokerConfig) (serviceID planID : string) : option error :=
  match getServiceOffering config serviceID with
  | Err err => Some err
  | Ok service =>
      match getServicePlan config serviceID planID with
      | Err err => Some err
      | Ok plan =>
          let bindable := match plan_Bindable plan with Some b => b | None => offering_Bindable service end in
          if negb bindable
          then Some (NewConfigurationError ("service plan " +++ planID +++ " for service " +++ serviceID +++ " is not bindable"))
          else None
      end
  end.

(** ** Namespaces and the directory *)

Definition getNamespace `{Vendor} (context : option RawExtension) (namespace : string) : result string :=
  match context with
  | None => Ok namespace
  | Some context =>
      let? ctx := Unmarshal (T := value) (default "" (Raw context)) in
      match jsonpointer_New "/namespace" with
      | Some err => Err err
      | None =>
          match jsonpointer_Get "/namespace" ctx with
          | Ok (VString namespace) => Ok namespace
          | Ok _ => Err (NewParameterError "request context namespace not a string")
          | Err _ => Ok namespace
          end
      end
  end.

(** The namespace of the registry that a binding's scope asks for. *)
Definition registryNamespace `{Vendor} (binding : ConfigurationBinding) (context : option RawExtension)
    (namespace : string) : result string :=
  if (binding_RegistryScope binding =?s "") || (binding_RegistryScope binding =?s RegistryScopeBrokerLocal)
  then Ok namespace
  else if binding_RegistryScope binding =?s RegistryScopeExplicit then Ok (binding_RegistryNamespace binding)
  else if binding_RegistryScope binding =?s RegistryScopeInstanceLocal then getNamespace context namespace
  else Err (NewConfigurationError ("unable to resolve registry namespace type " +++ binding_RegistryScope binding)).

Definition registerDirectoryInstance `{Vendor} (config : ServiceBrokerConfig) (context : option RawExtension)
    (namespace instanceID serviceID planID : string) : prog (result DirectoryEntry) :=
  match GetTemplateBindings config serviceID planID with
  | Err err => Ret (Err err)
  | Ok binding =>
      match registryNamespace binding context namespace with
      | Err err => Ret (Err err)
      | Ok rn =>
          let dirent := mkDirectoryEntry rn in
          directory <-? Directory.NewDirectory namespace ;;
          _ <-? Directory.Add directory instanceID dirent ;;
          Ret (Ok dirent)
      end
  end.

Definition getDirectoryInstance `{Vendor} (namespace instanceID : string) : prog DirectoryEntry :=
  let fake := mkDirectoryEntry namespace in
  directory <- Directory.NewDirectory namespace ;;
  match directory with
  | Err _ => Ret fake
  | Ok directory =>
      match Directory.Lookup directory instanceID with
      | Err _ => Ret fake
      | Ok dirent => Ret dirent
      end
  end.

Definition deleteDirectoryInstance `{Vendor} (namespace instanceID : string) : prog unit :=
  directory <- Directory.NewDirectory namespace ;;
  match directory with
  | Err _ => Ret tt
  | Ok directory => _ <- Directory.Remove directory instanceID ;; Ret tt
  end.
