(* ===== verification/DirectoryFacts.v ===== *)
(** * Properties of the directory ([pkg/registry/directory.go], [pkg/broker/util.go])

    The directory of a namespace implements a finite map from service
    instances to directory entries, held in one secret. *)

From S2P Require Import Prelude Json JsonFacts Errors Types Platform Vendor Sim Registry BrokerUtil.
From Stdlib Require Import Lia.

Local Open Scope broker_scope.

(** ** The codec of directory entries *)

Lemma substring_app a b : String.substring 0 (String.length a) (a +++ b) = a.
Proof. induction a as [|c a IH]; [by destruct b|]. change (String c a +++ b) with (String c (a +++ b)). simpl. by rewrite IH. Qed.

Lemma raw_before_app a b : raw_before (a +++ b) b = a.
Proof.
  unfold raw_before. rewrite string_app_length.
  replace (String.length a + String.length b - String.length b) with (String.length a) by lia. apply substring_app.
Qed.

Lemma raw_members_single fuel k s :
  0 < fuel -> raw_members (S fuel) (quote k +++ ":" +++ quote s +++ "}") = Some [(k, quote s)].
Proof.
  intros Hf. cbn [raw_members].
  change (skip_ws (quote k +++ ?u)) with (quote k +++ u).
  destruct (quote k +++ ":" +++ quote s +++ "}") as [|d r] eqn:E; [done|].
  assert (d = dquote) as -> by (destruct (quote_first k) as [q Hq]; rewrite Hq in E; by injection E).
  apply unquote_quote in E. rewrite Ascii.eqb_refl, E. change (skip_ws (":" +++ ?z)) with (String ":" z).
  cbv iota zeta. rewrite Ascii.eqb_refl. change (skip_ws (quote s +++ ?u)) with (quote s +++ u).
  rewrite parse_value_quote_fuel by done. change (skip_ws "}") with (String "}" ""). cbv iota.
  change (Ascii.eqb "}" ",") with false. rewrite Ascii.eqb_refl. by rewrite raw_before_app.
Qed.

Lemma raw_fields_single k s :
  raw_fields ("{" +++ quote k +++ ":" +++ quote s +++ "}") = Some [(k, quote s)].
Proof.
  unfold raw_fields.
  assert ("{" +++ quote k +++ ":" +++ quote s +++ "}" = marshal (VObject [(k, VString s)])) as E.
  { rewrite marshal_object_tail. unfold member_text. cbn [map tail foldr fst snd marshal]. by rewrite <- !string_app_assoc. }
  rewrite E, unmarshal_marshal by done. rewrite <- E.
  change ("{" +++ ?z) with (String "{" z). change (skip_ws (String "{" ?z)) with (String "{" z). cbv iota.
  unfold json_fuel. cbn [String.length Nat.add Nat.mul]. rewrite Nat.add_comm. cbn [Nat.add].
  apply raw_members_single. lia.
Qed.

Section Directory.
Context `{Vendor}.

Definition encode_dirent (d : DirectoryEntry) : string :=
  "{" +++ quote "namespace" +++ ":" +++ quote (dirent_Namespace d) +++ "}".

Lemma Marshal_dirent d : Marshal d = Ok (encode_dirent d).
Proof.
  unfold encode_dirent. cbn [Marshal GoJSON_DirectoryEntry]. unfold marshal_struct. cbn [res_bind rev app concat_sep].
  by rewrite <- !string_app_assoc.
Qed.

Lemma Unmarshal_dirent d : Unmarshal (encode_dirent d) = Ok d.
Proof.
  cbn [Unmarshal GoJSON_DirectoryEntry]. unfold encode_dirent. rewrite raw_fields_single.
  change (field_texts "namespace" [("namespace", quote (dirent_Namespace d))]) with [quote (dirent_Namespace d)].
  cbn [foldl res_bind]. rewrite unmarshal_quote. by destruct d.
Qed.

Context {W : Type} `{PlatformLaws W}.

Implicit Types s : sys W.

(** ** The directory as a map *)

Definition directory_key (ns : string) : string * string := (ns, directoryName).

Definition directory_view (w : W) (ns : string) : gmap string string :=
  match stored w !! directory_key ns with Some sec => data_of sec | None => ∅ end.

Definition as_entry (d : Directory_t) : Entry := mkEntry (directory_secret d) (directory_exists d) false.
Definition as_directory (e : Entry) : Directory_t := mkDirectory (entry_secret e) true.

Definition res_map {E A B} (f : A -> B) (r : res E A) : res E B :=
  match r with Ok a => Ok (f a) | Err e => Err e end.

Lemma wp_commit_entry d Q s :
  wp (Entry.Commit (as_entry d)) (fun r s' => Q (res_map as_directory r) s') s -> wp (Directory.commit d) Q s.
Proof.
  unfold Entry.Commit, Directory.commit. cbn [entry_readOnly as_entry entry_exists entry_secret].
  destruct (directory_exists d); intros Hw; apply wp_try in Hw; apply wp_try;
    (eapply wp_mono; [exact Hw|]); by intros [].
Qed.

Lemma wp_NewDirectory ns Q s :
  (forall r s', unchanged s s' ->
     match r with
     | Ok d => committable (world s) (as_entry d) /\ secret_key (directory_secret d) = directory_key ns /\
               data_of (directory_secret d) = directory_view (world s) ns
     | Err _ => ~ available (world s)
     end -> Q r s') ->
  wp (Directory.NewDirectory ns) Q s.
Proof.
  intros HQ. unfold Directory.NewDirectory. apply wp_bind. apply wp_quiet; [done..|]. intros s' Hs'.
  destruct (perform (SecretsGet ns directoryName) (world s)).1 as [sec|err] eqn:E.
  - apply wp_ret, HQ; [done|]. pose proof (get_ok _ _ _ _ E) as Hg. pose proof (stored_key _ _ _ Hg) as Hk.
    split; [|split; [done|]]; [|unfold directory_view, directory_key; by rewrite Hg].
    split; [done|]. cbn [as_entry entry_exists entry_secret directory_exists directory_secret]. rewrite Hk. eauto.
  - destruct (IsNotFound err) eqn:Hnf; apply wp_ret, HQ; try done.
    + pose proof (get_not_found _ _ _ _ E Hnf) as Hn.
      split; [split; done|]. split; [done|]. unfold directory_view, directory_key. by rewrite Hn.
    + intros Hav. destruct (stored (world s) !! (ns, directoryName)) eqn:Hs.
      * by rewrite (get_available _ _ _ _ Hav Hs) in E.
      * destruct (get_available_none _ _ _ Hav Hs) as (e & He & ?). congruence.
Qed.

(** What writing the directory with the data [m] does. *)
Definition directory_set (s s' : sys W) (ns : string) (m : gmap string string) : Prop :=
  kept s s' /\ directory_view (world s') ns = m /\
  (forall k, k <> directory_key ns -> stored (world s') !! k = stored (world s) !! k).

Lemma wp_commit_directory d m ns (Q : result Directory_t -> sys W -> Prop) s :
  committable (world s) (as_entry d) -> secret_key (directory_secret d) = directory_key ns ->
  (forall r s', kept s s' ->
     match r with
     | Ok _ => directory_set s s' ns m
     | Err _ => stored (world s') = stored (world s) /\ ~ available (world s)
     end -> Q r s') ->
  wp (Directory.commit (mkDirectory (set_data (directory_secret d) (Some m)) (directory_exists d))) Q s.
Proof.
  intros Hc Hk HQ. apply wp_commit_entry, wp_Commit. intros [e'|err] s' Hs Hr; apply HQ; try done.
  - split; [done|]. pose proof (committed_data _ _ _ _ Hr) as Hd. split.
    + unfold directory_view. rewrite <- Hk. pose proof (committed_lookup _ _ _ _ Hr) as Hl.
      change (secret_key (entry_secret (as_entry _))) with (secret_key (directory_secret d)) in Hl. by rewrite Hl.
    + intros k Hne. eapply committed_lookup_ne; [done|]. by rewrite <- Hk in Hne.
  - destruct Hr as [? Hr]. split; [done|]. intros Hav. by apply (Hr Hav).
Qed.

Lemma wp_getDirectoryInstance ns id Q s :
  (forall d s', unchanged s s' ->
     (available (world s) ->
      d = match directory_view (world s) ns !! id with
          | Some t => match Unmarshal t with Ok d => d | Err _ => mkDirectoryEntry ns end
          | None => mkDirectoryEntry ns
          end) -> Q d s') ->
  wp (getDirectoryInstance ns id) Q s.
Proof.
  intros HQ. unfold getDirectoryInstance. apply wp_bind, wp_NewDirectory.
  intros [d|err] s' Hs Hr; [|apply wp_ret, HQ; [done|]; intros Hav; by destruct Hr].
  destruct Hr as (_ & _ & Hv). unfold data_of in Hv. unfold Directory.Lookup.
  destruct (secret_Data (directory_secret d)) as [m|]; simpl in Hv.
  - destruct (m !! id) as [t|] eqn:Hm; [destruct (Unmarshal t) eqn:Ht|];
      (apply wp_ret, HQ; [done|]); intros _; by rewrite <- Hv, Hm, ?Ht.
  - apply wp_ret, HQ; [done|]. intros _. by rewrite <- Hv.
Qed.

Lemma wp_deleteDirectoryInstance ns id Q s :
  (forall s', kept s s' ->
     (stored (world s') = stored (world s) /\
        (available (world s) -> directory_view (world s) ns !! id = None) \/
      directory_set s s' ns (delete id (directory_view (world s) ns))) -> Q tt s') ->
  wp (deleteDirectoryInstance ns id) Q s.
Proof.
  intros HQ. unfold deleteDirectoryInstance. apply wp_bind, wp_NewDirectory.
  intros [d|err] s1 [Hs1 Hk1] Hr; [|apply wp_ret, HQ; [done|]; left; split; [done|]; intros; by destruct Hr].
  destruct Hr as (Hc & Hk & Hv). apply wp_bind. unfold Directory.Remove. unfold data_of in Hv.
  destruct (secret_Data (directory_secret d)) as [m|] eqn:Hd; simpl in Hv;
    [|apply wp_ret, HQ; [done|]; left; split; [done|]; by rewrite <- Hv].
  destruct (m !! id) as [t|] eqn:Hm; [|apply wp_ret, HQ; [done|]; left; split; [done|]; by rewrite <- Hv].
  apply (wp_commit_directory d (delete id m) ns); [by eapply (committable_unchanged s)|done|].
  intros r s2 Hk2 Hr. apply wp_ret, HQ; [by etransitivity|]. destruct r as [d'|err].
  - right. destruct Hr as (_ & ? & Hne). split; [by etransitivity|]. split; [by rewrite <- Hv|].
    intros k Hk'. by rewrite Hne, Hs1.
  - left. destruct Hr as [Hr Hna]. split; [congruence|]. intros Hav. destruct Hna. by apply Hk1.
Qed.

Lemma wp_registerDirectoryInstance config context ns id sid pid Q s :
  (forall r s', kept s s' ->
     match r with
     | Ok d => (exists binding, GetTemplateBindings config sid pid = Ok binding /\
                  registryNamespace binding context ns = Ok (dirent_Namespace d)) /\
               directory_set s s' ns (<[id := encode_dirent d]> (directory_view (world s) ns))
     | Err e => stored (world s') = stored (world s) /\
                (available (world s) ->
                 match GetTemplateBindings config sid pid with
                 | Err e' => e = e'
                 | Ok binding => registryNamespace binding context ns = Err e
                 end)
     end -> Q r s') ->
  wp (registerDirectoryInstance config context ns id sid pid) Q s.
Proof.
  intros HQ. unfold registerDirectoryInstance.
  destruct (GetTemplateBindings config sid pid) as [binding|e] eqn:Hb; [|by apply wp_ret, HQ].
  destruct (registryNamespace binding context ns) as [rn|e] eqn:Hn; [|by apply wp_ret, HQ].
  apply wp_try, wp_NewDirectory. intros [d|err] s1 [Hs1 Hk1] Hr; [|apply HQ; [done|]; split; [done|]; intros; by destruct Hr].
  destruct Hr as (Hc & Hk & Hv). apply wp_try. unfold Directory.Add. rewrite Marshal_dirent.
  change (match secret_Data (directory_secret d) with None => ∅ | Some m => m end) with (data_of (directory_secret d)).
  rewrite Hv. apply (wp_commit_directory d _ ns); [by eapply (committable_unchanged s)|done|].
  intros [d'|err] s2 Hk2 Hr.
  - apply wp_ret, HQ; [by etransitivity|]. split; [eauto|]. destruct Hr as (_ & ? & Hne).
    split; [by etransitivity|]. split; [done|]. intros k Hk'. by rewrite Hne, Hs1.
  - apply HQ; [by etransitivity|]. destruct Hr as [Hr Hna]. split; [congruence|]. intros Hav. destruct Hna. by apply Hk1.
Qed.

(** ** Properties *)

(** C21: the directory refines a finite map.  Registering an instance inserts
    its entry, with the namespace that the configuration gives it; looking one
    up reads the map, falling back to the broker's own namespace; deleting one
    deletes it.  Nothing else is touched, and a call that fails leaves every
    secret as it was.  When the API server is available, each of them happens:
    registering fails only when the configuration gives no namespace, and then
    with the error of that, and deleting never fails. *)
Theorem directory_refines_map config context ns id sid pid s :
  let view w := directory_view w ns in
  wp (registerDirectoryInstance config context ns id sid pid) (fun r s' =>
    match r with
    | Ok d => directory_set s s' ns (<[id := encode_dirent d]> (view (world s)))
    | Err _ => stored (world s') = stored (world s)
    end /\
    (available (world s) ->
     r = match GetTemplateBindings config sid pid with
         | Ok binding => res_map mkDirectoryEntry (registryNamespace binding context ns)
         | Err err => Err err
         end)) s /\
  wp (getDirectoryInstance ns id) (fun d s' => unchanged s s' /\
    (available (world s) ->
     d = match view (world s) !! id with
         | Some t => match Unmarshal t with Ok d => d | Err _ => mkDirectoryEntry ns end
         | None => mkDirectoryEntry ns
         end)) s /\
  wp (deleteDirectoryInstance ns id) (fun _ s' => kept s s' /\
    (directory_set s s' ns (delete id (view (world s))) \/
     stored (world s') = stored (world s) /\ ~ available (world s))) s.
Proof.
  intros view. split; [|split].
  - apply wp_registerDirectoryInstance. intros [d|e] s' Hk Hr.
    + destruct Hr as [(binding & -> & ->) Hset]. split; [done|]. intros _. cbn. by destruct d.
    + destruct Hr as [Hs He]. split; [done|]. intros Hav. specialize (He Hav).
      destruct (GetTemplateBindings config sid pid) as [binding|e']; [by rewrite He|by rewrite He].
  - by apply wp_getDirectoryInstance.
  - apply wp_deleteDirectoryInstance. intros s' Hk [[Hs Hn]|?]; (split; [done|]); [|by left].
    destruct (view (world s) !! id) as [t|] eqn:Hid; [right; split; [done|]; intros Hav; unfold view in Hid; by rewrite Hn in Hid|].
    left. split; [done|]. split; [|by intros k _; rewrite Hs]. rewrite delete_id by done.
    unfold directory_view. by rewrite Hs.
Qed.

(** The entry that was registered for an instance is the one that is found
    for it, whatever else is registered in between for other instances, until
    it is deleted; then the broker's own namespace is. *)
Lemma directory_round_trip config context ns id sid pid config' context' id' sid' pid' s :
  available (world s) -> id' <> id ->
  wp (registerDirectoryInstance config context ns id sid pid) (fun r s1 =>
    forall d, r = Ok d ->
    wp (registerDirectoryInstance config' context' ns id' sid' pid') (fun _ s2 =>
      wp (getDirectoryInstance ns id) (fun d' _ => d' = d) s2 /\
      wp (deleteDirectoryInstance ns id) (fun _ s3 =>
        wp (getDirectoryInstance ns id) (fun d' _ => d' = mkDirectoryEntry ns) s3) s2) s1) s.
Proof.
  intros Hav Hne. apply wp_registerDirectoryInstance. intros [d|e] s1 Hk1 Hr1 d1 [= <-].
  destruct Hr1 as (_ & _ & Hv1 & _).
  assert (available (world s1)) as Hav1 by (by apply Hk1).
  apply wp_registerDirectoryInstance. intros r s2 Hk2 Hr2.
  assert (available (world s2)) as Hav2 by (by apply Hk2).
  assert (directory_view (world s2) ns !! id = Some (encode_dirent d)) as Hid.
  { destruct r as [d2|e].
    - destruct Hr2 as (_ & _ & Hv2 & _). rewrite Hv2, Hv1. by simplify_map_eq.
    - destruct Hr2 as [Hs2 _]. unfold directory_view in *. rewrite Hs2, Hv1. by simplify_map_eq. }
  split.
  - apply wp_getDirectoryInstance. intros d' s3 _ Hd'. by rewrite Hd', Hid, Unmarshal_dirent.
  - apply wp_deleteDirectoryInstance. intros s3 Hk3 [[_ Hn]|Hd]; [by rewrite Hid in Hn; specialize (Hn Hav2)|].
    apply wp_getDirectoryInstance. intros d' s4 _ Hd'. rewrite Hd' by (by apply Hk3).
    destruct Hd as (_ & Hv & _). rewrite Hv. by simplify_map_eq.
Qed.
End Directory.

Module DirectoryWitness.
Import Fixture.

(** Two instances of the fixture, in the broker's namespace. *)
Lemma directory_round_trip_witness :
  let register id := registerDirectoryInstance Fixture.config None "ns" id "s1" "p1" in
  (run (register "i1") Fixture.start).1 = Done (Ok (mkDirectoryEntry "ns")) /\
  wp (register "i1") (fun r s1 => forall d, r = Ok d ->
    wp (register "i2") (fun _ s2 =>
      wp (getDirectoryInstance "ns" "i1") (fun d' _ => d' = d) s2 /\
      wp (deleteDirectoryInstance "ns" "i1") (fun _ s3 =>
        wp (getDirectoryInstance "ns" "i1") (fun d' _ => d' = mkDirectoryEntry "ns") s3) s2) s1) Fixture.start.
Proof.
  intros register. split; [vm_compute; reflexivity|].
  exact (directory_round_trip Fixture.config None "ns" "i1" "s1" "p1" Fixture.config None "i2" "s1" "p1" Fixture.start
           eq_refl ltac:(discriminate)).
Defined.
End DirectoryWitness.
