(* ===== verification/Auth.v ===== *)
(** * Authentication and request headers ([pkg/broker/broker.go])

    What every request but the readiness probe and the login passes before it
    is routed: one of three ways to authenticate, the version of the API and
    the type of the content.  The errors these checks return are logged only;
    what the client sees is the status they write. *)

From S2P Require Import Prelude Json Strconv Errors Types Platform Vendor Sim Api Http.

Local Open Scope broker_scope.

(** ** Configuration of the server *)

Record ServerConfigurationBasicAuth : Type := mkBasicAuth {
  Username : string;
  Password : string;
}.

(** The database handle [Db] is the event [DbQuery]. *)
Record ServerConfigurationAdvancedToken : Type := mkAdvancedToken {
  DbHost : string;
  DbPort : string;
  DbName : string;
  DbUser : string;
  DbPassword : string;
  JwtSecret : string;
}.

(** The TLS certificate concerns the listener only. *)
Record ServerConfiguration : Type := mkServerConfiguration {
  server_Namespace : string;
  server_Token : option string;
  server_BasicAuth : option ServerConfigurationBasicAuth;
  server_AdvancedToken : option ServerConfigurationAdvancedToken;
}.

(** ** Headers *)

(** The headers are listed in the order in which [range] visits them. *)
Definition getHeader (r : Request) (name : string) : result (list string) :=
  match find_first (fun h => EqualFold h.1 name) (req_Header r) with
  | Some h => Ok h.2
  | None => Err (wrappedError ErrRequestMalformed ("no header found for " +++ name))
  end.

Definition getHeaderSingle (r : Request) (name : string) : result string :=
  let? headers := getHeader r name in
  match headers with
  | [header] => Ok header
  | _ => Err (wrappedError ErrRequestMalformed ("multiple headers found for " +++ name))
  end.

(** The configuration has been read and found valid. *)
Definition handleReadiness (w : writer) : prog (writer * option error) :=
  c <- call ConfigRead ;;
  match c with
  | None => Ret (httpResponse w StatusServiceUnavailable, Some (plainError ErrServiceUnready))
  | Some _ => Ret (w, None)
  end.

Definition handleBrokerBearerToken (token : string) (w : writer) (r : Request) : writer * option error :=
  match getHeaderSingle r "Authorization" with
  | Err err => (httpResponse w StatusUnauthorized, Some err)
  | Ok header =>
      if header =?s "Bearer " +++ token then (w, None)
      else (httpResponse w StatusUnauthorized,
            Some (wrappedError ErrUnauthorized "authorization failed"))
  end.

(** [parts[0]] is compared in lower case with "bearer". *)
Definition bearer_parts (header : string) : option string :=
  match split_char " " header with
  | [scheme; token] => if ToLower scheme =?s "bearer" then Some token else None
  | _ => None
  end.

Definition extractJwtToken (r : Request) : result string :=
  let? header := getHeaderSingle r "Authorization" in
  match bearer_parts header with
  | Some token => Ok token
  | None => Err (wrappedError ErrRequestMalformed "invalid token")
  end.

Section Auth.
Context `{Vendor}.

Definition handleJwtAuth (c : ServerConfigurationAdvancedToken) (w : writer) (r : Request)
    : prog (writer * result (gmap string value)) :=
  match getHeaderSingle r "Authorization" with
  | Err err => Ret (httpResponse w StatusUnauthorized, Err err)
  | Ok header =>
      match bearer_parts header with
      | None => Ret (httpResponse w StatusBadRequest, Err (plainError "invalid token"))
      | Some tokenString =>
          now <- call TimeNow ;;
          match jwt_Parse now tokenString (JwtSecret c) with
          | (_, Some err) => Ret (httpResponse w StatusBadRequest, Err err)
          | (None, None) => nil_dereference
          | (Some token, None) =>
              if negb (token_Valid token)
              then Ret (httpResponse w StatusUnauthorized, Err (plainError "invalid token"))
              else match token_Claims token with
                   | None => Ret (httpResponse w StatusBadRequest, Err (plainError "invalid claims"))
                   | Some claims => Ret (w, Ok claims)
                   end
          end
      end
  end.

Definition handleAdvancedToken (c : ServerConfigurationAdvancedToken) (w : writer) (r : Request)
    : prog (writer * option error) :=
  ' (w, claims) <- handleJwtAuth c w r ;;
  Ret (w, res_error claims).

Definition handleBrokerBasicAuth (c : ServerConfigurationBasicAuth) (w : writer) (r : Request)
    : writer * option error :=
  match getHeaderSingle r "Authorization" with
  | Err err => (httpResponse w StatusUnauthorized, Some err)
  | Ok header =>
      if header =?s "Basic " +++ EncodeToString (Username c +++ ":" +++ Password c) then (w, None)
      else (httpResponse w StatusUnauthorized,
            Some (wrappedError ErrUnauthorized "authorization failed"))
  end.

(** [minBrokerAPIVersion] is the constant 2.13. *)
Definition minBrokerAPIVersion : Z * Z := (213, 100)%Z.

Definition parse_error_text (header : string) (err : parse_error) : string :=
  "strconv.ParseFloat: parsing " +++ header +++
  match err with ErrSyntax => ": invalid syntax" | ErrRange => ": value out of range" end.

Definition handleBrokerAPIHeader (w : writer) (r : Request) : writer * option error :=
  match getHeaderSingle r "X-Broker-API-Version" with
  | Err err => (httpResponse w StatusBadRequest, Some err)
  | Ok header =>
      match ParseFloat header with
      | Err err =>
          (httpResponse w StatusBadRequest,
           Some (wrappedError ErrRequestMalformed
                   ("malformed X-Broker-Api-Version header: " +++ parse_error_text header err)))
      | Ok apiVersion =>
          if float_lt apiVersion minBrokerAPIVersion.1 minBrokerAPIVersion.2
          then (httpResponse w StatusPreconditionFailed,
                Some (wrappedError ErrRequestUnsupported
                        ("unsupported X-Broker-Api-Version header " +++ header +++ ", requires at least 2.13")))
          else (w, None)
      end
  end.

Definition handleContentTypeHeader (w : writer) (r : Request) : writer * option error :=
  if (req_ContentLength r =? 0)%Z then (w, None)
  else match getHeaderSingle r "Content-Type" with
       | Err err => (httpResponse w StatusBadRequest, Some err)
       | Ok header =>
           if header =?s "application/json" then (w, None)
           else (httpResponse w StatusBadRequest,
                 Some (wrappedError ErrRequestMalformed ("invalid Content-Type header: " +++ header)))
       end.

Definition handleRequestHeaders (c : ServerConfiguration) (w : writer) (r : Request)
    : prog (writer * option error) :=
  ' (w, err) <-
    match server_Token c, server_BasicAuth c, server_AdvancedToken c with
    | Some token, _, _ => Ret (handleBrokerBearerToken token w r)
    | None, Some basic, _ => Ret (handleBrokerBasicAuth basic w r)
    | None, None, Some advanced => handleAdvancedToken advanced w r
    | None, None, None => Ret (httpResponse w StatusInternalServerError, Some (plainError ErrInternalError))
    end ;;
  match err with
  | Some err => Ret (w, Some err)
  | None =>
      let '(w, err) := handleBrokerAPIHeader w r in
      match err with
      | Some err => Ret (w, Some err)
      | None => Ret (handleContentTypeHeader w r)
      end
  end.
End Auth.

(** ** Specification *)

Ltac pass := split; [done|].
Ltac refuse st := split; [|exists st; split; [set_solver|done]].

Section Spec.
Context `{Vendor}.

(** The request proves, at time [now], who sent it. *)
Definition authenticated (c : ServerConfiguration) (now : Z) (r : Request) : Prop :=
  match server_Token c, server_BasicAuth c, server_AdvancedToken c with
  | Some token, _, _ => getHeaderSingle r "Authorization" = Ok ("Bearer " +++ token)
  | None, Some basic, _ =>
      getHeaderSingle r "Authorization" =
        Ok ("Basic " +++ EncodeToString (Username basic +++ ":" +++ Password basic))
  | None, None, Some advanced =>
      exists token claims, extractJwtToken r = Ok token /\
        jwt_Parse now token (JwtSecret advanced) = (Some (mkToken true (Some claims)), None)
  | None, None, None => False
  end.

Definition supported_version (r : Request) : Prop :=
  exists h f, getHeaderSingle r "X-Broker-API-Version" = Ok h /\ ParseFloat h = Ok f /\
              float_lt f minBrokerAPIVersion.1 minBrokerAPIVersion.2 = false.

Definition json_content (r : Request) : Prop :=
  req_ContentLength r = 0%Z \/ getHeaderSingle r "Content-Type" = Ok "application/json".

Definition admissible (c : ServerConfiguration) (now : Z) (r : Request) : Prop :=
  authenticated c now r /\ supported_version r /\ json_content r.

(** A check passes and leaves the writer alone, or refuses with a status. *)
Definition checks (P : Prop) (w : writer) (statuses : list Z) (o : writer * option error) : Prop :=
  match o.2 with
  | None => o.1 = w /\ P
  | Some _ => ~ P /\ exists st, st ∈ statuses /\ o.1 = httpResponse w st
  end.

Lemma checks_weaken P w l l' o : (forall x, x ∈ l -> x ∈ l') -> checks P w l o -> checks P w l' o.
Proof. intros Hl. unfold checks. destruct o.2; [|done]. intros (? & st & ? & ?). split; eauto. Qed.

Lemma bearer_checks token w r :
  checks (getHeaderSingle r "Authorization" = Ok ("Bearer " +++ token)) w [401]%Z
    (handleBrokerBearerToken token w r).
Proof.
  unfold handleBrokerBearerToken. destruct (getHeaderSingle r "Authorization") as [h|e]; [|by refuse 401%Z].
  case_bool_decide as Hh; [pass; by rewrite Hh|refuse 401%Z]. by intros [= ->].
Qed.

Lemma basic_checks b w r :
  checks (getHeaderSingle r "Authorization" =
            Ok ("Basic " +++ EncodeToString (Username b +++ ":" +++ Password b))) w [401]%Z
    (handleBrokerBasicAuth b w r).
Proof.
  unfold handleBrokerBasicAuth. destruct (getHeaderSingle r "Authorization") as [h|e]; [|by refuse 401%Z].
  case_bool_decide as Hh; [pass; by rewrite Hh|refuse 401%Z]. by intros [= ->].
Qed.

Lemma version_checks w r : checks (supported_version r) w [400; 412]%Z (handleBrokerAPIHeader w r).
Proof.
  unfold handleBrokerAPIHeader, supported_version.
  destruct (getHeaderSingle r "X-Broker-API-Version") as [h|e]; [|refuse 400%Z; naive_solver].
  destruct (ParseFloat h) as [f|e] eqn:Hf.
  2:{ refuse 400%Z. intros (h' & f' & [= <-] & Hf' & _). congruence. }
  destruct (float_lt f _ _) eqn:Hlt; [refuse 412%Z|pass; eauto]. intros (h' & f' & [= <-] & Hf' & ?).
  congruence.
Qed.

Lemma content_checks w r : checks (json_content r) w [400]%Z (handleContentTypeHeader w r).
Proof.
  unfold handleContentTypeHeader, json_content. destruct (req_ContentLength r =? 0)%Z eqn:Hl.
  { apply Z.eqb_eq in Hl. pass. by left. }
  apply Z.eqb_neq in Hl. destruct (getHeaderSingle r "Content-Type") as [h|e]; [|refuse 400%Z; naive_solver].
  case_bool_decide as Hh; [pass; right; by rewrite Hh|refuse 400%Z]. intros [?|[= ?]]; congruence.
Qed.
End Spec.

Section Admission.
Context `{VendorLaws} {W : Type} `{PlatformLaws W}.

Implicit Types s : sys W.

Lemma jwt_checks a w r s :
  wp (handleAdvancedToken a w r) (fun o s' => unchanged s s' /\
    checks (exists token claims, extractJwtToken r = Ok token /\
              jwt_Parse (perform TimeNow (world s)).1 token (JwtSecret a) =
                (Some (mkToken true (Some claims)), None)) w [400; 401]%Z o) s.
Proof.
  unfold handleAdvancedToken, handleJwtAuth, extractJwtToken. apply wp_bind.
  destruct (getHeaderSingle r "Authorization") as [h|e].
  2:{ split; [done|]. refuse 401%Z. by intros (? & ? & ? & ?). }
  cbn [res_bind]. destruct (bearer_parts h) as [token|].
  2:{ split; [done|]. refuse 400%Z. by intros (? & ? & ? & ?). }
  apply wp_bind, wp_quiet; [done..|]. intros s' Hs'.
  pose proof (jwt_parse_token (perform TimeNow (world s)).1 token (JwtSecret a)) as Hj.
  destruct (jwt_Parse (perform TimeNow (world s)).1 token (JwtSecret a)) as [[tok|] [e|]] eqn:Hp.
  - split; [done|]. refuse 400%Z. intros (? & ? & [= <-] & ?); congruence.
  - destruct tok as [v cl]. destruct v; cbn [token_Valid negb].
    2:{ split; [done|]. refuse 401%Z. intros (? & ? & [= <-] & ?); congruence. }
    destruct cl as [cl|]; cbn [token_Claims]; (split; [done|]).
    + split; [done|]. eauto.
    + refuse 400%Z. intros (? & ? & [= <-] & ?); congruence.
  - split; [done|]. refuse 400%Z. intros (? & ? & [= <-] & ?); congruence.
  - by destruct Hj.
Qed.

(** Without a scheme there is a status of its own. *)
Definition scheme_statuses (c : ServerConfiguration) : list Z :=
  match server_Token c, server_BasicAuth c, server_AdvancedToken c with
  | None, None, None => [500]%Z
  | _, _, _ => []
  end.

Lemma authentication_checks c w r s :
  wp (match server_Token c, server_BasicAuth c, server_AdvancedToken c with
      | Some token, _, _ => Ret (handleBrokerBearerToken token w r)
      | None, Some basic, _ => Ret (handleBrokerBasicAuth basic w r)
      | None, None, Some advanced => handleAdvancedToken advanced w r
      | None, None, None =>
          Ret (httpResponse w StatusInternalServerError, Some (plainError ErrInternalError))
      end)
    (fun o s' => unchanged s s' /\
       checks (authenticated c (perform TimeNow (world s)).1 r) w ([400; 401] ++ scheme_statuses c)%Z o) s.
Proof.
  unfold authenticated, scheme_statuses.
  destruct (server_Token c); [|destruct (server_BasicAuth c); [|destruct (server_AdvancedToken c)]].
  - split; [done|]. eapply checks_weaken, bearer_checks. set_solver.
  - split; [done|]. eapply checks_weaken, basic_checks. set_solver.
  - eapply wp_mono; [apply jwt_checks|]. intros o s' [? Ho]. split; [done|].
    eapply checks_weaken, Ho. set_solver.
  - split; [done|]. split; [naive_solver|]. exists 500%Z. split; [set_solver|done].
Qed.

Lemma header_checks_scheme c w r s :
  wp (handleRequestHeaders c w r) (fun o s' => unchanged s s' /\
    checks (admissible c (perform TimeNow (world s)).1 r) w ([400; 401; 412] ++ scheme_statuses c)%Z o) s.
Proof.
  unfold handleRequestHeaders, admissible. apply wp_bind.
  eapply wp_mono; [apply authentication_checks|].
  intros [w1 [e|]] s' [Hs' Ha]; unfold checks in Ha; cbn in Ha.
  { destruct Ha as (? & st & ? & ->). split; [done|]. split; [naive_solver|]. exists st. set_solver. }
  destruct Ha as [-> Ha]. pose proof (version_checks w r) as Hv.
  destruct (handleBrokerAPIHeader w r) as [w2 [e|]]; unfold checks in Hv; cbn in Hv.
  { destruct Hv as (? & st & ? & ->). split; [done|]. split; [naive_solver|]. exists st. set_solver. }
  destruct Hv as [-> Hv]. split; [done|]. pose proof (content_checks w r) as Hc.
  destruct (handleContentTypeHeader w r) as [w3 [e|]]; unfold checks in Hc |- *; cbn in Hc |- *.
  { destruct Hc as (? & st & ? & ->). split; [naive_solver|]. exists st. set_solver. }
  destruct Hc as [-> Hc]. done.
Qed.

Lemma header_checks c w r s :
  wp (handleRequestHeaders c w r) (fun o s' => unchanged s s' /\
    checks (admissible c (perform TimeNow (world s)).1 r) w [400; 401; 412; 500]%Z o) s.
Proof.
  eapply wp_mono; [apply header_checks_scheme|]. intros o s' [Hs' Ho]. split; [done|]. eapply checks_weaken, Ho.
  unfold scheme_statuses. repeat case_match; set_solver.
Qed.

(** C19: [handleRequestHeaders] always ends, changes nothing, and lets a
    request through exactly when it is authenticated by the configured
    scheme (bearer token, else basic, else JWT), asks for a supported version
    of the API and declares JSON content; otherwise it answers 400, 401, 412
    or 500 (when no scheme is configured). *)
Theorem admission c w r s :
  wp (handleRequestHeaders c w r) (fun o s' => unchanged s s' /\
    checks (admissible c (perform TimeNow (world s)).1 r) w [400; 401; 412; 500]%Z o) s.
Proof. apply header_checks. Qed.
End Admission.

Lemma string_append_inj a b c : a +++ b = a +++ c -> b = c.
Proof. induction a; simpl; [done|]. intros [= ?]. auto. Qed.

(** Under basic authentication a request whose [Authorization] header is
    "Basic " and the base64 encoding of some credentials is accepted exactly
    when they are the configured [username:password]. *)
Lemma basic_auth_credentials b w r credentials :
  getHeaderSingle r "Authorization" = Ok ("Basic " +++ EncodeToString credentials) ->
  handleBrokerBasicAuth b w r =
    if credentials =?s Username b +++ ":" +++ Password b then (w, None)
    else (httpResponse w StatusUnauthorized, Some (wrappedError ErrUnauthorized "authorization failed")).
Proof.
  intros Hr. unfold handleBrokerBasicAuth. rewrite Hr.
  case_bool_decide as E; case_bool_decide as E'; try done.
  - by apply string_append_inj, EncodeToString_inj in E.
  - by subst.
Qed.

(** C37: the version header is compared as a decimal number: a version written
    with at most 15 decimals is accepted exactly when, as a number, it is at
    least 2.13; the rounding to [float64] makes no difference. *)
Theorem api_version_exact w r header n k :
  getHeaderSingle r "X-Broker-API-Version" = Ok header ->
  ParseFloat header = Ok (FNum false n (10 ^ k)) -> (0 <= k <= 15)%Z ->
  ((handleBrokerAPIHeader w r).2 = None <-> (213 * 10 ^ k <= 100 * n)%Z).
Proof.
  intros Hr Hp Hk. unfold handleBrokerAPIHeader. rewrite Hr, Hp. unfold minBrokerAPIVersion; cbn [fst snd].
  rewrite float_lt_exact by done. destruct (Z.ltb_spec (100 * n) (213 * 10 ^ k)); simpl; split; intros; (done || lia).
Qed.

Module AuthWitness.

Definition request (headers : list (string * list string)) : Request :=
  mkRequest "GET" "/v2/catalog" "" headers 0 (Ok "").

Definition old_client : Request := request [("X-Broker-Api-Version", ["2.9"])].

Lemma basic_auth_credentials_witness :
  handleBrokerBasicAuth (mkBasicAuth "user" "pass") new_writer
    (request [("Authorization", ["Basic dXNlcjpwYXNz"])]) = (new_writer, None).
Proof.
  rewrite (basic_auth_credentials _ _ _ "user:pass"); vm_compute; reflexivity.
Defined.

Lemma api_version_exact_witness :
  (handleBrokerAPIHeader new_writer (request [("X-Broker-Api-Version", ["2.14"])])).2 = None.
Proof.
  apply (api_version_exact new_writer _ "2.14" 214 2); try (vm_compute; reflexivity).
  - split; discriminate.
  - vm_compute. discriminate.
Defined.

(** A bearer of a token of the configured key; with another key it is 400. *)
Lemma admission_witness :
  let c := mkServerConfiguration "ns" None None (Some (mkAdvancedToken "" "" "" "" "" "key")) in
  let r token := request [("Authorization", ["Bearer " +++ token]); ("X-Broker-API-Version", ["2.14"])] in
  let s := mkSys (empty_sim None) [] in
  wp (handleRequestHeaders c new_writer (r "joe:key")) (fun o _ => o = (new_writer, None)) s /\
  wp (handleRequestHeaders c new_writer (r "joe:other")) (fun o s' => unchanged s s' /\
    checks (admissible c 0 (r "joe:other")) new_writer [400; 401; 412; 500]%Z o) s.
Proof.
  intros c r s. split; [vm_compute; reflexivity|]. exact (admission c new_writer (r "joe:other") s).
Defined.

(** So a client of version 2.9, which is older than 2.13, is accepted. *)
Lemma old_version_accepted : (handleBrokerAPIHeader new_writer old_client).2 = None.
Proof. vm_compute. reflexivity. Qed.
End AuthWitness.
