(* ===== verification/Clientset.v ===== *)
(** * The generated clients ([src/generated/clientset])

    The typed client of the configuration resource: each method makes one
    request of the REST client of [client-go]. A request is the verb and the
    calls of the builder, in their order; what the REST client does with it is a
    parameter ([RestClient]). And the clientset: how it is made from a
    configuration of the REST client. *)

From S2P Require Import Prelude Errors Types Platform.
From Stdlib Require Import Lia.

Local Open Scope broker_scope.

(** ** Requests ([k8s.io/client-go/rest], a parameter) *)

(** Options that are passed on as they are. *)
Definition Options : Type := gmap string string.

(** [v1.ListOptions]: what the clients read or write, and the rest. *)
Record ListOptions : Type := mkListOptions {
  list_TimeoutSeconds : option Z;
  list_Watch : bool;
  list_Other : Options;
}.

Inductive request_params : Type :=
  | ParamsOf (options : Options)
  | ListParamsOf (options : ListOptions).

Inductive request_body : Type :=
  | ConfigBody (config : ServiceBrokerConfig)
  | OptionsBody (options : Options)
  | BytesBody (data : string).

(** The calls of the builder. *)
Inductive builder_call : Type :=
  | Namespace_ (namespace : string)
  | Resource_ (resource : string)
  | Name_ (name : string)
  | SubResource_ (subresources : list string)
  | VersionedParams (params : request_params)
  | Timeout (d : Z)
  | Body (body : request_body).

Inductive verb : Type := GetVerb | PostVerb | PutVerb | DeleteVerb | PatchVerb (patchType : string).

Record rest_request : Type := mkRestRequest {
  request_verb : verb;
  request_calls : list builder_call;
}.

(** [v1alpha1.ServiceBrokerConfigList]; its [v1.ListMeta] is passed on as it is. *)
Record ServiceBrokerConfigList : Type := mkConfigList {
  list_Meta : gmap string string;
  list_Items : list ServiceBrokerConfig;
}.

(** The REST client: [Do(ctx)] and [Watch(ctx)] against a server, decoding a
    result into an object ([Into]), and its error ([Error]). *)
Class RestClient (W : Type) : Type := {
  rest_Interface : Type;
  rest_Result : Type;
  watch_Interface : Type;
  rest_Do : rest_Interface -> rest_request -> W -> rest_Result * W;
  rest_Watch : rest_Interface -> rest_request -> W -> result watch_Interface * W;
  rest_Into : rest_Result -> ServiceBrokerConfig -> ServiceBrokerConfig * option error;
  rest_IntoList : rest_Result -> ServiceBrokerConfigList -> ServiceBrokerConfigList * option error;
  rest_Error : rest_Result -> option error;
}.

(** The seconds of the options as a [time.Duration], times [time.Second]: the
    arithmetic of [int64]. *)
Definition int64 (z : Z) : Z := ((z + 2 ^ 63) mod 2 ^ 64 - 2 ^ 63)%Z.
Definition Second : Z := 1000000000.
Definition timeout_of (options : ListOptions) : Z :=
  match list_TimeoutSeconds options with
  | Some s => int64 (s * Second)
  | None => 0
  end.

(** ** The typed client ([servicebrokerconfig.go]) *)

Module ServiceBrokerConfigs.
Section Client.
Context {W : Type} `{RestClient W}.

Record serviceBrokerConfigs : Type := mkServiceBrokerConfigs {
  configs_client : rest_Interface;
  configs_ns : string;
}.

Definition resource : string := "servicebrokerconfigs".

(** [&v1alpha1.ServiceBrokerConfig{}] *)
Definition zero_config : ServiceBrokerConfig :=
  mkConfig "" "" ∅ (mkConfigSpec (mkServiceCatalog []) [] []) (mkConfigStatus []).
Definition zero_list : ServiceBrokerConfigList := mkConfigList ∅ [].

(** [.Do(ctx).Into(result)] and [.Do(ctx).Error()] *)
Definition do_into (c : serviceBrokerConfigs) (r : rest_request) (w : W) : (ServiceBrokerConfig * option error) * W :=
  let '(res, w) := rest_Do (configs_client c) r w in (rest_Into res zero_config, w).
Definition do_into_list (c : serviceBrokerConfigs) (r : rest_request) (w : W) : (ServiceBrokerConfigList * option error) * W :=
  let '(res, w) := rest_Do (configs_client c) r w in (rest_IntoList res zero_list, w).
Definition do_error (c : serviceBrokerConfigs) (r : rest_request) (w : W) : option error * W :=
  let '(res, w) := rest_Do (configs_client c) r w in (rest_Error res, w).

Definition Get (c : serviceBrokerConfigs) (name : string) (options : Options) :=
  do_into c (mkRestRequest GetVerb
    [Namespace_ (configs_ns c); Resource_ resource; Name_ name; VersionedParams (ParamsOf options)]).

Definition List_ (c : serviceBrokerConfigs) (opts : ListOptions) :=
  let timeout := timeout_of opts in
  do_into_list c (mkRestRequest GetVerb
    [Namespace_ (configs_ns c); Resource_ resource; VersionedParams (ListParamsOf opts); Timeout timeout]).

Definition Watch (c : serviceBrokerConfigs) (opts : ListOptions) :=
  let timeout := timeout_of opts in
  let opts := mkListOptions (list_TimeoutSeconds opts) true (list_Other opts) in
  rest_Watch (configs_client c) (mkRestRequest GetVerb
    [Namespace_ (configs_ns c); Resource_ resource; VersionedParams (ListParamsOf opts); Timeout timeout]).

Definition Create (c : serviceBrokerConfigs) (serviceBrokerConfig : ServiceBrokerConfig) (opts : Options) :=
  do_into c (mkRestRequest PostVerb
    [Namespace_ (configs_ns c); Resource_ resource; VersionedParams (ParamsOf opts); Body (ConfigBody serviceBrokerConfig)]).

Definition Update (c : serviceBrokerConfigs) (serviceBrokerConfig : ServiceBrokerConfig) (opts : Options) :=
  do_into c (mkRestRequest PutVerb
    [Namespace_ (configs_ns c); Resource_ resource; Name_ (config_Name serviceBrokerConfig);
     VersionedParams (ParamsOf opts); Body (ConfigBody serviceBrokerConfig)]).

Definition UpdateStatus (c : serviceBrokerConfigs) (serviceBrokerConfig : ServiceBrokerConfig) (opts : Options) :=
  do_into c (mkRestRequest PutVerb
    [Namespace_ (configs_ns c); Resource_ resource; Name_ (config_Name serviceBrokerConfig); SubResource_ ["status"];
     VersionedParams (ParamsOf opts); Body (ConfigBody serviceBrokerConfig)]).

Definition Delete (c : serviceBrokerConfigs) (name : string) (opts : Options) :=
  do_error c (mkRestRequest DeleteVerb
    [Namespace_ (configs_ns c); Resource_ resource; Name_ name; Body (OptionsBody opts)]).

Definition DeleteCollection (c : serviceBrokerConfigs) (opts : Options) (listOpts : ListOptions) :=
  let timeout := timeout_of listOpts in
  do_error c (mkRestRequest DeleteVerb
    [Namespace_ (configs_ns c); Resource_ resource; VersionedParams (ListParamsOf listOpts); Timeout timeout;
     Body (OptionsBody opts)]).

Definition Patch (c : serviceBrokerConfigs) (name pt data : string) (opts : Options) (subresources : list string) :=
  do_into c (mkRestRequest (PatchVerb pt)
    [Namespace_ (configs_ns c); Resource_ resource; Name_ name; SubResource_ subresources;
     VersionedParams (ParamsOf opts); Body (BytesBody data)]).
End Client.
Arguments serviceBrokerConfigs W {_}.
End ServiceBrokerConfigs.

(** ** Making the clients ([servicebroker_client.go], [clientset.go]) *)

(** Types of [client-go]: floats are only compared with 0, limiters and
    serializers passed on. *)
Class ClientGoTypes : Type := {
  float32 : Type;
  float32_positive : float32 -> bool;
  RateLimiter_t : Type;
  Serializer_t : Type;
  http_Client : Type;
  discovery_Client : Type;
  other_Config : Type;
}.

(** [rest.Config] *)
Record rest_Config `{ClientGoTypes} : Type := mkRestConfig {
  rest_GroupVersion : option (string * string);
  rest_APIPath : string;
  rest_NegotiatedSerializer : option Serializer_t;
  rest_UserAgent : string;
  rest_RateLimiter : option RateLimiter_t;
  rest_QPS : float32;
  rest_Burst : Z;
  rest_Other : other_Config;
}.

Arguments mkRestConfig {_}.

Class ClientGo (W : Type) `{RestClient W, ClientGoTypes} : Type := {
  NewTokenBucketRateLimiter : float32 -> Z -> RateLimiter_t;
  WithoutConversion : Serializer_t;                  (* scheme.Codecs.WithoutConversion() *)
  DefaultKubernetesUserAgent : string;
  HTTPClientFor : rest_Config -> result http_Client;
  RESTClientForConfigAndClient : rest_Config -> http_Client -> result rest_Interface;
  NewDiscoveryClientForConfigAndClient : rest_Config -> http_Client -> result discovery_Client;
  NewDiscoveryClient : rest_Interface -> discovery_Client;
}.

(** [v1alpha1.SchemeGroupVersion] *)
Definition SchemeGroupVersion : string * string := ("servicebroker.couchbase.com", "v1alpha1").

Module Typed.
Section Typed.
Context `{ClientGo W}.

(** The client of the API group. *)
Record ServicebrokerV1alpha1Client : Type := mkV1alpha1Client { restClient : rest_Interface }.

(** The getter of a pointer that may be nil. *)
Definition RESTClient (c : option ServicebrokerV1alpha1Client) : option rest_Interface := restClient <$> c.

Definition setConfigDefaults (config : rest_Config) : rest_Config :=
  mkRestConfig (Some SchemeGroupVersion) "/apis" (Some WithoutConversion)
    (if rest_UserAgent config =?s "" then DefaultKubernetesUserAgent else rest_UserAgent config)
    (rest_RateLimiter config) (rest_QPS config) (rest_Burst config) (rest_Other config).

Definition NewForConfigAndClient (c : rest_Config) (h : http_Client) : result ServicebrokerV1alpha1Client :=
  let config := setConfigDefaults c in
  let? client := RESTClientForConfigAndClient config h in
  Ok (mkV1alpha1Client client).

Definition NewForConfig (c : rest_Config) : result ServicebrokerV1alpha1Client :=
  let config := setConfigDefaults c in
  let? httpClient := HTTPClientFor config in
  NewForConfigAndClient config httpClient.

Definition NewForConfigOrDie (c : rest_Config) : prog ServicebrokerV1alpha1Client :=
  match NewForConfig c with
  | Ok client => Ret client
  | Err err => Halt (Panic (Error err))
  end.

Definition New (c : rest_Interface) : ServicebrokerV1alpha1Client := mkV1alpha1Client c.

(** [newServiceBrokerConfigs] *)
Definition ServiceBrokerConfigs_ (c : ServicebrokerV1alpha1Client) (namespace : string)
    : ServiceBrokerConfigs.serviceBrokerConfigs W :=
  ServiceBrokerConfigs.mkServiceBrokerConfigs (restClient c) namespace.
End Typed.
End Typed.

Module Set_.
Section Clientset.
Context `{ClientGo W}.

Record Clientset : Type := mkClientset {
  DiscoveryClient : discovery_Client;
  servicebrokerV1alpha1 : Typed.ServicebrokerV1alpha1Client;
}.

Definition ServicebrokerV1alpha1 (c : Clientset) : Typed.ServicebrokerV1alpha1Client := servicebrokerV1alpha1 c.
Definition Discovery (c : option Clientset) : option discovery_Client := DiscoveryClient <$> c.

Definition errBurst : error :=
  plainError "burst is required to be greater than 0 when RateLimiter is not set and QPS is set to greater than 0".

(** The limiter that is made when there is none and the rate is limited. *)
Definition limited (config : rest_Config) : result rest_Config :=
  match rest_RateLimiter config with
  | Some _ => Ok config
  | None =>
      if float32_positive (rest_QPS config) then
        if (rest_Burst config <=? 0)%Z then Err errBurst
        else Ok (mkRestConfig (rest_GroupVersion config) (rest_APIPath config) (rest_NegotiatedSerializer config)
                   (rest_UserAgent config) (Some (NewTokenBucketRateLimiter (rest_QPS config) (rest_Burst config)))
                   (rest_QPS config) (rest_Burst config) (rest_Other config))
      else Ok config
  end.

Definition NewForConfigAndClient (c : rest_Config) (httpClient : http_Client) : result Clientset :=
  let? configShallowCopy := limited c in
  let? v1alpha1 := Typed.NewForConfigAndClient configShallowCopy httpClient in
  let? discovery := NewDiscoveryClientForConfigAndClient configShallowCopy httpClient in
  Ok (mkClientset discovery v1alpha1).

Definition NewForConfig (c : rest_Config) : result Clientset :=
  let? httpClient := HTTPClientFor c in
  NewForConfigAndClient c httpClient.

Definition NewForConfigOrDie (c : rest_Config) : prog Clientset :=
  match NewForConfig c with
  | Ok cs => Ret cs
  | Err err => Halt (Panic (Error err))
  end.

Definition New (c : rest_Interface) : Clientset := mkClientset (NewDiscoveryClient c) (Typed.New c).
End Clientset.
End Set_.

(** ** Lemmas *)

Section Lemmas.
Context `{ClientGo W}.

(** A clientset is limited.  Both its clients are made with the same HTTP
    client and the same rate limiter, which exists whenever the configuration
    asks for a rate; there is none exactly when a rate is asked for
    without a limiter and without a burst, or when the libraries refuse. *)
Lemma clientset_limited c cs :
  Set_.NewForConfig c = Ok cs ->
  exists h limited, HTTPClientFor c = Ok h /\
    rest_QPS limited = rest_QPS c /\ rest_Other limited = rest_Other c /\
    (float32_positive (rest_QPS c) = true -> is_Some (rest_RateLimiter limited)) /\
    (rest_RateLimiter c <> None -> rest_RateLimiter limited = rest_RateLimiter c) /\
    RESTClientForConfigAndClient (Typed.setConfigDefaults limited) h = Ok (Typed.restClient (Set_.ServicebrokerV1alpha1 cs)) /\
    NewDiscoveryClientForConfigAndClient limited h = Ok (Set_.DiscoveryClient cs).
Proof.
  unfold Set_.NewForConfig, Set_.NewForConfigAndClient, Typed.NewForConfigAndClient.
  intros (h & Hh & (l & Hl & (v & (r & Hr & [= <-])%res_bind_Ok & (d & Hd & [= <-])%res_bind_Ok)%res_bind_Ok)%res_bind_Ok)%res_bind_Ok.
  exists h, l. split; [done|]. unfold Set_.limited in Hl.
  destruct (rest_RateLimiter c) as [lim|] eqn:Hlim; [injection Hl as <-; rewrite Hlim; split_and!; eauto|].
  destruct (float32_positive (rest_QPS c)) eqn:Hq; [|injection Hl as <-; rewrite Hlim; by split_and!].
  destruct (rest_Burst c <=? 0)%Z; [done|]. injection Hl as <-. cbn in *. split_and!; eauto. by intros [].
Qed.

(** The seconds that a duration of nanoseconds can hold. *)
Definition max_seconds : Z := 9223372036.

Lemma int64_range z : (- 2 ^ 63 <= int64 z < 2 ^ 63)%Z.
Proof. unfold int64. pose proof (Z.mod_pos_bound (z + 2 ^ 63) (2 ^ 64)). lia. Qed.

Lemma int64_exact z : (- 2 ^ 63 <= z < 2 ^ 63)%Z -> int64 z = z.
Proof. intros Hz. unfold int64. rewrite Z.mod_small; lia. Qed.

(** The timeout of a request.  The nanoseconds that [List], [Watch] and
    [DeleteCollection] ask for are an [int64]; they are the seconds of the
    options exactly as long as there are at most 9223372036 of them in either
    direction; one second more and the product wraps around, to the other sign. *)
Lemma timeout_bounds options s :
  list_TimeoutSeconds options = Some s ->
  (- 2 ^ 63 <= timeout_of options < 2 ^ 63)%Z /\
  (timeout_of options = (s * Second)%Z <-> (- max_seconds <= s <= max_seconds)%Z) /\
  (s = max_seconds + 1 -> timeout_of options < 0)%Z /\ (s = - max_seconds - 1 -> 0 < timeout_of options)%Z.
Proof.
  intros Hs. unfold timeout_of. rewrite Hs. pose proof (int64_range (s * Second)) as Hr. split; [exact Hr|].
  unfold Second, max_seconds in *. split; [|split; intros ->; by vm_compute].
  split; [|intros; apply int64_exact; lia]. intros He. rewrite He in Hr. lia.
Qed.
End Lemmas.

Lemma timeout_bounds_witness :
  let options := mkListOptions (Some 9223372037%Z) false ∅ in
  timeout_of options = (-9223372036709551616)%Z /\ (timeout_of options < 0)%Z.
Proof.
  intros options. split; [vm_compute; reflexivity|]. destruct (timeout_bounds options 9223372037%Z eq_refl) as (_ & _ & Hw & _).
  apply Hw. reflexivity.
Defined.
