(* ===== verification/Scheme.v ===== *)
(** * The registration of the resource types ([register.go], [apis.go])

    How the schemes of the process come to know the configuration resource:
    the builder of [pkg/apis/servicebroker/v1alpha1/register.go], [AddToScheme]
    of [pkg/apis], and the schemes that the packages [scheme] and [fake] of
    [src/generated/clientset] make when they are initialized. Schemes themselves
    are of the libraries ([SchemeLibrary], with what is relied on in
    [SchemeLaws]). *)

From S2P Require Import Prelude Errors Platform Clientset.

Local Open Scope broker_scope.

(** ** Names ([v1alpha1/register.go]) *)

Definition ServiceBrokerConfigKind : string := "ServiceBrokerConfig".
Definition ServiceBrokerConfigResource : string := "servicebrokerconfigs".
Definition GroupVersion : string := "v1alpha1".
Definition GroupName : string := "servicebroker.couchbase.com".
Definition Group : string := GroupName +++ "/" +++ GroupVersion.

(** [schema.GroupResource] *)
Record GroupResource : Type := mkGroupResource { resource_Group : string; resource_Resource : string }.

Definition Resource (resource : string) : GroupResource := mkGroupResource SchemeGroupVersion.1 resource.

(** ** Schemes *)

(** A function that adds types to a scheme in place, and may fail. *)
Definition adder (S : Type) : Type := S -> S * option error.

(** [runtime.Scheme], [runtime.SchemeBuilder], [scheme.Builder] of
    [controller-runtime], and codecs. A type is known by its name. *)
Class SchemeLibrary : Type := {
  Scheme_t : Type;
  Builder_t : Type;
  Codecs_t : Type;
  ParameterCodec_t : Type;
  NewScheme : Scheme_t;
  NewCodecFactory : Scheme_t -> Codecs_t;
  NewParameterCodec : Scheme_t -> ParameterCodec_t;
  (* &scheme.Builder{GroupVersion: v} *)
  NewBuilder : string * string -> Builder_t;
  Register : Builder_t -> list string -> Builder_t;
  Builder_AddToScheme : Builder_t -> adder Scheme_t;
  SchemeBuilder_AddToScheme : list (adder Scheme_t) -> adder Scheme_t;
  (* metav1.AddToGroupVersion *)
  AddToGroupVersion : Scheme_t -> string * string -> Scheme_t;
  (* scheme.Recognizes of the kind of a version *)
  Recognizes : Scheme_t -> string * string -> string -> bool;
}.

Section Registration.
Context `{SchemeLibrary}.

(** [SchemeBuilder] as [init] of [v1alpha1] leaves it, and its [AddToScheme]. *)
Definition SchemeBuilder : Builder_t := Register (NewBuilder SchemeGroupVersion) ["ServiceBrokerConfig"; "ServiceBrokerConfigList"].

Definition v1alpha1_AddToScheme : adder Scheme_t := Builder_AddToScheme SchemeBuilder.

(** [AddToScheme] of [pkg/apis]. *)
Definition apis_AddToScheme : adder Scheme_t := fun s =>
  let schemeBuilders := [v1alpha1_AddToScheme] in
  SchemeBuilder_AddToScheme schemeBuilders s.

(** [localSchemeBuilder] and [AddToScheme] of the generated packages. *)
Definition localSchemeBuilder : list (adder Scheme_t) := [v1alpha1_AddToScheme].
Definition AddToScheme : adder Scheme_t := SchemeBuilder_AddToScheme localSchemeBuilder.

(** [utilruntime.Must] *)
Definition Must (err : option error) : prog unit :=
  match err with
  | None => Ret tt
  | Some err => Halt (Panic (Error err))
  end.

(** [init] of the generated packages, of their new scheme. *)
Definition init (scheme : Scheme_t) : prog Scheme_t :=
  let scheme := AddToGroupVersion scheme ("", "v1") in
  let '(scheme, err) := AddToScheme scheme in
  _ <- Must err ;; Ret scheme.

(** The package [scheme]: what it exports when it has been initialized. *)
Record scheme_package : Type := mkSchemePackage {
  Scheme : Scheme_t;
  Codecs : Codecs_t;
  ParameterCodec : ParameterCodec_t;
}.

Definition package_scheme : prog scheme_package :=
  scheme <- init NewScheme ;;
  Ret (mkSchemePackage scheme (NewCodecFactory scheme) (NewParameterCodec scheme)).

(** The package [fake]. *)
Definition package_fake : prog (Scheme_t * Codecs_t) :=
  scheme <- init NewScheme ;;
  Ret (scheme, NewCodecFactory scheme).
End Registration.

(** What the libraries document: a builder adds the types that were registered with it, builders are applied one after the other up to the
    first error, and nothing that a scheme knows is forgotten. *)
Class SchemeLaws `{SchemeLibrary} : Prop := {
  register_known gv kinds s s' kind :
    Builder_AddToScheme (Register (NewBuilder gv) kinds) s = (s', None) -> kind ∈ kinds -> Recognizes s' gv kind = true;
  builders_nil s : SchemeBuilder_AddToScheme [] s = (s, None);
  builders_cons f fs s :
    SchemeBuilder_AddToScheme (f :: fs) s =
      match f s with
      | (s', None) => SchemeBuilder_AddToScheme fs s'
      | (s', Some err) => (s', Some err)
      end;
  group_version_keeps s gv gv' kind : Recognizes s gv' kind = true -> Recognizes (AddToGroupVersion s gv) gv' kind = true;
}.

Section Facts.
Context `{SchemeLaws}.

Lemma builders_one f s : SchemeBuilder_AddToScheme [f] s = f s.
Proof. rewrite builders_cons. destruct (f s) as [s' [err|]]; [done|]. by rewrite builders_nil. Qed.

Lemma kinds_known s s' :
  v1alpha1_AddToScheme s = (s', None) ->
  Recognizes s' SchemeGroupVersion ServiceBrokerConfigKind = true /\
  Recognizes s' SchemeGroupVersion (ServiceBrokerConfigKind +++ "List") = true.
Proof. intros Hs. split; eapply register_known; try exact Hs; set_solver. Qed.

(** Initializing a package ends in a scheme that knows configurations and lists
    of them, or the process panics with the error of the library. *)
Lemma init_knows s :
  match init s with
  | Ret s' => Recognizes s' SchemeGroupVersion ServiceBrokerConfigKind = true /\
      Recognizes s' SchemeGroupVersion (ServiceBrokerConfigKind +++ "List") = true
  | Halt h => exists err, (v1alpha1_AddToScheme (AddToGroupVersion s ("", "v1"))).2 = Some err /\ h = Panic (Error err)
  | _ => False
  end.
Proof.
  unfold init, AddToScheme, localSchemeBuilder. rewrite builders_one.
  destruct (v1alpha1_AddToScheme (AddToGroupVersion s ("", "v1"))) as [s' [err|]] eqn:Hs; cbn; [by eexists|]. by apply kinds_known in Hs.
Qed.

(** The three ways to register the resource do the same. *)
Lemma registrations_agree s : apis_AddToScheme s = v1alpha1_AddToScheme s /\ AddToScheme s = v1alpha1_AddToScheme s.
Proof. split; apply builders_one. Qed.
End Facts.
