(* ===== verification/Fake.v ===== *)
(** * The fake clientset ([src/generated/clientset/servicebroker/fake])

    The test double that the unit tests use in place of the typed client of
    [Clientset]. Each of its methods makes an action and lets the fake of
    [client-go/testing] invoke it; the reactor that [NewSimpleClientset]
    installs applies it to a tracker of objects. Fake, tracker and label
    selectors are of the libraries ([Testing], with what is documented of them
    in [TestingLaws]).

    What both clients have in common is the interface
    [ServiceBrokerConfigInterface]; what a client may rely on behind it is the
    specification [spec_step], which [fake_stands_in] shows of both. *)

From S2P Require Import Prelude Errors Types Platform Clientset Scheme.
From Stdlib Require Import Lia.

Local Open Scope broker_scope.

(** ** The interface ([typed/v1alpha1/servicebrokerconfig.go]) *)

(** What a method does: it changes the world, and returns or panics. *)
Definition io (W A : Type) : Type := W -> res halt A * W.

(** [ServiceBrokerConfigInterface], as the type [C] implements it. *)
Class ServiceBrokerConfigInterface (W C : Type) `{RestClient W} : Type := {
  Create : C -> ServiceBrokerConfig -> Options -> io W (option ServiceBrokerConfig * option error);
  Update : C -> ServiceBrokerConfig -> Options -> io W (option ServiceBrokerConfig * option error);
  UpdateStatus : C -> ServiceBrokerConfig -> Options -> io W (option ServiceBrokerConfig * option error);
  Delete : C -> string -> Options -> io W (option error);
  DeleteCollection : C -> Options -> ListOptions -> io W (option error);
  Get : C -> string -> Options -> io W (option ServiceBrokerConfig * option error);
  List_ : C -> ListOptions -> io W (option ServiceBrokerConfigList * option error);
  Watch : C -> ListOptions -> io W (result watch_Interface);
  Patch : C -> string -> string -> string -> Options -> list string -> io W (option ServiceBrokerConfig * option error);
}.

(** The typed client always answers an object, and does not panic. *)
Definition always {W A} (m : W -> (A * option error) * W) : io W (option A * option error) := fun w =>
  let '((a, err), w) := m w in (Ok (Some a, err), w).
Definition returns {W A} (m : W -> A * W) : io W A := fun w => let '(a, w) := m w in (Ok a, w).

#[export] Instance typed_interface {W} `{RestClient W} : ServiceBrokerConfigInterface W (ServiceBrokerConfigs.serviceBrokerConfigs W) := {|
  Create c config opts := always (ServiceBrokerConfigs.Create c config opts);
  Update c config opts := always (ServiceBrokerConfigs.Update c config opts);
  UpdateStatus c config opts := always (ServiceBrokerConfigs.UpdateStatus c config opts);
  Delete c name opts := returns (ServiceBrokerConfigs.Delete c name opts);
  DeleteCollection c opts listOpts := returns (ServiceBrokerConfigs.DeleteCollection c opts listOpts);
  Get c name opts := always (ServiceBrokerConfigs.Get c name opts);
  List_ c opts := always (ServiceBrokerConfigs.List_ c opts);
  Watch c opts := returns (ServiceBrokerConfigs.Watch c opts);
  Patch c name pt data opts subresources := always (ServiceBrokerConfigs.Patch c name pt data opts subresources);
|}.

(** ** Actions ([k8s.io/client-go/testing], a parameter) *)

Record GroupVersionResource : Type := mkGVR { gvr_Group : string; gvr_Version : string; gvr_Resource : string }.
Record GroupVersionKind : Type := mkGVK { gvk_Group : string; gvk_Version : string; gvk_Kind : string }.

(** Objects behind [runtime.Object]. *)
Inductive runtime_Object : Type :=
  | ConfigObject (config : ServiceBrokerConfig)
  | ConfigListObject (configs : ServiceBrokerConfigList)
  | OtherObject (kind : string).

(** An action is what it was made with. *)
Inductive testing_action : Type :=
  | NewGetAction (resource : GroupVersionResource) (namespace name : string)
  | NewListAction (resource : GroupVersionResource) (kind : GroupVersionKind) (namespace : string) (opts : ListOptions)
  | NewWatchAction (resource : GroupVersionResource) (namespace : string) (opts : ListOptions)
  | NewCreateAction (resource : GroupVersionResource) (namespace : string) (object : runtime_Object)
  | NewUpdateAction (resource : GroupVersionResource) (namespace : string) (object : runtime_Object)
  | NewUpdateSubresourceAction (resource : GroupVersionResource) (subresource namespace : string) (object : runtime_Object)
  | NewDeleteActionWithOptions (resource : GroupVersionResource) (namespace name : string) (opts : Options)
  | NewDeleteCollectionAction (resource : GroupVersionResource) (namespace : string) (opts : ListOptions)
  | NewPatchSubresourceAction (resource : GroupVersionResource) (namespace name pt data : string) (subresources : list string).

Definition GetResource (a : testing_action) : GroupVersionResource :=
  match a with
  | NewGetAction r _ _ | NewListAction r _ _ _ | NewWatchAction r _ _ | NewCreateAction r _ _ | NewUpdateAction r _ _
  | NewUpdateSubresourceAction r _ _ _ | NewDeleteActionWithOptions r _ _ _ | NewDeleteCollectionAction r _ _
  | NewPatchSubresourceAction r _ _ _ _ _ => r
  end.
Definition GetNamespace (a : testing_action) : string :=
  match a with
  | NewGetAction _ n _ | NewListAction _ _ n _ | NewWatchAction _ n _ | NewCreateAction _ n _ | NewUpdateAction _ n _
  | NewUpdateSubresourceAction _ _ n _ | NewDeleteActionWithOptions _ n _ _ | NewDeleteCollectionAction _ n _
  | NewPatchSubresourceAction _ n _ _ _ _ => n
  end.

(** [testing.ReactionFunc] and [testing.WatchReactionFunc] *)
Definition ReactionFunc (W : Type) : Type := testing_action -> W -> (bool * option runtime_Object * option error) * W.
Definition WatchReactionFunc (W watcher : Type) : Type := testing_action -> W -> (bool * option watcher * option error) * W.

Class Testing (W : Type) `{RestClient W, SchemeLibrary} : Type := {
  Fake_t : Type;
  FakeDiscovery_t : Type;
  Tracker_t : Type;
  Decoder_t : Type;
  Selector_t : Type;
  UniversalDecoder : Codecs_t -> Decoder_t;
  labels_Everything : Selector_t;
  Matches : Selector_t -> gmap string string -> bool;
  ExtractLabels : ListOptions -> option Selector_t;         (* the first result of ExtractFromListOptions *)
  NewFake : W -> Fake_t * W;                                 (* the Fake of a new Clientset *)
  NewFakeDiscovery : Fake_t -> FakeDiscovery_t;
  AddReactor : Fake_t -> string -> string -> ReactionFunc W -> W -> W;
  AddWatchReactor : Fake_t -> string -> WatchReactionFunc W watch_Interface -> W -> W;
  Invokes : Fake_t -> testing_action -> runtime_Object -> W -> (option runtime_Object * option error) * W;
  InvokesWatch : Fake_t -> testing_action -> W -> result watch_Interface * W;
  NewObjectTracker : Scheme_t -> Decoder_t -> W -> Tracker_t * W;
  tracker_Add : Tracker_t -> runtime_Object -> W -> option error * W;
  tracker_Watch : Tracker_t -> GroupVersionResource -> string -> W -> result watch_Interface * W;
  ObjectReaction : Tracker_t -> ReactionFunc W;
}.

(** ** The fake client ([fake_servicebrokerconfig.go], [fake_servicebroker_client.go]) *)

Section Fake.
Context {W : Type} `{Testing W}.

Record FakeServicebrokerV1alpha1 : Type := mkFakeV1alpha1 { v1alpha1_Fake : Fake_t }.

Record FakeServiceBrokerConfigs : Type := mkFakeConfigs {
  configs_Fake : FakeServicebrokerV1alpha1;
  fake_ns : string;
}.

Definition ServiceBrokerConfigs_ (c : FakeServicebrokerV1alpha1) (namespace : string) : FakeServiceBrokerConfigs :=
  mkFakeConfigs c namespace.

(** [RESTClient] of the fake: a nil client. *)
Definition Fake_RESTClient (c : FakeServicebrokerV1alpha1) : option rest_Interface := None.

Definition servicebrokerconfigsResource : GroupVersionResource :=
  mkGVR "servicebroker.couchbase.com" "v1alpha1" "servicebrokerconfigs".
Definition servicebrokerconfigsKind : GroupVersionKind :=
  mkGVK "servicebroker.couchbase.com" "v1alpha1" "ServiceBrokerConfig".

(** [c.Fake.Invokes(...)] *)
Definition invokes (c : FakeServiceBrokerConfigs) := Invokes (v1alpha1_Fake (configs_Fake c)).

Definition zero_object : runtime_Object := ConfigObject ServiceBrokerConfigs.zero_config.
Definition zero_list_object : runtime_Object := ConfigListObject ServiceBrokerConfigs.zero_list.

Definition conversion_panic {A} : res halt A := Err (Panic "interface conversion").

(** [if obj == nil { return nil, err }; return obj.( *v1alpha1.ServiceBrokerConfig), err] *)
Definition as_config (obj : option runtime_Object) (err : option error)
    : res halt (option ServiceBrokerConfig * option error) :=
  match obj with
  | None => Ok (None, err)
  | Some (ConfigObject config) => Ok (Some config, err)
  | Some _ => conversion_panic
  end.

Definition fake_Get (c : FakeServiceBrokerConfigs) (name : string) (options : Options)
    : io W (option ServiceBrokerConfig * option error) := fun w =>
  let '((obj, err), w) := invokes c (NewGetAction servicebrokerconfigsResource (fake_ns c) name) zero_object w in
  (as_config obj err, w).

Definition fake_List (c : FakeServiceBrokerConfigs) (opts : ListOptions)
    : io W (option ServiceBrokerConfigList * option error) := fun w =>
  let '((obj, err), w) :=
    invokes c (NewListAction servicebrokerconfigsResource servicebrokerconfigsKind (fake_ns c) opts) zero_list_object w in
  match obj with
  | None => (Ok (None, err), w)
  | Some (ConfigListObject l) =>
      let label := default labels_Everything (ExtractLabels opts) in
      let list := foldl (fun list item => if Matches label (config_Labels item) then list ++ [item] else list) [] (list_Items l) in
      (Ok (Some (mkConfigList (list_Meta l) list), err), w)
  | Some _ => (conversion_panic, w)
  end.

Definition fake_Watch (c : FakeServiceBrokerConfigs) (opts : ListOptions) : io W (result watch_Interface) :=
  returns (InvokesWatch (v1alpha1_Fake (configs_Fake c)) (NewWatchAction servicebrokerconfigsResource (fake_ns c) opts)).

Definition fake_Create (c : FakeServiceBrokerConfigs) (serviceBrokerConfig : ServiceBrokerConfig) (opts : Options)
    : io W (option ServiceBrokerConfig * option error) := fun w =>
  let '((obj, err), w) :=
    invokes c (NewCreateAction servicebrokerconfigsResource (fake_ns c) (ConfigObject serviceBrokerConfig)) zero_object w in
  (as_config obj err, w).

Definition fake_Update (c : FakeServiceBrokerConfigs) (serviceBrokerConfig : ServiceBrokerConfig) (opts : Options)
    : io W (option ServiceBrokerConfig * option error) := fun w =>
  let '((obj, err), w) :=
    invokes c (NewUpdateAction servicebrokerconfigsResource (fake_ns c) (ConfigObject serviceBrokerConfig)) zero_object w in
  (as_config obj err, w).

Definition fake_UpdateStatus (c : FakeServiceBrokerConfigs) (serviceBrokerConfig : ServiceBrokerConfig) (opts : Options)
    : io W (option ServiceBrokerConfig * option error) := fun w =>
  let '((obj, err), w) :=
    invokes c (NewUpdateSubresourceAction servicebrokerconfigsResource "status" (fake_ns c) (ConfigObject serviceBrokerConfig))
      zero_object w in
  (as_config obj err, w).

Definition fake_Delete (c : FakeServiceBrokerConfigs) (name : string) (opts : Options) : io W (option error) := fun w =>
  let '((_, err), w) :=
    invokes c (NewDeleteActionWithOptions servicebrokerconfigsResource (fake_ns c) name opts) zero_object w in
  (Ok err, w).

Definition fake_DeleteCollection (c : FakeServiceBrokerConfigs) (opts : Options) (listOpts : ListOptions)
    : io W (option error) := fun w =>
  let action := NewDeleteCollectionAction servicebrokerconfigsResource (fake_ns c) listOpts in
  let '((_, err), w) := invokes c action zero_list_object w in
  (Ok err, w).

Definition fake_Patch (c : FakeServiceBrokerConfigs) (name pt data : string) (opts : Options) (subresources : list string)
    : io W (option ServiceBrokerConfig * option error) := fun w =>
  let '((obj, err), w) :=
    invokes c (NewPatchSubresourceAction servicebrokerconfigsResource (fake_ns c) name pt data subresources) zero_object w in
  (as_config obj err, w).

#[export] Instance fake_interface : ServiceBrokerConfigInterface W FakeServiceBrokerConfigs := {|
  Create := fake_Create;
  Update := fake_Update;
  UpdateStatus := fake_UpdateStatus;
  Delete := fake_Delete;
  DeleteCollection := fake_DeleteCollection;
  Get := fake_Get;
  List_ := fake_List;
  Watch := fake_Watch;
  Patch := fake_Patch;
|}.

(** ** The clientset ([clientset_generated.go]) *)

Record Clientset : Type := mkFakeClientset {
  clientset_Fake : Fake_t;
  clientset_discovery : FakeDiscovery_t;
  clientset_tracker : Tracker_t;
}.

(** The loop over the objects; an error is a panic. *)
Fixpoint add_all (o : Tracker_t) (objects : list runtime_Object) : io W unit := fun w =>
  match objects with
  | [] => (Ok tt, w)
  | obj :: objects =>
      match tracker_Add o obj w with
      | (Some err, w) => (Err (Panic (Error err)), w)
      | (None, w) => add_all o objects w
      end
  end.

(** The watch reactor. *)
Definition watch_reaction (o : Tracker_t) : WatchReactionFunc W watch_Interface := fun action w =>
  let gvr := GetResource action in
  let ns := GetNamespace action in
  match tracker_Watch o gvr ns w with
  | (Err err, w) => ((false, None, Some err), w)
  | (Ok watch, w) => ((true, Some watch, None), w)
  end.

(** With the scheme and the codecs of the package. *)
Definition NewSimpleClientset (package : Scheme_t * Codecs_t) (objects : list runtime_Object) : io W Clientset := fun w =>
  let '(scheme, codecs) := package in
  let '(o, w) := NewObjectTracker scheme (UniversalDecoder codecs) w in
  match add_all o objects w with
  | (Err panic, w) => (Err panic, w)
  | (Ok _, w) =>
      let '(fake, w) := NewFake w in
      let cs := mkFakeClientset fake (NewFakeDiscovery fake) o in
      let w := AddReactor fake "*" "*" (ObjectReaction o) w in
      let w := AddWatchReactor fake "*" (watch_reaction o) w in
      (Ok cs, w)
  end.

Definition Discovery (c : Clientset) : FakeDiscovery_t := clientset_discovery c.
Definition Tracker (c : Clientset) : Tracker_t := clientset_tracker c.
Definition ServicebrokerV1alpha1 (c : Clientset) : FakeServicebrokerV1alpha1 := mkFakeV1alpha1 (clientset_Fake c).
End Fake.
