(* ===== verification/FakeFacts.v ===== *)
(** * What a client of the configurations may rely on

    The specification of the interface [ServiceBrokerConfigInterface] as a store
    of configurations, and that the typed client and the fake keep it: for the
    typed client the API server is assumed to serve a store ([ServerLaws]), for
    the fake the tracker is assumed to do what is documented of it
    ([TestingLaws]).

    They differ where the API server does more than store: it validates and
    completes what it is given ([crds/servicebroker.couchbase.com_*.yaml] has
    defaults for [registryScope] and the timeouts, and required fields), which
    the tracker does not. The specification is for the configurations that the
    server takes as they are, in a namespace of the cluster. *)

From S2P Require Import Prelude Errors Types Platform Clientset Scheme Fake.

Local Open Scope broker_scope.

(** ** The specification *)

(** Configurations by namespace and name. *)
Abbreviation store := (gmap (string * string) ServiceBrokerConfig).

Definition key_of (c : ServiceBrokerConfig) : string * string := (config_Namespace c, config_Name c).

Definition store_of (configs : list ServiceBrokerConfig) : store := foldl (fun s c => <[key_of c := c]> s) ∅ configs.

(** The requests of the client of one namespace, with empty options but for the
    label selector of a list. *)
Inductive request : Type :=
  | RGet (name : string)
  | RList (labelSelector : string)
  | RCreate (config : ServiceBrokerConfig)
  | RUpdate (config : ServiceBrokerConfig)
  | RDelete (name : string).

(** What is seen of a result: the value, if there is no error. *)
Inductive answer : Type :=
  | AConfig (r : result (option ServiceBrokerConfig))
  | AList (r : result (option (list ServiceBrokerConfig)))
  | ADone (err : option error).

Definition seen {A B} (f : A -> B) (r : option A * option error) : result (option B) :=
  match r with (_, Some err) => Err err | (a, None) => Ok (f <$> a) end.

Definition by_label (labelSelector : string) : ListOptions := mkListOptions None false {["labelSelector" := labelSelector]}.

Definition io_map {W A B} (f : A -> B) (m : io W A) : io W B := fun w =>
  let '(r, w) := m w in (match r with Ok a => Ok (f a) | Err h => Err h end, w).

Definition ask {W C} `{ServiceBrokerConfigInterface W C} (c : C) (r : request) : io W answer :=
  match r with
  | RGet name => io_map (fun r => AConfig (seen id r)) (Get c name ∅)
  | RList labelSelector => io_map (fun r => AList (seen list_Items r)) (List_ c (by_label labelSelector))
  | RCreate config => io_map (fun r => AConfig (seen id r)) (Create c config ∅)
  | RUpdate config => io_map (fun r => AConfig (seen id r)) (Update c config ∅)
  | RDelete name => io_map ADone (Delete c name ∅)
  end.

(** A client of the interface: it asks, and goes on with the answer. *)
Inductive client (A : Type) : Type :=
  | Return (a : A)
  | Ask (r : request) (k : answer -> client A).
Arguments Return {A} a.
Arguments Ask {A} r k.

(** What an API server accepts: the selectors that can be parsed, the
    namespaces of the cluster, and of a configuration what validation, defaults
    and pruning by the schema of the resource make of it, unless they refuse it. *)
Record api_server : Type := mkApiServer {
  valid_selector : string -> Prop;
  has_namespace : string -> Prop;
  admitted : ServiceBrokerConfig -> option ServiceBrokerConfig;
}.

Fixpoint run_client {W C A} `{ServiceBrokerConfigInterface W C} (c : C) (p : client A) : io W A := fun w =>
  match p with
  | Return a => (Ok a, w)
  | Ask r k =>
      match ask c r w with
      | (Ok a, w) => run_client c (k a) w
      | (Err h, w) => (Err h, w)
      end
  end.

Section Specification.
Context {W : Type} `{Testing W}.
Variable ns : string.

Definition selector_of (labelSelector : string) : Selector_t := default labels_Everything (ExtractLabels (by_label labelSelector)).

(** The configurations of the namespace that a selector selects. *)
Definition selected (s : store) (labelSelector : string) : list ServiceBrokerConfig :=
  (map_to_list (filter (fun kv => kv.1.1 = ns /\ Matches (selector_of labelSelector) (config_Labels kv.2) = true) s)).*2.

Inductive spec_step : store -> request -> answer -> store -> Prop :=
  | spec_get s name c :
      s !! (ns, name) = Some c -> spec_step s (RGet name) (AConfig (Ok (Some c))) s
  | spec_get_missing s name err :
      s !! (ns, name) = None -> IsNotFound err = true -> spec_step s (RGet name) (AConfig (Err err)) s
  | spec_list s labelSelector l :
      l ≡ₚ selected s labelSelector -> spec_step s (RList labelSelector) (AList (Ok (Some l))) s
  | spec_create s c :
      s !! key_of c = None -> spec_step s (RCreate c) (AConfig (Ok (Some c))) (<[key_of c := c]> s)
  | spec_create_exists s c old err :
      s !! key_of c = Some old -> IsAlreadyExists err = true -> spec_step s (RCreate c) (AConfig (Err err)) s
  | spec_update s c old :
      s !! key_of c = Some old -> spec_step s (RUpdate c) (AConfig (Ok (Some c))) (<[key_of c := c]> s)
  | spec_update_missing s c err :
      s !! key_of c = None -> IsNotFound err = true -> spec_step s (RUpdate c) (AConfig (Err err)) s
  (* of an old version, or of none *)
  | spec_update_conflict s c old err :
      s !! key_of c = Some old -> IsNotFound err = false -> spec_step s (RUpdate c) (AConfig (Err err)) s
  | spec_delete s name c :
      s !! (ns, name) = Some c -> spec_step s (RDelete name) (ADone None) (delete (ns, name) s)
  (* the documentation leaves open whether this is an error *)
  | spec_delete_missing s name err :
      s !! (ns, name) = None -> spec_step s (RDelete name) (ADone err) s.

Inductive spec_run {A} : store -> client A -> A -> store -> Prop :=
  | spec_return s a : spec_run s (Return a) a s
  | spec_ask s r k a s' b s'' : spec_step s r a s' -> spec_run s' (k a) b s'' -> spec_run s (Ask r k) b s''.

(** Requests that the API server accepts as they are: in a namespace of the
    cluster (not in all of them, which is what the empty name means), of a named
    object, with a selector that can be parsed, and of a configuration of the
    namespace that the schema neither refuses nor completes. *)
Definition sensible (server : api_server) (r : request) : Prop :=
  ns <> "" /\ has_namespace server ns /\
  match r with
  | RGet name | RDelete name => name <> ""
  | RList labelSelector => valid_selector server labelSelector
  | RCreate c | RUpdate c => config_Name c <> "" /\ config_Namespace c = ns /\ admitted server c = Some c
  end.

Inductive sensible_client {A} (server : api_server) : client A -> Prop :=
  | sensible_return a : sensible_client server (Return a)
  | sensible_ask r k : sensible server r -> (forall a, sensible_client server (k a)) -> sensible_client server (Ask r k).

(** What an implementation promises: while the world holds a store, every
    request ends as specified. *)
Class Implements {C} `{!ServiceBrokerConfigInterface W C} (server : api_server) (holds : W -> store -> Prop) (c : C) : Prop :=
  implements r w s : holds w s -> sensible server r ->
    exists a w' s', ask c r w = (Ok a, w') /\ spec_step s r a s' /\ holds w' s'.

(** Whatever a client does, its outcome is one of the specification. *)
Lemma client_refines {C A} `{!ServiceBrokerConfigInterface W C} server holds (c : C) `{!Implements server holds c}
    (p : client A) w s :
  sensible_client server p -> holds w s ->
  exists a w' s', run_client c p w = (Ok a, w') /\ spec_run s p a s' /\ holds w' s'.
Proof.
  intros Hp. revert w s. induction Hp as [a|r k Hr _ IH]; intros w s Hw; [exists a, w, s; repeat constructor; done|].
  destruct (implements r w s Hw Hr) as (a & w1 & s1 & Ha & Hs & Hw1). destruct (IH a w1 s1 Hw1) as (b & w' & s' & Hb & Hs' & Hw').
  exists b, w', s'. cbn. rewrite Ha. split; [done|]. split; [by econstructor|done].
Qed.
End Specification.

(** ** The API server *)

(** An API server that serves a store to the requests of the typed client
    while nobody else uses it: what Kubernetes documents of the verbs of a
    custom resource, in a namespace of the cluster. What it stores and answers
    is the configuration as admitted. *)
Class ServerLaws {W} `{Testing W} (server : api_server) (serves : rest_Interface -> W -> store -> Prop) : Prop := {
  server_get c w s ns name :
    serves c w s -> ns <> "" -> has_namespace server ns -> name <> "" ->
    let '(r, w') := rest_Do c (mkRestRequest GetVerb
      [Namespace_ ns; Resource_ "servicebrokerconfigs"; Name_ name; VersionedParams (ParamsOf ∅)]) w in
    serves c w' s /\
    match s !! (ns, name) with
    | Some found => rest_Into r ServiceBrokerConfigs.zero_config = (found, None)
    | None => exists z err, rest_Into r ServiceBrokerConfigs.zero_config = (z, Some err) /\ IsNotFound err = true
    end;
  server_list c w s ns labelSelector :
    serves c w s -> ns <> "" -> has_namespace server ns -> valid_selector server labelSelector ->
    let '(r, w') := rest_Do c (mkRestRequest GetVerb
      [Namespace_ ns; Resource_ "servicebrokerconfigs"; VersionedParams (ListParamsOf (by_label labelSelector)); Timeout 0]) w in
    serves c w' s /\
    exists meta l, rest_IntoList r ServiceBrokerConfigs.zero_list = (mkConfigList meta l, None) /\ l ≡ₚ selected ns s labelSelector;
  server_create c w s ns config :
    serves c w s -> ns <> "" -> has_namespace server ns -> config_Name config <> "" -> config_Namespace config = ns ->
    let '(r, w') := rest_Do c (mkRestRequest PostVerb
      [Namespace_ ns; Resource_ "servicebrokerconfigs"; VersionedParams (ParamsOf ∅); Body (ConfigBody config)]) w in
    match admitted server config, s !! key_of config with
    | None, _ => serves c w' s /\ exists z err, rest_Into r ServiceBrokerConfigs.zero_config = (z, Some err)
    | Some complete, None =>
        serves c w' (<[key_of config := complete]> s) /\ rest_Into r ServiceBrokerConfigs.zero_config = (complete, None)
    | Some _, Some _ =>
        serves c w' s /\ exists z err, rest_Into r ServiceBrokerConfigs.zero_config = (z, Some err) /\ IsAlreadyExists err = true
    end;
  server_update c w s ns config :
    serves c w s -> ns <> "" -> has_namespace server ns -> config_Name config <> "" -> config_Namespace config = ns ->
    let '(r, w') := rest_Do c (mkRestRequest PutVerb
      [Namespace_ ns; Resource_ "servicebrokerconfigs"; Name_ (config_Name config); VersionedParams (ParamsOf ∅);
       Body (ConfigBody config)]) w in
    match admitted server config, s !! key_of config with
    | None, _ => serves c w' s /\ exists z err, rest_Into r ServiceBrokerConfigs.zero_config = (z, Some err)
    | Some _, None =>
        serves c w' s /\ exists z err, rest_Into r ServiceBrokerConfigs.zero_config = (z, Some err) /\ IsNotFound err = true
    | Some complete, Some _ =>
        (serves c w' (<[key_of config := complete]> s) /\ rest_Into r ServiceBrokerConfigs.zero_config = (complete, None)) \/
        (serves c w' s /\ exists z err, rest_Into r ServiceBrokerConfigs.zero_config = (z, Some err) /\ IsNotFound err = false)
    end;
  server_delete c w s ns name :
    serves c w s -> ns <> "" -> has_namespace server ns -> name <> "" ->
    let '(r, w') := rest_Do c (mkRestRequest DeleteVerb
      [Namespace_ ns; Resource_ "servicebrokerconfigs"; Name_ name; Body (OptionsBody ∅)]) w in
    match s !! (ns, name) with
    | None => serves c w' s
    | Some _ => serves c w' (delete (ns, name) s) /\ rest_Error r = None
    end;
}.

(** ** The tracker and its fake *)

(** What is documented of [client-go/testing]: a tracker whose scheme knows the
    configurations holds objects by namespace and name ([tracks]); its reaction
    applies an action to it; a fake whose only reactor, for every verb and
    resource, is that reaction ([backed]) answers what the reaction answers. *)
Class TestingLaws {W} `{Testing W} (tracks : Tracker_t -> W -> store -> Prop) (backed : Fake_t -> Tracker_t -> W -> Prop) : Prop := {
  new_tracker scheme w :
    Recognizes scheme SchemeGroupVersion ServiceBrokerConfigKind = true ->
    Recognizes scheme SchemeGroupVersion (ServiceBrokerConfigKind +++ "List") = true ->
    let '(o, w') := NewObjectTracker scheme (UniversalDecoder (NewCodecFactory scheme)) w in tracks o w' ∅;
  tracker_adds o w s c :
    tracks o w s -> s !! key_of c = None ->
    let '(err, w') := tracker_Add o (ConfigObject c) w in err = None /\ tracks o w' (<[key_of c := c]> s);
  new_fake o w s :
    tracks o w s ->
    let '(f, w') := NewFake w in
    tracks o w' s /\ backed f o (AddReactor f "*" "*" (ObjectReaction o) w') /\
    tracks o (AddReactor f "*" "*" (ObjectReaction o) w') s;
  watch_reactor f o w s fn :
    tracks o w s -> backed f o w -> tracks o (AddWatchReactor f "*" fn w) s /\ backed f o (AddWatchReactor f "*" fn w);
  invoked f o w s a zero :
    tracks o w s -> backed f o w ->
    exists w0, tracks o w0 s /\
      let '((handled, ret, err), w') := ObjectReaction o a w0 in
      Invokes f a zero w = (if handled then (ret, err) else (Some zero, None), w') /\ backed f o w';
  reacts_get o w s ns name :
    tracks o w s ->
    let '((handled, ret, err), w') := ObjectReaction o (NewGetAction servicebrokerconfigsResource ns name) w in
    handled = true /\ tracks o w' s /\
    match s !! (ns, name) with
    | Some c => ret = Some (ConfigObject c) /\ err = None
    | None => ret = None /\ exists e, err = Some e /\ IsNotFound e = true
    end;
  (* the list holds what is in the namespace (without one, it would hold
     everything): the tracker does not select *)
  reacts_list o w s ns opts :
    tracks o w s -> ns <> "" ->
    let '((handled, ret, err), w') := ObjectReaction o (NewListAction servicebrokerconfigsResource servicebrokerconfigsKind ns opts) w in
    handled = true /\ tracks o w' s /\ err = None /\
    exists meta l, ret = Some (ConfigListObject (mkConfigList meta l)) /\ l ≡ₚ (map_to_list (filter (fun kv => kv.1.1 = ns) s)).*2;
  reacts_create o w s ns c :
    tracks o w s -> config_Namespace c = ns ->
    let '((handled, ret, err), w') := ObjectReaction o (NewCreateAction servicebrokerconfigsResource ns (ConfigObject c)) w in
    handled = true /\
    match s !! key_of c with
    | None => tracks o w' (<[key_of c := c]> s) /\ ret = Some (ConfigObject c) /\ err = None
    | Some _ => tracks o w' s /\ ret = None /\ exists e, err = Some e /\ IsAlreadyExists e = true
    end;
  reacts_update o w s ns c :
    tracks o w s -> config_Namespace c = ns ->
    let '((handled, ret, err), w') := ObjectReaction o (NewUpdateAction servicebrokerconfigsResource ns (ConfigObject c)) w in
    handled = true /\
    match s !! key_of c with
    | Some _ => tracks o w' (<[key_of c := c]> s) /\ ret = Some (ConfigObject c) /\ err = None
    | None => tracks o w' s /\ ret = None /\ exists e, err = Some e /\ IsNotFound e = true
    end;
  reacts_delete o w s ns name opts :
    tracks o w s ->
    let '((handled, ret, err), w') := ObjectReaction o (NewDeleteActionWithOptions servicebrokerconfigsResource ns name opts) w in
    handled = true /\
    match s !! (ns, name) with
    | Some _ => tracks o w' (delete (ns, name) s) /\ err = None
    | None => tracks o w' s
    end;
}.

(** ** Both clients keep the specification *)

Section Clients.
Context {W : Type} `{Testing W}.
Variable ns : string.

(** Unfolds a request of the typed client down to what the REST client does. *)
Ltac typed_request :=
  cbv [ask Get Create Update Delete List_ typed_interface io_map always returns
       ServiceBrokerConfigs.Get ServiceBrokerConfigs.Create ServiceBrokerConfigs.Update ServiceBrokerConfigs.Delete
       ServiceBrokerConfigs.List_ ServiceBrokerConfigs.do_into ServiceBrokerConfigs.do_into_list ServiceBrokerConfigs.do_error
       ServiceBrokerConfigs.configs_client ServiceBrokerConfigs.configs_ns ServiceBrokerConfigs.resource];
  change (timeout_of (by_label _)) with 0%Z;
  destruct (rest_Do _ _ _) as [res w'].

#[export] Instance typed_implements server serves `{!ServerLaws server serves} rc :
  Implements ns server (serves rc) (ServiceBrokerConfigs.mkServiceBrokerConfigs rc ns).
Proof.
  intros r w s Hw (Hne & Hin & Hr). destruct r as [name|sel|c|c|name]; cbn in Hr.
  - pose proof (server_get rc w s ns name Hw Hne Hin Hr) as Hl. revert Hl. typed_request. intros [Hw' Hl].
    destruct (s !! (ns, name)) as [c|] eqn:Hs; [rewrite Hl|destruct Hl as (z & err & -> & Herr)]; do 3 eexists;
      (split; [reflexivity|]); (split; [|exact Hw']); by constructor.
  - pose proof (server_list rc w s ns sel Hw Hne Hin Hr) as Hl. revert Hl. typed_request. intros (Hw' & meta & l & -> & Hp).
    do 3 eexists. split; [reflexivity|]. split; [|exact Hw']. by constructor.
  - destruct Hr as (Hn & Hns & Ha). pose proof (server_create rc w s ns c Hw Hne Hin Hn Hns) as Hl. revert Hl. rewrite Ha. typed_request.
    destruct (s !! key_of c) as [old|] eqn:Hs; [intros (Hw' & z & err & -> & Herr)|intros (Hw' & ->)]; do 3 eexists;
      (split; [reflexivity|]); (split; [|exact Hw']); by econstructor.
  - destruct Hr as (Hn & Hns & Ha). pose proof (server_update rc w s ns c Hw Hne Hin Hn Hns) as Hl. revert Hl. rewrite Ha. typed_request.
    destruct (s !! key_of c) as [old|] eqn:Hs; [intros [(Hw' & ->)|(Hw' & z & err & -> & Herr)]|intros (Hw' & z & err & -> & Herr)];
      do 3 eexists; (split; [reflexivity|]); (split; [|exact Hw']); by econstructor.
  - pose proof (server_delete rc w s ns name Hw Hne Hin Hr) as Hl. revert Hl. typed_request.
    destruct (s !! (ns, name)) as [c|] eqn:Hs; [intros (Hw' & ->)|intros Hw']; do 3 eexists;
      (split; [reflexivity|]); (split; [|exact Hw']); by econstructor.
Qed.

(** The world of a fake that [NewSimpleClientset] made. *)
Definition fake_holds (tracks : Tracker_t -> W -> store -> Prop) (backed : Fake_t -> Tracker_t -> W -> Prop) f o w s : Prop :=
  tracks o w s /\ backed f o w.

Lemma fake_selects label ret items :
  foldl (fun list item => if Matches label (config_Labels item) then list ++ [item] else list) ret items =
    ret ++ filter (fun item => Matches label (config_Labels item) = true) items.
Proof.
  revert ret. induction items as [|item items IH]; intros ret; cbn [foldl]; [by rewrite app_nil_r|].
  rewrite IH, filter_cons. destruct (Matches label (config_Labels item)) eqn:Hm.
  - by rewrite decide_True, <- app_assoc.
  - by rewrite decide_False.
Qed.

(** Filtering the values of a map. *)
Lemma filter_values (P : ServiceBrokerConfig -> Prop) `{!forall c, Decision (P c)}
    (s : store) :
  filter P (map_to_list s).*2 ≡ₚ (map_to_list (filter (fun kv => P kv.2) s)).*2.
Proof.
  induction s as [|k c s Hk IH] using map_ind; [by rewrite (map_filter_empty (M := gmap (string * string))), map_to_list_empty|].
  rewrite (map_to_list_insert s k c Hk), fmap_cons, filter_cons. cbn [snd]. destruct (decide (P c)) as [Hc|Hc].
  - rewrite map_filter_insert_True by done. rewrite map_to_list_insert by (apply map_lookup_filter_None; auto).
    rewrite fmap_cons. by f_equiv.
  - rewrite map_filter_insert_False by done. by rewrite delete_id.
Qed.

(** What the fake selects of the list of the tracker is what the server selects. *)
Lemma fake_selected s sel l :
  l ≡ₚ (map_to_list (filter (fun kv => kv.1.1 = ns) s)).*2 ->
  filter (fun item => Matches (selector_of sel) (config_Labels item) = true) l ≡ₚ selected ns s sel.
Proof.
  intros ->. rewrite filter_values. unfold selected. rewrite (map_filter_filter (M := gmap (string * string))).
  f_equiv. f_equal. f_equal. apply map_filter_ext. intros k c _. cbn. tauto.
Qed.

(** Invokes an action on a fake, with what its reaction does. *)
Ltac invoke Ht Hb a zero reacts :=
  let w0 := fresh "w0" in let Ht0 := fresh "Ht0" in let Hi := fresh "Hi" in let Hl := fresh "Hl" in
  destruct (invoked _ _ _ _ a zero Ht Hb) as (w0 & Ht0 & Hi); pose proof (reacts w0 Ht0) as Hl;
  destruct (ObjectReaction _ _ _) as [[[handled ret] err] w']; destruct Hi as [Hi Hb'], Hl as (-> & Hl);
  cbv [ask Get Create Update Delete List_ fake_interface io_map fake_Get fake_Create fake_Update fake_Delete fake_List invokes
       configs_Fake v1alpha1_Fake fake_ns ServiceBrokerConfigs_];
  rewrite Hi; clear Hi; revert Hl.

#[export] Instance fake_implements server tracks backed `{!TestingLaws tracks backed} f o :
  Implements ns server (fake_holds tracks backed f o) (ServiceBrokerConfigs_ (mkFakeV1alpha1 f) ns).
Proof.
  intros r w s [Ht Hb] (Hne & _ & Hr). destruct r as [name|sel|c|c|name]; cbn in Hr.
  - invoke Ht Hb (NewGetAction servicebrokerconfigsResource ns name) zero_object (fun w0 Ht0 => reacts_get o w0 s ns name Ht0).
    destruct (s !! (ns, name)) as [c|] eqn:Hs; [intros (Ht' & -> & ->)|intros (Ht' & -> & e & -> & He)]; do 3 eexists;
      (split; [reflexivity|]); (split; [|by split]); by constructor.
  - invoke Ht Hb (NewListAction servicebrokerconfigsResource servicebrokerconfigsKind ns (by_label sel)) zero_list_object
      (fun w0 Ht0 => reacts_list o w0 s ns (by_label sel) Ht0 Hne).
    intros (Ht' & -> & meta & l & -> & Hp). do 3 eexists. split; [reflexivity|]. split; [|by split].
    constructor. cbn [list_Items]. rewrite fake_selects. by apply fake_selected.
  - destruct Hr as (_ & Hns & _). invoke Ht Hb (NewCreateAction servicebrokerconfigsResource ns (ConfigObject c)) zero_object
      (fun w0 Ht0 => reacts_create o w0 s ns c Ht0 Hns).
    destruct (s !! key_of c) as [old|] eqn:Hs; [intros (Ht' & -> & e & -> & He)|intros (Ht' & -> & ->)]; do 3 eexists;
      (split; [reflexivity|]); (split; [|by split]); by econstructor.
  - destruct Hr as (_ & Hns & _). invoke Ht Hb (NewUpdateAction servicebrokerconfigsResource ns (ConfigObject c)) zero_object
      (fun w0 Ht0 => reacts_update o w0 s ns c Ht0 Hns).
    destruct (s !! key_of c) as [old|] eqn:Hs; [intros (Ht' & -> & ->)|intros (Ht' & -> & e & -> & He)]; do 3 eexists;
      (split; [reflexivity|]); (split; [|by split]); by econstructor.
  - invoke Ht Hb (NewDeleteActionWithOptions servicebrokerconfigsResource ns name ∅) zero_object
      (fun w0 Ht0 => reacts_delete o w0 s ns name ∅ Ht0).
    destruct (s !! (ns, name)) as [c|] eqn:Hs; [intros (Ht' & ->)|intros Ht']; do 3 eexists;
      (split; [reflexivity|]); (split; [|by split]); by econstructor.
Qed.

(** ** Making the fake *)

Lemma add_all_tracks tracks backed `{!TestingLaws tracks backed} o configs w s :
  NoDup (key_of <$> configs) -> (forall c, c ∈ configs -> s !! key_of c = None) -> tracks o w s ->
  exists w', add_all o (ConfigObject <$> configs) w = (Ok tt, w') /\ tracks o w' (foldl (fun s c => <[key_of c := c]> s) s configs).
Proof.
  revert w s. induction configs as [|c configs IH]; intros w s Hnd Hnew Ht; [by exists w|].
  apply list.NoDup_cons in Hnd as [Hc Hnd]. cbn. pose proof (tracker_adds o w s c Ht (Hnew c (list_elem_of_here _ _))) as Ha.
  destruct (tracker_Add o (ConfigObject c) w) as [err w1]. destruct Ha as [-> Ht1]. apply IH; [done| |done].
  intros c' Hc'. rewrite lookup_insert_ne; [apply Hnew; by right|]. intros He. apply Hc. rewrite He. by apply list_elem_of_fmap_2.
Qed.

Lemma clientset_holds tracks backed `{!SchemeLaws, !TestingLaws tracks backed}
    package (configs : list ServiceBrokerConfig) (w : W) :
  package_fake = Ret package -> NoDup (key_of <$> configs) ->
  exists cs w', NewSimpleClientset package (ConfigObject <$> configs) w = (Ok cs, w') /\
    fake_holds tracks backed (clientset_Fake cs) (clientset_tracker cs) w' (store_of configs).
Proof.
  unfold package_fake. intros Hp Hnd. pose proof (init_knows NewScheme) as Hk. destruct (init NewScheme) as [scheme| | |]; try done.
  cbn in Hp. injection Hp as <-. destruct Hk as [Hk1 Hk2]. pose proof (new_tracker scheme w Hk1 Hk2) as Ht. unfold NewSimpleClientset.
  destruct (NewObjectTracker _ _ _) as [o w1]. destruct (add_all_tracks tracks backed o configs w1 ∅ Hnd) as (w2 & -> & Ht2); [|done|].
  { intros c _. apply lookup_empty. }
  pose proof (new_fake o w2 _ Ht2) as Hf. destruct (NewFake w2) as [f w3]. destruct Hf as (_ & Hb & Ht3).
  do 2 eexists. split; [reflexivity|]. by apply watch_reactor.
Qed.
End Clients.

(** C39: the fake stands in for the typed client.  Made with configurations of
    different names, the fake clientset is made without a panic; whatever a
    client then does with it in a namespace of the cluster, short of giving it a
    configuration that the API server would refuse or complete, it neither
    panics nor gets an outcome other than those that a store of these
    configurations allows; and that is what the typed client gets of an API
    server that serves them. *)
Theorem fake_stands_in {W A} `{Testing W} server serves tracks backed
    `{!SchemeLaws, !ServerLaws server serves, !TestingLaws tracks backed}
    package (configs : list ServiceBrokerConfig) (w : W) rc (w_server : W) ns (p : client A) :
  package_fake = Ret package -> NoDup (key_of <$> configs) -> serves rc w_server (store_of configs) ->
  sensible_client ns server p ->
  (exists cs w1 a w2 s, NewSimpleClientset package (ConfigObject <$> configs) w = (Ok cs, w1) /\
     run_client (ServiceBrokerConfigs_ (Fake.ServicebrokerV1alpha1 cs) ns) p w1 = (Ok a, w2) /\
     spec_run ns (store_of configs) p a s /\ tracks (Tracker cs) w2 s) /\
  (exists a w2 s, run_client (ServiceBrokerConfigs.mkServiceBrokerConfigs rc ns) p w_server = (Ok a, w2) /\
     spec_run ns (store_of configs) p a s /\ serves rc w2 s).
Proof.
  intros Hp Hnd Hs Hc. split.
  - destruct (clientset_holds tracks backed package configs w Hp Hnd) as (cs & w1 & Hcs & Hw1).
    destruct (client_refines ns server _ (ServiceBrokerConfigs_ (mkFakeV1alpha1 (clientset_Fake cs)) ns) p w1 _ Hc Hw1)
      as (a & w2 & s & Ha & Hr & [Ht _]).
    exists cs, w1, a, w2, s. by split_and!.
  - exact (client_refines ns server (serves rc) (ServiceBrokerConfigs.mkServiceBrokerConfigs rc ns) p w_server _ Hc Hs).
Qed.

(** ** A small library and a small API server *)

Module FakeWitness.

(** A scheme is the kinds it knows; a builder the kinds of a version. *)
#[local] Instance Schemes : SchemeLibrary := {|
  Scheme_t := list (string * string * string);
  Builder_t := string * string * list string;
  Codecs_t := unit;
  ParameterCodec_t := unit;
  NewScheme := [];
  NewCodecFactory _ := tt;
  NewParameterCodec _ := tt;
  NewBuilder gv := (gv, []);
  Register b kinds := (b.1, b.2 ++ kinds);
  Builder_AddToScheme b s := (s ++ map (pair b.1) b.2, None);
  SchemeBuilder_AddToScheme fs s :=
    foldl (fun r f => match r with (s, None) => f s | _ => r end) (s, None) fs;
  AddToGroupVersion s gv := s;
  Recognizes s gv kind := bool_decide ((gv, kind) ∈ s);
|}.

#[local] Instance Schemes_laws : SchemeLaws.
Proof.
  split; cbn; try done.
  - intros gv kinds s s' kind [= <-] Hk. apply bool_decide_eq_true_2, elem_of_app. right. by apply list_elem_of_fmap_2.
  - intros f fs s. destruct (f s) as [s' [err|]]; [|done]. by induction fs.
Qed.

(** The store of the API server, or of the tracker. *)
Record world : Type := mkWorld { objects : store; reacting : bool }.

Definition not_found : error := apiError ReasonNotFound "not found".
Definition already_exists : error := apiError ReasonAlreadyExists "already exists".

(** A selector asks for a label. *)
Definition label_of (opts : ListOptions) : option string := list_Other opts !! "labelSelector".
Definition has_label (label : option string) (labels : gmap string string) : bool :=
  match label with Some k => bool_decide (is_Some (labels !! k)) | None => true end.

(** Two rules of the schema: there is a service; a binding is named, and is
    local to the broker unless it says otherwise. *)
Definition complete_binding (b : ConfigurationBinding) : ConfigurationBinding :=
  mkConfigurationBinding (binding_Name b)
    (if binding_RegistryScope b =?s "" then RegistryScopeBrokerLocal else binding_RegistryScope b)
    (binding_RegistryNamespace b) (binding_Service b) (binding_Plan b) (binding_ServiceInstance b) (binding_ServiceBinding b).
Definition complete (c : ServiceBrokerConfig) : option ServiceBrokerConfig :=
  match services c with
  | [] => None
  | _ =>
      if existsb (fun b => binding_Name b =?s "") (bindings c) then None
      else Some (mkConfig (config_Name c) (config_Namespace c) (config_Labels c)
             (mkConfigSpec (spec_Catalog (config_Spec c)) (templates c) (map complete_binding (bindings c))) (config_Status c))
  end.
Definition cluster : api_server := mkApiServer (fun _ => True) (fun ns => ns = "ns" \/ ns = "other") complete.

Definition in_namespace (ns : string) (label : option string) (s : store) : list ServiceBrokerConfig :=
  (map_to_list (filter (fun kv => kv.1.1 = ns /\ has_label label (config_Labels kv.2) = true) s)).*2.

(** One answer for the REST client and for the reaction, to what is to be stored. *)
Definition invalid : error := apiError (ReasonOther "Invalid") "invalid".
Definition serve_get ns name (w : world) : result ServiceBrokerConfig :=
  match objects w !! (ns, name) with Some c => Ok c | None => Err not_found end.
Definition serve_create key (admitted : option ServiceBrokerConfig) (w : world) : result ServiceBrokerConfig * world :=
  match admitted, objects w !! key with
  | None, _ => (Err invalid, w)
  | Some _, Some _ => (Err already_exists, w)
  | Some c, None => (Ok c, mkWorld (<[key := c]> (objects w)) (reacting w))
  end.
Definition serve_update key (admitted : option ServiceBrokerConfig) (w : world) : result ServiceBrokerConfig * world :=
  match admitted, objects w !! key with
  | None, _ => (Err invalid, w)
  | Some c, Some _ => (Ok c, mkWorld (<[key := c]> (objects w)) (reacting w))
  | Some _, None => (Err not_found, w)
  end.
Definition serve_delete ns name (w : world) : world := mkWorld (delete (ns, name) (objects w)) (reacting w).

Inductive served : Type := OneConfig (r : result ServiceBrokerConfig) | Configs (l : list ServiceBrokerConfig) | Nothing.

Definition do_request (r : rest_request) (w : world) : served * world :=
  match request_verb r, request_calls r with
  | GetVerb, [Namespace_ ns; _; Name_ name; _] => (OneConfig (serve_get ns name w), w)
  | GetVerb, [Namespace_ ns; _; VersionedParams (ListParamsOf opts); _] => (Configs (in_namespace ns (label_of opts) (objects w)), w)
  | PostVerb, [_; _; _; Body (ConfigBody c)] => let '(r, w) := serve_create (key_of c) (complete c) w in (OneConfig r, w)
  | PutVerb, [_; _; _; _; Body (ConfigBody c)] => let '(r, w) := serve_update (key_of c) (complete c) w in (OneConfig r, w)
  | DeleteVerb, [Namespace_ ns; _; Name_ name; _] => (Nothing, serve_delete ns name w)
  | _, _ => (Nothing, w)
  end.

#[local] Instance Server : RestClient world := {|
  rest_Interface := unit;
  rest_Result := served;
  watch_Interface := unit;
  rest_Do _ := do_request;
  rest_Watch _ _ w := (Ok tt, w);
  rest_Into r c := match r with OneConfig (Ok c) => (c, None) | OneConfig (Err err) => (c, Some err) | _ => (c, None) end;
  rest_IntoList r l := match r with Configs items => (mkConfigList ∅ items, None) | _ => (l, None) end;
  rest_Error _ := None;
|}.

Definition of_result (r : result ServiceBrokerConfig) : bool * option runtime_Object * option error :=
  match r with Ok c => (true, Some (ConfigObject c), None) | Err err => (true, None, Some err) end.

Definition react (a : testing_action) (w : world) : (bool * option runtime_Object * option error) * world :=
  match a with
  | NewGetAction _ ns name => (of_result (serve_get ns name w), w)
  | NewListAction _ _ ns _ =>
      let found := if ns =?s "" then (map_to_list (objects w)).*2 else in_namespace ns None (objects w) in
      ((true, Some (ConfigListObject (mkConfigList ∅ found)), None), w)
  | NewCreateAction _ _ (ConfigObject c) => let '(r, w) := serve_create (key_of c) (Some c) w in (of_result r, w)
  | NewUpdateAction _ _ (ConfigObject c) => let '(r, w) := serve_update (key_of c) (Some c) w in (of_result r, w)
  | NewDeleteActionWithOptions _ ns name _ => ((true, None, None), serve_delete ns name w)
  | _ => ((false, None, None), w)
  end.

#[local] Instance Library : Testing world := {|
  Fake_t := unit;
  FakeDiscovery_t := unit;
  Tracker_t := unit;
  Decoder_t := unit;
  Selector_t := option string;
  UniversalDecoder _ := tt;
  labels_Everything := None;
  Matches := has_label;
  ExtractLabels opts := Some (label_of opts);
  NewFake w := (tt, mkWorld (objects w) false);
  NewFakeDiscovery _ := tt;
  AddReactor _ verb resource _ w := mkWorld (objects w) ((verb =?s "*") && (resource =?s "*"));
  AddWatchReactor _ _ _ w := w;
  Invokes _ a zero w :=
    if reacting w then
      let '((handled, ret, err), w) := react a w in (if handled then (ret, err) else (Some zero, None), w)
    else ((Some zero, None), w);
  InvokesWatch _ _ w := (Ok tt, w);
  NewObjectTracker _ _ w := (tt, mkWorld ∅ false);
  tracker_Add _ obj w :=
    match obj with
    | ConfigObject c => let '(r, w) := serve_create (key_of c) (Some c) w in (res_error r, w)
    | _ => (None, w)
    end;
  tracker_Watch _ _ _ w := (Ok tt, w);
  ObjectReaction _ := react;
|}.

Definition tracks (o : unit) (w : world) (s : store) : Prop := objects w = s.
Definition backed (f o : unit) (w : world) : Prop := reacting w = true.

#[local] Instance Server_laws : ServerLaws cluster tracks.
Proof.
  split; cbn; unfold tracks, serve_get, serve_create, serve_update; intros [] w s ns; intros.
  - subst s. split; [done|]. destruct (objects w !! _); [done|]. by do 2 eexists.
  - subst s. split; [done|]. do 2 eexists. split; [reflexivity|]. unfold in_namespace, label_of, selected, selector_of. cbn. done.
  - subst s. destruct (complete _) as [c|]; [|split; [done|]; by do 2 eexists].
    destruct (objects w !! _) eqn:Hs; cbn; [|done]. split; [done|]. by do 2 eexists.
  - subst s. destruct (complete _) as [c|]; [|split; [done|]; by do 2 eexists].
    destruct (objects w !! _) eqn:Hs; cbn; [by left|]. split; [done|]. by do 2 eexists.
  - subst s. destruct (objects w !! _) eqn:Hs; cbn; [done|]. symmetry. unfold serve_delete. cbn. by rewrite delete_id.
Qed.

Lemma react_reacting a w : reacting (react a w).2 = reacting w.
Proof.
  destruct a as [| | |? ? []|? ? []| | | |]; cbn; try done; unfold serve_create, serve_update; by destruct (objects w !! _).
Qed.

#[local] Instance Library_laws : TestingLaws tracks backed.
Proof.
  split; cbn; unfold tracks, backed, serve_get, serve_create, serve_update; try (intros; done).
  - intros _ w s c <- Hs. by rewrite Hs.
  - intros _ _ w s a zero <- Hb. exists w. split; [done|]. rewrite Hb. pose proof (react_reacting a w) as Hr.
    destruct (react a w) as [[[handled ret] err] w']. cbn in Hr. split; [done|congruence].
  - intros _ w s ns name <-. destruct (objects w !! _); cbn; split_and!; eauto.
  - intros _ w s ns opts <- Hne. rewrite (bool_decide_eq_false_2 _ Hne). split_and!; try done. do 2 eexists. split; [reflexivity|]. unfold in_namespace. do 2 f_equiv.
    apply reflexive_eq, map_filter_ext. cbn. tauto.
  - intros _ w s ns c <- _. destruct (objects w !! _); cbn; split_and!; eauto.
  - intros _ w s ns c <- _. destruct (objects w !! _); cbn; split_and!; eauto.
  - intros _ w s ns name opts <-. destruct (objects w !! _) eqn:Hs; cbn; split_and!; try done. symmetry. by rewrite delete_id.
Qed.

(** Reads a configuration, stores another and lists those with a label. *)
Definition offered : ServiceOffering := mkServiceOffering "service" "id" "a service" [] [] false None None false [].
Definition bound : ConfigurationBinding :=
  mkConfigurationBinding "binding" RegistryScopeInstanceLocal "" "service" "plan" (mkTemplateList [] [] [] None) None.
Definition spec : ServiceBrokerConfigSpec := mkConfigSpec (mkServiceCatalog [offered]) [] [bound].
Definition labelled : ServiceBrokerConfig := mkConfig "other" "ns" {["app" := "broker"]} spec (mkConfigStatus []).
Definition unlabelled : ServiceBrokerConfig := mkConfig "broker" "ns" ∅ spec (mkConfigStatus []).

Definition session : client (answer * answer) :=
  Ask (RGet "broker") (fun got => Ask (RCreate labelled) (fun _ => Ask (RList "app") (fun listed => Return (got, listed)))).

Lemma fake_stands_in_witness :
  exists package cs w1 w2 w2',
    NewSimpleClientset package [ConfigObject unlabelled] (mkWorld ∅ false) = (Ok cs, w1) /\
    run_client (ServiceBrokerConfigs_ (Fake.ServicebrokerV1alpha1 cs) "ns") session w1 =
      (Ok (AConfig (Ok (Some unlabelled)), AList (Ok (Some [labelled]))), w2) /\
    run_client (C := ServiceBrokerConfigs.serviceBrokerConfigs world) (ServiceBrokerConfigs.mkServiceBrokerConfigs tt "ns") session (mkWorld (store_of [unlabelled]) false) =
      (Ok (AConfig (Ok (Some unlabelled)), AList (Ok (Some [labelled]))), w2') /\
    exists s, spec_run "ns" (store_of [unlabelled]) session (AConfig (Ok (Some unlabelled)), AList (Ok (Some [labelled]))) s.
Proof.
  assert (exists package, package_fake = Ret package) as [package Hp] by (by eexists).
  destruct (@fake_stands_in world _ Server Schemes Library cluster tracks tracks backed _ _ _ package [unlabelled] (mkWorld ∅ false) tt
    (mkWorld (store_of [unlabelled]) false) "ns" session) as [(cs & w1 & a & w2 & s & Hcs & Ha & Hr & _) (a' & w2' & s' & Ha' & _)].
  - exact Hp.
  - apply NoDup_singleton.
  - done.
  - assert (has_namespace cluster "ns") by (by left). repeat (constructor; [by split_and!|intros ?]). constructor.
  - exists package, cs, w1, w2, w2'. split; [exact Hcs|].
    injection Hp as <-. injection Hcs as <- <-. vm_compute in Ha, Ha'. injection Ha as <- <-. injection Ha' as <- <-.
    split; [vm_compute; reflexivity|]. split; [vm_compute; reflexivity|]. exists s. exact Hr.
Defined.
End FakeWitness.
