(* ===== verification/Informers.v ===== *)
(** * The generated informers and listers ([src/generated/informers],
    [src/generated/listers])

    The informer of the configuration resource (what it lists and watches), the
    factory that shares one informer per type and starts each of them once, and
    the listers. The cache of [client-go] is a parameter: an informer is the
    record of what it was made with, and is known by its place in memory. *)

From S2P Require Import Prelude Errors Types Platform Clientset.
From stdpp Require Import relations.
From Stdlib Require Import Lia.

Local Open Scope broker_scope.

(** ** The informer of configurations ([v1alpha1/servicebrokerconfig.go]) *)

Definition TweakListOptionsFunc : Type := ListOptions -> ListOptions.

(** [reflect.TypeOf(&v1alpha1.ServiceBrokerConfig{})] *)
Definition ServiceBrokerConfigType : string := "*v1alpha1.ServiceBrokerConfig".

(** [cache.NamespaceIndex] *)
Definition NamespaceIndex : string := "namespace".

Section Informers.
Context `{ClientGo W}.

(** [cache.ListWatch] *)
Record ListWatch : Type := mkListWatch {
  ListFunc : ListOptions -> W -> (ServiceBrokerConfigList * option error) * W;
  WatchFunc : ListOptions -> W -> result watch_Interface * W;
}.

(** What [cache.NewSharedIndexInformer] was called with. *)
Record SharedIndexInformer : Type := mkInformer {
  informer_ListWatch : ListWatch;
  informer_Type : string;
  informer_Resync : Z;
  informer_Indexers : list string;
}.

Definition configs_of (client : Set_.Clientset) (namespace : string) : ServiceBrokerConfigs.serviceBrokerConfigs W :=
  Typed.ServiceBrokerConfigs_ (Set_.ServicebrokerV1alpha1 client) namespace.

Definition NewFilteredServiceBrokerConfigInformer (client : Set_.Clientset) (namespace : string) (resyncPeriod : Z)
    (indexers : list string) (tweakListOptions : option TweakListOptionsFunc) : SharedIndexInformer :=
  mkInformer
    (mkListWatch
       (fun options =>
          let options := match tweakListOptions with Some tweak => tweak options | None => options end in
          ServiceBrokerConfigs.List_ (configs_of client namespace) options)
       (fun options =>
          let options := match tweakListOptions with Some tweak => tweak options | None => options end in
          ServiceBrokerConfigs.Watch (configs_of client namespace) options))
    ServiceBrokerConfigType resyncPeriod indexers.

Definition NewServiceBrokerConfigInformer (client : Set_.Clientset) (namespace : string) (resyncPeriod : Z)
    (indexers : list string) : SharedIndexInformer :=
  NewFilteredServiceBrokerConfigInformer client namespace resyncPeriod indexers None.

(** ** The factory ([factory.go]) *)

(** Informers in memory, and those whose [Run] has been started in a goroutine. *)
Record memory : Type := mkMemory {
  allocated : list SharedIndexInformer;
  running : list nat;
}.

(** The new informer that [cache.NewSharedIndexInformer] returns. *)
Definition new_informer (i : SharedIndexInformer) (m : memory) : nat * memory :=
  (length (allocated m), mkMemory (allocated m ++ [i]) (running m)).

(** [internalinterfaces.NewInformerFunc]: a function of the caller, which returns
    an informer, a new one or one that there was. *)
Definition NewInformerFunc : Type := Set_.Clientset -> Z -> memory -> nat * memory.

Record sharedInformerFactory : Type := mkFactory {
  factory_client : Set_.Clientset;
  factory_namespace : string;
  factory_tweakListOptions : option TweakListOptionsFunc;
  factory_defaultResync : Z;
  factory_customResync : gmap string Z;
  factory_informers : gmap string nat;
  factory_startedInformers : gmap string bool;
}.

Definition SharedInformerOption : Type := sharedInformerFactory -> sharedInformerFactory.

(** The types of the objects of the configuration, in the order in which
    [range] visits them. *)
Definition WithCustomResyncConfig (resyncConfig : list (string * Z)) : SharedInformerOption := fun f =>
  mkFactory (factory_client f) (factory_namespace f) (factory_tweakListOptions f) (factory_defaultResync f)
    (foldl (fun m kv => <[kv.1 := kv.2]> m) (factory_customResync f) resyncConfig)
    (factory_informers f) (factory_startedInformers f).

Definition WithTweakListOptions (tweakListOptions : option TweakListOptionsFunc) : SharedInformerOption := fun f =>
  mkFactory (factory_client f) (factory_namespace f) tweakListOptions (factory_defaultResync f)
    (factory_customResync f) (factory_informers f) (factory_startedInformers f).

Definition WithNamespace (namespace : string) : SharedInformerOption := fun f =>
  mkFactory (factory_client f) namespace (factory_tweakListOptions f) (factory_defaultResync f)
    (factory_customResync f) (factory_informers f) (factory_startedInformers f).

(** [v1.NamespaceAll] is the empty string. *)
Definition NewSharedInformerFactoryWithOptions (client : Set_.Clientset) (defaultResync : Z)
    (options : list SharedInformerOption) : sharedInformerFactory :=
  foldl (fun factory opt => opt factory) (mkFactory client "" None defaultResync ∅ ∅ ∅) options.

Definition NewSharedInformerFactory (client : Set_.Clientset) (defaultResync : Z) : sharedInformerFactory :=
  NewSharedInformerFactoryWithOptions client defaultResync [].

Definition NewFilteredSharedInformerFactory (client : Set_.Clientset) (defaultResync : Z) (namespace : string)
    (tweakListOptions : option TweakListOptionsFunc) : sharedInformerFactory :=
  NewSharedInformerFactoryWithOptions client defaultResync [WithNamespace namespace; WithTweakListOptions tweakListOptions].

(** Whether [startedInformers] says so: a missing key reads as false. *)
Definition is_started (f : sharedInformerFactory) (informerType : string) : bool :=
  default false (factory_startedInformers f !! informerType).

(** One turn of the loop of [Start]. *)
Definition start_one (s : sharedInformerFactory * memory) (informerType : string) : sharedInformerFactory * memory :=
  let '(f, m) := s in
  match factory_informers f !! informerType with
  | None => s
  | Some informer =>
      if is_started f informerType then s
      else (mkFactory (factory_client f) (factory_namespace f) (factory_tweakListOptions f) (factory_defaultResync f)
              (factory_customResync f) (factory_informers f) (<[informerType := true]> (factory_startedInformers f)),
            mkMemory (allocated m) (running m ++ [informer]))
  end.

(** [Start], which visits the types in this order. *)
Definition Factory_Start (order : list string) (s : sharedInformerFactory * memory) : sharedInformerFactory * memory :=
  foldl start_one s order.

(** [WaitForCacheSync]; [synced] is what [cache.WaitForCacheSync] answers for an informer. *)
Definition Factory_WaitForCacheSync (synced : nat -> bool) (f : sharedInformerFactory) : gmap string bool :=
  synced <$> filter (fun kv => is_started f kv.1 = true) (factory_informers f).

Definition InformerFor (objType : string) (newFunc : NewInformerFunc) (s : sharedInformerFactory * memory)
    : nat * (sharedInformerFactory * memory) :=
  let '(f, m) := s in
  match factory_informers f !! objType with
  | Some informer => (informer, s)
  | None =>
      let resyncPeriod := default (factory_defaultResync f) (factory_customResync f !! objType) in
      let '(informer, m) := newFunc (factory_client f) resyncPeriod m in
      (informer,
       (mkFactory (factory_client f) (factory_namespace f) (factory_tweakListOptions f) (factory_defaultResync f)
          (factory_customResync f) (<[objType := informer]> (factory_informers f)) (factory_startedInformers f), m))
  end.

(** [serviceBrokerConfigInformer], with the factory it goes back to. *)
Record serviceBrokerConfigInformer : Type := mkConfigInformer {
  informer_tweakListOptions : option TweakListOptionsFunc;
  informer_namespace : string;
}.

Definition defaultInformer (i : serviceBrokerConfigInformer) : NewInformerFunc := fun client resyncPeriod =>
  new_informer (NewFilteredServiceBrokerConfigInformer client (informer_namespace i) resyncPeriod [NamespaceIndex]
                  (informer_tweakListOptions i)).

Definition Informer (i : serviceBrokerConfigInformer) (s : sharedInformerFactory * memory) :=
  InformerFor ServiceBrokerConfigType (defaultInformer i) s.

(** [group] and [version] hand on what the factory was made with. *)
Record group : Type := mkGroup { group_namespace : string; group_tweakListOptions : option TweakListOptionsFunc }.
Record version : Type := mkVersion { version_namespace : string; version_tweakListOptions : option TweakListOptionsFunc }.

Definition Servicebroker (f : sharedInformerFactory) : group := mkGroup (factory_namespace f) (factory_tweakListOptions f).
Definition V1alpha1 (g : group) : version := mkVersion (group_namespace g) (group_tweakListOptions g).
Definition ServiceBrokerConfigsInformer (v : version) : serviceBrokerConfigInformer :=
  mkConfigInformer (version_tweakListOptions v) (version_namespace v).

(** ** [generic.go] *)

Record GroupVersionResource : Type := mkGVR { gvr_Group : string; gvr_Version : string; gvr_Resource : string }.

#[global] Instance GroupVersionResource_eq_dec : EqDecision GroupVersionResource.
Proof. solve_decision. Defined.

Record genericInformer : Type := mkGenericInformer { generic_informer : nat; generic_resource : string * string }.

Definition configs_resource : GroupVersionResource :=
  mkGVR SchemeGroupVersion.1 SchemeGroupVersion.2 ServiceBrokerConfigs.resource.

Definition ForResource (resource : GroupVersionResource) (s : sharedInformerFactory * memory)
    : result genericInformer * (sharedInformerFactory * memory) :=
  if decide (resource = configs_resource) then
    let '(informer, s) := Informer (ServiceBrokerConfigsInformer (V1alpha1 (Servicebroker s.1))) s in
    (Ok (mkGenericInformer informer (gvr_Group resource, gvr_Resource resource)), s)
  else
    (Err (plainError ("no informer found for " +++ gvr_Group resource +++ "/" +++ gvr_Version resource +++
                      ", Resource=" +++ gvr_Resource resource)), s).
End Informers.
Arguments SharedIndexInformer W {_}.
Arguments memory W {_}.
Arguments sharedInformerFactory W {_ _}.

(** ** Listers ([listers/servicebroker/v1alpha1]) *)

(** The indexer of [client-go]; an object is [None] when it is not a
    [*v1alpha1.ServiceBrokerConfig]. The list functions pass the objects that
    they find to a function, and then report an error. *)
Class Cache : Type := {
  Indexer : Type;
  Selector : Type;
  GetByKey : Indexer -> string -> result (option (option ServiceBrokerConfig));
  ListAll : Indexer -> Selector -> list (option ServiceBrokerConfig) * option error;
  ListAllByNamespace : Indexer -> string -> Selector -> list (option ServiceBrokerConfig) * option error;
  NewNotFound : string * string -> string -> error;
  GetIndexer : nat -> Indexer;                       (* of the informer at this place *)
  GenericLister : Type;
  NewGenericLister : Indexer -> string * string -> GenericLister;
}.

Module Lister.
Section Lister.
Context `{Cache}.

Definition not_a_config {A} : prog A := Halt (Panic "interface conversion").

(** The function that the list functions call: it asserts the type of the object
    and appends it. *)
Fixpoint append_all (ret : list ServiceBrokerConfig) (l : list (option ServiceBrokerConfig)) : prog (list ServiceBrokerConfig) :=
  match l with
  | [] => Ret ret
  | Some c :: l => append_all (ret ++ [c]) l
  | None :: _ => not_a_config
  end.

Record serviceBrokerConfigLister : Type := mkConfigLister { indexer : Indexer }.

Definition NewServiceBrokerConfigLister (indexer : Indexer) : serviceBrokerConfigLister := mkConfigLister indexer.

Definition List_ (s : serviceBrokerConfigLister) (selector : Selector) : prog (list ServiceBrokerConfig * option error) :=
  let '(objects, err) := ListAll (indexer s) selector in
  ret <- append_all [] objects ;; Ret (ret, err).

Record serviceBrokerConfigNamespaceLister : Type := mkNamespaceLister {
  lister_indexer : Indexer;
  lister_namespace : string;
}.

Definition ServiceBrokerConfigs_ (s : serviceBrokerConfigLister) (namespace : string) : serviceBrokerConfigNamespaceLister :=
  mkNamespaceLister (indexer s) namespace.

Definition NamespaceList (s : serviceBrokerConfigNamespaceLister) (selector : Selector)
    : prog (list ServiceBrokerConfig * option error) :=
  let '(objects, err) := ListAllByNamespace (lister_indexer s) (lister_namespace s) selector in
  ret <- append_all [] objects ;; Ret (ret, err).

Definition Get (s : serviceBrokerConfigNamespaceLister) (name : string) : prog (result ServiceBrokerConfig) :=
  match GetByKey (lister_indexer s) (lister_namespace s +++ "/" +++ name) with
  | Err err => Ret (Err err)
  | Ok None => Ret (Err (NewNotFound (SchemeGroupVersion.1, "servicebrokerconfig") name))
  | Ok (Some (Some c)) => Ret (Ok c)
  | Ok (Some None) => not_a_config
  end.

(** The listers of informers. *)
Definition of_informer `{ClientGo W} (i : serviceBrokerConfigInformer) (s : sharedInformerFactory W * memory W)
    : serviceBrokerConfigLister * (sharedInformerFactory W * memory W) :=
  let '(informer, s) := Informer i s in (NewServiceBrokerConfigLister (GetIndexer informer), s).

Definition of_generic (f : genericInformer) : GenericLister :=
  NewGenericLister (GetIndexer (generic_informer f)) (generic_resource f).
End Lister.
End Lister.

(** ** The factory as a state machine *)

Section Factory.
Context `{ClientGo W}.

Abbreviation state := (sharedInformerFactory W * memory W)%type.

(** The options that the package offers. *)
Inductive offered : SharedInformerOption -> Prop :=
  | offered_resync resyncConfig : offered (WithCustomResyncConfig resyncConfig)
  | offered_tweak tweakListOptions : offered (WithTweakListOptions tweakListOptions)
  | offered_namespace namespace : offered (WithNamespace namespace).

(** [Start] visits every type that has an informer. *)
Definition visits (order : list string) (f : sharedInformerFactory W) : Prop :=
  order ≡ₚ (map_to_list (factory_informers f)).*1.

(** A function that makes a new informer, as those that the generated code hands
    to [InformerFor] do ([defaultInformer_new]). *)
Definition makes_new (newFunc : NewInformerFunc (W := W)) : Prop :=
  forall client resyncPeriod, exists i, forall m, newFunc client resyncPeriod m = new_informer i m.

Lemma defaultInformer_new i : makes_new (defaultInformer i).
Proof. intros client resyncPeriod. by eexists. Qed.

(** The methods hold the mutex of the factory: they happen one after the other. *)
Inductive factory_step : state -> state -> Prop :=
  | step_informer t newFunc s : makes_new newFunc -> factory_step s (InformerFor t newFunc s).2
  | step_resource resource s : factory_step s (ForResource resource s).2
  | step_start order s : visits order s.1 -> factory_step s (Factory_Start order s).

Record factory_ok (s : state) : Prop := {
  ok_place t p : factory_informers s.1 !! t = Some p -> p < length (allocated s.2);
  ok_shared t1 t2 p : factory_informers s.1 !! t1 = Some p -> factory_informers s.1 !! t2 = Some p -> t1 = t2;
  ok_once : NoDup (running s.2);
  ok_running p : p ∈ running s.2 -> exists t, factory_informers s.1 !! t = Some p /\ is_started s.1 t = true;
  ok_started t : is_started s.1 t = true -> exists p, factory_informers s.1 !! t = Some p /\ p ∈ running s.2;
}.

Lemma offered_options (f : sharedInformerFactory W) options :
  Forall offered options ->
  let f' := foldl (fun factory opt => opt factory) f options in
  factory_informers f' = factory_informers f /\ factory_startedInformers f' = factory_startedInformers f.
Proof.
  intros Ho. revert f. induction Ho as [|o options Ho _ IH]; intros f; [done|]. cbn [foldl].
  destruct (IH (o f)) as [-> ->]. by destruct Ho.
Qed.

Lemma factory_start client resync options :
  Forall offered options -> factory_ok (NewSharedInformerFactoryWithOptions client resync options, mkMemory [] []).
Proof.
  intros Ho. unfold NewSharedInformerFactoryWithOptions. set (f0 := mkFactory _ _ _ _ _ _ _).
  destruct (offered_options f0 options Ho) as [Hi Hs]. split; cbn [fst snd allocated running]; unfold is_started; rewrite ?Hi, ?Hs; cbn.
  - intros t p Hp. by rewrite lookup_empty in Hp.
  - intros t1 t2 p Hp. by rewrite lookup_empty in Hp.
  - constructor.
  - intros p Hp. by apply not_elem_of_nil in Hp.
  - intros t Ht. by rewrite lookup_empty in Ht.
Qed.

Lemma InformerFor_ok t newFunc s : makes_new newFunc -> factory_ok s -> factory_ok (InformerFor t newFunc s).2.
Proof.
  destruct s as [f m]. intros Hnew Hok. pose proof Hok as [Hp Hsh Hon Hr Hst]. unfold InformerFor. cbn [fst snd] in *.
  destruct (factory_informers f !! t) as [p|] eqn:Ht; [done|].
  assert (forall t' p, factory_informers f !! t' = Some p -> t' <> t) as Hne by (intros t' p Ht' ->; congruence).
  destruct (Hnew (factory_client f) (default (factory_defaultResync f) (factory_customResync f !! t))) as [i Hi].
  rewrite Hi. unfold new_informer.
  split; cbn [fst snd factory_informers allocated running]; unfold is_started in *; cbn [factory_startedInformers].
  - intros t' p [[<- <-]|[_ Hl]]%lookup_insert_Some; rewrite length_app; cbn; [lia|]. apply Hp in Hl. lia.
  - intros t1 t2 p [[<- <-]|[_ H1']]%lookup_insert_Some [[<- ?]|[_ H2']]%lookup_insert_Some; [done|..].
    + apply Hp in H2'. lia.
    + subst p. apply Hp in H1'. lia.
    + by eapply Hsh.
  - done.
  - intros p (t' & Ht' & Hs)%Hr. exists t'. rewrite lookup_insert_ne by (apply not_eq_sym; by eapply Hne). done.
  - intros t' (p & Ht' & Hin)%Hst. exists p. rewrite lookup_insert_ne by (apply not_eq_sym; by eapply Hne). done.
Qed.

Lemma start_one_ok s t :
  factory_ok s ->
  factory_ok (start_one s t) /\ factory_informers (start_one s t).1 = factory_informers s.1 /\
  (forall t', is_started s.1 t' = true -> is_started (start_one s t).1 t' = true) /\
  (is_Some (factory_informers s.1 !! t) -> is_started (start_one s t).1 t = true).
Proof.
  destruct s as [f m]. intros Hok. pose proof Hok as [Hp Hsh Hon Hr Hst]. unfold start_one. cbn [fst snd] in *.
  destruct (factory_informers f !! t) as [p|] eqn:Ht; [|split; [done|]; split; [done|]; split; [done|by intros []]].
  destruct (is_started f t) eqn:Hs; [done|]. cbn [fst snd factory_informers].
  assert (forall t', is_started f t' = true -> default false (<[t := true]> (factory_startedInformers f) !! t') = true) as Hmono.
  { intros t' Ht'. destruct (decide (t = t')) as [<-|Hne]; [by rewrite lookup_insert_eq|]. by rewrite lookup_insert_ne. }
  assert (default false (<[t := true]> (factory_startedInformers f) !! t) = true) as Hnow by (by rewrite lookup_insert_eq).
  split; [|done]. split; cbn [fst snd factory_informers allocated running]; try (unfold is_started at 1; cbn [factory_startedInformers]).
  - done.
  - done.
  - apply NoDup_app. split; [done|]. split; [|apply NoDup_singleton]. intros q Hq ->%list_elem_of_singleton.
    destruct (Hr p Hq) as (t' & Ht' & Hs'). rewrite (Hsh t' t p Ht' Ht) in Hs'. congruence.
  - intros q [(t' & Ht' & Hs')%Hr| ->%list_elem_of_singleton]%elem_of_app; [exists t'; auto|by exists t].
  - intros t' Ht'. destruct (decide (t = t')) as [<-|Hne]; [exists p; split; [done|set_solver]|].
    rewrite lookup_insert_ne in Ht' by done. destruct (Hst t' Ht') as (q & Hq & Hin). exists q. split; [done|set_solver].
Qed.

Lemma Start_ok order s :
  factory_ok s ->
  factory_ok (Factory_Start order s) /\ factory_informers (Factory_Start order s).1 = factory_informers s.1 /\
  (forall t, is_started s.1 t = true -> is_started (Factory_Start order s).1 t = true) /\
  (forall t, t ∈ order -> is_Some (factory_informers s.1 !! t) -> is_started (Factory_Start order s).1 t = true).
Proof.
  unfold Factory_Start. revert s. induction order as [|t order IH]; intros s Hok; [split; [done|]; split; [done|]; split; [done|set_solver]|].
  cbn [foldl]. destruct (start_one_ok s t Hok) as (Hok1 & Hi1 & Hm1 & Hn1). destruct (IH _ Hok1) as (Hok2 & Hi2 & Hm2 & Hn2).
  split; [done|]. split; [congruence|]. split; [auto|]. intros t' [->|Ht']%elem_of_cons Hsome; [auto|].
  apply Hn2; [done|]. by rewrite Hi1.
Qed.

Lemma factory_step_ok s s' : factory_step s s' -> factory_ok s -> factory_ok s'.
Proof.
  intros [t newFunc s0 Hnew|resource s0|order s0 _] Hok; [by apply InformerFor_ok| |by apply Start_ok].
  unfold ForResource. destruct (decide _); [|done].
  pose proof (InformerFor_ok ServiceBrokerConfigType
    (defaultInformer (ServiceBrokerConfigsInformer (V1alpha1 (Servicebroker s0.1)))) s0 (defaultInformer_new _) Hok) as Hi.
  unfold Informer. by destruct (InformerFor _ _ s0).
Qed.

Lemma factory_steps_ok s s' : rtc factory_step s s' -> factory_ok s -> factory_ok s'.
Proof. intros Hs. induction Hs as [s|s1 s2 s3 H12 _ IH]; [done|]. intros Hok. by eapply IH, factory_step_ok. Qed.

(** C40: informers are shared and started once. However often and in which order the
    methods of a factory are called, each time with a function that makes a new
    informer: a type has one informer, which every later
    request for it returns, and no informer serves two types; no informer is run
    twice, and it runs exactly when the factory remembers that it was started;
    after [Start], all that have been asked for run, and [WaitForCacheSync]
    reports exactly those. *)
Theorem informers_started_once client resync options f m :
  Forall offered options ->
  rtc factory_step (NewSharedInformerFactoryWithOptions client resync options, mkMemory [] []) (f, m) ->
  (forall t p newFunc, factory_informers f !! t = Some p -> InformerFor t newFunc (f, m) = (p, (f, m))) /\
  (forall t1 t2 p, factory_informers f !! t1 = Some p -> factory_informers f !! t2 = Some p -> t1 = t2) /\
  NoDup (running m) /\
  (forall t p, factory_informers f !! t = Some p -> p ∈ running m <-> is_started f t = true) /\
  (forall order, visits order f -> let '(f', m') := Factory_Start order (f, m) in
     factory_informers f' = factory_informers f /\
     (forall t p, factory_informers f !! t = Some p -> p ∈ running m') /\
     forall synced, Factory_WaitForCacheSync synced f' = synced <$> factory_informers f).
Proof.
  intros Ho Hsteps. pose proof (factory_steps_ok _ _ Hsteps (factory_start client resync options Ho)) as Hok.
  assert (forall s : state, factory_ok s -> forall t p, factory_informers s.1 !! t = Some p -> p ∈ running s.2 <-> is_started s.1 t = true) as Hiff.
  { intros s [_ Hsh _ Hr Hst] t p Ht. split.
    - intros (t' & Ht' & Hs)%Hr. by rewrite (Hsh t t' p Ht Ht').
    - intros (q & Hq & Hin)%Hst. congruence. }
  split; [intros t p newFunc Ht; unfold InformerFor; by rewrite Ht|]. split; [apply (ok_shared _ Hok)|].
  split; [apply (ok_once _ Hok)|]. split; [apply (Hiff (f, m) Hok)|].
  intros order Hv. pose proof (Start_ok order (f, m) Hok) as Hstart. destruct (Factory_Start order (f, m)) as [f' m']. cbn [fst] in Hstart.
  destruct Hstart as (Hok' & Hi & _ & Hall).
  assert (forall t, is_Some (factory_informers f !! t) -> is_started f' t = true) as Hs.
  { intros t [p Ht]. apply Hall; [|by exists p]. unfold visits in Hv. rewrite Hv. apply list_elem_of_fmap. exists (t, p).
    split; [done|by apply elem_of_map_to_list]. }
  split; [exact Hi|]. split.
  - intros t p Ht. apply (Hiff (f', m') Hok' t); cbn; [by rewrite Hi|apply Hs; by exists p].
  - intros synced. unfold Factory_WaitForCacheSync. rewrite Hi. f_equal. apply map_filter_id. intros t p Ht. cbn. apply Hs. by exists p.
Qed.

(** What an informer asks for. The informer of a factory, got by its resource, lists
    and watches the configurations of the namespace of the factory with the
    options of the caller, filtered by the factory's function; a watch says that
    it is one; its resynchronization period is the one set for its type, or the
    default; no other resource has an informer. *)
Lemma informer_requests resource (f : sharedInformerFactory W) (m : memory W) :
  factory_informers f !! ServiceBrokerConfigType = None ->
  match (ForResource resource (f, m)).1 with
  | Err _ => resource <> configs_resource /\ (ForResource resource (f, m)).2 = (f, m)
  | Ok g => resource = configs_resource /\
      exists i, allocated (ForResource resource (f, m)).2.2 !! generic_informer g = Some i /\
        informer_Resync i = default (factory_defaultResync f) (factory_customResync f !! ServiceBrokerConfigType) /\
        forall options w,
          let c := Typed.restClient (Set_.ServicebrokerV1alpha1 (factory_client f)) in
          let o := default id (factory_tweakListOptions f) options in
          ListFunc (informer_ListWatch i) options w =
            (let '(r, w') := rest_Do c (mkRestRequest GetVerb
               [Namespace_ (factory_namespace f); Resource_ "servicebrokerconfigs";
                VersionedParams (ListParamsOf o); Timeout (timeout_of o)]) w in
             (rest_IntoList r (mkConfigList ∅ []), w')) /\
          WatchFunc (informer_ListWatch i) options w =
            rest_Watch c (mkRestRequest GetVerb
              [Namespace_ (factory_namespace f); Resource_ "servicebrokerconfigs";
               VersionedParams (ListParamsOf (mkListOptions (list_TimeoutSeconds o) true (list_Other o)));
               Timeout (timeout_of o)]) w
  end.
Proof.
  intros Hnew. unfold ForResource. destruct (decide (resource = configs_resource)) as [->|Hne]; [|done].
  unfold Informer, InformerFor. rewrite Hnew. cbn [fst snd generic_informer allocated]. split; [done|].
  eexists. split; [by apply list_lookup_middle|]. split; [done|]. intros options w. cbn. by destruct (factory_tweakListOptions f).
Qed.
End Factory.

(** ** Listers *)

Section Listers.
Context `{Cache}.

Lemma append_all_configs ret l : Lister.append_all ret (Some <$> l) = Ret (ret ++ l).
Proof.
  revert ret. induction l as [|c l IH]; intros ret; cbn; [by rewrite app_nil_r|]. by rewrite IH, <- app_assoc.
Qed.

(** What the listers promise. When the indexer holds configurations only, listing
    answers those that the library finds, with its error, and [Get] looks the
    name up in its namespace: it answers the configuration, an error of the
    indexer, or that there is none. *)
Lemma lister_answers indexer namespace selector name :
  let lister := Lister.NewServiceBrokerConfigLister indexer in
  (forall l err, ListAll indexer selector = (Some <$> l, err) -> Lister.List_ lister selector = Ret (l, err)) /\
  (forall l err, ListAllByNamespace indexer namespace selector = (Some <$> l, err) ->
     Lister.NamespaceList (Lister.ServiceBrokerConfigs_ lister namespace) selector = Ret (l, err)) /\
  (forall r, GetByKey indexer (namespace +++ "/" +++ name) = r ->
     match r with Ok (Some None) => False | _ => True end ->
     Lister.Get (Lister.ServiceBrokerConfigs_ lister namespace) name =
       Ret (match r with
            | Ok (Some (Some c)) => Ok c
            | Ok _ => Err (NewNotFound (SchemeGroupVersion.1, "servicebrokerconfig") name)
            | Err err => Err err
            end)).
Proof.
  intros lister. split; [|split].
  - intros l err Hl. unfold Lister.List_. cbn [Lister.indexer lister Lister.NewServiceBrokerConfigLister]. by rewrite Hl, append_all_configs.
  - intros l err Hl. unfold Lister.NamespaceList. cbn [Lister.lister_indexer Lister.lister_namespace Lister.ServiceBrokerConfigs_ Lister.indexer lister Lister.NewServiceBrokerConfigLister].
    by rewrite Hl, append_all_configs.
  - intros r Hr Hc. unfold Lister.Get. cbn [Lister.lister_indexer Lister.lister_namespace Lister.ServiceBrokerConfigs_ Lister.indexer lister Lister.NewServiceBrokerConfigLister].
    rewrite Hr. by destruct r as [[[c|]|]|err].
Qed.
End Listers.

Module InformerWitness.

(** A REST client that remembers its requests. *)
#[local] Instance Recorder : RestClient (list rest_request) := {|
  rest_Interface := unit;
  rest_Result := unit;
  watch_Interface := unit;
  rest_Do _ r w := (tt, w ++ [r]);
  rest_Watch _ r w := (Ok tt, w ++ [r]);
  rest_Into _ c := (c, None);
  rest_IntoList _ l := (l, None);
  rest_Error _ := None;
|}.

#[local] Instance Types : ClientGoTypes := {|
  float32 := Z;
  float32_positive := Z.ltb 0;
  RateLimiter_t := Z * Z;
  Serializer_t := unit;
  http_Client := unit;
  discovery_Client := unit;
  other_Config := unit;
|}.

#[local] Instance Library : ClientGo (list rest_request) := {|
  NewTokenBucketRateLimiter qps burst := (qps, burst);
  WithoutConversion := tt;
  DefaultKubernetesUserAgent := "agent";
  HTTPClientFor _ := Ok tt;
  RESTClientForConfigAndClient _ _ := Ok tt;
  NewDiscoveryClientForConfigAndClient _ _ := Ok tt;
  NewDiscoveryClient _ := tt;
|}.

Definition factory : sharedInformerFactory (list rest_request) :=
  NewFilteredSharedInformerFactory (Set_.New tt) 60 "ns" None.

(** The informer is asked for twice, started, and started again. *)
Definition used : sharedInformerFactory (list rest_request) * memory (list rest_request) :=
  let s := (ForResource configs_resource (factory, mkMemory [] [])).2 in
  let s := (ForResource configs_resource s).2 in
  Factory_Start [ServiceBrokerConfigType] (Factory_Start [ServiceBrokerConfigType] s).

Lemma factory_used : rtc factory_step (factory, mkMemory [] []) (used.1, used.2).
Proof.
  eapply rtc_l; [apply (step_resource configs_resource)|]. eapply rtc_l; [apply (step_resource configs_resource)|].
  eapply rtc_l; [apply (step_start [ServiceBrokerConfigType]); vm_compute; reflexivity|].
  eapply rtc_once. apply (step_start [ServiceBrokerConfigType]). vm_compute. reflexivity.
Qed.

Lemma informers_started_once_witness :
  running used.2 = [0] /\ factory_informers used.1 !! ServiceBrokerConfigType = Some 0 /\
  NoDup (running used.2) /\ (0 ∈ running used.2 <-> is_started used.1 ServiceBrokerConfigType = true).
Proof.
  split; [vm_compute; reflexivity|]. assert (factory_informers used.1 !! ServiceBrokerConfigType = Some 0) as Hi by (vm_compute; reflexivity).
  split; [exact Hi|].
  destruct (informers_started_once (factory_client factory) 60 [WithNamespace "ns"; WithTweakListOptions None] used.1 used.2) as (_ & _ & Hn & Hr & _).
  - repeat constructor.
  - exact factory_used.
  - split; [exact Hn|]. exact (Hr _ _ Hi).
Defined.
End InformerWitness.
