(* ===== verification/Command.v ===== *)
(** * The start of the process ([cmd/broker/main.go])

    The flags, the choice of an authentication and the files it is configured
    from, the database of users, and what is set up before the server listens:
    [main], with [ConfigureServer] and [RunServer] of [pkg/broker] and
    [Configure] of [pkg/config].  The environment answers each call; a program
    of this file yields the calls it made and its result. *)

From S2P Require Import Prelude Json Errors Types Platform Vendor Http Auth.

Local Open Scope broker_scope.

Definition ErrFatal : string := "fatal error".
Definition ErrCacheSync : string := "cache synchronization error".
Definition ConfigurationNameDefault : string := "couchbase-service-broker".

(** ** What the process asks of its environment *)

Inductive sys_call : Type :=
  | LookupEnv (name : string)                      (* an error when it is not set *)
  | ReadFile (path : string)
  | SqlOpen (driver dataSource : string)
  | SqlExec (query : string) (args : list string)
  | LoadX509KeyPair (certFile keyFile : string)
  | InClusterConfig                                (* rest.InClusterConfig *)
  | NewForConfig (package : string)                (* kubernetes, servicebroker, dynamic *)
  | GetAPIGroupResources                           (* restmapper.GetAPIGroupResources *)
  | AddToScheme                                    (* apis.AddToScheme *)
  | RunInformer (namespace : string)               (* go informer.Run(stop) *)
  | WaitForCacheSync                               (* an error when it is false *)
  | ListenAndServeTLS (addr : string) (handler : ServerConfiguration).

#[export] Instance ServerConfiguration_eq_dec : EqDecision ServerConfiguration.
Proof.
  assert (EqDecision ServerConfigurationBasicAuth) by solve_decision.
  assert (EqDecision ServerConfigurationAdvancedToken) by solve_decision. solve_decision.
Defined.

#[export] Instance sys_call_eq_dec : EqDecision sys_call.
Proof. solve_decision. Defined.

Definition environment : Type := sys_call -> result string.

(** A program that stops at the first error. *)
Definition startup (A : Type) : Type := environment -> list sys_call * result A.

Definition sret {A} (a : A) : startup A := fun _ => ([], Ok a).

(** [glog.Fatal(err)] *)
Definition fatal {A} (err : error) : startup A := fun _ => ([], Err err).
Definition ask (c : sys_call) : startup string := fun env => ([c], env c).
(** A call whose failure is reported as this error. *)
Definition ask_or (c : sys_call) (err : error) : startup string := fun env =>
  ([c], match env c with Ok a => Ok a | Err _ => Err err end).
(** A call that cannot fail. *)
Definition tell (c : sys_call) : startup unit := fun _ => ([c], Ok tt).
Definition sbind {A B} (p : startup A) (k : A -> startup B) : startup B := fun env =>
  match p env with
  | (calls, Ok a) => let '(calls', r) := k a env in (calls ++ calls', r)
  | (calls, Err err) => (calls, Err err)
  end.

Notation "x <-! p ;; k" := (sbind p (fun x => k))
  (at level 20, p at level 99, k at level 200) : broker_scope.

(** ** Clients ([pkg/client]) *)

(** The mapper is what the discovery API answered. *)
Record clientsImpl : Type := mkClients {
  client_config : string;
  client_kubernetes : string;
  client_broker : string;
  client_dynamic : string;
  client_mapper : string;
}.

Definition getRESTMapper : startup string := ask GetAPIGroupResources.

(** [New]; what it starts in the background is [refresh]. *)
Definition New : startup clientsImpl :=
  config <-! ask InClusterConfig ;;
  kubernetes <-! ask (NewForConfig "kubernetes") ;;
  broker <-! ask (NewForConfig "servicebroker") ;;
  dynamic <-! ask (NewForConfig "dynamic") ;;
  mapper <-! getRESTMapper ;;
  sret (mkClients config kubernetes broker dynamic mapper).

(** One minute of the loop of [refresh]: a failure is logged, and the mapper
    stays. *)
Definition refresh_once (c : clientsImpl) (discovered : result string) : clientsImpl :=
  match discovered with
  | Err _ => c
  | Ok mapper =>
      mkClients (client_config c) (client_kubernetes c) (client_broker c) (client_dynamic c) mapper
  end.

(** The accessors of the interface [Clients]; the lock of [RESTMapper] is modelled in [Mapper]. *)
Definition Kubernetes (c : clientsImpl) : string := client_kubernetes c.
Definition Broker (c : clientsImpl) : string := client_broker c.
Definition Dynamic (c : clientsImpl) : string := client_dynamic c.

(** [refresh], while discovery gives these answers. *)
Definition refresh (c : clientsImpl) (discovered : list (result string)) : clientsImpl := foldl refresh_once c discovered.

(** ** Flags *)

(** [authenticationType] *)
Definition bearerToken : string := "token".
Definition basic : string := "basic".
Definition advancedToken : string := "advancedToken".

(** [authenticationType.Set], of a type that becomes the new one. *)
Definition authentication_Set (s : string) : result string :=
  if bool_decide (s ∈ [bearerToken; basic; advancedToken]) then Ok s
  else Err (wrappedError ErrFatal ("unexpected authentication type " +++ s)).

(** How the command line shows a flag of the type. *)
Definition authentication_Type (a : string) : string := "string".
Definition authentication_String (a : string) : string := a.

Record Flags : Type := mkFlags {
  authentication : string;
  tokenPath : string;
  usernamePath : string;
  passwordPath : string;
  dbhostPath : string;
  dbportPath : string;
  dbuserPath : string;
  dbpasswordPath : string;
  dbnamePath : string;
  jwtsecretPath : string;
  tlsCertificatePath : string;
  tlsPrivateKeyPath : string;
  ConfigurationName : string;
}.

Definition secrets_path (name : string) : string := "/var/run/secrets/service-broker/" +++ name.

Definition default_flags : Flags :=
  mkFlags basic (secrets_path "token") (secrets_path "username") (secrets_path "password") (secrets_path "dbhost")
    (secrets_path "dbport") (secrets_path "dbuser") (secrets_path "dbpassword") (secrets_path "dbname")
    (secrets_path "jwtsecret") (secrets_path "tls-certificate") (secrets_path "tls-private-key")
    ConfigurationNameDefault.

(** One flag of the command line. *)
Definition set_flag (f : Flags) (name v : string) : result Flags :=
  let '(mkFlags a tok user pass host port dbuser dbpass dbname jwt cert key conf) := f in
  if name =?s "authentication" then
    let? a := authentication_Set v in
    Ok (mkFlags a tok user pass host port dbuser dbpass dbname jwt cert key conf)
  else if name =?s "token" then Ok (mkFlags a v user pass host port dbuser dbpass dbname jwt cert key conf)
  else if name =?s "username" then Ok (mkFlags a tok v pass host port dbuser dbpass dbname jwt cert key conf)
  else if name =?s "password" then Ok (mkFlags a tok user v host port dbuser dbpass dbname jwt cert key conf)
  else if name =?s "dbhost" then Ok (mkFlags a tok user pass v port dbuser dbpass dbname jwt cert key conf)
  else if name =?s "dbport" then Ok (mkFlags a tok user pass host v dbuser dbpass dbname jwt cert key conf)
  else if name =?s "dbuser" then Ok (mkFlags a tok user pass host port v dbpass dbname jwt cert key conf)
  else if name =?s "dbpassword" then Ok (mkFlags a tok user pass host port dbuser v dbname jwt cert key conf)
  else if name =?s "dbname" then Ok (mkFlags a tok user pass host port dbuser dbpass v jwt cert key conf)
  else if name =?s "jwtsecret" then Ok (mkFlags a tok user pass host port dbuser dbpass dbname v cert key conf)
  else if name =?s "tls-certificate" then Ok (mkFlags a tok user pass host port dbuser dbpass dbname jwt v key conf)
  else if name =?s "tls-private-key" then Ok (mkFlags a tok user pass host port dbuser dbpass dbname jwt cert v conf)
  else if name =?s "config" then Ok (mkFlags a tok user pass host port dbuser dbpass dbname jwt cert key v)
  else Err (plainError ("flag provided but not defined: -" +++ name)).

(** [flag.Parse], on the names and values of the command line. *)
Fixpoint parse_flags (f : Flags) (args : list (string * string)) : result Flags :=
  match args with
  | [] => Ok f
  | (name, v) :: args => let? f := set_flag f name v in parse_flags f args
  end.

(** ** Authentication *)

Section Command.
Context `{Vendor}.

Definition load_token (f : Flags) (namespace : string) : startup ServerConfiguration :=
  token <-! ask (ReadFile (tokenPath f)) ;;
  sret (mkServerConfiguration namespace (Some token) None None).

Definition load_basic (f : Flags) (namespace : string) : startup ServerConfiguration :=
  username <-! ask (ReadFile (usernamePath f)) ;;
  password <-! ask (ReadFile (passwordPath f)) ;;
  sret (mkServerConfiguration namespace None (Some (mkBasicAuth username password)) None).

(** The host and port that are recorded, after the database has been opened. *)
Definition open_database (host port user password name : string) : startup (string * string) :=
  if ((host =?s "") || (port =?s "")) && (negb (user =?s "") || negb (password =?s "") || negb (name =?s "")) then
    fatal (wrappedError ErrFatal "database host and port must be set if credentials are set")
  else if (host =?s "") && (port =?s "") && (user =?s "") && (password =?s "") && (name =?s "") then
    _ <-! ask (SqlOpen "sqlite3" ":memory:") ;; sret ("localhost", "5432")
  else if (host =?s "") || (port =?s "") || (user =?s "") || (password =?s "") || (name =?s "") then
    fatal (wrappedError ErrFatal "database host, port, user, password and name must be set")
  else
    _ <-! ask (SqlOpen "postgres" ("host=" +++ host +++ " port=" +++ port +++ " user=" +++ user +++
                 " password=" +++ password +++ " dbname=" +++ name +++ " sslmode=disable")) ;;
    sret (host, port).

Definition create_users : string :=
  "CREATE TABLE IF NOT EXISTS users (id SERIAL PRIMARY KEY, username TEXT NOT NULL, hashedpassword TEXT NOT NULL)".
Definition create_bought_services : string :=
  "CREATE TABLE IF NOT EXISTS bought_services (id SERIAL PRIMARY KEY, user_id INTEGER NOT NULL, service_id TEXT NOT NULL, plan_id TEXT NOT NULL, FOREIGN KEY (user_id) REFERENCES users(id))".
Definition insert_user : string :=
  "INSERT INTO users (username, hashedpassword) VALUES ($1, $2) ON CONFLICT DO NOTHING".
Definition defaultUsername : string := "admin".
Definition defaultPassword : string := "password".

Definition create_tables : startup string :=
  _ <-! ask (SqlExec create_users []) ;;
  _ <-! ask (SqlExec create_bought_services []) ;;
  ask (SqlExec insert_user [defaultUsername; sha256_hex defaultPassword]).

Definition load_advanced (f : Flags) (namespace : string) : startup ServerConfiguration :=
  dbhost <-! ask (ReadFile (dbhostPath f)) ;;
  dbport <-! ask (ReadFile (dbportPath f)) ;;
  dbuser <-! ask (ReadFile (dbuserPath f)) ;;
  dbpassword <-! ask (ReadFile (dbpasswordPath f)) ;;
  dbname <-! ask (ReadFile (dbnamePath f)) ;;
  jwtsecret <-! ask (ReadFile (jwtsecretPath f)) ;;
  if jwtsecret =?s "" then fatal (wrappedError ErrFatal "JWT secret must be set")
  else
    address <-! open_database dbhost dbport dbuser dbpassword dbname ;;
    _ <-! create_tables ;;
    sret (mkServerConfiguration namespace None None
            (Some (mkAdvancedToken address.1 address.2 dbname dbuser dbpassword jwtsecret))).

(** The switch on the type; a type that is none of the three configures none. *)
Definition load_authentication (f : Flags) (namespace : string) : startup ServerConfiguration :=
  if authentication f =?s bearerToken then load_token f namespace
  else if authentication f =?s basic then load_basic f namespace
  else if authentication f =?s advancedToken then load_advanced f namespace
  else sret (mkServerConfiguration namespace None None None).

(** ** The server *)

(** [config.Configure], with the informer that will deliver the configuration. *)
Definition Configure (namespace : string) : startup string :=
  _ <-! tell (RunInformer namespace) ;;
  ask_or WaitForCacheSync
    (wrappedError ErrCacheSync "service broker config shared informer failed to syncronize").

Definition ConfigureServer (c : ServerConfiguration) : startup string :=
  _ <-! ask AddToScheme ;;
  Configure (server_Namespace c).

(** Serves until it fails. *)
Definition RunServer (c : ServerConfiguration) : startup string := ask (ListenAndServeTLS ":8443" c).

(** The end of [main]: what it does with the configuration of the server. *)
Definition launch (f : Flags) (c : ServerConfiguration) : startup string :=
  _ <-! ask (LoadX509KeyPair (tlsCertificatePath f) (tlsPrivateKeyPath f)) ;;
  _ <-! New ;;
  _ <-! ConfigureServer c ;;
  RunServer c.

Definition main (f : Flags) : startup string :=
  namespace <-! ask_or (LookupEnv "NAMESPACE") (wrappedError ErrFatal "NAMESPACE environment variable must be set") ;;
  c <-! load_authentication f namespace ;;
  launch f c.
End Command.
