(* ===== verification/CommandFacts.v ===== *)
(** * Properties of the start of the process ([cmd/broker/main.go])

    When the server listens, and as what; and that what listens authenticates
    its requests. *)

From S2P Require Import Prelude Json Errors Types Platform Vendor Sim Fixture Http Auth Command.
From stdpp Require Import list.

Local Open Scope broker_scope.

(** ** Programs that stop at the first error *)

Section Startup.
Implicit Types env : environment.

Definition calls_of {A} (p : startup A) env : list sys_call := (p env).1.
Definition outcome_of {A} (p : startup A) env : result A := (p env).2.

Lemma outcome_bind {A B} (p : startup A) (k : A -> startup B) env :
  outcome_of (sbind p k) env = let? a := outcome_of p env in outcome_of (k a) env.
Proof. unfold outcome_of, sbind. destruct (p env) as [calls [a|err]]; cbn; [|done]. by destruct (k a env). Qed.

Lemma calls_bind {A B} (p : startup A) (k : A -> startup B) env :
  calls_of (sbind p k) env = calls_of p env ++ match outcome_of p env with Ok a => calls_of (k a) env | Err _ => [] end.
Proof.
  unfold calls_of, outcome_of, sbind. destruct (p env) as [calls [a|err]]; cbn; [|by rewrite app_nil_r]. by destruct (k a env).
Qed.

(** The program goes on after the call: it succeeded, or cannot fail. *)
Definition proceeds env (c : sys_call) : Prop := (exists a, env c = Ok a) \/ exists ns, c = RunInformer ns.

(** The calls succeed one after the other; only the last can fail, and then
    the program fails. *)
Definition stops_at_error {A} (p : startup A) : Prop := forall env,
  exists succeeded, Forall (proceeds env) succeeded /\
    (calls_of p env = succeeded \/
     exists c err, env c = Err err /\ calls_of p env = succeeded ++ [c] /\ exists err', outcome_of p env = Err err').

Lemma stops_sret {A} (a : A) : stops_at_error (sret a).
Proof. intros env. exists []. split; [done|by left]. Qed.

Lemma stops_fatal {A} err : stops_at_error (A := A) (fatal err).
Proof. intros env. exists []. split; [done|by left]. Qed.

Lemma stops_informer ns : stops_at_error (tell (RunInformer ns)).
Proof. intros env. exists [RunInformer ns]. split; [|by left]. apply Forall_singleton. right. by exists ns. Qed.

Lemma stops_ask_or c err : stops_at_error (ask_or c err).
Proof.
  intros env. destruct (env c) as [a|e] eqn:E; [exists [c]|exists []]; (split; [first [by constructor | apply Forall_singleton; left; eauto]|]); [by left|right].
  exists c, e. split; [done|]. split; [done|]. unfold outcome_of, ask_or. cbn. rewrite E. eauto.
Qed.

Lemma stops_ask c : stops_at_error (ask c).
Proof.
  intros env. destruct (env c) as [a|e] eqn:E; [exists [c]|exists []]; (split; [first [by constructor | apply Forall_singleton; left; eauto]|]); [by left|right].
  exists c, e. eauto.
Qed.

Lemma stops_bind {A B} (p : startup A) (k : A -> startup B) :
  stops_at_error p -> (forall a, stops_at_error (k a)) -> stops_at_error (sbind p k).
Proof.
  intros Hp Hk env. rewrite calls_bind, outcome_bind. destruct (Hp env) as (succeeded & Hs & Hc).
  destruct (outcome_of p env) as [a|err] eqn:Ho; cbn [res_bind].
  - destruct Hc as [->|(c & err & _ & _ & err' & [=])]. destruct (Hk a env) as (succeeded' & Hs' & Hc').
    exists (succeeded ++ succeeded'). split; [by apply Forall_app|]. destruct Hc' as [->|(c & err & Hce & -> & He)]; [by left|right].
    exists c, err. split; [done|]. by rewrite app_assoc.
  - rewrite app_nil_r. exists succeeded. split; [done|]. destruct Hc as [->|(c & e & Hce & -> & He)]; [by left|right]. exists c, e. eauto.
Qed.

(** The laws of the monad, at one environment. *)
Lemma sbind_ext {A B} (p : startup A) (k k' : A -> startup B) env :
  (forall a, k a env = k' a env) -> sbind p k env = sbind p k' env.
Proof. intros Hk. unfold sbind. destruct (p env) as [calls [a|err]]; [by rewrite Hk|done]. Qed.

Lemma sbind_assoc {A B C} (p : startup A) (k : A -> startup B) (h : B -> startup C) env :
  sbind (sbind p k) h env = sbind p (fun a => sbind (k a) h) env.
Proof.
  unfold sbind. destruct (p env) as [calls [a|err]]; [|done]. destruct (k a env) as [calls' [b|err]]; [|done].
  destruct (h b env) as [calls'' r]. by rewrite app_assoc.
Qed.

Lemma sbind_sret {A B} (a : A) (k : A -> startup B) env : sbind (sret a) k env = k a env.
Proof. unfold sbind, sret. by destruct (k a env). Qed.

Lemma outcome_ask c env : outcome_of (ask c) env = env c.
Proof. done. Qed.
End Startup.

Create HintDb startup.
#[export] Hint Resolve stops_sret stops_fatal stops_ask stops_ask_or stops_informer : startup.

Ltac startup_solver :=
  repeat first
    [ progress intros
    | apply stops_bind
    | solve [auto with startup]
    | match goal with |- stops_at_error (if ?b then _ else _) => destruct b end ].

(** ** Clients *)

(** The mapper is that of the last discovery that succeeded, and nothing else
    of the clients ever changes. *)
Lemma refresh_last c before mapper after :
  Forall (fun r => exists err, r = Err err) after ->
  refresh c (before ++ Ok mapper :: after) =
    mkClients (client_config c) (client_kubernetes c) (client_broker c) (client_dynamic c) mapper.
Proof.
  intros Ha. unfold refresh. rewrite foldl_app. cbn [foldl refresh_once].
  assert (forall l c, client_config (foldl refresh_once c l) = client_config c /\
            client_kubernetes (foldl refresh_once c l) = client_kubernetes c /\
            client_broker (foldl refresh_once c l) = client_broker c /\ client_dynamic (foldl refresh_once c l) = client_dynamic c) as Hc.
  { induction l as [|r l IH]; intros c'; [done|]. cbn [foldl]. destruct (IH (refresh_once c' r)) as (-> & -> & -> & ->). by destruct r. }
  destruct (Hc before c) as (-> & -> & -> & ->). induction Ha as [|r l [err ->] _ IH]; [done|exact IH].
Qed.

(** ** What the process becomes *)

Section Command.
Context `{Vendor}.

Implicit Types env : environment.

(** The database parameters that are accepted, with what is opened and the
    address that is recorded: all five, or none. *)
Definition database_source (host port user password name : string) : option (sys_call * (string * string)) :=
  if forallb (fun x => x =?s "") [host; port; user; password; name]
  then Some (SqlOpen "sqlite3" ":memory:", ("localhost", "5432"))
  else if forallb (fun x => negb (x =?s "")) [host; port; user; password; name]
  then Some (SqlOpen "postgres" ("host=" +++ host +++ " port=" +++ port +++ " user=" +++ user +++
               " password=" +++ password +++ " dbname=" +++ name +++ " sslmode=disable"), (host, port))
  else None.

Definition succeeds env (c : sys_call) : Prop := exists a, env c = Ok a.

(** The server configuration that the flags and the files ask for. *)
Inductive configured_by (f : Flags) env (namespace : string) : ServerConfiguration -> Prop :=
  | configured_token token :
      authentication f = bearerToken -> env (ReadFile (tokenPath f)) = Ok token ->
      configured_by f env namespace (mkServerConfiguration namespace (Some token) None None)
  | configured_basic username password :
      authentication f = basic ->
      env (ReadFile (usernamePath f)) = Ok username -> env (ReadFile (passwordPath f)) = Ok password ->
      configured_by f env namespace (mkServerConfiguration namespace None (Some (mkBasicAuth username password)) None)
  | configured_advanced host port user password name secret source address :
      authentication f = advancedToken ->
      env (ReadFile (dbhostPath f)) = Ok host -> env (ReadFile (dbportPath f)) = Ok port ->
      env (ReadFile (dbuserPath f)) = Ok user -> env (ReadFile (dbpasswordPath f)) = Ok password ->
      env (ReadFile (dbnamePath f)) = Ok name -> env (ReadFile (jwtsecretPath f)) = Ok secret ->
      secret <> "" -> database_source host port user password name = Some (source, address) -> succeeds env source ->
      Forall (succeeds env) [SqlExec create_users []; SqlExec create_bought_services [];
                             SqlExec insert_user [defaultUsername; sha256_hex defaultPassword]] ->
      configured_by f env namespace
        (mkServerConfiguration namespace None None (Some (mkAdvancedToken address.1 address.2 name user password secret))).

(** The clients are built from the configuration of the cluster. *)
Definition client_calls : list sys_call :=
  [InClusterConfig; NewForConfig "kubernetes"; NewForConfig "servicebroker"; NewForConfig "dynamic"; GetAPIGroupResources].

(** All that must go well before the server listens. *)
Record launches (f : Flags) env (c : ServerConfiguration) : Prop := {
  launches_namespace : env (LookupEnv "NAMESPACE") = Ok (server_Namespace c);
  launches_configuration : configured_by f env (server_Namespace c) c;
  launches_calls : Forall (succeeds env)
    (LoadX509KeyPair (tlsCertificatePath f) (tlsPrivateKeyPath f) :: client_calls ++ [AddToScheme; WaitForCacheSync]);
}.

(** [main] without its last call. *)
Definition prepare (f : Flags) : startup ServerConfiguration :=
  namespace <-! ask_or (LookupEnv "NAMESPACE") (wrappedError ErrFatal "NAMESPACE environment variable must be set") ;;
  c <-! load_authentication f namespace ;;
  _ <-! ask (LoadX509KeyPair (tlsCertificatePath f) (tlsPrivateKeyPath f)) ;;
  _ <-! New ;;
  _ <-! ConfigureServer c ;;
  sret c.

Definition is_listen (c : sys_call) : bool := match c with ListenAndServeTLS _ _ => true | _ => false end.

(** The program does not listen. *)
Definition silent {A} (p : startup A) : Prop := forall env, Forall (fun c => is_listen c = false) (calls_of p env).

Lemma silent_bind {A B} (p : startup A) (k : A -> startup B) : silent p -> (forall a, silent (k a)) -> silent (sbind p k).
Proof.
  intros Hp Hk env. rewrite calls_bind. apply Forall_app. split; [apply Hp|]. destruct (outcome_of p env); [apply Hk|done].
Qed.

Ltac silent_solver :=
  repeat first
    [ progress intros
    | apply silent_bind
    | match goal with |- silent (if ?b then _ else _) => destruct b end
    | solve [intros env; repeat constructor] ].

Lemma silent_prepare f : silent (prepare f).
Proof.
  unfold prepare, load_authentication, load_token, load_basic, load_advanced, open_database, create_tables, New, getRESTMapper, ConfigureServer, Configure.
  silent_solver.
Qed.

Lemma main_prepare f env : main f env = sbind (prepare f) RunServer env.
Proof.
  unfold main, launch, prepare. symmetry. do 5 (rewrite sbind_assoc; apply sbind_ext; intros ?). apply sbind_sret.
Qed.

Lemma main_listens f env addr c :
  ListenAndServeTLS addr c ∈ calls_of (main f) env <-> addr = ":8443" /\ outcome_of (prepare f) env = Ok c.
Proof.
  unfold calls_of. rewrite main_prepare. change ((sbind (prepare f) RunServer env).1) with (calls_of (sbind (prepare f) RunServer) env).
  rewrite calls_bind, elem_of_app. pose proof (silent_prepare f env) as Hs. rewrite Forall_forall in Hs. split.
  - intros [Hin|Hin]; [by apply Hs in Hin|]. destruct (outcome_of (prepare f) env) as [c'|err]; [|by apply not_elem_of_nil in Hin].
    apply list_elem_of_singleton in Hin. by injection Hin as -> ->.
  - intros [-> ->]. right. by apply list_elem_of_singleton.
Qed.

(** ** The authentication *)

Lemma parsed_authentication args : forall f f',
  authentication f ∈ [bearerToken; basic; advancedToken] -> parse_flags f args = Ok f' ->
  authentication f' ∈ [bearerToken; basic; advancedToken].
Proof.
  induction args as [|[name v] args IH]; intros f f' Hf; cbn [parse_flags]; [by intros [= <-]|].
  intros (f1 & Hs & Hp)%res_bind_Ok. apply (IH f1); [|done]. revert Hs. unfold set_flag. destruct f as [a ? ? ? ? ? ? ? ? ? ? ? ?]. cbn in Hf.
  case_bool_decide; [|repeat (case_bool_decide; [by intros [= <-]|]); done].
  unfold authentication_Set. case_bool_decide; [|done]. by intros [= <-].
Qed.


(** What a program that succeeded was answered, and the converse. *)
Ltac outcome_in H :=
  repeat (rewrite outcome_bind in H; let a := fresh "a" in let Ha := fresh "Ha" in apply res_bind_Ok in H as (a & Ha & H); rewrite ?outcome_ask in Ha); rewrite ?outcome_ask in H.
Ltac outcome_rewrite :=
  repeat (rewrite outcome_bind; rewrite outcome_ask; match goal with E : _ = Ok _ |- _ => rewrite E end; cbn [res_bind]).

Lemma open_database_outcome host port user password name env address :
  outcome_of (open_database host port user password name) env = Ok address <->
  exists source, database_source host port user password name = Some (source, address) /\ succeeds env source.
Proof.
  unfold open_database, database_source, succeeds. cbn [forallb].
  destruct (host =?s ""), (port =?s ""), (user =?s ""), (password =?s ""), (name =?s ""); cbn [negb andb orb];
    first [ split; [done|by intros (source & [=] & _)]
          | split; [intros Hc; outcome_in Hc; injection Hc as <-; eauto
                   |intros (source & [= <- <-] & a & Ha); by outcome_rewrite] ].
Qed.

Lemma create_tables_outcome env :
  (exists a, outcome_of create_tables env = Ok a) <->
  Forall (succeeds env) [SqlExec create_users []; SqlExec create_bought_services [];
                         SqlExec insert_user [defaultUsername; sha256_hex defaultPassword]].
Proof.
  unfold create_tables, succeeds. rewrite !Forall_cons, Forall_nil. split.
  - intros (a & Hc). outcome_in Hc. eauto 10.
  - intros ((a1 & H1') & (a2 & H2') & (a3 & H3') & _). exists a3. by outcome_rewrite.
Qed.

Lemma load_authentication_outcome f ns env c :
  authentication f ∈ [bearerToken; basic; advancedToken] ->
  outcome_of (load_authentication f ns) env = Ok c <-> configured_by f env ns c.
Proof.
  intros Ha. unfold load_authentication. rewrite !elem_of_cons, elem_of_nil in Ha.
  assert (forall T (p q : T), (if bearerToken =?s bearerToken then p else q) = p) as Ht by (intros; by rewrite bool_decide_true).
  destruct Ha as [Ha|[Ha|[Ha|[]]]]; rewrite Ha.
  - rewrite Ht. unfold load_token. split.
    + intros Hc. outcome_in Hc. injection Hc as <-. by constructor.
    + intros Hc. inversion Hc as [token _ Htok|? ? Hb|? ? ? ? ? ? ? ? Hb]; [|by rewrite Ha in Hb..]. subst. by outcome_rewrite.
  - rewrite (bool_decide_false (basic = bearerToken)), (bool_decide_true (basic = basic)) by done. unfold load_basic. split.
    + intros Hc. outcome_in Hc. injection Hc as <-. by constructor.
    + intros Hc. inversion Hc as [? Hb|username password _ Hu Hp|? ? ? ? ? ? ? ? Hb]; [by rewrite Ha in Hb| |by rewrite Ha in Hb]. subst. by outcome_rewrite.
  - rewrite (bool_decide_false (advancedToken = bearerToken)), (bool_decide_false (advancedToken = basic)),
      (bool_decide_true (advancedToken = advancedToken)) by done. unfold load_advanced. split.
    + intros Hc. outcome_in Hc. case_bool_decide as Hj; [done|]. rewrite outcome_bind in Hc.
      apply res_bind_Ok in Hc as (address & Hdb%open_database_outcome & Hc). destruct Hdb as (source & Hdb & Hsrc).
      rewrite outcome_bind in Hc. apply res_bind_Ok in Hc as (done_ & Htab & [= <-]). eapply configured_advanced; eauto.
      apply create_tables_outcome. eauto.
    + intros Hc. inversion Hc as [? Hb|? ? Hb|host port user password name secret source address _ H1' H2' H3' H4' H5' H6' Hj Hdb Hsrc Htab];
        [by rewrite Ha in Hb..|]. subst. outcome_rewrite. rewrite bool_decide_false by done. rewrite outcome_bind.
      assert (outcome_of (open_database host port user password name) env = Ok address) as -> by (apply open_database_outcome; eauto).
      cbn [res_bind]. rewrite outcome_bind. apply create_tables_outcome in Htab as [a ->]. done.
Qed.

Lemma configured_namespace f env ns c : configured_by f env ns c -> server_Namespace c = ns.
Proof. by intros []. Qed.

Lemma outcome_ask_or c err env a : outcome_of (ask_or c err) env = Ok a <-> env c = Ok a.
Proof. unfold outcome_of, ask_or. cbn. destruct (env c); split; congruence. Qed.

Lemma prepare_outcome f env c :
  authentication f ∈ [bearerToken; basic; advancedToken] ->
  outcome_of (prepare f) env = Ok c <-> launches f env c.
Proof.
  intros Ha. unfold prepare. split.
  - intros Hc. rewrite outcome_bind in Hc. apply res_bind_Ok in Hc as (ns & Hns%outcome_ask_or & Hc).
    rewrite outcome_bind in Hc. apply res_bind_Ok in Hc as (c' & Hauth & Hc).
    apply (load_authentication_outcome f ns env c' Ha) in Hauth. outcome_in Hc. injection Hc as <-.
    unfold ConfigureServer, Configure in Ha2. outcome_in Ha2. apply outcome_ask_or in Ha2.
    unfold New, getRESTMapper in Ha1. outcome_in Ha1.
    pose proof (configured_namespace _ _ _ _ Hauth) as Hn. subst ns. split; [done|done|].
    unfold succeeds. repeat constructor; eauto.
  - intros [Hns Hauth Hcalls]. unfold succeeds, client_calls in Hcalls. cbn [app] in Hcalls. rewrite !Forall_cons in Hcalls.
    destruct Hcalls as ((a1 & Hc1) & (a2 & Hc2) & (a3 & Hc3) & (a4 & Hc4) & (a5 & Hc5) & (a6 & Hc6) & (a7 & Hc7) & (a8 & Hc8) & _).
    rewrite outcome_bind. apply (outcome_ask_or _ (wrappedError ErrFatal "NAMESPACE environment variable must be set")) in Hns as ->.
    cbn [res_bind]. rewrite outcome_bind. apply (load_authentication_outcome f _ env c Ha) in Hauth as ->. cbn [res_bind].
    outcome_rewrite. rewrite outcome_bind. unfold New, getRESTMapper. outcome_rewrite.
    change (outcome_of (sret _) env) with (Ok (E := error) (mkClients a2 a3 a4 a5 a6)). cbn [res_bind].
    rewrite outcome_bind. unfold ConfigureServer, Configure. outcome_rewrite. rewrite outcome_bind.
    change (outcome_of (tell _) env) with (Ok (E := error) tt). cbn [res_bind].
    by apply (outcome_ask_or _ (wrappedError ErrCacheSync "service broker config shared informer failed to syncronize")) in Hc8 as ->.
Qed.

(** C26: when the server listens.  With flags that were parsed from a command
    line, [main] comes to listen with a server configuration exactly when the
    namespace is set, the files of the chosen authentication can be read and
    make this configuration, the key pair, the clients, the scheme and the
    informer are ready -- and, for JWT, the secret is not empty, either all
    database parameters are given or none, and the tables and the default user
    have been made.  It listens on port 8443. *)
Theorem main_launches args f env addr c :
  parse_flags default_flags args = Ok f ->
  ListenAndServeTLS addr c ∈ (main f env).1 <-> addr = ":8443" /\ launches f env c.
Proof.
  intros Hf. apply parsed_authentication in Hf; [|by right; left].
  pose proof (main_listens f env addr c) as Hl. unfold calls_of in Hl. rewrite Hl. by rewrite prepare_outcome.
Qed.

(** The process stops at the first error.  Every call of [main] but the
    last has succeeded, and when the last one fails [main] reports an error;
    it never goes on, nor listens, after a failure. *)
Lemma main_stops f env :
  exists succeeded, Forall (proceeds env) succeeded /\
    ((main f env).1 = succeeded \/
     exists c err, env c = Err err /\ (main f env).1 = succeeded ++ [c] /\ exists err', (main f env).2 = Err err').
Proof.
  assert (stops_at_error (main f)) as Hs; [|exact (Hs env)].
  unfold main, launch, load_authentication, load_token, load_basic, load_advanced, open_database, create_tables, ConfigureServer, Configure, RunServer, New, getRESTMapper.
  startup_solver.
Qed.
End Command.

Section Serving.
Context `{VendorLaws} {W : Type} `{PlatformLaws W}.

(** C27: what listens authenticates.  A server that [main] started, from any
    command line, lets a request through to the router exactly when it proves
    who sent it by the scheme the process was started with, and its version
    and content are supported: there is always a scheme, so the answer is
    never the error 500 of a server without one. *)
Theorem main_authenticates args f env addr c w r (s : sys W) :
  parse_flags default_flags args = Ok f -> ListenAndServeTLS addr c ∈ (main f env).1 ->
  wp (handleRequestHeaders c w r) (fun o s' => unchanged s s' /\
    checks (admissible c (perform TimeNow (world s)).1 r) w [400; 401; 412]%Z o) s.
Proof.
  intros Hf Hl. apply parsed_authentication in Hf; [|by right; left].
  apply (main_listens f env addr c) in Hl as [_ Hl]. apply prepare_outcome in Hl as [_ Hc _]; [|done].
  eapply wp_mono; [apply header_checks_scheme|]. intros o s' [Hs' Ho]. split; [done|].
  assert (scheme_statuses c = []) as Hn by (by destruct Hc). by rewrite Hn in Ho.
Qed.
End Serving.

(** ** Witnesses *)

Module CommandWitness.

(** Mounted secrets for JWT, without a database; everything else succeeds. *)
Definition mounted (c : sys_call) : result string :=
  match c with
  | LookupEnv _ => Ok "ns"
  | ReadFile path => Ok (if path =?s secrets_path "jwtsecret" then "key" else "")
  | _ => Ok ""
  end.

Definition flags : Flags := match parse_flags default_flags [("authentication", "advancedToken")] with Ok f => f | Err _ => default_flags end.

Definition served : ServerConfiguration :=
  mkServerConfiguration "ns" None None (Some (mkAdvancedToken "localhost" "5432" "" "" "" "key")).

Lemma main_launches_witness :
  ListenAndServeTLS ":8443" served ∈ (main flags mounted).1 /\ launches flags mounted served.
Proof.
  assert (ListenAndServeTLS ":8443" served ∈ (main flags mounted).1) as Hl.
  { apply (bool_decide_unpack _). vm_compute. exact I. }
  split; [exact Hl|].
  apply (main_launches [("authentication", "advancedToken")] flags mounted ":8443" served); [vm_compute; reflexivity|exact Hl].
Defined.

(** The secret must not be empty. *)
Example empty_secret :
  main flags (fun c => match c with ReadFile _ => Ok "" | _ => mounted c end) =
  (LookupEnv "NAMESPACE" :: map (fun n => ReadFile (secrets_path n)) ["dbhost"; "dbport"; "dbuser"; "dbpassword"; "dbname"; "jwtsecret"],
   Err (wrappedError ErrFatal "JWT secret must be set")).
Proof. vm_compute. reflexivity. Qed.

Definition start : sys SimWorld := mkSys (empty_sim None) [].

Lemma main_authenticates_witness :
  let r := mkRequest "GET" "/v2/catalog" "" [("Authorization", ["Bearer joe:key"]); ("X-Broker-API-Version", ["2.14"])] 0 (Ok "") in
  wp (handleRequestHeaders served new_writer r) (fun o s' => unchanged start s' /\
    checks (admissible served (perform TimeNow (world start)).1 r) new_writer [400; 401; 412]%Z o) start.
Proof.
  intros r. apply (main_authenticates [("authentication", "advancedToken")] flags mounted ":8443" served new_writer r start).
  - vm_compute. reflexivity.
  - apply (bool_decide_unpack _). vm_compute. exact I.
Defined.
End CommandWitness.
