(* ===== verification/Mapper.v ===== *)
(** * The REST mapper and its lock ([pkg/client/client.go])

    The goroutine [refresh] replaces the mapper that [RESTMapper] answers; a
    [sync.Mutex] keeps them apart. The loop and every call of [RESTMapper] are
    state machines with a place in the code; an execution is a list of actions.
    Beside the state of the program the model remembers the answers of the
    discovery API, the mappers in the order in which they were installed, and
    how many there were when a call began and when it returned. *)

From S2P Require Import Prelude Errors Platform Command.
From Stdlib Require Import Lia.

Local Open Scope broker_scope.

(** ** State *)

(** Where [refresh] is. *)
Inductive loop_place : Type :=
  | AtTimer                        (* <-time.After(time.Minute) *)
  | AtDiscovery                    (* getRESTMapper *)
  | AtLock (mapper : string)       (* c.lock.Lock() *)
  | AtStore (mapper : string)      (* c.mapper = mapper *)
  | AtUnlock.                      (* c.lock.Unlock() *)

(** Where a call of [RESTMapper] is. *)
Inductive call_place : Type :=
  | CallLock                       (* c.lock.Lock() *)
  | CallRead                       (* return c.mapper *)
  | CallUnlock (mapper : string)   (* the deferred c.lock.Unlock() *)
  | CallReturned (mapper : string) (until : nat).

Record mapper_call : Type := mkCall { call_since : nat; call_at : call_place }.

Inductive holder : Type := TheLoop | TheCall (i : nat).

Record state : Type := mkState {
  clients : clientsImpl;
  mutex : option holder;
  loop : loop_place;
  calls : list mapper_call;
  answers : list (result string);
  installed : list string;
}.

Definition start (c : clientsImpl) : state := mkState c None AtTimer [] [] [client_mapper c].

(** ** Steps *)

Definition set_mapper (c : clientsImpl) (mapper : string) : clientsImpl :=
  mkClients (client_config c) (client_kubernetes c) (client_broker c) (client_dynamic c) mapper.

(** One step of [refresh]; [discovered] is what the discovery API would answer. *)
Definition loop_step (discovered : result string) (s : state) : option state :=
  let '(mkState c m l cs an ins) := s in
  match l with
  | AtTimer => Some (mkState c m AtDiscovery cs an ins)
  | AtDiscovery =>
      match discovered with
      | Err _ => Some (mkState c m AtTimer cs (an ++ [discovered]) ins)
      | Ok mapper => Some (mkState c m (AtLock mapper) cs (an ++ [discovered]) ins)
      end
  | AtLock mapper =>
      match m with
      | None => Some (mkState c (Some TheLoop) (AtStore mapper) cs an ins)
      | Some _ => None
      end
  | AtStore mapper => Some (mkState (set_mapper c mapper) m AtUnlock cs an (ins ++ [mapper]))
  | AtUnlock => Some (mkState c None AtTimer cs an ins)
  end.

(** One step of the call [i] of [RESTMapper]. *)
Definition call_step (i : nat) (s : state) : option state :=
  let '(mkState c m l cs an ins) := s in
  match cs !! i with
  | None => None
  | Some (mkCall since place) =>
      let at_ (place : call_place) (m : option holder) := mkState c m l (<[i := mkCall since place]> cs) an ins in
      match place with
      | CallLock => match m with None => Some (at_ CallRead (Some (TheCall i))) | Some _ => None end
      | CallRead => Some (at_ (CallUnlock (client_mapper c)) m)
      | CallUnlock mapper => Some (at_ (CallReturned mapper (length ins)) None)
      | CallReturned _ _ => None
      end
  end.

(** What can happen: a step of the loop, a new call, a step of a call. *)
Inductive action : Type :=
  | Loop (discovered : result string)
  | Call
  | CallSteps (i : nat).

Definition step (a : action) (s : state) : option state :=
  match a with
  | Loop discovered => loop_step discovered s
  | Call => Some (mkState (clients s) (mutex s) (loop s) (calls s ++ [mkCall (length (installed s)) CallLock]) (answers s) (installed s))
  | CallSteps i => call_step i s
  end.

Fixpoint execute (actions : list action) (s : state) : option state :=
  match actions with
  | [] => Some s
  | a :: actions => match step a s with Some s => execute actions s | None => None end
  end.

(** ** The invariant *)

Definition loop_inside (l : loop_place) : bool := match l with AtStore _ | AtUnlock => true | _ => false end.
Definition call_inside (p : call_place) : bool := match p with CallRead | CallUnlock _ => true | _ => false end.

(** The mapper that the loop has discovered and not installed yet. *)
Definition pending (l : loop_place) : list string := match l with AtLock m | AtStore m => [m] | _ => [] end.

(** The mappers among the answers. *)
Definition mappers (answers : list (result string)) : list string :=
  omap (fun r => match r with Ok m => Some m | Err _ => None end) answers.
Arguments mappers : simpl never.

(** A mapper that was current at some time between two moments. *)
Definition current (ins : list string) (since until : nat) (mapper : string) : Prop :=
  exists j, since <= S j <= until /\ ins !! j = Some mapper.

Definition call_ok (ins : list string) (call : mapper_call) : Prop :=
  1 <= call_since call <= length ins /\
  match call_at call with
  | CallUnlock mapper => list.last ins = Some mapper
  | CallReturned mapper until => until <= length ins /\ current ins (call_since call) until mapper
  | _ => True
  end.

Record mapper_ok (c0 : clientsImpl) (s : state) : Prop := {
  ok_clients : clients s = set_mapper c0 (client_mapper (clients s));
  ok_mapper : list.last (installed s) = Some (client_mapper (clients s));
  ok_installed : installed s ++ pending (loop s) = client_mapper c0 :: mappers (answers s);
  ok_loop : loop_inside (loop s) = true <-> mutex s = Some TheLoop;
  ok_inside i : (exists call, calls s !! i = Some call /\ call_inside (call_at call) = true) <-> mutex s = Some (TheCall i);
  ok_calls : Forall (call_ok (installed s)) (calls s);
}.

Lemma current_weaken ins ins' since until mapper :
  current ins since until mapper -> current (ins ++ ins') since until mapper.
Proof. intros (j & Hj & Hl). exists j. split; [done|]. by apply lookup_app_l_Some. Qed.

Lemma call_ok_install ins mapper call :
  call_inside (call_at call) = false -> call_ok ins call -> call_ok (ins ++ [mapper]) call.
Proof.
  destruct call as [since [| |m|m until]]; unfold call_ok; cbn; rewrite length_app; cbn; try done; intros _ [? Hc]; (split; [lia|]); [done|].
  destruct Hc. split; [lia|by apply current_weaken].
Qed.

(** Nobody is inside when somebody else has the mutex. *)
Lemma nobody_inside c0 s i call :
  mapper_ok c0 s -> mutex s <> Some (TheCall i) -> calls s !! i = Some call -> call_inside (call_at call) = false.
Proof. intros Hok Hm Hi. apply not_true_iff_false. intros Hin. apply Hm, (ok_inside _ _ Hok). eauto. Qed.

Lemma start_ok c : mapper_ok c (start c).
Proof.
  split; cbn; [by destruct c|done|done|done| |constructor].
  intros i. split; [|done]. intros (call & Hc & _). by rewrite lookup_nil in Hc.
Qed.

Lemma mappers_snoc an r : mappers (an ++ [r]) = mappers an ++ match r with Ok m => [m] | Err _ => [] end.
Proof. unfold mappers. rewrite omap_app. by destruct r. Qed.

Lemma loop_step_ok c0 discovered s s' : loop_step discovered s = Some s' -> mapper_ok c0 s -> mapper_ok c0 s'.
Proof.
  destruct s as [c m l cs an ins]. intros Hstep Hok. pose proof Hok as [Hc Hm Hi Hl Hin Hcs]. cbn in *.
  assert (mutex (mkState c m l cs an ins) = Some TheLoop -> Forall (fun call => call_inside (call_at call) = false) cs) as Hout.
  { intros Hmx. apply Forall_lookup. intros i call Hcall. eapply (nobody_inside c0 _ i); [exact Hok| |exact Hcall]. by rewrite Hmx. }
  destruct l as [| |mapper|mapper|]; cbn in *.
  - injection Hstep as <-. by split.
  - rewrite app_nil_r in Hi. destruct discovered; injection Hstep as <-; split; cbn; try done; by rewrite mappers_snoc, Hi, ?app_nil_r.
  - destruct m; [done|]. injection Hstep as <-. split; cbn; try done. intros i. rewrite Hin. by split.
  - injection Hstep as <-. split; cbn; try done.
    + by rewrite Hc.
    + by rewrite last_snoc.
    + by rewrite app_nil_r.
    + specialize (Hout (proj1 Hl eq_refl)). rewrite Forall_lookup in *. intros i call Hcall. apply call_ok_install; eauto.
  - injection Hstep as <-. split; cbn; try done. intros i. rewrite Hin. split; [|done]. intros Hmi. destruct Hl as [Hl _]. by rewrite Hl in Hmi.
Qed.

Lemma call_step_ok c0 i s s' : call_step i s = Some s' -> mapper_ok c0 s -> mapper_ok c0 s'.
Proof.
  destruct s as [c m l cs an ins]. intros Hstep Hok. pose proof Hok as [Hc Hm Hi Hl Hin Hcs]. cbn in *.
  destruct (cs !! i) as [[since place]|] eqn:Hcall; [|done].
  assert (length ins <> 0) as Hne by (destruct ins; cbn in *; [done|lia]).
  pose proof (Forall_lookup_1 _ _ _ _ Hcs Hcall) as [Hsince Hplace]. cbn in Hsince, Hplace.
  assert (forall place' m', mapper_ok c0 (mkState c m l cs an ins) ->
    (loop_inside l = true <-> m' = Some TheLoop) ->
    (call_inside place' = true <-> m' = Some (TheCall i)) ->
    (forall k, k <> i -> m = Some (TheCall k) <-> m' = Some (TheCall k)) ->
    call_ok ins (mkCall since place') ->
    mapper_ok c0 (mkState c m' l (<[i := mkCall since place']> cs) an ins)) as Hgo.
  { intros place' m' _ Hl' Hp' Hk Hok'. split; cbn; try done; [|by apply Forall_insert].
    intros k. destruct (decide (k = i)) as [->|Hki].
    - rewrite list_lookup_insert_eq by by eapply lookup_lt_Some. rewrite <- Hp'. split; [by intros (? & [= <-] & ?)|eauto].
    - rewrite list_lookup_insert_ne, Hin by done. by apply Hk. }
  destruct place as [| |mapper|]; cbn in *; [| | |done].
  - destruct m; [done|]. injection Hstep as <-. apply Hgo; try done; [rewrite Hl; by split|]. intros k Hk. split; [done|]. congruence.
  - assert (m = Some (TheCall i)) as -> by (apply Hin; by eexists). injection Hstep as <-. by apply Hgo.
  - assert (m = Some (TheCall i)) as -> by (apply Hin; by eexists). injection Hstep as <-. apply Hgo; try done; [rewrite Hl; by split| |].
    + intros k Hk. split; [congruence|done].
    + split; [done|]. split; [done|]. exists (pred (length ins)). cbn [call_since]. split; [lia|]. rewrite <- Hplace. symmetry. apply last_lookup.
Qed.

Lemma step_ok c0 a s s' : step a s = Some s' -> mapper_ok c0 s -> mapper_ok c0 s'.
Proof.
  destruct a as [discovered| |i]; cbn [step]; [apply loop_step_ok| |apply call_step_ok].
  intros [= <-] Hok. pose proof Hok as [Hc Hm Hi Hl Hin Hcs]. split; cbn; try done.
  - intros i. rewrite <- Hin. split; intros (call & Hcall & Hp); exists call; (split; [|done]).
    + apply lookup_snoc_Some in Hcall as [[_ Hcall]|[_ <-]]; [done|by cbn in Hp].
    + by apply lookup_app_l_Some.
  - apply Forall_app. split; [done|]. apply Forall_singleton. split; [|done]. cbn.
    destruct (installed s); [done|cbn; lia].
Qed.

Lemma execute_ok c0 actions s s' : execute actions s = Some s' -> mapper_ok c0 s -> mapper_ok c0 s'.
Proof.
  revert s. induction actions as [|a actions IH]; intros s; cbn; [by intros [= <-]|].
  destruct (step a s) as [s1|] eqn:Hs; [|done]. intros He Hok. eapply IH; [exact He|]. by eapply step_ok.
Qed.

(** ** Progress *)

(** The steps that the calls have still to make, and the loop until it is at
    the timer. *)
Definition call_work (call : mapper_call) : nat :=
  match call_at call with CallLock => 3 | CallRead => 2 | CallUnlock _ => 1 | CallReturned _ _ => 0 end.
Definition loop_work (l : loop_place) : nat :=
  match l with AtLock _ => 3 | AtStore _ => 2 | AtUnlock => 1 | _ => 0 end.
Definition work (s : state) : nat := loop_work (loop s) + sum_list (call_work <$> calls s).

Definition returned (call : mapper_call) : bool := match call_at call with CallReturned _ _ => true | _ => false end.

Lemma sum_list_insert (l : list nat) i x y : l !! i = Some x -> sum_list (<[i := y]> l) + x = sum_list l + y.
Proof. revert i. induction l as [|z l IH]; intros [|i]; simpl; [done..|intros [= ->]|intros Hi%IH]; unfold id in *; lia. Qed.

Lemma call_step_work i s s' : call_step i s = Some s' -> work s' < work s.
Proof.
  destruct s as [c m l cs an ins]. cbn. destruct (cs !! i) as [[since place]|] eqn:Hc; [|done].
  assert (forall place', call_work (mkCall since place') < call_work (mkCall since place) ->
    sum_list (call_work <$> <[i := mkCall since place']> cs) < sum_list (call_work <$> cs)) as Hless.
  { intros place' Hlt. rewrite list_fmap_insert. assert ((call_work <$> cs) !! i = Some (call_work (mkCall since place))) as Hi by by rewrite list_lookup_fmap, Hc.
    pose proof (sum_list_insert _ _ _ (call_work (mkCall since place')) Hi). lia. }
  unfold work. destruct place; cbn; [destruct m; [done|]| | |done]; intros [= <-]; cbn;
    (apply Nat.add_lt_mono_l, Hless; cbn; lia).
Qed.

Lemma loop_step_work discovered s s' : loop_step discovered s = Some s' -> 0 < loop_work (loop s) -> work s' < work s.
Proof.
  destruct s as [c m l cs an ins]. unfold work. destruct l; cbn; try lia; [destruct m; [done|]| |]; intros [= <-]; cbn; lia.
Qed.

(** While a call waits, some call goes on, or the loop that is about to install a mapper. *)
Lemma progress c0 s i call discovered :
  mapper_ok c0 s -> calls s !! i = Some call -> returned call = false ->
  (exists k s', step (CallSteps k) s = Some s' /\ work s' < work s) \/
  (exists s', step (Loop discovered) s = Some s' /\ work s' < work s).
Proof.
  intros Hok Hi Hr. pose proof Hok as [_ _ _ Hl Hin _]. destruct (mutex s) as [[|k]|] eqn:Hm.
  - right. assert (exists s', loop_step discovered s = Some s') as [s' Hs'].
    { destruct s as [c m l cs an ins]. cbn in *. destruct Hl as [_ Hl]. specialize (Hl eq_refl). destruct l; try done; eauto. }
    exists s'. split; [done|]. apply (loop_step_work _ _ _ Hs'). destruct Hl as [_ Hl]. specialize (Hl eq_refl). destruct (loop s); cbn in *; done || lia.
  - left. destruct (proj2 (Hin k) eq_refl) as ([since place] & Hk & Hp). assert (exists s', call_step k s = Some s') as [s' Hs'].
    { destruct s as [c m l cs an ins]. cbn in *. rewrite Hk. destruct place; try done; eauto. }
    exists k, s'. split; [done|by eapply call_step_work].
  - left. assert (exists s', call_step i s = Some s') as [s' Hs'].
    { destruct s as [c m l cs an ins]. cbn in *. subst m. rewrite Hi. destruct call as [since [| |m|m until]]; try done; eauto. }
    exists i, s'. split; [done|by eapply call_step_work].
Qed.

Lemma step_calls a s s' : step a s = Some s' -> a <> Call -> length (calls s') = length (calls s).
Proof.
  destruct s as [c m l cs an ins], a as [discovered| |i]; cbn; [intros Hs _|done|intros Hs _].
  - destruct l; [|destruct discovered|destruct m; [done|]| |]; by injection Hs as <-.
  - destruct (cs !! i) as [[since place]|]; [|done].
    destruct place; [destruct m; [done|]| | |done]; injection Hs as <-; apply length_insert.
Qed.

(** All calls return: the mutex is never lost. *)
Lemma calls_return c0 s :
  mapper_ok c0 s ->
  exists actions s', execute actions s = Some s' /\ length (calls s') = length (calls s) /\ Forall (fun call => returned call = true) (calls s').
Proof.
  induction s as [s IH] using (induction_ltof1 _ work). unfold ltof in IH. intros Hok.
  destruct (decide (Forall (fun call => returned call = true) (calls s))) as [Hall|Hsome]; [by exists [], s|].
  apply not_Forall_Exists, Exists_exists in Hsome as (call & Hin & Hr); [|intros ?; solve_decision].
  apply not_true_is_false in Hr. apply list_elem_of_In, list_elem_of_lookup_1 in Hin as [i Hi].
  assert (exists a s1, step a s = Some s1 /\ work s1 < work s /\ a <> Call) as (a & s1 & Hs & Hw & Ha).
  { destruct (progress c0 s i call (Err (plainError "")) Hok Hi Hr) as [(k & s1 & ? & ?)|(s1 & ? & ?)]; eauto 6. }
  destruct (IH s1 Hw (step_ok _ _ _ _ Hs Hok)) as (actions & s' & He & Hl & Hall).
  exists (a :: actions), s'. cbn. rewrite Hs. split; [done|]. split; [|done]. rewrite Hl. by eapply step_calls.
Qed.

(** ** What the lock gives *)

(** The loop without calls: the last discovered mapper, or the first. *)
Lemma refresh_mapper c an : refresh c an = set_mapper c (List.last (client_mapper c :: mappers an) (client_mapper c)).
Proof.
  induction an as [|r an IH] using rev_ind; [by destruct c|].
  unfold refresh in *. rewrite foldl_app, IH, mappers_snoc. cbn [foldl].
  destruct r as [m|err]; cbn [refresh_once]; [|by rewrite app_nil_r].
  by rewrite app_comm_cons, List.last_last.
Qed.

(** C38: the mapper is a register.  However the calls of [RESTMapper] interleave
    with each other and with the goroutine that refreshes the mapper: the mappers
    that have been installed are the first one and those that were discovered,
    in order, so that between two rounds the clients are what the rounds one after
    the other make of them; a call answers a mapper that was current
    at some moment between its beginning and its end; no two are inside the
    lock; and all calls can return at any time. *)
Theorem mapper_is_register c0 actions s :
  execute actions (start c0) = Some s ->
  installed s ++ pending (loop s) = client_mapper c0 :: mappers (answers s) /\
  (loop s = AtTimer -> clients s = refresh c0 (answers s)) /\
  (forall i since mapper until, calls s !! i = Some (mkCall since (CallReturned mapper until)) ->
     current (installed s) since until mapper) /\
  (forall i call, calls s !! i = Some call -> call_inside (call_at call) = true ->
     loop_inside (loop s) = false /\
     forall i' call', calls s !! i' = Some call' -> call_inside (call_at call') = true -> i' = i) /\
  (exists actions' s', execute actions' s = Some s' /\ length (calls s') = length (calls s) /\
     Forall (fun call => returned call = true) (calls s')).
Proof.
  intros He. pose proof (execute_ok c0 _ _ _ He (start_ok c0)) as Hok. pose proof Hok as [Hc Hm Hi Hl Hin Hcs].
  split; [exact Hi|]. split; [|split; [|split; [|by eapply calls_return]]].
  - intros Ht. rewrite Ht, app_nil_r in Hi. cbn in Hi. rewrite refresh_mapper, <- Hi, Hc. f_equal.
    rewrite Hi in Hm |- *. destruct (mappers (answers s)) as [|m ms] using rev_ind; [by injection Hm|].
    rewrite app_comm_cons, last_snoc in Hm. injection Hm as <-. by rewrite app_comm_cons, List.last_last.
  - intros i since mapper until Hcall. apply (Forall_lookup_1 _ _ _ _ Hcs Hcall).
  - intros i call Hcall Hp. assert (mutex s = Some (TheCall i)) as Hmx by (apply Hin; eauto). split.
    + apply not_true_iff_false. intros Hll%Hl. congruence.
    + intros i' call' Hcall' Hp'. assert (mutex s = Some (TheCall i')) by (apply Hin; eauto). congruence.
Qed.

Module MapperWitness.
Definition c0 : clientsImpl := mkClients "" "" "" "" "first".

(** A call begins, the mapper is replaced while it waits, and it answers the new one. *)
Definition actions : list action :=
  [Call; Loop (Ok ""); Loop (Ok "second"); Loop (Ok ""); Loop (Ok ""); Loop (Ok ""); CallSteps 0; CallSteps 0; CallSteps 0].
Definition final : state := default (start c0) (execute actions (start c0)).

Lemma mapper_is_register_witness :
  calls final !! 0 = Some (mkCall 1 (CallReturned "second" 2)) /\ current (installed final) 1 2 "second" /\
  clients final = refresh c0 [Ok "second"].
Proof.
  assert (execute actions (start c0) = Some final) as He by (vm_compute; reflexivity).
  destruct (mapper_is_register c0 actions final He) as (_ & Hr & Hc & _).
  assert (calls final !! 0 = Some (mkCall 1 (CallReturned "second" 2))) as Hf by (vm_compute; reflexivity).
  split; [exact Hf|]. split; [exact (Hc _ _ _ _ Hf)|]. apply Hr. vm_compute. reflexivity.
Defined.
End MapperWitness.
