(* ===== verification/Template.v ===== *)
(** * Templates ([pkg/provisioners/template.go], [util.go])

    Strings of a configuration template that start with "{{" are Go templates
    over the functions defined here.  The source parses them with
    [text/template], appends a [json] command to their actions, executes them
    and decodes the output.  The parser is a parameter ([template_Parse]); the
    evaluation of the parsed tree is modelled after [text/template], with the
    functions of the source.

    Rendering a template can render others ([snippet]), without a bound: the
    model counts the depth by fuel and halts with [OutOfFuel] where the code
    would exhaust its stack. *)

From S2P Require Import Prelude Json Errors Types Platform Vendor X509 Registry.

Local Open Scope broker_scope.
#[local] Set Warnings "-register-all".

(** ** Looking templates up *)

Definition getTemplate (name : string) : prog (result ConfigurationTemplate) :=
  c <- Config ;;
  match find_index (fun template => template_Name template =?s name) (templates c) with
  | None => Ret (Err (NewConfigurationError ("unable to locate template for " +++ name)))
  | Some index =>
      c <- Config ;;
      match templates c !! index with
      | Some template => Ret (Ok template)
      | None => Halt (Panic "index out of range")
      end
  end.

(** [template.Template.Raw] of a rendered template. *)
Definition rendered_text (t : ConfigurationTemplate) : string :=
  match template_Template t with Some (mkRaw (Some raw)) => raw | _ => "" end.

Definition with_text (t : ConfigurationTemplate) (raw : string) : ConfigurationTemplate :=
  mkConfigurationTemplate (template_Name t) (Some (mkRaw (Some raw))) (template_Singleton t).

(** ** Template functions *)

(** A renderer of templates: [renderTemplate] with less fuel. *)
Definition renderer : Type := ConfigurationTemplate -> Entry -> value -> prog (result ConfigurationTemplate).

Section Functions.
Context `{Vendor} (render : renderer) (entry : Entry).

Definition templateFunctionRegistry (key : string) : result value :=
  match Entry.GetUser entry key with
  | Err err => Err (NewConfigurationError ("registry read error: " +++ Error err))
  | Ok None => Ok VNull
  | Ok (Some v) => Ok v
  end.

Definition templateFunctionParameter (path : string) : result value :=
  match Entry.Get (T := value) entry Parameters_ with
  | Err err => Err err
  | Ok None => Err (wrappedError ErrRegistryEntryMissing "unable to lookup parameters")
  | Ok (Some VNull) => Ok VNull
  | Ok (Some parameters) =>
      match jsonpointer_New path with
      | Some err => Err (NewConfigurationError ("json pointer malformed: " +++ Error err))
      | None => match jsonpointer_Get path parameters with Ok v => Ok v | Err _ => Ok VNull end
      end
  end.

(** [json.Unmarshal(template.Template.Raw, &value)] *)
Definition decode_rendered (t : ConfigurationTemplate) : result value :=
  match Unmarshal (T := value) (rendered_text t) with
  | Ok v => Ok v
  | Err err => Err (NewConfigurationError ("template not JSON formatted: " +++ Error err))
  end.

Definition templateFunctionSnippet (name : string) : prog (result value) :=
  template <-? getTemplate name ;;
  template <-? render template entry VNull ;;
  Ret (decode_rendered template).

Fixpoint snippetArray_elements (template : ConfigurationTemplate) (parameters : list value)
    : prog (result (list value)) :=
  match parameters with
  | [] => Ret (Ok [])
  | parameter :: parameters =>
      rendered <-? render template entry parameter ;;
      match decode_rendered rendered with
      | Err err => Ret (Err err)
      | Ok v => l <-? snippetArray_elements template parameters ;; Ret (Ok (v :: l))
      end
  end.

Definition templateFunctionSnippetArray (name : string) (parameters : list value) : prog (result value) :=
  template <-? getTemplate name ;;
  l <-? snippetArray_elements template parameters ;;
  Ret (Ok (VArray l)).

Definition templateFunctionList (elements : list value) : value := VArray elements.

Definition templateFunctionGeneratePetName (numWords : Z) : prog (result value) :=
  if (numWords <=? 0)%Z
  then Ret (Err (NewConfigurationError "petNames: minimum numbers of words is 1"))
  else name <- call (Petname numWords "-") ;; Ret (Ok (VString name)).

Definition default_dictionary : string :=
  "abcdefghijklmnopqrstuvwxyzABCDEFGHIJKLMNOPQRSTUVWXYZ0123456789".

(** The loop over [length]; [rand.Int] panics on a limit that is not positive. *)
Fixpoint password_loop (d : string) (limit : Z) (n : nat) (v : string) : prog (result value) :=
  match n with
  | O => Ret (Ok (VString v))
  | S n =>
      if (limit <=? 0)%Z then Halt (Panic "crypto/rand: argument to Int is <= 0")
      else
        index <-? call (RandInt limit) ;;
        password_loop d limit n (v +++ String.substring (Z.to_nat index) 1 d)
  end.

Definition templateFunctionGeneratePassword (length : Z) (dictionary : value) : prog (result value) :=
  match dictionary with
  | VNull => password_loop default_dictionary (Z.of_nat (String.length default_dictionary) - 1) (Z.to_nat length) ""
  | VString d => password_loop d (Z.of_nat (String.length d) - 1) (Z.to_nat length) ""
  | _ => Ret (Err (NewConfigurationError "password dictionary not a string"))
  end.

Definition templateFunctionGeneratePrivatekey (typ encoding : string) (bits : value) : prog (result value) :=
  match bits with
  | VNull => key <-? GenerateKey typ encoding None ;; Ret (Ok (VString key))
  | VInt b => key <-? GenerateKey typ encoding (Some b) ;; Ret (Ok (VString key))
  | _ => Ret (Err (NewConfigurationError "bits is not an integer"))
  end.

(** [v.(string)] of a value that may be nil. *)
Definition optional_string (v : value) (err : string) : result (option string) :=
  match v with
  | VNull => Ok None
  | VString s => Ok (Some s)
  | _ => Err (NewConfigurationError err)
  end.

Fixpoint typed_sans (sans : list value) : result (list string) :=
  match sans with
  | [] => Ok []
  | VString s :: sans => let? l := typed_sans sans in Ok (s :: l)
  | san :: _ => Err (NewConfigurationError ("SAN " +++ fmt_Sprint san +++ " not a strings"))
  end.

Definition templateFunctionGenerateCertificate (key cn lifetime usage : string) (sans : list value)
    (caKey caCert : value) : prog (result value) :=
  match (let? duration := ParseDuration lifetime in
         let? caKeyTyped := optional_string caKey "CA key not a string" in
         let? caCertTyped := optional_string caCert "CA certificate not a string" in
         let? sansTyped := typed_sans sans in
         Ok (duration, caKeyTyped, caCertTyped, sansTyped)) with
  | Err err => Ret (Err err)
  | Ok (duration, caKeyTyped, caCertTyped, sansTyped) =>
      cert <-? GenerateCertificate key cn duration usage sansTyped caKeyTyped caCertTyped ;;
      Ret (Ok (VString cert))
  end.

Definition templateFunctionRequired (v : value) : result value :=
  match v with VNull => Err (NewConfigurationError "required value is nil") | v => Ok v end.

Definition templateFunctionGenerateDefault (def v : value) : value :=
  match v with VNull => def | v => v end.

Definition templateFunctionUpper (s : string) : string := ToUpper s.
Definition templateFunctionLower (s : string) : string := ToLower s.

(** [strings.Title] on ASCII text: a letter that starts a word. *)
Definition is_word_char (c : ascii) : bool :=
  is_digit c || Ascii.eqb c "_" || negb (Ascii.eqb (to_upper_char c) c) || negb (Ascii.eqb (to_lower_char c) c).

Fixpoint title_from (start : bool) (s : string) : string :=
  match s with
  | EmptyString => EmptyString
  | String c r => String (if start then to_upper_char c else c) (title_from (negb (is_word_char c)) r)
  end.

Definition templateFunctionTitle (s : string) : string := title_from true s.

Definition templateFunctionGenerateJSON (object : value) : result value :=
  let? raw := Marshal object in Ok (VString raw).

(** ** Calling a function: [funcs] and the types of its parameters *)

Inductive kind : Type := KString | KInt | KSlice | KAny.

(** The functions whose parameters have type [interface{}]. *)
Definition call_any (name : string) (args : list value) : prog (result value) :=
  if name =?s "list" then Ret (Ok (templateFunctionList args))
  else match args with
       | [v] =>
           if name =?s "required" then Ret (templateFunctionRequired v)
           else if name =?s "json" then Ret (templateFunctionGenerateJSON v)
           else Ret (Err (plainError "reflect: call with wrong arguments"))
       | [def; v] =>
           if name =?s "default" then Ret (Ok (templateFunctionGenerateDefault def v))
           else Ret (Err (plainError "reflect: call with wrong arguments"))
       | _ => Ret (Err (plainError "reflect: call with wrong arguments"))
       end.

Definition signature (name : string) : option (list kind * option kind) :=
  if bool_decide (name ∈ ["registry"; "parameter"; "snippet"; "upper"; "lower"; "title"]) then Some ([KString], None)
  else if name =?s "snippetArray" then Some ([KString; KSlice], None)
  else if name =?s "list" then Some ([], Some KAny)
  else if name =?s "generatePassword" then Some ([KInt; KAny], None)
  else if name =?s "generatePetName" then Some ([KInt], None)
  else if name =?s "generatePrivateKey" then Some ([KString; KString; KAny], None)
  else if name =?s "generateCertificate" then Some ([KString; KString; KString; KString; KSlice; KAny; KAny], None)
  else if bool_decide (name ∈ ["required"; "json"]) then Some ([KAny], None)
  else if name =?s "default" then Some ([KAny; KAny], None)
  else None.

(** The arguments have been checked against the signature. *)
Definition call_function (name : string) (args : list value) : prog (result value) :=
  match args with
  | [VString s] =>
      if name =?s "registry" then Ret (templateFunctionRegistry s)
      else if name =?s "parameter" then Ret (templateFunctionParameter s)
      else if name =?s "snippet" then templateFunctionSnippet s
      else if name =?s "upper" then Ret (Ok (VString (templateFunctionUpper s)))
      else if name =?s "lower" then Ret (Ok (VString (templateFunctionLower s)))
      else if name =?s "title" then Ret (Ok (VString (templateFunctionTitle s)))
      else call_any name args
  | [VString n; VArray parameters] =>
      if name =?s "snippetArray" then templateFunctionSnippetArray n parameters
      else call_any name args
  | [VInt length; dictionary] =>
      if name =?s "generatePassword" then templateFunctionGeneratePassword length dictionary
      else call_any name args
  | [VInt numWords] =>
      if name =?s "generatePetName" then templateFunctionGeneratePetName numWords
      else call_any name args
  | [VString typ; VString encoding; bits] =>
      if name =?s "generatePrivateKey" then templateFunctionGeneratePrivatekey typ encoding bits
      else call_any name args
  | [VString key; VString cn; VString lifetime; VString usage; VArray sans; caKey; caCert] =>
      if name =?s "generateCertificate" then
        templateFunctionGenerateCertificate key cn lifetime usage sans caKey caCert
      else call_any name args
  | _ => call_any name args
  end.
End Functions.

(** [text/template] turns a panic of a function into its error. *)
Fixpoint recover {A} (p : prog (result A)) : prog (result A) :=
  match p with
  | Ret r => Ret r
  | Halt (Panic message) => Ret (Err (plainError message))
  | Halt OutOfFuel => Halt OutOfFuel
  | Vis e k => Vis e (fun x => recover (k x))
  | Go t k => Go t (recover k)
  end.

(** ** Evaluation of a parse tree *)

Definition template_error (reason : string) : error := plainError reason.

(** A [reflect.Value]: [None] is the invalid one, [Some VNull] a nil interface. *)
Abbreviation dot_value := (option value).

Definition of_value (v : value) : dot_value := match v with VNull => None | v => Some v end.
Definition to_value (d : dot_value) : value := default VNull d.

(** Variables, the newest first. *)
Abbreviation variables := (list (string * dot_value)).

Definition validateType (k : kind) (v : value) : result value :=
  match k, v with
  | KAny, v => Ok v
  | KString, VString s => Ok (VString s)
  | KInt, VInt z => Ok (VInt z)
  | KSlice, VArray l => Ok (VArray l)
  | KSlice, VNull => Ok (VArray [])
  | _, VNull => Err (template_error "invalid value")
  | _, _ => Err (template_error "wrong type for value")
  end.

Fixpoint evalFieldChain (receiver : dot_value) (idents : list string) : result dot_value :=
  match idents with
  | [] => Ok receiver
  | f :: idents =>
      match receiver with
      | None => Ok None
      | Some (VObject m) => evalFieldChain (obj_get f m) idents
      | Some VNull => Err (template_error ("nil pointer evaluating interface {}." +++ f))
      | Some _ => Err (template_error ("can't evaluate field " +++ f))
      end
  end.

Definition varValue (vars : variables) (name : string) : result dot_value :=
  match find_first (fun v => v.1 =?s name) vars with
  | Some v => Ok v.2
  | None => Err (template_error ("undefined variable: " +++ name))
  end.

Definition wrong_constant : error := template_error "can't handle constant for arg of this type".

Section Evaluation.
Context `{Vendor} (render : renderer) (entry : Entry).

(** An argument, evaluated for a parameter of some kind. *)
Definition thunk : Type := kind -> dot_value -> variables -> prog (result value).

Fixpoint eval_args (kinds : list kind) (args : list thunk) (dot : dot_value) (vars : variables)
    : prog (result (list value)) :=
  match args, kinds with
  | a :: args, k :: kinds =>
      v <-? a k dot vars ;;
      l <-? eval_args kinds args dot vars ;;
      Ret (Ok (v :: l))
  | _, _ => Ret (Ok [])
  end.

(** [final], the value of the previous command, is the last argument. *)
Definition evalFunction (name : string) (args : list thunk) (final : option value)
    (dot : dot_value) (vars : variables) : prog (result value) :=
  let args := match final with
              | Some v => args ++ [fun k _ _ => Ret (validateType k v)]
              | None => args
              end in
  let fixed := match signature name with Some (ks, _) => ks | None => [] end in
  let variadic := match signature name with Some (_, v) => v | None => Some KAny end in
  if match variadic with
     | None => negb (length args =? length fixed)
     | Some _ => length args <? length fixed
     end
  then Ret (Err (template_error ("wrong number of args for " +++ name)))
  else
    vs <-? eval_args (fixed ++ repeat (default KAny variadic) (length args - length fixed)) args dot vars ;;
    r <- recover (match signature name with
                  | Some _ => call_function render entry name vs
                  | None => Ret (template_builtin name vs)
                  end) ;;
    match r with
    | Ok v => Ret (Ok v)
    | Err err => Ret (Err (template_error ("error calling " +++ name +++ ": " +++ Error err)))
    end.

(** A command as its words with their evaluation. *)
Definition evalCommand (cmd : list (arg * thunk)) (final : option value)
    (dot : dot_value) (vars : variables) : prog (result value) :=
  match cmd with
  | [] => Ret (Err (template_error "empty command"))
  | (IdentifierNode name, _) :: args => evalFunction name (map snd args) final dot vars
  | (word, first) :: args =>
      if negb (length args =? 0) || match final with Some _ => true | None => false end
      then Ret (Err (template_error "can't give argument to non-function"))
      else match word with
           | NilNode => Ret (Err (template_error "nil is not a command"))
           | _ => first KAny dot vars
           end
  end.

Fixpoint evalCommands (cmds : list (list (arg * thunk))) (final : option value)
    (dot : dot_value) (vars : variables) : prog (result value) :=
  match cmds with
  | [] => Ret (Ok (default VNull final))
  | cmd :: cmds =>
      v <-? evalCommand cmd final dot vars ;;
      evalCommands cmds (Some v) dot vars
  end.

Fixpoint evalArg (a : arg) : thunk := fun k dot vars =>
  match a with
  | DotNode => Ret (validateType k (to_value dot))
  | NilNode =>
      Ret (match k with
           | KAny => Ok VNull
           | KSlice => Ok (VArray [])
           | _ => Err (template_error "cannot assign nil")
           end)
  | FieldNode idents => Ret (let? d := evalFieldChain dot idents in validateType k (to_value d))
  | VariableNode name idents =>
      Ret (let? d := varValue vars name in
           let? d := evalFieldChain d idents in validateType k (to_value d))
  | PipeArg cmds =>
      v <-? evalCommands (map (map (fun a => (a, evalArg a))) cmds) None dot vars ;;
      Ret (validateType k v)
  | IdentifierNode name =>
      v <-? evalFunction name [] None dot vars ;;
      Ret (validateType k v)
  | StringNode s =>
      Ret (match k with KString | KAny => Ok (VString s) | _ => Err wrong_constant end)
  | BoolNode b => Ret (match k with KAny => Ok (VBool b) | _ => Err wrong_constant end)
  | NumberNode int float is_float =>
      Ret (match k, int with
           | KInt, Some z => Ok (VInt z)
           | KAny, _ => if is_float then Ok (VFloat float)
                        else match int with
                             | Some z => Ok (VInt z)
                             | None => Err (template_error "integer overflow")
                             end
           | _, _ => Err wrong_constant
           end)
  end.

Fixpoint setVar (name : string) (v : dot_value) (vars : variables) : variables :=
  match vars with
  | [] => []
  | (n, old) :: vars => if n =?s name then (n, v) :: vars else (n, old) :: setVar name v vars
  end.

Definition evalPipeline (p : pipe) (dot : dot_value) (vars : variables) : prog (result (value * variables)) :=
  v <-? evalCommands (map (map (fun a => (a, evalArg a))) (pipe_Cmds p)) None dot vars ;;
  Ret (Ok (v, foldl (fun vars name => if pipe_IsAssign p then setVar name (of_value v) vars
                                      else (name, of_value v) :: vars) vars (pipe_Decl p))).

(** ** Execution: the text a tree writes, and the variables *)

Definition step : Type := dot_value -> variables -> prog (result (string * variables)).

(** [isTrue]; a number is zero when its literal has no other digit. *)
Fixpoint nonzero_literal (s : string) : bool :=
  match s with
  | EmptyString => false
  | String c r =>
      if Ascii.eqb c "e" || Ascii.eqb c "E" then false
      else (is_digit c && negb (Ascii.eqb c "0")) || nonzero_literal r
  end.

Definition isTrue (v : value) : bool :=
  match v with
  | VNull => false
  | VBool b => b
  | VInt z => negb (z =? 0)%Z
  | VFloat lit => nonzero_literal lit
  | VString s => negb (s =?s "")
  | VArray l => negb (length l =? 0)
  | VObject m => negb (length m =? 0)
  end.

Definition printValue (v : value) : string :=
  match v with
  | VNull => "<no value>"
  | VString s => s
  | v => fmt_Sprint v
  end.

(** Pops the variables above the mark [n]. *)
Definition pop (n : nat) (vars : variables) : variables := drop (length vars - n) vars.

Fixpoint walk_list (l : list step) : step := fun dot vars =>
  match l with
  | [] => Ret (Ok ("", vars))
  | s :: l =>
      ' (out, vars) <-? s dot vars ;;
      ' (rest, vars) <-? walk_list l dot vars ;;
      Ret (Ok (out +++ rest, vars))
  end.

Definition walk_else (e : option step) : step := fun dot vars =>
  match e with Some s => s dot vars | None => Ret (Ok ("", vars)) end.

(** [setTopVar]: the n-th variable from the top is given a value. *)
Definition setTopVar (n : nat) (v : dot_value) (vars : variables) : variables :=
  alter (fun x => (x.1, v)) (n - 1) vars.

Fixpoint walk_range (decls : nat) (mark : nat) (body : step) (items : list (value * value))
    (vars : variables) : prog (result (string * variables)) :=
  match items with
  | [] => Ret (Ok ("", vars))
  | (index, elem) :: items =>
      let vars := if 0 <? decls then setTopVar 1 (Some elem) vars else vars in
      let vars := if 1 <? decls then setTopVar 2 (Some index) vars else vars in
      ' (out, vars) <-? body (Some elem) vars ;;
      ' (rest, vars) <-? walk_range decls mark body items (pop mark vars) ;;
      Ret (Ok (out +++ rest, vars))
  end.

Definition range_items (v : value) : option (list (value * value)) :=
  match v with
  | VArray l => Some (imap (fun i x => (VInt (Z.of_nat i), x)) l)
  | VObject m => Some (map (fun kv => (VString kv.1, kv.2)) m)
  | VNull => Some []
  | _ => None
  end.

Fixpoint walk (n : node) : step := fun dot vars =>
  let mark := length vars in
  match n with
  | TextNode text => Ret (Ok (text, vars))
  | ActionNode p =>
      ' (v, vars) <-? evalPipeline p dot vars ;;
      Ret (Ok (match pipe_Decl p with [] => printValue v | _ => "" end, vars))
  | IfNode p l e =>
      ' (v, vars) <-? evalPipeline p dot vars ;;
      ' (out, vars) <-? (if isTrue v then walk_list (map walk l) dot vars
                         else walk_else ((fun l => walk_list (map walk l)) <$> e) dot vars) ;;
      Ret (Ok (out, pop mark vars))
  | WithNode p l e =>
      ' (v, vars) <-? evalPipeline p dot vars ;;
      ' (out, vars) <-? (if isTrue v then walk_list (map walk l) (of_value v) vars
                         else walk_else ((fun l => walk_list (map walk l)) <$> e) dot vars) ;;
      Ret (Ok (out, pop mark vars))
  | RangeNode p l e =>
      ' (v, vars) <-? evalPipeline p dot vars ;;
      ' (out, vars) <-?
        match range_items v with
        | None => Ret (Err (template_error "range can't iterate over value"))
        | Some [] => walk_else ((fun l => walk_list (map walk l)) <$> e) dot vars
        | Some items => walk_range (length (pipe_Decl p)) (length vars) (walk_list (map walk l)) items vars
        end ;;
      Ret (Ok (out, pop mark vars))
  end.

(** [tmpl.Execute(buf, data)] *)
Definition Execute (tree : list node) (data : value) : prog (result string) :=
  r <-? walk_list (map walk tree) (of_value data) [("$", of_value data)] ;;
  Ret (Ok r.1).
End Evaluation.

(** ** Rendering *)

Definition templatePrefix : string := "{{".
Definition templateSuffix : string := "}}".

Definition HasPrefix (s p : string) : bool := String.prefix p s.
Definition HasSuffix (s p : string) : bool :=
  String.substring (String.length s - String.length p) (String.length p) s =?s p.

Definition jsonify : command := [IdentifierNode "json"].

Fixpoint all_some {A} (l : list (option A)) : option (list A) :=
  match l with
  | [] => Some []
  | Some x :: l => cons x <$> all_some l
  | None :: _ => None
  end.

(** The tree after the transformation.  The [else] branch of a conditional is
    visited although it may be a nil pointer, which panics: [None].  Below an
    action there are pipes, commands and words only, where the transformation
    finds nothing to do; [range] and [with] are none of its cases. *)
Fixpoint transformActionsToJSON (n : node) : option node :=
  match n with
  | ActionNode p =>
      Some (match pipe_Decl p with
            | [] => ActionNode (mkPipe [] (pipe_IsAssign p) (pipe_Cmds p ++ [jsonify]))
            | _ => ActionNode p
            end)
  | IfNode p l e =>
      match all_some (map transformActionsToJSON l) with
      | None => None
      | Some l =>
          match e with
          | None => None
          | Some e => match all_some (map transformActionsToJSON e) with
                      | Some e => Some (IfNode p l (Some e))
                      | None => None
                      end
          end
      end
  | n => Some n
  end.

Section Rendering.
Context `{Vendor}.

Definition renderTemplateString (render : renderer) (str : string) (entry : Entry) (data : value)
    : prog (result value) :=
  if negb (HasPrefix str templatePrefix) then Ret (Ok (VString str))
  else if negb (HasSuffix str templateSuffix)
  then Ret (Err (NewConfigurationError ("dynamic attribute '" +++ str +++ "' malformed")))
  else match template_Parse str with
       | Err err => Ret (Err err)
       | Ok tree =>
           match all_some (map transformActionsToJSON tree) with
           | None => nil_dereference
           | Some tree =>
               r <- Execute render entry tree data ;;
               match r with
               | Err err =>
                   Ret (Err (NewConfigurationError
                     ("dynamic attribute resolution failed: " +++ exec_error_text (Error err))))
               | Ok buf => Ret (Unmarshal (T := value) buf)
               end
           end
       end.

(** The loop over a map: [rendered] has the rendering of each of its values.
    A value that renders to nil is deleted, and ends the loop. *)
Fixpoint render_members (keys : list string) (rendered : list (string * prog (result value)))
    (t : list (string * value)) : prog (result value) :=
  match keys with
  | [] => Ret (Ok (VObject t))
  | k :: keys =>
      match find_first (fun kp => kp.1 =?s k) rendered with
      | None => render_members keys rendered t
      | Some (_, p) =>
          v <-? p ;;
          match v with
          | VNull => Ret (Ok (VObject (obj_delete k t)))
          | v => render_members keys rendered (obj_set k v t)
          end
      end
  end.

Fixpoint render_items (rendered : list (prog (result value))) : prog (result (list value)) :=
  match rendered with
  | [] => Ret (Ok [])
  | p :: rendered => v <-? p ;; l <-? render_items rendered ;; Ret (Ok (v :: l))
  end.

Fixpoint recurseRenderTemplate (render : renderer) (object : value) (entry : Entry) (data : value)
    : prog (result value) :=
  match object with
  | VObject t =>
      keys <- call (RangeMap (map fst t)) ;;
      render_members keys (map (fun kv => (kv.1, recurseRenderTemplate render kv.2 entry data)) t) t
  | VArray t =>
      l <-? render_items (map (fun v => recurseRenderTemplate render v entry data) t) ;;
      Ret (Ok (VArray l))
  | VString str => renderTemplateString render str entry data
  | object => Ret (Ok object)
  end.

Fixpoint renderTemplate (fuel : nat) : renderer := fun template entry data =>
  match fuel with
  | O => Halt OutOfFuel
  | S fuel =>
      match template_Template template with
      | None | Some (mkRaw None) =>
          Ret (Err (NewConfigurationError ("template " +++ template_Name template +++ " is not defined")))
      | Some (mkRaw (Some raw)) =>
          match Unmarshal (T := value) raw with
          | Err err => Ret (Err err)
          | Ok object =>
              object <-? recurseRenderTemplate (renderTemplate fuel) object entry data ;;
              match Marshal object with
              | Err err => Ret (Err err)
              | Ok raw => Ret (Ok (with_text template raw))
              end
          end
      end
  end.
End Rendering.
