(* ===== verification/TemplateFacts.v ===== *)
(** * Properties of templates ([pkg/provisioners/template.go])

    Rendering keeps the type of what a template evaluates to, leaves text that
    is not a template alone, and makes no call that writes; and the corners
    where it does something else than its comments say. *)

From S2P Require Import Prelude Json JsonFacts Errors Types Platform Vendor X509 Sim X509Facts Registry Template.
From Stdlib Require Import Lia.

Local Open Scope broker_scope.

(** ** Effects *)

(** The calls that rendering makes. *)
Definition rendering_call : forall X, event X -> bool := fun X e =>
  match e with
  | ConfigRead | RangeMap _ | RandInt _ | Petname _ _ | RandReader | TimeNow => true
  | _ => false
  end.

Lemma crypto_rendering X (e : event X) : crypto_call X e = true -> rendering_call X e = true.
Proof. by destruct e. Qed.

Lemma rendering_quiet X (e : event X) : rendering_call X e = true -> no_secret_writes X e = true.
Proof. by destruct e. Qed.

Lemma rendering_keeps_config X (e : event X) : rendering_call X e = true -> no_config_writes X e = true.
Proof. by destruct e. Qed.

Lemma effects_recover P {A} (p : prog (result A)) : effects P p -> effects P (recover p).
Proof.
  revert p. fix IH 1. intros [r|[m|]|X e k|t p]; simpl; auto; [].
  intros [? Hk]. split; [done|]. intros x. apply IH, Hk.
Qed.

(** Case analysis on the program, down to calls, results and sub-programs. *)
Ltac effects_solver :=
  repeat first
    [ done
    | assumption
    | progress intros
    | apply effects_recover
    | apply effects_try
    | apply effects_bind
    | apply effects_call
    | match goal with |- effects _ (Vis _ _) => split; [reflexivity|] end
    | match goal with |- effects _ (match ?x with _ => _ end) => destruct x end
    | progress cbn [negb res_bind] ].

Section Induction.
Variable P : arg -> Prop.
Hypothesis H_leaf : forall a, match a with PipeArg _ => True | _ => P a end.
Hypothesis H_pipe : forall cmds, Forall (Forall P) cmds -> P (PipeArg cmds).

Fixpoint arg_induction (a : arg) : P a :=
  match a with
  | PipeArg cmds =>
      H_pipe cmds ((fix go cmds : Forall (Forall P) cmds :=
        match cmds with
        | [] => @Forall_nil _ (Forall P)
        | c :: cmds => @Forall_cons _ (Forall P) c cmds
            ((fix go1 c : Forall P c :=
                match c with
                | [] => @Forall_nil _ P
                | a :: c => @Forall_cons _ P a c (arg_induction a) (go1 c)
                end) c) (go cmds)
        end) cmds)
  | a => H_leaf a
  end.
End Induction.

Section NodeInduction.
Variable P : node -> Prop.
Hypothesis H_text : forall t, P (TextNode t).
Hypothesis H_action : forall p, P (ActionNode p).
Hypothesis H_if : forall p l e, Forall P l -> Forall P (default [] e) -> P (IfNode p l e).
Hypothesis H_range : forall p l e, Forall P l -> Forall P (default [] e) -> P (RangeNode p l e).
Hypothesis H_with : forall p l e, Forall P l -> Forall P (default [] e) -> P (WithNode p l e).

Fixpoint node_induction (n : node) : P n :=
  let go := fix go l : Forall P l :=
    match l with [] => @Forall_nil _ P | n :: l => @Forall_cons _ P n l (node_induction n) (go l) end in
  let goe := fun e : option (list node) =>
    match e return Forall P (default [] e) with Some l => go l | None => @Forall_nil _ P end in
  match n with
  | TextNode t => H_text t
  | ActionNode p => H_action p
  | IfNode p l e => H_if p l e (go l) (goe e)
  | RangeNode p l e => H_range p l e (go l) (goe e)
  | WithNode p l e => H_with p l e (go l) (goe e)
  end.
End NodeInduction.

Section Effects.
Context `{Vendor}.

Abbreviation quiet := (effects rendering_call).

Definition quiet_renderer (render : renderer) : Prop := forall t e d, quiet (render t e d).
Definition quiet_thunk (th : thunk) : Prop := forall k dot vars, quiet (th k dot vars).
Definition quiet_step (st : step) : Prop := forall dot vars, quiet (st dot vars).

Lemma quiet_Config : quiet Config.
Proof. unfold Config. effects_solver. Qed.

Lemma quiet_getTemplate name : quiet (getTemplate name).
Proof. unfold getTemplate. effects_solver; apply quiet_Config. Qed.

Lemma quiet_password d limit n v : quiet (password_loop d limit n v).
Proof. revert v. induction n as [|n IH]; intros v; simpl; [done|]. destruct (limit <=? 0)%Z; [done|]. by effects_solver. Qed.

Section Evaluation.
Context (render : renderer) (entry : Entry) (Hrender : quiet_renderer render).

Lemma quiet_snippetArray t l : quiet (snippetArray_elements render entry t l).
Proof. induction l as [|x l IH]; simpl; [done|]. by effects_solver. Qed.

Lemma quiet_GenerateKey typ encoding bits : quiet (GenerateKey typ encoding bits).
Proof. eapply effects_weaken; [exact crypto_rendering|apply effects_GenerateKey]. Qed.

Lemma quiet_GenerateCertificate key cn lifetime usage sans caKey caCert :
  quiet (GenerateCertificate key cn lifetime usage sans caKey caCert).
Proof. eapply effects_weaken; [exact crypto_rendering|apply effects_GenerateCertificate]. Qed.

#[local] Opaque GenerateKey GenerateCertificate.

Lemma quiet_call_any name args : quiet (call_any name args).
Proof. unfold call_any. effects_solver. Qed.

Lemma quiet_call_function name args : quiet (call_function render entry name args).
Proof.
  unfold call_function, templateFunctionSnippet, templateFunctionSnippetArray, templateFunctionGeneratePassword,
    templateFunctionGeneratePetName, templateFunctionGeneratePrivatekey, templateFunctionGenerateCertificate.
  effects_solver; first
    [ apply quiet_call_any | apply quiet_GenerateKey | apply quiet_GenerateCertificate | apply quiet_getTemplate | apply Hrender | apply quiet_snippetArray | apply quiet_password ].
Qed.

#[local] Transparent GenerateKey GenerateCertificate.

Lemma quiet_eval_args kinds args dot vars :
  Forall quiet_thunk args -> quiet (eval_args kinds args dot vars).
Proof.
  intros Ha. revert kinds. induction Ha as [|a args Ha _ IH]; intros [|k kinds]; simpl; try done.
  effects_solver; first [apply Ha|apply IH].
Qed.

Lemma quiet_evalFunction name args final dot vars :
  Forall quiet_thunk args -> quiet (evalFunction render entry name args final dot vars).
Proof.
  intros Ha. unfold evalFunction. destruct (match _ with None => _ | Some _ => _ end); [done|].
  apply effects_try; [|intros vs].
  - apply quiet_eval_args. destruct final; [|done]. apply Forall_app. split; [done|]. by constructor.
  - effects_solver; apply quiet_call_function.
Qed.

Lemma quiet_evalCommand cmd final dot vars :
  Forall (fun at_ => quiet_thunk at_.2) cmd -> quiet (evalCommand render entry cmd final dot vars).
Proof.
  intros Hc. destruct Hc as [|[a th] cmd Ha Hc]; [done|]. unfold evalCommand.
  assert (quiet (if negb (length cmd =? 0) || match final with Some _ => true | None => false end
                 then Ret (Err (template_error "can't give argument to non-function"))
                 else th KAny dot vars)) as Hth by (effects_solver; apply Ha).
  destruct a; try exact Hth; effects_solver.
  apply quiet_evalFunction. rewrite Forall_map. exact Hc.
Qed.

Lemma quiet_evalCommands cmds final dot vars :
  Forall (Forall (fun at_ => quiet_thunk at_.2)) cmds -> quiet (evalCommands render entry cmds final dot vars).
Proof.
  intros Hc. revert final. induction Hc as [|c cmds Hc _ IH]; intros final; simpl; [done|].
  apply effects_try; [by apply quiet_evalCommand|]. intros v. apply IH.
Qed.

Lemma quiet_words cmds :
  Forall (Forall (fun a => quiet_thunk (evalArg render entry a))) cmds ->
  Forall (Forall (fun at_ => quiet_thunk at_.2)) (map (map (fun a => (a, evalArg render entry a))) cmds).
Proof.
  intros Hc. rewrite Forall_map. eapply Forall_impl; [|exact Hc]. intros c Hcc. by rewrite Forall_map.
Qed.

Lemma quiet_evalArg a : quiet_thunk (evalArg render entry a).
Proof.
  apply (arg_induction (fun a => quiet_thunk (evalArg render entry a))); clear a.
  - intros a. destruct a; try done; intros k dot vars; simpl; effects_solver. by apply quiet_evalFunction.
  - intros cmds IH k dot vars. cbn [evalArg]. apply effects_try; [|done]. by apply quiet_evalCommands, quiet_words.
Qed.

Lemma quiet_evalPipeline p dot vars : quiet (evalPipeline render entry p dot vars).
Proof.
  unfold evalPipeline. apply effects_try; [|done]. apply quiet_evalCommands, quiet_words.
  apply Forall_forall. intros c _. apply Forall_forall. intros a _. apply quiet_evalArg.
Qed.

Lemma quiet_walk_list l dot vars : Forall quiet_step l -> quiet (walk_list l dot vars).
Proof.
  intros Hl. revert dot vars. induction Hl as [|st l Hs _ IH]; intros dot vars; simpl; [done|].
  effects_solver; first [apply Hs|apply IH].
Qed.

Lemma quiet_walk_range d mark body items vars :
  quiet_step body -> quiet (walk_range d mark body items vars).
Proof.
  intros Hb. revert vars. induction items as [|[i x] items IH]; intros vars; simpl; [done|].
  effects_solver; first [apply Hb|apply IH].
Qed.

(** A control structure: a pipeline, a body, and the end of a scope. *)
Lemma quiet_scoped p dot vars mark (body : value -> variables -> prog (result (string * variables))) :
  (forall v vars, quiet (body v vars)) ->
  quiet (' (v, vars) <-? evalPipeline render entry p dot vars ;;
         ' (out, vars) <-? body v vars ;;
         Ret (Ok (out, pop mark vars))).
Proof.
  intros Hb. apply effects_try; [apply quiet_evalPipeline|]. intros [v vars'].
  apply effects_try; [apply Hb|]. by intros [].
Qed.

Lemma quiet_nodes l : Forall (fun n => quiet_step (walk render entry n)) l ->
  quiet_step (walk_list (map (walk render entry) l)).
Proof. intros Hl dot vars. apply quiet_walk_list. by rewrite Forall_map. Qed.

Lemma quiet_else e dot vars : Forall (fun n => quiet_step (walk render entry n)) (default [] e) ->
  quiet (walk_else ((fun l => walk_list (map (walk render entry) l)) <$> e) dot vars).
Proof. intros He. destruct e; [by apply quiet_nodes|done]. Qed.

Lemma quiet_walk n : quiet_step (walk render entry n).
Proof.
  induction n as [t|p|p l e IHl IHe|p l e IHl IHe|p l e IHl IHe] using node_induction; intros dot vars; cbn [walk].
  - done.
  - apply effects_try; [apply quiet_evalPipeline|]. by intros [].
  - apply (quiet_scoped p dot vars (length vars) (fun v vars => if isTrue v then _ else _)). intros v vars'.
    destruct (isTrue v); [by apply quiet_nodes|by apply quiet_else].
  - apply (quiet_scoped p dot vars (length vars) (fun v vars => match range_items v with None => _ | Some [] => _ | Some _ => _ end)).
    intros v vars'. destruct (range_items v) as [[|x items]|]; [by apply quiet_else| |done].
    by apply quiet_walk_range, quiet_nodes.
  - apply (quiet_scoped p dot vars (length vars) (fun v vars => if isTrue v then _ else _)). intros v vars'.
    destruct (isTrue v); [by apply quiet_nodes|by apply quiet_else].
Qed.

Lemma quiet_renderTemplateString str data : quiet (renderTemplateString render str entry data).
Proof.
  unfold renderTemplateString, Execute, nil_dereference. effects_solver.
  apply quiet_walk_list. rewrite Forall_map. apply Forall_forall. intros n _. apply quiet_walk.
Qed.

Lemma quiet_render_members keys rendered t :
  Forall (fun kp => quiet kp.2) rendered -> quiet (render_members keys rendered t).
Proof.
  intros Hr. revert t. induction keys as [|k keys IH]; intros t; simpl; [done|].
  destruct (find_first _ rendered) as [[k' p]|] eqn:E; [|apply IH].
  apply find_first_Some in E as [E _]. rewrite Forall_forall in Hr. specialize (Hr _ (proj1 (list_elem_of_In _ _) E)).
  apply effects_try; [done|]. intros v. destruct v; done || apply IH.
Qed.

Lemma quiet_recurse object data : quiet (recurseRenderTemplate render object entry data).
Proof.
  induction object as [|b|z|lit|str|l IH|m IH] using value_induction; try done.
  - apply quiet_renderTemplateString.
  - cbn [recurseRenderTemplate]. apply effects_try; [|done].
    induction IH as [|x l Hx _ IHl]; simpl; [done|]. by effects_solver.
  - cbn [recurseRenderTemplate]. apply effects_bind; [by apply effects_call|]. intros keys.
    apply quiet_render_members. rewrite Forall_map. exact IH.
Qed.
End Evaluation.

Lemma quiet_renderTemplate fuel : quiet_renderer (renderTemplate fuel).
Proof.
  induction fuel as [|fuel IH]; intros t e d; [done|]. cbn [renderTemplate].
  effects_solver. by apply quiet_recurse.
Qed.
End Effects.

(** ** Lemmas: execution *)

Section Execution.
Context `{Vendor} {W : Type} `{PlatformLaws W}.
Context (render : renderer) (entry : Entry).

Implicit Types s : sys W.

Lemma wp_recover {A} (p : prog (result A)) Q s : wp p Q s -> wp (recover p) Q s.
Proof.
  revert p s. fix IH 1. intros [r|h|X e k|t p] s; simpl.
  - done.
  - by intros [].
  - rewrite !wp_vis. apply IH.
  - rewrite !wp_go. apply IH.
Qed.






End Execution.

(** ** Documents without templates *)

Definition is_null (v : value) : bool := match v with VNull => true | _ => false end.

(** No string that starts a template, no attribute that is null. *)
Fixpoint static (v : value) : bool :=
  match v with
  | VString s => negb (HasPrefix s templatePrefix)
  | VArray l => forallb static l
  | VObject m => sorted_keys m && forallb (fun kv => static kv.2 && negb (is_null kv.2)) m
  | _ => true
  end.

Section Static.
Context `{Vendor} {W : Type} `{PlatformLaws W}.

Implicit Types s : sys W.

Lemma find_rendered {B} k (f : value -> B) (m : list (string * value)) :
  find_first (fun kp => kp.1 =?s k) (map (fun kv => (kv.1, f kv.2)) m) =
    (fun v => (k, f v)) <$> obj_get k m.
Proof.
  induction m as [|[k' v] m IH]; simpl; [done|].
  case_bool_decide as E; case_bool_decide as E'; subst; done.
Qed.

Lemma obj_get_forallb (P : string * value -> bool) k v m :
  forallb P m = true -> obj_get k m = Some v -> P (k, v) = true.
Proof.
  induction m as [|[k' v'] m IH]; simpl; [done|]. intros [Hp Hm]%andb_prop.
  case_bool_decide; [by intros [= <-]; subst|auto].
Qed.

(** A member that is changed where it is. *)
Lemma obj_set_map k v g h (m : list (string * value)) :
  sorted_keys m = true -> obj_get k m = Some v ->
  obj_set k (g v) (map (fun kv => (kv.1, h kv)) m) =
    map (fun kv => (kv.1, if kv.1 =?s k then g kv.2 else h kv)) m.
Proof.
  intros Hs Hk. revert Hs Hk. induction m as [|[k' v'] m IH]; cbn [sorted_keys obj_get map obj_set fst snd]; [done|].
  intros [Hx Hs]%andb_prop Hk. case_bool_decide as E.
  - injection Hk as ->. subst k'. rewrite compare_refl, bool_decide_true by done. f_equal. apply map_ext_in.
    intros [k2 v2] Hin. cbn [fst snd]. rewrite bool_decide_false; [done|]. intros ->.
    rewrite forallb_forall in Hx. specialize (Hx _ Hin). cbn in Hx. by rewrite compare_refl in Hx.
  - rewrite bool_decide_false by congruence. assert (String.compare k' k = Lt) as Hlt.
    { clear IH Hs. induction m as [|[k2 v2] m IHm]; simpl in *; [done|]. apply andb_prop in Hx as [Hx Hm].
      revert Hk. case_bool_decide; [subst; by destruct (String.compare k' k2)|auto]. }
    rewrite (proj2 (compare_gt_lt k k') Hlt). by rewrite IH.
Qed.

(** ** The reference: every string replaced where it stands *)

Fixpoint rendering (f : string -> value) (v : value) : value :=
  match v with
  | VString s => f s
  | VArray l => VArray (map (rendering f) l)
  | VObject m => VObject (map (fun kv => (kv.1, rendering f kv.2)) m)
  | v => v
  end.

(** The strings of a document, without the names of its attributes. *)
Fixpoint strings_of (v : value) : list string :=
  match v with
  | VString s => [s]
  | VArray l => flat_map strings_of l
  | VObject m => flat_map (fun kv => strings_of kv.2) m
  | _ => []
  end.

(** No attribute renders to nil. *)
Fixpoint never_nil (f : string -> value) (v : value) : bool :=
  match v with
  | VArray l => forallb (never_nil f) l
  | VObject m => sorted_keys m && forallb (fun kv => never_nil f kv.2 && negb (is_null (rendering f kv.2))) m
  | _ => true
  end.

Definition renders_to (render : renderer) (entry : Entry) (data v v' : value) : Prop :=
  forall s, wp (recurseRenderTemplate render v entry data) (fun r s' => r = Ok v' /\ unchanged s s') s.

(** After the keys of [before], in any order, those of [keys] are rendered. *)
Lemma render_members_reference render entry data f m keys : forall (before : list string) s,
  sorted_keys m = true ->
  (forall kv, In kv m -> renders_to render entry data kv.2 (rendering f kv.2) /\ is_null (rendering f kv.2) = false) ->
  (forall k, In k (map fst m) -> k ∈ before \/ k ∈ keys) ->
  wp (render_members keys (map (fun kv => (kv.1, recurseRenderTemplate render kv.2 entry data)) m)
        (map (fun kv => (kv.1, if bool_decide (kv.1 ∈ before) then rendering f kv.2 else kv.2)) m))
     (fun r s' => r = Ok (VObject (map (fun kv => (kv.1, rendering f kv.2)) m)) /\ unchanged s s') s.
Proof.
  induction keys as [|k keys IH]; intros before s Hs Hm Hall; cbn [render_members].
  { split; [|done]. do 2 f_equal. apply map_ext_in. intros kv Hin.
    rewrite bool_decide_true; [done|]. destruct (Hall kv.1) as [Hk|Hk]; [by apply in_map|done|by apply not_elem_of_nil in Hk]. }
  rewrite (find_rendered k (fun v => recurseRenderTemplate render v entry data)).
  destruct (obj_get k m) as [v|] eqn:Hk; cbn [fmap option_fmap option_map].
  2:{ apply IH; [done|done|]. intros k' Hin. destruct (Hall k' Hin) as [Hb|Hb]; [by left|].
      apply elem_of_cons in Hb as [->|Hb]; [|by right]. exfalso. clear -Hk Hin.
      induction m as [|[k2 v2] m IHm]; simpl in *; [done|]. case_bool_decide; [done|]. destruct Hin; [congruence|auto]. }
  assert (In (k, v) m) as Hin.
  { clear -Hk. induction m as [|[k' v'] m IHm]; simpl in *; [done|]. case_bool_decide; [left; congruence|right; auto]. }
  destruct (Hm _ Hin) as [Hv Hnull]. cbn [snd] in Hv, Hnull. apply wp_try. eapply wp_mono; [apply Hv|]. intros r s1 [-> Hs1].
  assert (wp (render_members keys (map (fun kv => (kv.1, recurseRenderTemplate render kv.2 entry data)) m)
            (obj_set k (rendering f v) (map (fun kv => (kv.1, if bool_decide (kv.1 ∈ before) then rendering f kv.2 else kv.2)) m)))
          (fun r s' => r = Ok (VObject (map (fun kv => (kv.1, rendering f kv.2)) m)) /\ unchanged s s') s1) as Hrest.
  { rewrite (obj_set_map k v (rendering f)) by done.
    rewrite (map_ext _ (fun kv => (kv.1, if bool_decide (kv.1 ∈ k :: before) then rendering f kv.2 else kv.2))).
    2:{ intros kv. f_equal. destruct (decide (kv.1 = k)) as [->|Hne].
        - by rewrite !bool_decide_true by (done || left).
        - rewrite (bool_decide_false (kv.1 = k)) by done. by rewrite (bool_decide_ext (kv.1 ∈ k :: before) (kv.1 ∈ before)) by set_solver. }
    eapply wp_mono; [apply (IH (k :: before)); [done|done|]|].
    - intros k' Hk'. destruct (Hall k' Hk') as [Hb|Hb]; [left; by right|]. apply elem_of_cons in Hb as [->|Hb]; [left; by left|by right].
    - intros r s2 [-> Hs2]. split; [done|by etransitivity]. }
  by destruct (rendering f v).
Qed.

Lemma render_reference render entry data f v :
  (forall str, In str (strings_of v) -> renders_to render entry data (VString str) (f str)) ->
  never_nil f v = true -> renders_to render entry data v (rendering f v).
Proof.
  induction v as [|b|z|lit|str|l IH|m IH] using value_induction; intros Hf Hv s; try done.
  - apply Hf. by left.
  - cbn [recurseRenderTemplate never_nil rendering strings_of] in *. apply wp_try.
    assert (wp (render_items (map (fun v => recurseRenderTemplate render v entry data) l))
              (fun r s' => r = Ok (map (rendering f) l) /\ unchanged s s') s) as Hw.
    { revert s. induction IH as [|x l Hx Hl IHl]; intros s; cbn [map render_items]; [done|].
      cbn [forallb flat_map] in *. apply andb_prop in Hv as [Hvx Hvl]. apply wp_try. eapply wp_mono.
      { apply Hx; [|done]. intros str Hin. apply Hf, in_or_app. by left. }
      intros r s1 [-> Hs1]. apply wp_try. eapply wp_mono.
      { apply IHl; [|done]. intros str Hin. apply Hf, in_or_app. by right. }
      intros r s2 [-> Hs2]. apply wp_ret. split; [done|by etransitivity]. }
    eapply wp_mono; [exact Hw|]. by intros r s1 [-> Hs1].
  - cbn [recurseRenderTemplate never_nil rendering strings_of] in *. apply andb_prop in Hv as [Hs Hm].
    rewrite forallb_forall in Hm. apply wp_bind, wp_quiet; [done..|]. intros s1 Hs1. eapply wp_mono.
    + assert (m = map (fun kv => (kv.1, if bool_decide (kv.1 ∈ ([] : list string)) then rendering f kv.2 else kv.2)) m) as Hstart.
      { symmetry. etransitivity; [|apply map_id]. apply map_ext. by intros []. }
      rewrite Hstart at 3. apply (render_members_reference render entry data f m _ []); [done| |].
      * intros kv Hin. specialize (Hm kv Hin). apply andb_prop in Hm as [Hn Hnull%negb_true_iff]. split; [|done].
        rewrite List.Forall_forall in IH. apply IH; [done| |done]. intros str Hstr. apply Hf. apply in_flat_map. eauto.
      * intros k Hk. right. rewrite range_map_perm. by apply list_elem_of_In.
    + intros r s2 [-> Hs2]. split; [done|by etransitivity].
Qed.

(** A static document is its own reference. *)
Lemma static_reference v : static v = true -> rendering VString v = v /\ never_nil VString v = true.
Proof.
  induction v as [|b|z|lit|str|l IH|m IH] using value_induction; intros Hv; try done; cbn [static rendering never_nil] in *.
  - assert (map (rendering VString) l = l /\ forallb (never_nil VString) l = true) as [-> ->]; [|done].
    induction IH as [|x l Hx Hl IHl]; [done|]. cbn [forallb map] in *. apply andb_prop in Hv as [Hvx Hvl].
    destruct (Hx Hvx) as [-> ->]. by destruct (IHl Hvl) as [-> ->].
  - apply andb_prop in Hv as [-> Hm]. cbn [andb].
    assert (map (fun kv => (kv.1, rendering VString kv.2)) m = m /\
            forallb (fun kv => never_nil VString kv.2 && negb (is_null (rendering VString kv.2))) m = true) as [-> ->]; [|done].
    induction IH as [|[k x] m Hx Hl IHm]; [done|]. cbn [forallb map fst snd] in *. apply andb_prop in Hm as [[Hvx Hnx]%andb_prop Hvm].
    destruct (Hx Hvx) as [-> ->]. destruct (IHm Hvm) as [-> ->]. by rewrite Hnx.
Qed.

Lemma static_strings v str : static v = true -> In str (strings_of v) -> HasPrefix str templatePrefix = false.
Proof.
  induction v as [|b|z|lit|str'|l IH|m IH] using value_induction; intros Hv Hin; try done; cbn [static strings_of] in *.
  - destruct Hin as [<-|[]]. by apply negb_true_iff.
  - apply in_flat_map in Hin as (x & Hx & Hin). rewrite forallb_forall in Hv. rewrite List.Forall_forall in IH. by apply (IH x); auto.
  - apply andb_prop in Hv as [_ Hm]. apply in_flat_map in Hin as (x & Hx & Hin). rewrite forallb_forall in Hm.
    specialize (Hm x Hx). apply andb_prop in Hm as [Hm _]. rewrite List.Forall_forall in IH. by apply (IH x); auto.
Qed.

Lemma render_static render entry data v : static v = true -> renders_to render entry data v v.
Proof.
  intros Hv. destruct (static_reference v Hv) as [Hr Hn]. rewrite <- Hr at 2. apply render_reference; [|done].
  intros str Hin s. cbn [recurseRenderTemplate]. unfold renderTemplateString. by rewrite (static_strings v str Hv Hin).
Qed.

(** C32: rendering is the replacement of strings.  When the strings of a
    document render to values that are determined by them, and no attribute
    renders to nil, rendering the document gives the same document with each
    string replaced, at every depth: the order in which the attributes of an
    object are visited, and that it is changed while they are, do not
    matter. *)
Theorem rendering_replaces_strings render entry data f v s :
  (forall str, In str (strings_of v) -> forall s,
     wp (renderTemplateString render str entry data) (fun r s' => r = Ok (f str) /\ unchanged s s') s) ->
  never_nil f v = true ->
  wp (recurseRenderTemplate render v entry data) (fun r s' => r = Ok (rendering f v) /\ unchanged s s') s.
Proof. intros Hf Hv. by apply render_reference. Qed.

(** A template without dynamic attributes renders to itself, at any
    positive depth and in any order of the attributes, without changing
    anything: what is written to the API server is the text configured. *)
Lemma static_template_identity fuel name raw v singleton entry data s :
  static v = true -> canonical v = true -> raw = marshal v -> 0 < fuel ->
  wp (renderTemplate fuel (mkConfigurationTemplate name (Some (mkRaw (Some raw))) singleton) entry data)
     (fun r s' => r = Ok (mkConfigurationTemplate name (Some (mkRaw (Some raw))) singleton) /\ unchanged s s') s.
Proof.
  intros Hv Cv -> Hf. destruct fuel as [|fuel]; [lia|]. cbn [renderTemplate template_Template].
  cbn [Unmarshal GoJSON_value]. rewrite unmarshal_marshal by done. apply wp_try.
  eapply wp_mono; [by apply render_static|]. by intros r s1 [-> Hs1].
Qed.

(** An attribute that renders to nil ends the rendering of its object.  It
    is deleted as documented, but the attributes that [range] had not visited
    yet stay in the result as the template text they were: with keys visited
    in the order [done ++ k :: rest], where those of [done] render to
    themselves and [k] to nil, the object is the source object without [k],
    whatever the keys of [rest] are. *)
Lemma nil_attribute_stops_rendering render entry data m before k rest v s :
  sorted_keys m = true -> forallb (fun kv => negb (is_null kv.2)) m = true ->
  (perform (RangeMap (map fst m)) (world s)).1 = before ++ k :: rest ->
  obj_get k m = Some v ->
  (forall k' v', k' ∈ before -> obj_get k' m = Some v' -> static v' = true) ->
  (forall s, wp (recurseRenderTemplate render v entry data) (fun r s' => r = Ok VNull) s) ->
  wp (recurseRenderTemplate render (VObject m) entry data)
     (fun r s' => r = Ok (VObject (obj_delete k m))) s.
Proof.
  intros Hs Hn Hr Hk Hb Hv. cbn [recurseRenderTemplate]. apply wp_bind, wp_quiet; [done..|]. intros s1 _.
  rewrite Hr. clear Hr. revert s1. induction before as [|k' before IH]; intros s1; cbn [app render_members];
    rewrite (find_rendered _ (fun v => recurseRenderTemplate render v entry data)).
  - rewrite Hk. cbn [fmap option_fmap option_map]. apply wp_try. eapply wp_mono; [apply Hv|].
    intros r s2 ->. by apply wp_ret.
  - assert (forall k'0 v', k'0 ∈ before -> obj_get k'0 m = Some v' -> static v' = true) as Hb'.
    { intros k2 v2 ? ?. eapply Hb; [|done]. by right. }
    destruct (obj_get k' m) as [v'|] eqn:Hk'; cbn [fmap option_fmap option_map]; [|by apply IH].
    apply wp_try. eapply wp_mono; [apply render_static; eapply Hb; [left|done]|]. intros r s2 [-> _].
    pose proof (obj_get_forallb _ _ _ _ Hn Hk') as Hv'.
    assert (obj_set k' v' m = m) as Hset by (by apply obj_set_same).
    destruct v'; try done; rewrite Hset; by apply IH.
Qed.

(** A conditional without an [else] branch panics: the transformation of
    the parse tree visits the missing branch through a nil pointer. *)
Lemma conditional_without_else_panics render str entry data tree p l s :
  HasPrefix str templatePrefix = true -> HasSuffix str templateSuffix = true ->
  template_Parse str = Ok tree -> IfNode p l None ∈ tree ->
  run (renderTemplateString render str entry data) s =
    (Halted (Panic "invalid memory address or nil pointer dereference"), s).
Proof.
  intros Hp Hs Hparse Hin. unfold renderTemplateString. rewrite Hp, Hs, Hparse. cbn [negb].
  assert (all_some (map transformActionsToJSON tree) = None) as ->; [|done].
  assert (transformActionsToJSON (IfNode p l None) = None) as Hif
    by (cbn [transformActionsToJSON]; by destruct (all_some _)).
  clear -Hin Hif. induction tree as [|n tree IH]; [by apply not_elem_of_nil in Hin|].
  apply elem_of_cons in Hin as [<-|Hin]; cbn [map all_some].
  - by rewrite Hif.
  - destruct (transformActionsToJSON n); [|done]. by rewrite IH.
Qed.
End Static.

(** ** Passwords *)

Fixpoint all_chars (P : ascii -> Prop) (s : string) : Prop :=
  match s with EmptyString => True | String c r => P c /\ all_chars P r end.

Lemma all_chars_app P a b : all_chars P (a +++ b) <-> all_chars P a /\ all_chars P b.
Proof.
  induction a as [|c a IH]; [by split; [|intros []]|].
  change (String c a +++ b) with (String c (a +++ b)). simpl. rewrite IH. tauto.
Qed.

(** The characters a password is drawn from: all but the last. *)
Definition drawn (d : string) (c : ascii) : Prop :=
  exists i, i < String.length d - 1 /\ String.get i d = Some c.

Lemma substring_single i d :
  i < String.length d -> exists c, String.substring i 1 d = String c "" /\ String.get i d = Some c.
Proof.
  revert i. induction d as [|c d IH]; intros [|i] Hi; simpl in *; try lia.
  - exists c. by destruct d.
  - apply IH. lia.
Qed.

Section Password.
Context `{Vendor} {W : Type} `{PlatformLaws W}.

Lemma password_loop_spec d n v (s : sys W) :
  2 <= String.length d -> all_chars (drawn d) v ->
  wp (password_loop d (Z.of_nat (String.length d) - 1) n v) (fun r s' => unchanged s s' /\
    match r with
    | Ok x => exists p, x = VString p /\ String.length p = String.length v + n /\ all_chars (drawn d) p
    | Err _ => True
    end) s.
Proof.
  intros Hd. revert v s. induction n as [|n IH]; intros v s Hv; cbn [password_loop].
  - apply wp_ret. split; [done|]. exists v. split; [done|]. split; [lia|done].
  - destruct (Z.leb_spec (Z.of_nat (String.length d) - 1) 0); [lia|].
    apply wp_try, wp_quiet; [done..|]. intros s1 Hs1.
    destruct (perform (RandInt _) (world s)).1 as [i|e] eqn:E; [|done].
    apply rand_int_range in E as [Hi Hl]; [|lia].
    destruct (substring_single (Z.to_nat i) d) as (c & Hsub & Hget); [lia|]. rewrite Hsub.
    eapply wp_mono.
    { apply IH. apply all_chars_app. split; [done|]. split; [|done]. exists (Z.to_nat i). split; [lia|done]. }
    intros r s2 [Hs2 Hr]. split; [by etransitivity|]. destruct r as [x|]; [|done].
    destruct Hr as (p & -> & Hlen & Hp). exists p. split; [done|]. split; [|done].
    rewrite Hlen, string_app_length. simpl. lia.
Qed.

(** A generated password has the length asked for and consists of
    characters of the dictionary.  Its last character is never drawn. *)
Lemma password_characters d length (s : sys W) :
  2 <= String.length d ->
  wp (templateFunctionGeneratePassword length (VString d)) (fun r s' => unchanged s s' /\
    match r with
    | Ok x => exists p, x = VString p /\ String.length p = Z.to_nat length /\ all_chars (drawn d) p
    | Err _ => True
    end) s.
Proof. intros Hd. by apply (password_loop_spec d (Z.to_nat length) ""). Qed.

(** A dictionary of one character, or none, makes [rand.Int] panic. *)
Lemma password_short_dictionary d length (s : sys W) :
  String.length d <= 1 -> (0 < length)%Z ->
  run (templateFunctionGeneratePassword length (VString d)) s =
    (Halted (Panic "crypto/rand: argument to Int is <= 0"), s).
Proof.
  intros Hd Hl. unfold templateFunctionGeneratePassword.
  destruct (Z.to_nat length) as [|n] eqn:E; [lia|]. cbn [password_loop].
  destruct (Z.leb_spec (Z.of_nat (String.length d) - 1) 0); [done|lia].
Qed.
End Password.

(** ** Witnesses *)

Module TemplateWitness.

Definition entry : Entry :=
  mkEntry (mkSecret "registry-service-instance-i" "ns" "" "" ∅ ∅
             (Some {["parameters" := marshal (VObject [("size", VFloat "3")])]})) true false.

Definition start : sys SimWorld := mkSys (empty_sim None) [].



Definition document : value := VObject [("kind", VString "ConfigMap"); ("replicas", VFloat "2")].

Lemma static_template_identity_witness :
  wp (renderTemplate 1 (mkConfigurationTemplate "t" (Some (mkRaw (Some (marshal document)))) false) entry VNull)
     (fun r s' => r = Ok (mkConfigurationTemplate "t" (Some (mkRaw (Some (marshal document)))) false) /\
                  unchanged start s') start.
Proof.
  apply (static_template_identity 1 "t" _ document).
  - vm_compute. reflexivity.
  - vm_compute. reflexivity.
  - reflexivity.
  - lia.
Defined.

(** The attribute "b" is optional and absent; "c" is then left unrendered. *)
Definition optional : list (string * value) :=
  [("a", VString "x"); ("b", VString ("{{ registry " +++ quote "absent" +++ " }}"));
   ("c", VString ("{{ registry " +++ quote "instance-id" +++ " }}"))].

Lemma nil_attribute_stops_rendering_witness :
  wp (recurseRenderTemplate (renderTemplate 1) (VObject optional) entry VNull)
     (fun r s' => r = Ok (VObject (obj_delete "b" optional))) start /\
  obj_delete "b" optional =
    [("a", VString "x"); ("c", VString ("{{ registry " +++ quote "instance-id" +++ " }}"))].
Proof.
  split; [|vm_compute; reflexivity].
  apply (nil_attribute_stops_rendering (renderTemplate 1) entry VNull optional ["a"] "b" ["c"]
           (VString ("{{ registry " +++ quote "absent" +++ " }}"))).
  - vm_compute. reflexivity.
  - vm_compute. reflexivity.
  - vm_compute. reflexivity.
  - vm_compute. reflexivity.
  - intros k' v' Hk. apply list_elem_of_singleton in Hk as ->. vm_compute. intros Hv. injection Hv as <-. reflexivity.
  - intros s. vm_compute. reflexivity.
Defined.

Lemma conditional_without_else_panics_witness :
  run (renderTemplateString (renderTemplate 1) "{{if true}}{{1}}{{end}}" entry VNull) start =
    (Halted (Panic "invalid memory address or nil pointer dereference"), start).
Proof.
  apply (conditional_without_else_panics (renderTemplate 1) "{{if true}}{{1}}{{end}}" entry VNull
           [IfNode (mkPipe [] false [[BoolNode true]])
              [ActionNode (mkPipe [] false [[NumberNode (Some 1%Z) "1" false]])] None]
           (mkPipe [] false [[BoolNode true]])
           [ActionNode (mkPipe [] false [[NumberNode (Some 1%Z) "1" false]])]).
  - vm_compute. reflexivity.
  - vm_compute. reflexivity.
  - vm_compute. reflexivity.
  - apply list_elem_of_singleton. reflexivity.
Defined.

Lemma password_characters_witness :
  wp (templateFunctionGeneratePassword 3 (VString "ab")) (fun r s' => unchanged start s' /\
    match r with
    | Ok x => exists p, x = VString p /\ String.length p = Z.to_nat 3 /\ all_chars (drawn "ab") p
    | Err _ => True
    end) start.
Proof. apply (password_characters "ab" 3 start). simpl. lia. Defined.

(** A document with a number that is written as a template. *)
Definition typed_document : value :=
  VObject [("name", VString "broker"); ("ports", VArray [VString "{{ 80 }}"; VString "{{ true }}"])].

Definition replaced (str : string) : value :=
  if str =?s "{{ 80 }}" then VFloat "80" else if str =?s "{{ true }}" then VBool true else VString str.

Lemma rendering_replaces_strings_witness :
  rendering replaced typed_document = VObject [("name", VString "broker"); ("ports", VArray [VFloat "80"; VBool true])] /\
  wp (recurseRenderTemplate (renderTemplate 1) typed_document entry VNull)
     (fun r s' => r = Ok (rendering replaced typed_document) /\ unchanged start s') start.
Proof.
  split; [vm_compute; reflexivity|].
  apply (rendering_replaces_strings (renderTemplate 1) entry VNull replaced typed_document start); [|vm_compute; reflexivity].
  intros str Hin s. cbn in Hin. destruct Hin as [<-|[<-|[<-|[]]]].
  - assert (renderTemplateString (renderTemplate 1) "broker" entry VNull = Ret (Ok (VString "broker"))) as -> by (vm_compute; reflexivity).
    split; [vm_compute|]; reflexivity.
  - assert (renderTemplateString (renderTemplate 1) "{{ 80 }}" entry VNull = Ret (Ok (VFloat "80"))) as -> by (vm_compute; reflexivity).
    split; [vm_compute|]; reflexivity.
  - assert (renderTemplateString (renderTemplate 1) "{{ true }}" entry VNull = Ret (Ok (VBool true))) as -> by (vm_compute; reflexivity).
    split; [vm_compute|]; reflexivity.
Defined.
End TemplateWitness.
