(* ===== verification/Provision.v ===== *)
(** * Provisioners ([pkg/provisioners])

    What creates, updates and deletes the Kubernetes resources of a service
    instance or binding: [Creator] ([create.go]), [Updater] ([update.go]),
    [Deleter] ([delete.go]) and the readiness checks between the steps of a
    creation ([readiness.go], [pkg/util/wait.go]). *)

From S2P Require Import Prelude Json Errors Types Platform Vendor Api Registry Operation Template.

Local Open Scope broker_scope.

(** The bounds of the model: how deep templates can nest, and how often a
    readiness check can be tried before its deadline fires. *)
Record Bounds : Type := mkBounds { template_depth : nat; wait_rounds : nat }.

(** ** Template lists ([util.go]) *)

Definition ResourceType : Type := string.
Definition ResourceTypeServiceInstance : ResourceType := "service-instance".
Definition ResourceTypeServiceBinding : ResourceType := "service-binding".

Definition getTemplateBinding (t : ResourceType) (serviceID planID : string)
    : prog (result ServiceBrokerTemplateList) :=
  config <- Config ;;
  Ret (let? bindings := GetTemplateBindings config serviceID planID in
       if t =?s ResourceTypeServiceInstance then Ok (binding_ServiceInstance bindings)
       else if t =?s ResourceTypeServiceBinding then
         match binding_ServiceBinding bindings with
         | Some templates => Ok templates
         | None => Err (NewConfigurationError ("missing bindings for type " +++ t))
         end
       else Err (wrappedError ErrUndefinedType ("illegal binding type " +++ t))).

(** ** Waiting ([pkg/util/wait.go]) *)

Fixpoint wait_loop (rounds : nat) (f : prog (option error)) (deadline : Z) : prog (option error) :=
  match rounds with
  | O => Halt OutOfFuel
  | S rounds =>
      err <- f ;;
      match err with
      | None => Ret None
      | Some err =>
          done <- call (SelectDone deadline) ;;
          if (done : bool)
          then Ret (Some (wrappedError ErrTimeout ("failed to wait for condition: " +++ Error err)))
          else wait_loop rounds f deadline
      end
  end.

Definition WaitFor (rounds : nat) (f : prog (option error)) (timeout : Z) : prog (option error) :=
  now <- call TimeNow ;; wait_loop rounds f (now + timeout)%Z.

Section Provision.
Context `{Vendor} (bounds : Bounds).

Definition render_string (str : string) (entry : Entry) : prog (result value) :=
  renderTemplateString (renderTemplate (template_depth bounds)) str entry VNull.

Definition render_template (t : ConfigurationTemplate) (entry : Entry) : prog (result ConfigurationTemplate) :=
  renderTemplate (template_depth bounds) t entry VNull.

(** [json.Unmarshal] and [json.Marshal] of an [*unstructured.Unstructured]. *)
Definition unmarshal_object (text : string) : result value :=
  if valid_json text then Unstructured_UnmarshalJSON text else Err (json_error text).

Definition marshal_object (object : value) : result string :=
  let? text := Unstructured_MarshalJSON object in
  if valid_json text then Ok (compact text) else Err (json_error text).

(** The namespace of an object defaults to that of the service instance. *)
Definition object_namespace (object : value) (entry : Entry) : result string :=
  if GetNamespace object =?s "" then
    let? n := Entry.GetString entry Namespace in
    match n with
    | Some n => Ok n
    | None => Err (wrappedError ErrRegistryEntryMissing "unable to lookup namespace")
    end
  else Ok (GetNamespace object).

Definition mapping_of (object : value) : prog (result RESTMapping_t) :=
  let '(group, version, kind) := GroupVersionKind object in
  call (RESTMapping group kind version).

Definition scope_of (mapping : RESTMapping_t) (namespace : string) : option string :=
  if mapping_Root mapping then None else Some namespace.

(** ** Creation ([create.go]) *)

Record createStep : Type := mkCreateStep {
  create_name : string;
  create_templates : list ConfigurationTemplate;
  create_readinessChecks : list ConfigurationReadinessCheck;
}.

Record Creator : Type := mkCreator {
  creator_resourceType : ResourceType;
  creator_steps : list createStep;
}.

Definition NewCreator (resourceType : ResourceType) : result Creator := Ok (mkCreator resourceType []).

(** The object with the annotation that records how it was rendered, and with
    its owner. *)
Definition annotated_object (object : value) (entry : Entry) : result value :=
  let? resourceJSON := marshal_object object in
  let? annotations := NestedStringMap object ["metadata"; "annotations"] in
  let annotations := <[ResourceAnnotation := resourceJSON]> (default ∅ annotations) in
  let? object := SetNestedStringMap object annotations ["metadata"; "annotations"] in
  Ok (SetOwnerReferences object [Entry.GetOwnerReference entry]).

(** A singleton that exists gets one more owner.  It is looked up in the
    namespace even when its kind is cluster scoped. *)
Definition add_owner (mapping : RESTMapping_t) (namespace : string) (object : value) (entry : Entry)
    : prog (option error) :=
  r <-
    (existing <-? call (DynamicGet (mapping_Resource mapping) (Some namespace) (GetName object)) ;;
     match NestedSlice existing ["metadata"; "ownerReferences"] with
     | Err err => Ret (Err err)
     | Ok None => Ret (Err (wrappedError ErrResourceAttributeMissing "owner references unexpectedly missing"))
     | Ok (Some owners) =>
         match SetNestedSlice existing (owners ++ [Entry.GetOwnerReference entry]) ["metadata"; "ownerReferences"] with
         | Err err => Ret (Err err)
         | Ok existing => call (DynamicUpdate (mapping_Resource mapping) (scope_of mapping namespace) existing)
         end
     end) ;;
  Ret (res_error r).

Definition createResource (template : ConfigurationTemplate) (entry : Entry) : prog (option error) :=
  match template_Template template with
  | None | Some (mkRaw None) => Ret None
  | Some (mkRaw (Some raw)) =>
      match (let? object := unmarshal_object raw in annotated_object object entry) with
      | Err err => Ret (Some err)
      | Ok object =>
          mapping <- mapping_of object ;;
          match mapping with
          | Err err => Ret (Some err)
          | Ok mapping =>
              match object_namespace object entry with
              | Err err => Ret (Some err)
              | Ok namespace =>
                  created <- call (DynamicCreate (mapping_Resource mapping) (scope_of mapping namespace) object) ;;
                  match created with
                  | Ok _ => Ret None
                  | Err err =>
                      if IsAlreadyExists err && template_Singleton template
                      then add_owner mapping namespace object entry
                      else Ret (Some err)
                  end
              end
          end
      end
  end.

(** The registry values of the template list, set in order. *)
Fixpoint render_registry (l : list RegistryValue) (entry : Entry) : prog (result Entry) :=
  match l with
  | [] => Ret (Ok entry)
  | registry :: l =>
      v <-? render_string (value_Value registry) entry ;;
      match v with
      | VNull => render_registry l entry
      | v =>
          match Entry.SetUser entry (value_Name registry) v with
          | Err err => Ret (Err err)
          | Ok entry => render_registry l entry
          end
      end
  end.

Fixpoint render_templates (names : list string) (entry : Entry) : prog (result (list ConfigurationTemplate)) :=
  match names with
  | [] => Ret (Ok [])
  | name :: names =>
      template <-? getTemplate name ;;
      t <-? render_template template entry ;;
      l <-? render_templates names entry ;;
      Ret (Ok (t :: l))
  end.

(** The steps as configured, or one made of the templates. *)
Definition steps_of (templates : ServiceBrokerTemplateList) : list ServiceBrokerTemplateListStep :=
  match list_Steps templates with
  | Some steps => steps
  | None => [mkTemplateListStep "default" (list_Templates templates) (list_ReadinessChecks templates)]
  end.

Fixpoint render_steps (steps : list ServiceBrokerTemplateListStep) (entry : Entry)
    : prog (result (list createStep)) :=
  match steps with
  | [] => Ret (Ok [])
  | step :: steps =>
      ts <-? render_templates (step_Templates step) entry ;;
      l <-? render_steps steps entry ;;
      Ret (Ok (mkCreateStep (step_Name step) ts (step_ReadinessChecks step) :: l))
  end.

(** The service and plan of an entry. *)
Definition entry_service_plan (entry : Entry) (noService noPlan : string) : result (string * string) :=
  let? serviceID := Entry.GetString entry ServiceID in
  match serviceID with
  | None => Err (wrappedError ErrResourceReferenceMissing noService)
  | Some serviceID =>
      let? planID := Entry.GetString entry PlanID in
      match planID with
      | None => Err (wrappedError ErrResourceReferenceMissing noPlan)
      | Some planID => Ok (serviceID, planID)
      end
  end.

(** [Creator.Prepare]: the creator with its steps, and the entry. *)
Definition Creator_Prepare (p : Creator) (entry : Entry) : prog (result (Creator * Entry)) :=
  match entry_service_plan entry "unable to lookup service ID" "unable to lookup plan ID" with
  | Err err => Ret (Err err)
  | Ok (serviceID, planID) =>
      templates <-? getTemplateBinding (creator_resourceType p) serviceID planID ;;
      entry <-? render_registry (list_Registry templates) entry ;;
      steps <-? render_steps (steps_of templates) entry ;;
      Ret (Ok (mkCreator (creator_resourceType p) (creator_steps p ++ steps), entry))
  end.

(** ** Readiness ([readiness.go]) *)

Definition newConditionUnreadyError (message : string) : error := conditionUnreadyError message.

Definition IsConditionUnreadyError (e : error) : bool :=
  match e with conditionUnreadyError _ => true | _ => false end.

(** The condition's description in messages. *)
Definition condition_text (condition : ConfigurationReadinessCheckCondition) (name : string) : string :=
  "resource " +++ condition_APIVersion condition +++ "/" +++ condition_Kind condition +++ " " +++ name.

(** The loop over the conditions of the resource. *)
Fixpoint check_conditions (condition : ConfigurationReadinessCheckCondition) (name : string)
    (conditions : list value) : option error :=
  match conditions with
  | [] => Some (newConditionUnreadyError
                  (condition_text condition name +++ " doesn't contain the condition " +++ condition_Type condition))
  | VObject o :: conditions =>
      match NestedString (VObject o) ["type"] with
      | Ok (Some t) =>
          if negb (t =?s condition_Type condition) then check_conditions condition name conditions
          else match NestedString (VObject o) ["status"] with
               | Ok (Some status) =>
                   if negb (status =?s condition_Status condition)
                   then Some (newConditionUnreadyError
                                (condition_text condition name +++ " " +++ condition_Type condition +++
                                 " condition " +++ status +++ " is, expected " +++ condition_Status condition))
                   else None
               | _ => Some (newConditionUnreadyError (condition_text condition name +++ " conditions contains no status"))
               end
      | _ => Some (newConditionUnreadyError (condition_text condition name +++ " conditions contains no type"))
      end
  | _ :: _ => Some (newConditionUnreadyError (condition_text condition name +++ " conditions are not objects"))
  end.

Definition conditionReady (entry : Entry) (condition : ConfigurationReadinessCheckCondition)
    : prog (option error) :=
  r <-
    (namespaceRaw <-? render_string (condition_Namespace condition) entry ;;
     match namespaceRaw with
     | VString namespace =>
         nameRaw <-? render_string (condition_Name condition) entry ;;
         match nameRaw with
         | VString name =>
             match ParseGroupVersion (condition_APIVersion condition) with
             | Err err => Ret (Err err)
             | Ok (group, version) =>
                 mapping <-? call (RESTMapping group (condition_Kind condition) version) ;;
                 object <-? call (DynamicGet (mapping_Resource mapping) (scope_of mapping namespace) name) ;;
                 match NestedSlice object ["status"; "conditions"] with
                 | Ok (Some conditions) =>
                     Ret (match check_conditions condition name conditions with
                          | Some err => Err err
                          | None => Ok tt
                          end)
                 | _ => Ret (Err (newConditionUnreadyError
                                    (condition_text condition name +++ " contains no status conditions")))
                 end
             end
         | _ => Ret (Err (NewConfigurationError
                            ("condition resource name not a string " +++ fmt_Sprint nameRaw)))
         end
     | _ => Ret (Err (NewConfigurationError
                        ("condition resource namespace not a string " +++ fmt_Sprint namespaceRaw)))
     end) ;;
  Ret (res_error r).

Definition doCheck (readinessCheck : ConfigurationReadinessCheck) (entry : Entry) : prog (option error) :=
  match check_Condition readinessCheck with
  | Some condition => conditionReady entry condition
  | None =>
      Ret (Some (wrappedError ErrResourceAttributeMissing
                   ("readiness check " +++ check_Name readinessCheck +++ " check type undefined")))
  end.

Fixpoint check_all (checks : list ConfigurationReadinessCheck) (entry : Entry) : prog (option error) :=
  match checks with
  | [] => Ret None
  | check :: checks =>
      err <- doCheck check entry ;;
      match err with Some err => Ret (Some err) | None => check_all checks entry end
  end.

(** [Ready] checks once; the broker does not call it. *)
Definition Ready (t : ResourceType) (entry : Entry) (serviceID planID : string) : prog (option error) :=
  match Entry.GetString entry Operation with
  | Err err => Ret (Some err)
  | Ok None => Ret (Some (wrappedError ErrRegistryEntryMissing "service instance missing operation"))
  | Ok (Some op) =>
      if negb (op =?s TypeProvision) then Ret None
      else
        templates <- getTemplateBinding t serviceID planID ;;
        match templates with
        | Err err => Ret (Some err)
        | Ok templates => check_all (list_ReadinessChecks templates) entry
        end
  end.

(** A minute, in nanoseconds. *)
Definition Minute : Z := 60000000000.

Definition barrier (readinessCheck : ConfigurationReadinessCheck) (entry : Entry) : prog (option error) :=
  WaitFor (wait_rounds bounds) (doCheck readinessCheck entry)
    (match check_Timeout readinessCheck with Some timeout => timeout | None => Minute end).

(** ** Running a creation *)

Fixpoint create_all (ts : list ConfigurationTemplate) (entry : Entry) : prog (option error) :=
  match ts with
  | [] => Ret None
  | t :: ts =>
      err <- createResource t entry ;;
      match err with Some err => Ret (Some err) | None => create_all ts entry end
  end.

Fixpoint wait_all (checks : list ConfigurationReadinessCheck) (entry : Entry) : prog (option error) :=
  match checks with
  | [] => Ret None
  | check :: checks =>
      err <- barrier check entry ;;
      match err with Some err => Ret (Some err) | None => wait_all checks entry end
  end.

Fixpoint run_steps (steps : list createStep) (entry : Entry) : prog (option error) :=
  match steps with
  | [] => Ret None
  | step :: steps =>
      err <- create_all (create_templates step) entry ;;
      match err with
      | Some err => Ret (Some err)
      | None =>
          err <- wait_all (create_readinessChecks step) entry ;;
          match err with Some err => Ret (Some err) | None => run_steps steps entry end
      end
  end.

Definition Creator_run (p : Creator) (entry : Entry) : prog (option error) :=
  run_steps (creator_steps p) entry.

(** The error of [Complete] is logged. *)
Definition Creator_Run (p : Creator) (entry : Entry) : prog Entry :=
  err <- Creator_run p entry ;;
  r <- Complete entry err ;;
  Ret r.1.

(** ** Updates ([update.go]) *)

Record Updater : Type := mkUpdater {
  updater_resourceType : ResourceType;
  updater_request : UpdateServiceInstanceRequest;
  updater_resources : list value;
}.

Definition NewUpdater (resourceType : ResourceType) (request : UpdateServiceInstanceRequest) : result Updater :=
  Ok (mkUpdater resourceType request []).

(** The current resource with what changed between its last rendering and
    [newJSON] merged in; [None] when nothing did. *)
Definition merged_resource (current newObject : value) (newJSON : string) : result (option value) :=
  match NestedString current ["metadata"; "annotations"; ResourceAnnotation] with
  | Ok (Some originalJSON) =>
      let? originalObject := unmarshal_object originalJSON in
      if bool_decide (originalObject = newObject) then Ok None
      else
        let? mergePatch := CreateMergePatch originalJSON newJSON in
        let? currentJSON := marshal_object current in
        let? mergedJSON := MergePatch currentJSON mergePatch in
        let? mergedObject := unmarshal_object mergedJSON in
        let? mergedObject := SetNestedField mergedObject (VString newJSON)
                               ["metadata"; "annotations"; ResourceAnnotation] in
        Ok (Some mergedObject)
  | _ => Err (wrappedError ErrResourceAttributeMissing "failed to lookup original resource")
  end.

(** One turn of the loop over the templates. *)
Definition update_resource (templateName : string) (entry : Entry) : prog (result (option value)) :=
  template <-? getTemplate templateName ;;
  if template_Singleton template then Ret (Ok None)
  else
    t <-? render_template template entry ;;
    let newJSON := rendered_text t in
    match unmarshal_object newJSON with
    | Err err => Ret (Err err)
    | Ok newObject =>
        mapping <-? mapping_of newObject ;;
        match object_namespace newObject entry with
        | Err err => Ret (Err err)
        | Ok namespace =>
            current <-? call (DynamicGet (mapping_Resource mapping) (scope_of mapping namespace) (GetName newObject)) ;;
            Ret (merged_resource current newObject newJSON)
        end
    end.

Fixpoint update_resources (names : list string) (entry : Entry) : prog (result (list value)) :=
  match names with
  | [] => Ret (Ok [])
  | name :: names =>
      o <-? update_resource name entry ;;
      l <-? update_resources names entry ;;
      Ret (Ok (match o with Some r => r :: l | None => l end))
  end.

Definition Updater_Prepare (u : Updater) (entry : Entry) : prog (result Updater) :=
  match entry_service_plan entry "unable to lookup service instance service ID"
          "unable to lookup service instance plan ID" with
  | Err err => Ret (Err err)
  | Ok (serviceID, planID) =>
      templates <-? getTemplateBinding (updater_resourceType u) serviceID planID ;;
      l <-? update_resources (list_Templates templates) entry ;;
      Ret (Ok (mkUpdater (updater_resourceType u) (updater_request u) (updater_resources u ++ l)))
  end.

Fixpoint update_all (resources : list value) : prog (option error) :=
  match resources with
  | [] => Ret None
  | resource :: resources =>
      mapping <- mapping_of resource ;;
      match mapping with
      | Err err => Ret (Some err)
      | Ok mapping =>
          r <- call (DynamicUpdate (mapping_Resource mapping) (scope_of mapping (GetNamespace resource)) resource) ;;
          match r with Err err => Ret (Some err) | Ok _ => update_all resources end
      end
  end.

Definition Updater_run (u : Updater) : prog (option error) := update_all (updater_resources u).

Definition Updater_Run (u : Updater) (entry : Entry) : prog Entry :=
  err <- Updater_run u ;;
  r <- Complete entry err ;;
  Ret r.1.

(** ** Deletion ([delete.go]): the error is logged *)

Definition Deleter_Run (entry : Entry) : prog unit :=
  _ <- Entry.Delete entry ;; Ret tt.
End Provision.
