(* ===== verification/FuelFacts.v ===== *)
(** * The depth of rendering ([pkg/provisioners/template.go])

    The code does not bound how deep snippets nest; the model does, with
    [template_depth].  The bound is only a bound: whatever ends within it ends
    in the same way under every larger one. *)

From S2P Require Import Prelude Json JsonFacts Errors Types Platform Vendor Sim Fixture Registry Template.
From S2P Require Import TemplateFacts Provision.
From Stdlib Require Import Lia.

Local Open Scope broker_scope.

(** ** Programs that go further *)

(** [refines p q]: [q] does what [p] does, until [p] runs out of fuel. *)
Inductive refines {A} : prog A -> prog A -> Prop :=
  | refines_fuel q : refines (Halt OutOfFuel) q
  | refines_ret a : refines (Ret a) (Ret a)
  | refines_halt h : refines (Halt h) (Halt h)
  | refines_vis X (e : event X) k k' : (forall x, refines (k x) (k' x)) -> refines (Vis e k) (Vis e k')
  | refines_go t p p' : refines p p' -> refines (Go t p) (Go t p').

Create HintDb refines.
#[export] Hint Constructors refines : refines.

Lemma refines_refl {A} (p : prog A) : refines p p.
Proof. induction p; auto with refines. Qed.

Lemma refines_bind {A B} (p p' : prog A) (k k' : A -> prog B) :
  refines p p' -> (forall a, refines (k a) (k' a)) -> refines (bind p k) (bind p' k').
Proof. intros Hp Hk. induction Hp; simpl; auto with refines. Qed.

Lemma refines_try {A B} (p p' : prog (result A)) (k k' : A -> prog (result B)) :
  refines p p' -> (forall a, refines (k a) (k' a)) -> refines (try_bind p k) (try_bind p' k').
Proof. intros Hp Hk. apply refines_bind; [done|]. intros []; auto with refines. Qed.

Lemma refines_recover {A} (p p' : prog (result A)) : refines p p' -> refines (recover p) (recover p').
Proof. induction 1 as [q|r|[m|]|X e k k' _ IH|t p p' _ IH]; simpl; auto with refines. Qed.

Lemma refines_run {W} `{World W} {A} (p q : prog A) (s s' : sys W) o :
  refines p q -> run p s = (o, s') -> o <> Halted OutOfFuel -> run q s = (o, s').
Proof.
  intros Hr. revert s. induction Hr as [q|a|h|X e k k' _ IH|t p p' _ IH]; intros s Hrun Ho; simpl in *; try done.
  - by injection Hrun as <- <-.
  - destruct (perform e (world s)) as [x w]. by apply IH.
  - by apply IH.
Qed.

(** Descends to the sub-programs, and closes those that are the same. *)
Ltac refines_solver :=
  repeat first
    [ apply refines_refl
    | assumption
    | progress intros
    | apply refines_recover
    | apply refines_try
    | apply refines_bind
    | match goal with |- refines (match ?x with _ => _ end) (match ?x with _ => _ end) => destruct x end ].

Section Rendering.
Context `{Vendor}.

Definition refines_renderer (r r' : renderer) : Prop := forall t e d, refines (r t e d) (r' t e d).
Definition refines_thunk (a b : thunk) : Prop := forall k dot vars, refines (a k dot vars) (b k dot vars).
Definition refines_step (a b : step) : Prop := forall dot vars, refines (a dot vars) (b dot vars).

Section Evaluation.
Context (render render' : renderer) (entry : Entry) (Hrender : refines_renderer render render').

Lemma refines_snippetArray t l :
  refines (snippetArray_elements render entry t l) (snippetArray_elements render' entry t l).
Proof. induction l as [|x l IH]; simpl; refines_solver. apply Hrender. Qed.

Lemma refines_call_function name args :
  refines (call_function render entry name args) (call_function render' entry name args).
Proof.
  unfold call_function, templateFunctionSnippet, templateFunctionSnippetArray.
  refines_solver; first [apply Hrender|apply refines_snippetArray].
Qed.

Lemma refines_eval_args kinds args args' dot vars :
  Forall2 refines_thunk args args' -> refines (eval_args kinds args dot vars) (eval_args kinds args' dot vars).
Proof.
  intros Ha. revert kinds. induction Ha as [|a b args args' Ha _ IH]; intros [|k kinds]; simpl; refines_solver;
    first [apply Ha|apply IH].
Qed.

Lemma refines_evalFunction name args args' final dot vars :
  Forall2 refines_thunk args args' ->
  refines (evalFunction render entry name args final dot vars) (evalFunction render' entry name args' final dot vars).
Proof.
  intros Ha. unfold evalFunction. cbv zeta.
  set (l := match final with Some v => args ++ _ | None => args end).
  set (l' := match final with Some v => args' ++ _ | None => args' end).
  assert (Forall2 refines_thunk l l') as Hl.
  { unfold l, l'. destruct final; [|done]. apply Forall2_app; [done|]. constructor; [|done]. intros k d vs. apply refines_refl. }
  rewrite <- (Forall2_length Hl). match goal with |- refines (if ?b then _ else _) _ => destruct b end; [apply refines_refl|].
  apply refines_try; [by apply refines_eval_args|]. intros vs.
  apply refines_bind; [|intros; apply refines_refl]. apply refines_recover.
  destruct (signature name); [apply refines_call_function|apply refines_refl].
Qed.

(** The same words, with thunks that go further. *)
Definition refines_word (a b : arg * thunk) : Prop := a.1 = b.1 /\ refines_thunk a.2 b.2.

Lemma refines_evalCommand cmd cmd' final dot vars :
  Forall2 refines_word cmd cmd' ->
  refines (evalCommand render entry cmd final dot vars) (evalCommand render' entry cmd' final dot vars).
Proof.
  intros Hc. destruct Hc as [|[a th] [b th'] cmd cmd' [Hab Hth] Hc]; [apply refines_refl|]. simpl in Hab, Hth. subst b.
  unfold evalCommand.
  rewrite <- (Forall2_length Hc). assert (refines (if negb (length cmd =? 0) || match final with Some _ => true | None => false end
                   then Ret (Err (template_error "can't give argument to non-function"))
                   else th KAny dot vars)
                  (if negb (length cmd =? 0) || match final with Some _ => true | None => false end
                   then Ret (Err (template_error "can't give argument to non-function"))
                   else th' KAny dot vars)) as Ht by (refines_solver; apply Hth).
  destruct a; try exact Ht; [|refines_solver]. clear Ht.
  apply refines_evalFunction. induction Hc as [|x y cmd cmd' [_ Hx] _ IH]; by constructor.
Qed.

Lemma refines_evalCommands cmds cmds' final dot vars :
  Forall2 (Forall2 refines_word) cmds cmds' ->
  refines (evalCommands render entry cmds final dot vars) (evalCommands render' entry cmds' final dot vars).
Proof.
  intros Hc. revert final. induction Hc as [|c c' cmds cmds' Hc _ IH]; intros final; simpl; [apply refines_refl|].
  apply refines_try; [by apply refines_evalCommand|]. intros v. apply IH.
Qed.

Lemma refines_words cmds :
  Forall (Forall (fun a => refines_thunk (evalArg render entry a) (evalArg render' entry a))) cmds ->
  Forall2 (Forall2 refines_word) (map (map (fun a => (a, evalArg render entry a))) cmds)
                                 (map (map (fun a => (a, evalArg render' entry a))) cmds).
Proof.
  intros Hc. induction Hc as [|c cmds Hcc _ IH]; constructor; [|exact IH].
  induction Hcc as [|a c Ha _ IHc]; constructor; [by split|exact IHc].
Qed.

Lemma refines_evalArg a : refines_thunk (evalArg render entry a) (evalArg render' entry a).
Proof.
  apply (arg_induction (fun a => refines_thunk (evalArg render entry a) (evalArg render' entry a))); clear a.
  - intros a. destruct a; try done; intros k dot vars; simpl; refines_solver. by apply refines_evalFunction.
  - intros cmds IH k dot vars. cbn [evalArg]. apply refines_try; [|intros; apply refines_refl].
    by apply refines_evalCommands, refines_words.
Qed.

Lemma refines_evalPipeline p dot vars :
  refines (evalPipeline render entry p dot vars) (evalPipeline render' entry p dot vars).
Proof.
  unfold evalPipeline. apply refines_try; [|intros; apply refines_refl]. apply refines_evalCommands, refines_words.
  apply Forall_forall. intros c _. apply Forall_forall. intros a _. apply refines_evalArg.
Qed.

Lemma refines_walk_list l l' dot vars :
  Forall2 refines_step l l' -> refines (walk_list l dot vars) (walk_list l' dot vars).
Proof.
  intros Hl. revert dot vars. induction Hl as [|a b l l' Hs _ IH]; intros dot vars; simpl; [apply refines_refl|].
  apply refines_try; [apply Hs|]. intros [out vars']. apply refines_try; [apply IH|]. intros []. apply refines_refl.
Qed.

Lemma refines_walk_range d mark body body' items vars :
  refines_step body body' -> refines (walk_range d mark body items vars) (walk_range d mark body' items vars).
Proof.
  intros Hb. revert vars. induction items as [|[i x] items IH]; intros vars; simpl; [apply refines_refl|].
  apply refines_try; [apply Hb|]. intros [out vars']. apply refines_try; [apply IH|]. intros []. apply refines_refl.
Qed.

Abbreviation refines_node n := (refines_step (walk render entry n) (walk render' entry n)).

Lemma refines_nodes l : Forall (fun n => refines_node n) l ->
  refines_step (walk_list (map (walk render entry) l)) (walk_list (map (walk render' entry) l)).
Proof.
  intros Hl dot vars. apply refines_walk_list. induction Hl as [|n l Hn _ IH]; by constructor.
Qed.

Lemma refines_else e dot vars : Forall (fun n => refines_node n) (default [] e) ->
  refines (walk_else ((fun l => walk_list (map (walk render entry) l)) <$> e) dot vars)
          (walk_else ((fun l => walk_list (map (walk render' entry) l)) <$> e) dot vars).
Proof. intros He. destruct e; [by apply refines_nodes|apply refines_refl]. Qed.

Lemma refines_scoped p dot vars mark (body body' : value -> variables -> prog (result (string * variables))) :
  (forall v vars, refines (body v vars) (body' v vars)) ->
  refines (' (v, vars) <-? evalPipeline render entry p dot vars ;;
           ' (out, vars) <-? body v vars ;; Ret (Ok (out, pop mark vars)))
          (' (v, vars) <-? evalPipeline render' entry p dot vars ;;
           ' (out, vars) <-? body' v vars ;; Ret (Ok (out, pop mark vars))).
Proof.
  intros Hb. apply refines_try; [apply refines_evalPipeline|]. intros [v vars'].
  apply refines_try; [apply Hb|]. intros []. apply refines_refl.
Qed.

Lemma refines_walk n : refines_node n.
Proof.
  induction n as [t|p|p l e IHl IHe|p l e IHl IHe|p l e IHl IHe] using node_induction; intros dot vars; cbn [walk].
  - apply refines_refl.
  - apply refines_try; [apply refines_evalPipeline|]. intros []. apply refines_refl.
  - apply (refines_scoped p dot vars (length vars) (fun v vars => if isTrue v then _ else _) (fun v vars => if isTrue v then _ else _)).
    intros v vars'. destruct (isTrue v); [by apply refines_nodes|by apply refines_else].
  - apply (refines_scoped p dot vars (length vars)
      (fun v vars => match range_items v with None => _ | Some [] => _ | Some _ => _ end)
      (fun v vars => match range_items v with None => _ | Some [] => _ | Some _ => _ end)).
    intros v vars'. destruct (range_items v) as [[|x items]|]; [by apply refines_else| |apply refines_refl].
    by apply refines_walk_range, refines_nodes.
  - apply (refines_scoped p dot vars (length vars) (fun v vars => if isTrue v then _ else _) (fun v vars => if isTrue v then _ else _)).
    intros v vars'. destruct (isTrue v); [by apply refines_nodes|by apply refines_else].
Qed.

Lemma refines_renderTemplateString str data :
  refines (renderTemplateString render str entry data) (renderTemplateString render' str entry data).
Proof.
  unfold renderTemplateString, Execute. refines_solver. apply refines_walk_list.
  match goal with |- Forall2 _ (map _ ?l) _ => induction l as [|n l IH]; constructor; [apply refines_walk|exact IH] end.
Qed.

Lemma obj_get_Forall (P : value -> Prop) k v (l : list (string * value)) :
  Forall (fun kv => P kv.2) l -> obj_get k l = Some v -> P v.
Proof.
  induction 1 as [|[k' v'] l Hv _ IH]; simpl; [done|]. case_bool_decide; [by intros [= <-]|exact IH].
Qed.

Lemma refines_render_members keys (l : list (string * value)) (f g : value -> prog (result value)) t :
  Forall (fun kv => refines (f kv.2) (g kv.2)) l ->
  refines (render_members keys (map (fun kv => (kv.1, f kv.2)) l) t)
          (render_members keys (map (fun kv => (kv.1, g kv.2)) l) t).
Proof.
  intros Hl. revert t. induction keys as [|k keys IH]; intros t; simpl; [apply refines_refl|].
  rewrite !find_rendered. destruct (obj_get k l) as [v|] eqn:E; [|apply IH]. cbn [fmap option_fmap option_map].
  apply refines_try; [exact (obj_get_Forall (fun v => refines (f v) (g v)) k v l Hl E)|]. intros x. destruct x; apply IH || apply refines_refl.
Qed.

Lemma refines_recurse object data :
  refines (recurseRenderTemplate render object entry data) (recurseRenderTemplate render' object entry data).
Proof.
  induction object as [|b|z|lit|str|l IH|m IH] using value_induction; try apply refines_refl.
  - apply refines_renderTemplateString.
  - cbn [recurseRenderTemplate]. apply refines_try; [|intros; apply refines_refl].
    induction IH as [|x l Hx _ IHl]; simpl; [apply refines_refl|].
    apply refines_try; [exact Hx|]. intros v. apply refines_try; [exact IHl|]. intros. apply refines_refl.
  - cbn [recurseRenderTemplate]. apply refines_bind; [apply refines_refl|]. intros keys.
    apply (refines_render_members keys m (fun v => recurseRenderTemplate render v entry data)
             (fun v => recurseRenderTemplate render' v entry data)). exact IH.
Qed.
End Evaluation.

Lemma refines_renderTemplate n m : n <= m -> refines_renderer (renderTemplate n) (renderTemplate m).
Proof.
  revert m. induction n as [|n IH]; intros m Hnm t e d; [constructor|].
  destruct m as [|m]; [lia|]. cbn [renderTemplate].
  destruct (template_Template t) as [[[raw|]]|]; try apply refines_refl.
  destruct (Unmarshal raw) as [object|err]; [|apply refines_refl].
  apply refines_try; [|intros; apply refines_refl]. apply refines_recurse, IH. lia.
Qed.

(** ** Preparing *)

Lemma refines_render_registry b b' l e :
  template_depth b <= template_depth b' -> refines (render_registry b l e) (render_registry b' l e).
Proof.
  intros Hb. revert e. induction l as [|r l IH]; intros e; cbn [render_registry]; [apply refines_refl|].
  apply refines_try; [by apply refines_renderTemplateString, refines_renderTemplate|]. intros v.
  assert (refines (match Entry.SetUser e (value_Name r) v with Err err => Ret (Err err) | Ok e => render_registry b l e end)
                  (match Entry.SetUser e (value_Name r) v with Err err => Ret (Err err) | Ok e => render_registry b' l e end))
    by (destruct (Entry.SetUser e (value_Name r) v); [apply IH|apply refines_refl]).
  destruct v; done || apply IH.
Qed.

Lemma refines_render_templates b b' names e :
  template_depth b <= template_depth b' -> refines (render_templates b names e) (render_templates b' names e).
Proof.
  intros Hb. induction names as [|n names IH]; cbn [render_templates]; [apply refines_refl|]. refines_solver.
  by apply refines_renderTemplate.
Qed.

Lemma refines_render_steps b b' steps e :
  template_depth b <= template_depth b' -> refines (render_steps b steps e) (render_steps b' steps e).
Proof.
  intros Hb. induction steps as [|st steps IH]; cbn [render_steps]; [apply refines_refl|]. refines_solver.
  by apply refines_render_templates.
Qed.

Lemma refines_Creator_Prepare b b' p e :
  template_depth b <= template_depth b' -> refines (Creator_Prepare b p e) (Creator_Prepare b' p e).
Proof.
  intros Hb. unfold Creator_Prepare. refines_solver;
    first [by apply refines_render_registry|by apply refines_render_steps].
Qed.

(** The depth of the model does not matter.  Rendering a template, and
    preparing a creation, that ends within some depth (with a result, an error
    or a panic) ends in exactly the same way within every larger depth: the
    depth cuts off only what would go deeper still. *)
Lemma depth_monotone {W} `{World W} b b' t e d p (s : sys W) :
  template_depth b <= template_depth b' ->
  (forall o s', run (renderTemplate (template_depth b) t e d) s = (o, s') -> o <> Halted OutOfFuel ->
     run (renderTemplate (template_depth b') t e d) s = (o, s')) /\
  (forall o s', run (Creator_Prepare b p e) s = (o, s') -> o <> Halted OutOfFuel ->
     run (Creator_Prepare b' p e) s = (o, s')).
Proof.
  intros Hb. split; intros o s'; apply refines_run.
  - by apply refines_renderTemplate.
  - by apply refines_Creator_Prepare.
Qed.
End Rendering.

Module FuelWitness.
Import Fixture.

(** The template of the fixture at depth 1, and so at depth 100. *)
Lemma depth_monotone_witness :
  let e := mkEntry (mkSecret "registry-service-instance-i1" "ns" "" "" ∅ ∅
                      (Some {["instance-id" := quote "i1"]})) true false in
  exists t, run (renderTemplate 100 config_map e VNull) start = (Done (Ok t), start) /\
    rendered_text t = marshal (VObject [("apiVersion", VString "v1"); ("kind", VString "ConfigMap");
                                        ("metadata", VObject [("name", VString "i1")])]).
Proof.
  intros e. eexists. split.
  - apply (proj1 (depth_monotone (mkBounds 1 0) (mkBounds 100 0) config_map e VNull
             (mkCreator ResourceTypeServiceInstance []) start ltac:(cbn; lia))).
    + vm_compute. reflexivity.
    + discriminate.
  - vm_compute. reflexivity.
Defined.
End FuelWitness.
