(* ===== verification/ProvisionFacts.v ===== *)
(** * Properties of the provisioners ([pkg/provisioners], [pkg/util/wait.go])

    Preparing a creation changes the registry entry in the keys the
    configuration may write only; running it leaves the registry alone but for
    the entry it completes, and writes other secrets only where a template makes
    one; steps run one after the other; waiting ends. *)

From S2P Require Import Prelude Json JsonFacts Errors Types Platform Vendor Sim Api Registry RegistryFacts.
From S2P Require Import Operation Template TemplateFacts Provision.
From Stdlib Require Import Lia.

Local Open Scope broker_scope.

(** ** Effects *)

Definition no_writes : forall X, event X -> bool :=
  fun X e => negb (writes_secrets e) && negb (mutates_config e || locks e).

(** The same, but for the objects of templates. *)
Definition no_own_writes : forall X, event X -> bool :=
  fun X e => negb (mutates_secrets e) && negb (mutates_config e || locks e).

Lemma no_writes_secrets X (e : event X) : no_writes X e = true -> no_secret_writes X e = true.
Proof. by intros [? _]%andb_prop. Qed.

Lemma no_own_writes_secrets X (e : event X) : no_own_writes X e = true -> no_registry_writes X e = true.
Proof. by intros [? _]%andb_prop. Qed.

Lemma no_own_writes_config X (e : event X) : no_own_writes X e = true -> no_config_writes X e = true.
Proof. intros [_ Hc]%andb_prop. unfold no_config_writes. by destruct (mutates_config e). Qed.

Lemma no_writes_own X (e : event X) : no_writes X e = true -> no_own_writes X e = true.
Proof. unfold no_writes, no_own_writes, writes_secrets. destruct (mutates_secrets e); [done|]. by intros [_ ?]%andb_prop. Qed.

Lemma no_writes_config X (e : event X) : no_writes X e = true -> no_config_writes X e = true.
Proof. intros He. by apply no_own_writes_config, no_writes_own. Qed.

Lemma rendering_no_writes X (e : event X) : rendering_call X e = true -> no_writes X e = true.
Proof. by destruct e. Qed.

Section Quiet.
Context {W : Type} `{PlatformLaws W}.

Lemma wp_no_writes {A} (p : prog A) Q (s : sys W) :
  effects no_writes p -> wp p (fun a s' => unchanged s s' -> Q a s') s -> wp p Q s.
Proof.
  intros Hp. apply wp_unchanged; (eapply effects_weaken; [|exact Hp]);
    [apply no_writes_secrets|apply no_writes_config].
Qed.

Lemma wp_no_own_writes {A} (p : prog A) Q (s : sys W) :
  effects no_own_writes p -> wp p (fun a s' => owned_unchanged s s' -> Q a s') s -> wp p Q s.
Proof.
  intros Hp. apply wp_owned_unchanged; (eapply effects_weaken; [|exact Hp]);
    [apply no_own_writes_secrets|apply no_own_writes_config].
Qed.

Lemma wlp_no_writes {A} (p : prog A) Q (s : sys W) :
  effects no_writes p -> wlp p (fun a s' => unchanged s s' -> Q a s') s -> wlp p Q s.
Proof.
  intros Hp. apply wlp_unchanged; (eapply effects_weaken; [|exact Hp]);
    [apply no_writes_secrets|apply no_writes_config].
Qed.

Lemma wlp_trivial {A} (p : prog A) (Q : A -> sys W -> Prop) (s : sys W) : (forall a s', Q a s') -> wlp p Q s.
Proof. intros HQ. unfold wlp. by destruct (run p s) as [[]]. Qed.

Lemma wlp_ret {A} (a : A) Q (s : sys W) : wlp (Ret a) Q s <-> Q a s.
Proof. done. Qed.

Lemma wlp_try {A B} (p : prog (result A)) (k : A -> prog (result B)) Q (s : sys W) :
  wlp (try_bind p k) Q s <->
  wlp p (fun r s' => match r with Ok a => wlp (k a) Q s' | Err e => Q (Err e) s' end) s.
Proof.
  unfold try_bind. rewrite wlp_bind. split; intros Hp; (eapply wlp_mono; [exact Hp|intros []; auto]).
Qed.
End Quiet.

Section Effects.
Context `{Vendor} (bounds : Bounds).

Abbreviation calm := (effects no_writes).
Abbreviation mild := (effects no_own_writes).

Lemma calm_mild {A} (p : prog A) : calm p -> mild p.
Proof. apply effects_weaken, no_writes_own. Qed.

Lemma calm_render_string str entry : calm (render_string bounds str entry).
Proof.
  eapply effects_weaken; [apply rendering_no_writes|]. apply quiet_renderTemplateString, quiet_renderTemplate.
Qed.

Lemma calm_render_template t entry : calm (render_template bounds t entry).
Proof. eapply effects_weaken; [apply rendering_no_writes|]. apply quiet_renderTemplate. Qed.

Lemma calm_Config : calm Config.
Proof. unfold Config, nil_dereference. effects_solver. Qed.

Lemma calm_getTemplate n : calm (getTemplate n).
Proof. eapply effects_weaken; [apply rendering_no_writes|]. apply quiet_getTemplate. Qed.

Lemma calm_mapping object : calm (mapping_of object).
Proof. unfold mapping_of. effects_solver. Qed.

Lemma calm_getTemplateBinding t sid pid : calm (getTemplateBinding t sid pid).
Proof. unfold getTemplateBinding. apply effects_bind; [apply calm_Config|done]. Qed.

Lemma mild_createResource t entry : mild (createResource t entry).
Proof. unfold createResource, add_owner. effects_solver; try apply calm_mild, calm_mapping. Qed.

Lemma calm_conditionReady entry c : calm (conditionReady bounds entry c).
Proof. unfold conditionReady. effects_solver; try apply calm_render_string. Qed.

Lemma calm_doCheck c entry : calm (doCheck bounds c entry).
Proof. unfold doCheck. destruct (check_Condition c); [apply calm_conditionReady|done]. Qed.

Lemma calm_wait_loop n f d : calm f -> calm (wait_loop n f d).
Proof. intros Hf. induction n as [|n IH]; cbn [wait_loop create_all wait_all run_steps render_registry render_templates render_steps update_resources update_all]; [done|]. by effects_solver. Qed.

Lemma calm_barrier c entry : calm (barrier bounds c entry).
Proof. unfold barrier, WaitFor. effects_solver; apply calm_wait_loop, calm_doCheck. Qed.

Lemma mild_create_all ts entry : mild (create_all ts entry).
Proof. induction ts as [|t ts IH]; cbn [wait_loop create_all wait_all run_steps render_registry render_templates render_steps update_resources update_all]; [done|]. effects_solver; apply mild_createResource. Qed.

Lemma calm_wait_all cs entry : calm (wait_all bounds cs entry).
Proof. induction cs as [|c cs IH]; cbn [wait_loop create_all wait_all run_steps render_registry render_templates render_steps update_resources update_all]; [done|]. effects_solver; apply calm_barrier. Qed.

Lemma mild_run_steps steps entry : mild (run_steps bounds steps entry).
Proof.
  induction steps as [|st steps IH]; cbn [wait_loop create_all wait_all run_steps render_registry render_templates render_steps update_resources update_all]; [done|].
  effects_solver; first [apply mild_create_all | apply calm_mild, calm_wait_all].
Qed.

Lemma calm_render_registry l entry : calm (render_registry bounds l entry).
Proof.
  revert entry. induction l as [|r l IH]; intros entry; cbn [wait_loop create_all wait_all run_steps render_registry render_templates render_steps update_resources update_all]; [done|].
  apply effects_try; [apply calm_render_string|]. intros v.
  assert (calm (match Entry.SetUser entry (value_Name r) v with
                | Err err => Ret (Err err) | Ok entry => render_registry bounds l entry end))
    by (destruct (Entry.SetUser entry (value_Name r) v); [apply IH|done]).
  destruct v; done || apply IH.
Qed.

Lemma calm_render_templates names entry : calm (render_templates bounds names entry).
Proof.
  induction names as [|n names IH]; cbn [wait_loop create_all wait_all run_steps render_registry render_templates render_steps update_resources update_all]; [done|].
  effects_solver; first [apply calm_getTemplate | apply calm_render_template].
Qed.

Lemma calm_render_steps steps entry : calm (render_steps bounds steps entry).
Proof. induction steps as [|st steps IH]; cbn [wait_loop create_all wait_all run_steps render_registry render_templates render_steps update_resources update_all]; [done|]. effects_solver; apply calm_render_templates. Qed.

Lemma calm_Creator_Prepare p entry : calm (Creator_Prepare bounds p entry).
Proof.
  unfold Creator_Prepare. effects_solver;
    first [apply calm_getTemplateBinding | apply calm_render_registry | apply calm_render_steps].
Qed.

Lemma calm_update_resource n entry : calm (update_resource bounds n entry).
Proof.
  unfold update_resource. effects_solver;
    first [apply calm_getTemplate | apply calm_render_template | apply calm_mapping].
Qed.

Lemma calm_update_resources names entry : calm (update_resources bounds names entry).
Proof.
  induction names as [|n names IH]; [done|]. apply effects_try; [apply calm_update_resource|]. intros o.
  by apply effects_try.
Qed.

Lemma calm_Updater_Prepare u entry : calm (Updater_Prepare bounds u entry).
Proof. unfold Updater_Prepare. effects_solver; first [apply calm_getTemplateBinding|apply calm_update_resources]. Qed.

Lemma mild_update_all l : mild (update_all l).
Proof. induction l as [|r l IH]; cbn [wait_loop create_all wait_all run_steps render_registry render_templates render_steps update_resources update_all]; [done|]. effects_solver; apply calm_mild, calm_mapping. Qed.
End Effects.

(** ** Waiting *)

Section Waiting.
Context {W : Type} `{PlatformLaws W}.

Implicit Types s : sys W.

(** A round of a wait: the condition did not hold, and the select saw a tick. *)
Definition missed (f : prog (option error)) (d : Z) (s s' : sys W) : Prop :=
  exists err s1, run f s = (Done (Some err), s1) /\
    (perform (SelectDone d) (world s1)).1 = false /\ s' = set_world s1 (perform (SelectDone d) (world s1)).2.

(** What is left of a wait: the time to its deadline, in nanoseconds, and the
    draws that it will lose after. *)
Definition patience (w : W) (d : Z) : nat := Z.to_nat (d - clock w) + draws_lost w d.

Lemma missed_patience f d s s' : missed f d s s' -> patience (world s') d < patience (world s) d.
Proof.
  intros (err & s1 & Hf & Hsel & ->). unfold patience. cbn [world set_world].
  pose proof (run_clock f s) as Hc. pose proof (run_draws f s d) as Hd. rewrite Hf in Hc, Hd. cbn [snd] in Hc, Hd.
  pose proof (select_tick _ _ Hsel) as Ht. pose proof (draws_frame _ (SelectDone d) (world s1) d) as Hd1.
  destruct (Z.le_gt_cases d (clock (world s1))) as [Hle|Hgt]; [|lia].
  pose proof (select_fair _ _ Hsel Hle). lia.
Qed.

(** The end of a wait that started at [s]: every round before the last missed;
    in the last the condition held, or it did not and the deadline had passed. *)
Definition waited (f : prog (option error)) (d : Z) (s : sys W) (r : option error) (s' : sys W) : Prop :=
  exists s1, rtc (missed f d) s s1 /\
    match r with
    | None => run f s1 = (Done None, s')
    | Some err => exists cause s2, run f s1 = (Done (Some cause), s2) /\
        (perform (SelectDone d) (world s2)).1 = true /\ s' = set_world s2 (perform (SelectDone d) (world s2)).2 /\
        (d <= clock (world s'))%Z /\
        err = wrappedError ErrTimeout ("failed to wait for condition: " +++ Error cause)
    end.

Lemma wait_loop_ends rounds f d s :
  (forall s, wp f (fun _ _ => True) s) -> patience (world s) d < rounds ->
  wp (wait_loop rounds f d) (waited f d s) s.
Proof.
  intros Hf. revert s. induction rounds as [|rounds IH]; intros s Ht; [lia|]. cbn [wait_loop]. apply wp_bind.
  specialize (Hf s) as Hfs. unfold wp in Hfs |- *.
  destruct (run f s) as [[[err|]|h] s1] eqn:Ef; [|by exists s|done].
  change (wp (done <- call (SelectDone d) ;;
              if (done : bool)
              then Ret (Some (wrappedError ErrTimeout ("failed to wait for condition: " +++ Error err)))
              else wait_loop rounds f d) (waited f d s) s1).
  apply wp_bind, wp_call. destruct (perform (SelectDone d) (world s1)).1 eqn:Hsel.
  - exists s. split; [done|]. exists err, s1. repeat (split; [done|]). split; [by apply select_done|done].
  - assert (missed f d s (set_world s1 (perform (SelectDone d) (world s1)).2)) as Hm by by exists err, s1.
    pose proof (missed_patience f d _ _ Hm) as Hp.
    eapply wp_mono; [apply IH; lia|]. intros r s' (s2 & Hr & Hend). exists s2. split; [by eapply rtc_l|done].
Qed.

(** C23: what waiting does, and that it ends.  If the condition is a function
    that returns, [WaitFor] tries it again and again, once at least, with a
    select between two tries.  It returns with success right after the first
    try at which the condition holds.  It gives up only when the condition
    failed at every try and the timeout has passed since it started; the error
    then is a timeout with the last reason.  The rounds that suffice are the
    time left until the deadline and the draws lost after it. *)
Theorem wait_terminates rounds f timeout s :
  (forall s, wp f (fun _ _ => True) s) ->
  let d := ((perform TimeNow (world s)).1 + timeout)%Z in
  patience (world s) d < rounds ->
  wp (WaitFor rounds f timeout) (waited f d (set_world s (perform TimeNow (world s)).2)) s.
Proof.
  intros Hf d Ht. unfold WaitFor. apply wp_bind, wp_call. apply wait_loop_ends; [done|]. fold d.
  unfold patience in *. cbn [world set_world].
  pose proof (draws_frame _ TimeNow (world s) d). pose proof (clock_frame _ TimeNow (world s)). lia.
Qed.
End Waiting.

(** ** Preparing *)

Section Prepare.
Context `{Vendor} {W : Type} `{PlatformLaws W} (bounds : Bounds).

Implicit Types s : sys W.

(** What rendering the registry values can have done to an entry. *)
Definition user_edit (e e' : Entry) : Prop :=
  secret_key (entry_secret e') = secret_key (entry_secret e) /\
  secret_ResourceVersion (entry_secret e') = secret_ResourceVersion (entry_secret e) /\
  entry_exists e' = entry_exists e /\ entry_readOnly e' = entry_readOnly e /\
  (forall k, k ∈ reserved_keys -> entry_data e' !! k = entry_data e !! k).

Lemma user_edit_refl e : user_edit e e.
Proof. by repeat split. Qed.

Lemma user_edit_trans a b c : user_edit a b -> user_edit b c -> user_edit a c.
Proof.
  intros (?&?&?&?&Ha) (?&?&?&?&Hb). repeat split; try congruence.
  intros k Hk. by rewrite Hb, Ha.
Qed.

Lemma SetUser_edit e k v e' : Entry.SetUser e k v = Ok e' -> user_edit e e'.
Proof.
  intros [Hw ->]%SetUser_put. repeat split. intros k' Hk. rewrite entry_data_put.
  rewrite lookup_insert_ne; [done|]. intros ->. apply reserved_not_writable in Hk. congruence.
Qed.

Lemma render_registry_edit l e s :
  wlp (render_registry bounds l e) (fun r _ => match r with Ok e' => user_edit e e' | Err _ => True end) s.
Proof.
  revert e s. induction l as [|r l IH]; intros e s; cbn [render_registry]; [apply wlp_ret, user_edit_refl|].
  apply wlp_try. apply wlp_trivial. intros [v|err] s1; [|done].
  assert (wlp (match Entry.SetUser e (value_Name r) v with
               | Err err => Ret (Err err) | Ok e => render_registry bounds l e end)
            (fun r _ => match r with Ok e' => user_edit e e' | Err _ => True end) s1) as Hset.
  { destruct (Entry.SetUser e (value_Name r) v) as [e1|err] eqn:Es; [|done].
    eapply wlp_mono; [apply IH|]. intros [e2|] s2; [|done]. apply user_edit_trans. by eapply SetUser_edit. }
  destruct v; try exact Hset. apply IH.
Qed.

Lemma wlp_Creator_Prepare p e s :
  wlp (Creator_Prepare bounds p e) (fun r s' => unchanged s s' /\
    match r with
    | Ok (p', e') => user_edit e e' /\ creator_resourceType p' = creator_resourceType p
    | Err _ => True
    end) s.
Proof.
  apply wlp_no_writes; [apply calm_Creator_Prepare|]. unfold Creator_Prepare.
  destruct (entry_service_plan e _ _) as [[sid pid]|err]; [|by apply wlp_ret].
  apply wlp_try, wlp_trivial. intros [t|err] s1; [|done]. apply wlp_try.
  eapply wlp_mono; [apply render_registry_edit|]. intros [e1|err] s2 He; [|done].
  apply wlp_try, wlp_trivial. intros [steps|err] s3; [|done]. by apply wlp_ret.
Qed.

(** C22: [Prepare] leaves alone what the broker recorded.  Whatever the
    templates of the configuration compute, preparing a creation writes no
    secret, and the entry it returns differs from the one it was given in the
    values of user keys only: the identity of the instance, the client's
    context and parameters and the state of the operation are the same. *)
Theorem prepare_preserves_reserved p e s :
  wlp (Creator_Prepare bounds p e) (fun r s' => unchanged s s' /\
    match r with
    | Ok (p', e') => user_edit e e' /\ creator_resourceType p' = creator_resourceType p
    | Err _ => True
    end) s.
Proof. apply wlp_Creator_Prepare. Qed.

(** ** Running *)

(** Steps run in order.  Running the steps [a] and then [b] is running
    [a] and, only when all its resources were created and all its readiness
    checks passed, running [b]; the first error ends the run. *)
Lemma steps_sequential a b e s :
  run (run_steps bounds (a ++ b) e) s =
    match run (run_steps bounds a e) s with
    | (Done None, s1) => run (run_steps bounds b e) s1
    | other => other
    end.
Proof.
  revert s. induction a as [|st a IH]; intros s; [done|]. cbn [app run_steps].
  rewrite !run_bind. destruct (run (create_all _ e) s) as [[[err|]|h] s1]; [done| |done].
  rewrite !run_bind. destruct (run (wait_all _ _ e) s1) as [[[err|]|h] s2]; [done| |done]. apply IH.
Qed.

Lemma run_records (p : prog (option error)) e t id s :
  effects no_own_writes p -> op_state_of e = Running t id -> templated (secret_key (entry_secret e)) = false ->
  committable (world s) e -> available (world s) ->
  wp p (fun _ _ => True) s ->
  wp (err <- p ;; r <- Complete e err ;; Ret r.1) (fun e' s' => kept s s' /\
    exists err, op_state_of e' = Finished t id (error_text err) /\
      (exists s1, run p s = (Done err, s1)) /\
      owned (world s') = <[secret_key (entry_secret e) := entry_secret e']> (owned (world s)) /\
      entry_data e' = <[OperationStatus := quote (error_text err)]> (entry_data e) /\
      committable (world s') e') s.
Proof.
  intros Hp Hst Hun Hc Hav Hw. apply wp_bind. apply wp_no_own_writes; [done|].
  unfold wp in Hw |- *. destruct (run p s) as [[err|] s1] eqn:Er; [|done]. intros Hu.
  change (wp (r <- Complete e err ;; Ret r.1) (fun e' s' => kept s s' /\
    exists err0, op_state_of e' = Finished t id (error_text err0) /\
      (exists s2, (@Done (option error) err, s1) = (Done err0, s2)) /\
      owned (world s') = <[secret_key (entry_secret e) := entry_secret e']> (owned (world s)) /\
      entry_data e' = <[OperationStatus := quote (error_text err0)]> (entry_data e) /\
      committable (world s') e') s1).
  destruct (op_state_busy e t id "" (or_introl Hst)) as [op Hop].
  apply wp_bind. eapply wp_Complete; [done|]. intros e' oerr s2 Hk2 Hr. apply wp_ret.
  destruct Hu as [Hs1 Hk1]. pose proof (owned_key _ _ _ Hun Hs1) as Hs1k.
  split; [by etransitivity|]. exists err.
  destruct oerr as [cerr|].
  - destruct Hr as (_ & _ & Hno). destruct Hno; [by apply Hk1|]. unfold committable in *. by rewrite Hs1k.
  - split.
    { rewrite (op_state_of_data _ _ (committed_data _ _ _ _ Hr)).
      apply (completed_state e t id ""). by left. }
    split; [eauto|]. split.
    { rewrite <- Hs1. apply owned_insert; [done|]. by destruct Hr as (-> & _). }
    split; [exact (committed_data _ _ _ _ Hr)|]. by eapply committed_committable.
Qed.

(** A creation that ends is recorded.  The program that runs in the
    background after a creation request ends the operation of the entry it was
    given: the stored entry is then in the finished state, with the error of
    the run as its status (empty when there was none), and no other secret that
    no template makes has changed. *)
Lemma creation_recorded p e t id s :
  op_state_of e = Running t id -> templated (secret_key (entry_secret e)) = false ->
  committable (world s) e -> available (world s) ->
  wp (Creator_run bounds p e) (fun _ _ => True) s ->
  wp (Creator_Run bounds p e) (fun e' s' => kept s s' /\
    exists err, op_state_of e' = Finished t id (error_text err) /\
      (exists s1, run (Creator_run bounds p e) s = (Done err, s1)) /\
      owned (world s') = <[secret_key (entry_secret e) := entry_secret e']> (owned (world s)) /\
      entry_data e' = <[OperationStatus := quote (error_text err)]> (entry_data e) /\
      committable (world s') e') s.
Proof. intros. apply run_records; try done. apply mild_run_steps. Qed.

(** The same for an update. *)
Lemma update_recorded u e t id s :
  op_state_of e = Running t id -> templated (secret_key (entry_secret e)) = false ->
  committable (world s) e -> available (world s) ->
  wp (Updater_run u) (fun _ _ => True) s ->
  wp (Updater_Run u e) (fun e' s' => kept s s' /\
    exists err, op_state_of e' = Finished t id (error_text err) /\
      (exists s1, run (Updater_run u) s = (Done err, s1)) /\
      owned (world s') = <[secret_key (entry_secret e) := entry_secret e']> (owned (world s)) /\
      entry_data e' = <[OperationStatus := quote (error_text err)]> (entry_data e) /\
      committable (world s') e') s.
Proof. intros. apply run_records; try done. apply mild_update_all. Qed.
End Prepare.

Module ProvisionWitness.

(** A condition that never holds, before a deadline that is near; the first
    draw after the deadline is lost. *)
Definition unlucky : sys SimWorld := mkSys (mkSim ∅ ∅ None true 0 0 [] 1) [].

Lemma wait_terminates_witness :
  let never := Ret (Some (plainError "not ready")) in
  wp (WaitFor 4 never 2) (waited never ((perform TimeNow (world unlucky)).1 + 2)
    (set_world unlucky (perform TimeNow (world unlucky)).2)) unlucky /\
  run (WaitFor 4 never 2) unlucky =
    (Done (Some (wrappedError ErrTimeout "failed to wait for condition: not ready")),
     mkSys (mkSim ∅ ∅ None true 2 20000000 [] 0) []).
Proof.
  intros never. split.
  - apply (wait_terminates 4 never 2 unlucky).
    + intros s'. exact I.
    + apply Nat.ltb_lt. vm_compute. reflexivity.
  - vm_compute. reflexivity.
Defined.

(** An entry whose creation has been started, and one ConfigMap to create. *)
Definition started_run : Entry * sys SimWorld :=
  match run (Start (put OperationWitness.demo_entry Namespace (quote "ns")) TypeProvision) OperationWitness.demo_sys with
  | (Done (Ok e), s) => (e, s)
  | (_, s) => (OperationWitness.demo_entry, s)
  end.

Definition creator : Creator :=
  mkCreator ResourceTypeServiceInstance
    [mkCreateStep "default"
       [mkConfigurationTemplate "map"
          (Some (mkRaw (Some (marshal (VObject [("apiVersion", VString "v1"); ("kind", VString "ConfigMap");
             ("metadata", VObject [("name", VString "i")])]))))) false] []].

Lemma creation_recorded_witness :
  let e := started_run.1 in let s := started_run.2 in
  wp (Creator_Run (mkBounds 5 5) creator e) (fun e' s' => kept s s' /\
    exists err, op_state_of e' = Finished TypeProvision "uuid-1" (error_text err) /\
      (exists s1, run (Creator_run (mkBounds 5 5) creator e) s = (Done err, s1)) /\
      owned (world s') = <[secret_key (entry_secret e) := entry_secret e']> (owned (world s)) /\
      entry_data e' = <[OperationStatus := quote (error_text err)]> (entry_data e) /\
      committable (world s') e') s.
Proof.
  intros e s. apply (creation_recorded (mkBounds 5 5) creator e TypeProvision "uuid-1" s).
  - vm_compute. reflexivity.
  - vm_compute. reflexivity.
  - assert (entry_exists e = true) as Hex by (vm_compute; reflexivity).
    split; [vm_compute; reflexivity|]. rewrite Hex. exists (entry_secret e).
    split; [vm_compute; reflexivity|reflexivity].
  - vm_compute. reflexivity.
  - vm_compute. exact I.
Defined.

(** The resource exists then, and there was no error. *)
Example creation_succeeds :
  let o := run (Creator_Run (mkBounds 5 5) creator started_run.1) started_run.2 in
  (match o.1 with Done e => op_state_of e | _ => Inconsistent end) = Finished TypeProvision "uuid-1" "" /\
  is_Some (sim_objects (world o.2) !! object_key "ConfigMap" (Some "ns") "i").
Proof. split; [vm_compute; reflexivity|]. eexists. vm_compute. reflexivity. Qed.
(** A template can be a secret: it is created, beside the registry.  One with a
    name of the registry is refused, and the operation fails. *)
Definition secret_creator (name : string) : Creator :=
  mkCreator ResourceTypeServiceInstance
    [mkCreateStep "default"
       [mkConfigurationTemplate "secret"
          (Some (mkRaw (Some (marshal (VObject [("apiVersion", VString "v1"); ("kind", VString "Secret");
             ("metadata", VObject [("name", VString name)]); ("stringData", VObject [("password", VString "x")])]))))) false] []].

Example secret_template :
  let o := run (Creator_Run (mkBounds 5 5) (secret_creator "password") started_run.1) started_run.2 in
  let key := ("ns", "password") in
  (match o.1 with Done e => op_state_of e | _ => Inconsistent end) = Finished TypeProvision "uuid-1" "" /\
  templated key = true /\ owned (world o.2) !! key = None /\
  (data_of <$> stored (world o.2) !! key) = Some {["password" := "x"]}.
Proof. split; [|split; [|split]]; vm_compute; reflexivity. Qed.

Example secret_template_refused :
  let o := run (Creator_Run (mkBounds 5 5) (secret_creator "registry-service-instance-i") started_run.1) started_run.2 in
  (match o.1 with Done e => op_state_of e | _ => Inconsistent end) =
    Finished TypeProvision "uuid-1" (Error forbidden).
Proof. vm_compute. reflexivity. Qed.
End ProvisionWitness.
