(* ===== verification/Protocol.v ===== *)
(** * The protocol of the registry: what every goroutine keeps to

    Requests and background programs interleave at their calls, and share the
    secrets of the registry.  What they may write is a protocol: an update of
    a secret is one step of the life of the entry that was read, under the
    version it was read with.  [obeys] says that a program keeps to it,
    whatever the API server answers, and [protocol_step] that a system of
    programs that do keeps its registry well formed, each secret changing by
    the steps of the protocol only. *)

From S2P Require Import Prelude Json JsonFacts Errors Types Platform Vendor Registry RegistryFacts Operation.
From stdpp Require Import relations.

Local Open Scope broker_scope.

(** ** Well-formed entries *)

Abbreviation data := (gmap string string).

(** Secrets of which a program knows, and whether it wrote them. *)
Abbreviation knowledge := (list (Secret * bool)).

Definition op_types : list string := [TypeProvision; TypeUpdate; TypeDeprovision].

(** The keys that identify an instance and do not change while it exists. *)
Definition identity_keys : list Key := [Namespace; InstanceID; ServiceID; PlanID; Context_].

Section Entries.
Context `{Vendor}.

(** The key holds the encoding of a value of the type. *)
Definition has_type (T : Type) `{GoJSON T} (d : data) (k : Key) : Prop :=
  exists (v : T) t, Marshal v = Ok t /\ d !! k = Some t.

(** The keys of an operation, as [Start], [Complete] and [End] leave them. *)
Inductive records (d : data) : op_state -> Prop :=
  | records_Idle :
      d !! Operation = None -> d !! OperationID = None -> d !! OperationStatus = None -> records d Idle
  | records_Running t id :
      t ∈ op_types -> d !! Operation = Some (quote t) -> d !! OperationID = Some (quote id) ->
      d !! OperationStatus = None -> records d (Running t id)
  | records_Finished t id status :
      t ∈ op_types -> d !! Operation = Some (quote t) -> d !! OperationID = Some (quote id) ->
      d !! OperationStatus = Some (quote status) -> records d (Finished t id status).

Record well_formed (d : data) : Prop := {
  wf_Namespace : has_type string d Namespace;
  wf_InstanceID : has_type string d InstanceID;
  wf_ServiceID : has_type string d ServiceID;
  wf_PlanID : has_type string d PlanID;
  wf_Context : has_type RawExtension d Context_;
  wf_Parameters : has_type RawExtension d Parameters_;
  wf_operation : exists st, records d st;
}.

Definition without_operation (d : data) : data :=
  delete OperationStatus (delete OperationID (delete Operation d)).

(** One write to an entry of this name: the start of an operation, with what
    templates and an update request may change; its completion; its end.  Only
    an operation on a binding may end without having been completed: the
    request that creates a binding ends the operation also when recording its
    completion failed. *)
Inductive entry_step (n : string) (d : data) : data -> Prop :=
  | entry_start d' t id :
      records d Idle -> records d' (Running t id) ->
      (forall k, k ∈ identity_keys -> d' !! k = d !! k) ->
      d' !! Parameters_ = d !! Parameters_ \/ (t = TypeUpdate /\ has_type RawExtension d' Parameters_) ->
      entry_step n d d'
  | entry_complete t id status :
      records d (Running t id) -> entry_step n d (<[OperationStatus := quote status]> d)
  | entry_end t id status :
      records d (Finished t id status) -> entry_step n d (without_operation d)
  | entry_abandon t id :
      (forall i, n <> Name ServiceInstance i) -> records d (Running t id) -> entry_step n d (without_operation d).

Lemma has_type_lookup T `{GoJSON T} d d' k : d' !! k = d !! k -> has_type T d k -> has_type T d' k.
Proof. intros Hd (v & t & Hm & Hl). exists v, t. by rewrite Hd. Qed.

Lemma has_type_string d k : has_type string d k -> exists v, d !! k = Some (quote v).
Proof. intros (v & t & [= <-] & Hl). eauto. Qed.

Lemma records_lookup d d' st :
  d' !! Operation = d !! Operation -> d' !! OperationID = d !! OperationID ->
  d' !! OperationStatus = d !! OperationStatus -> records d st -> records d' st.
Proof. intros H1 H2 H3 []; constructor; congruence. Qed.

Lemma records_state e st : records (entry_data e) st -> op_state_of e = st.
Proof.
  unfold op_state_of, Entry.GetString. rewrite !Get_data.
  intros [Ho Hi Hs|t id _ Ho Hi Hs|t id status _ Ho Hi Hs]; rewrite Ho, Hi, Hs; cbn; by rewrite ?unmarshal_quote.
Qed.

Lemma well_formed_lookup d d' :
  (forall k, k ∈ reserved_keys -> d' !! k = d !! k) -> well_formed d -> well_formed d'.
Proof.
  intros Hd [? ? ? ? ? ? [st Hst]]. split; try (eapply has_type_lookup; [|done]; apply Hd; set_solver).
  exists st. eapply records_lookup; [..|done]; apply Hd; set_solver.
Qed.

Lemma without_operation_well_formed d : well_formed d -> well_formed (without_operation d).
Proof.
  intros [? ? ? ? ? ? _]. unfold without_operation.
  split; try (eapply has_type_lookup; [|done]; by rewrite !lookup_delete_ne by done).
  exists Idle. constructor; by simplify_map_eq.
Qed.

Lemma entry_step_well_formed n d d' : entry_step n d d' -> well_formed d -> well_formed d'.
Proof.
  intros Hs Hwf. pose proof (without_operation_well_formed d Hwf) as Hwo. destruct Hwf as [? ? ? ? ? Hp _].
  destruct Hs as [d' t id Hi Hr Hk Hpar|t id status Hr|t id status Hr|t id Hn Hr]; try exact Hwo.
  - split; try (eapply has_type_lookup; [|done]; apply Hk; set_solver); [|eauto].
    destruct Hpar as [Hpar|[_ Hpar]]; [by eapply has_type_lookup|done].
  - split; try (eapply has_type_lookup; [|done]; by rewrite lookup_insert_ne by done).
    inversion Hr; subst. exists (Finished t id status). constructor; by simplify_map_eq.
Qed.

(** ** The directory *)

Definition well_formed_directory (d : data) : Prop :=
  forall id, is_Some (d !! id) -> has_type DirectoryEntry d id.

(** One write to the directory changes what it says about one instance. *)
Definition directory_step (id : string) (d d' : data) : Prop :=
  (forall id', id' <> id -> d' !! id' = d !! id') /\ (d' !! id = None \/ has_type DirectoryEntry d' id).

Lemma directory_step_well_formed id d d' :
  directory_step id d d' -> well_formed_directory d -> well_formed_directory d'.
Proof.
  intros [Hne Hid] Hd id' [t Ht]. destruct (decide (id' = id)) as [->|Hn].
  - destruct Hid as [Hid|Hid]; [congruence|done].
  - eapply has_type_lookup; [by apply Hne|]. apply Hd. rewrite Hne in Ht by done. eauto.
Qed.

(** ** The secrets of the registry *)

Definition entry_name (n : string) : Prop := exists t id, t ∈ [ServiceInstance; ServiceBinding] /\ n = Name t id.

Definition well_formed_data (n : string) (d : data) : Prop :=
  (entry_name n -> well_formed d) /\ (n = directoryName -> well_formed_directory d).

Lemma entry_not_directory n : entry_name n -> n <> directoryName.
Proof. intros (t & id & _ & ->). done. Qed.

(** An instance with a running operation is locked. *)
Definition locked (n : string) (d : data) : Prop :=
  (exists i, n = Name ServiceInstance i) /\ exists t id, records d (Running t id).

Lemma directory_unlocked n d : n = directoryName -> ~ locked n d.
Proof. by intros -> [[i Hi] _]. Qed.

Section Owner.
(** The names of the entries a system of programs may write; an instance whose
    entry it may write it may also enter in the directory. *)
Context (owns : string -> Prop).

(** How the data of a secret of this name may change. *)
Inductive change (n : string) : option data -> option data -> Prop :=
  | change_create d : owns n -> entry_name n -> well_formed d ->
      (forall i, n = Name ServiceInstance i -> records d Idle) -> change n None (Some d)
  | change_entry d d' : owns n -> entry_name n -> entry_step n d d' -> change n (Some d) (Some d')
  | change_delete d : owns n -> entry_name n -> change n (Some d) None
  | change_directory_create id d :
      n = directoryName -> owns (Name ServiceInstance id) -> directory_step id ∅ d -> change n None (Some d)
  | change_directory id d d' :
      n = directoryName -> owns (Name ServiceInstance id) -> directory_step id d d' -> change n (Some d) (Some d').

Lemma change_well_formed n o d' :
  change n o (Some d') -> from_option (well_formed_data n) True o -> well_formed_data n d'.
Proof.
  intros Hc Ho. inversion Hc as [d Hn He Hw _|d d0 Hn He Hs| |id d Hn Hown Hs|id d d0 Hn Hown Hs]; subst; simpl in Ho.
  - split; [done|]. intros ->. by apply entry_not_directory in He.
  - destruct Ho as [Hwf _]. split; [|intros ->; by apply entry_not_directory in He].
    intros _. eapply entry_step_well_formed; [done|by apply Hwf].
  - split; [by intros ?%entry_not_directory|]. intros _. eapply directory_step_well_formed; [done|].
    intros id' [t Ht]. by rewrite lookup_empty in Ht.
  - destruct Ho as [_ Hwf]. split; [by intros ?%entry_not_directory|]. intros _.
    eapply directory_step_well_formed; [done|by apply Hwf].
Qed.

(** ** What a program may do, and what it may rely on

    [known] are the secrets that the program was given by the API server, those
    that it read and those that it wrote.  Only the program that wrote the
    start of an operation on an instance may go on with it: complete it, or
    delete the instance when it is a deprovision. *)
Definition guarantee (known : knowledge) {X : Type} (e : event X) : Prop :=
  match e with
  | SecretsCreate s => change (secret_Name s) None (Some (data_of s))
  | SecretsUpdate s => exists s0 mine, (s0, mine) ∈ known /\ secret_key s0 = secret_key s /\
      secret_ResourceVersion s0 = secret_ResourceVersion s /\
      change (secret_Name s) (Some (data_of s0)) (Some (data_of s)) /\
      (locked (secret_Name s) (data_of s0) -> mine = true)
  | SecretsDelete ns n => owns n /\ entry_name n /\
      (forall i, n = Name ServiceInstance i -> exists s0 id, (s0, true) ∈ known /\ secret_key s0 = (ns, n) /\
         records (data_of s0) (Running TypeDeprovision id))
  | _ => True
  end.
End Owner.

Definition rely {X} (e : event X) : X -> Prop :=
  match e in event X return X -> Prop with
  | SecretsGet ns n => fun r => match r with
      | Ok s => secret_key s = (ns, n) /\ well_formed_data n (data_of s)
      | Err _ => True
      end
  | SecretsCreate s | SecretsUpdate s => fun r => match r with Ok s' => same_payload s s' | Err _ => True end
  | _ => fun _ => True
  end.

Definition learn {X} (e : event X) : X -> knowledge -> knowledge :=
  match e in event X return X -> knowledge -> knowledge with
  | SecretsGet _ _ => fun r known => match r with Ok s => (s, false) :: known | Err _ => known end
  | SecretsCreate _ | SecretsUpdate _ => fun r known =>
      match r with Ok s => (s, true) :: known | Err _ => known end
  | _ => fun _ known => known
  end.

(** A program that has started another leaves what it wrote to that one. *)
Definition disown (known : knowledge) : knowledge := (fun sm => (sm.1, false)) <$> known.

(** The program keeps to the protocol, and so do those that it starts; what
    it returns satisfies [Q]. *)
Fixpoint obeys (owns : string -> Prop) {A : Type} (p : prog A) (Q : A -> knowledge -> Prop) (known : knowledge) : Prop :=
  match p with
  | Ret a => Q a known
  | Halt _ => True
  | Vis e k => guarantee owns known e /\ forall x, rely e x -> obeys owns (k x) Q (learn e x known)
  | Go t k => obeys owns t (fun _ _ => True) known /\ obeys owns k Q (disown known)
  end.
End Entries.

(** ** Rules *)

Section Rules.
Context `{Vendor} (owns : string -> Prop).

Lemma obeys_mono {A} (p : prog A) (Q Q' : A -> knowledge -> Prop) known :
  obeys owns p Q known -> (forall a known', Q a known' -> Q' a known') -> obeys owns p Q' known.
Proof.
  intros Hp HQ. revert known Hp. induction p as [A a|A h|A X e k IH|A t _ p IH]; intros known; cbn [obeys]; auto.
  - intros [Hg Hk]. split; [done|]. intros x Hx. eapply IH; [exact HQ|by apply Hk].
  - intros [Ht Hp]. split; [done|]. by eapply IH.
Qed.

(** A program that may write less. *)
Lemma obeys_owns (owns' : string -> Prop) {A} (p : prog A) Q known :
  (forall n, owns' n -> owns n) -> obeys owns' p Q known -> obeys owns p Q known.
Proof.
  intros Hsub. revert known. induction p as [A a|A h|A X e k IH|A t IHt p IH]; intros known; cbn [obeys]; auto.
  - intros [Hg Hk]. split; [|intros x Hx; by apply IH, Hk]. clear Hk IH.
    assert (forall n o o', change owns' n o o' -> change owns n o o') as Hc.
    { intros n o o' [d|d d'|d|id d|id d d']; [by apply change_create; auto|by apply change_entry; auto|
        by apply change_delete; auto|by apply (change_directory_create owns n id); auto|by apply (change_directory owns n id); auto]. }
    destruct e; cbn [guarantee] in *; try done; [by apply Hc| |by destruct Hg; split; auto].
    destruct Hg as (s0 & m & Hs0 & Hk0 & Hv0 & Hg & Hm). exists s0, m. split_and!; auto.
  - intros [Ht Hp]. split; [by apply IHt|by apply IH].
Qed.

Lemma obeys_bind {A B} (p : prog A) (k : A -> prog B) Q known :
  obeys owns p (fun a known' => obeys owns (k a) Q known') known -> obeys owns (bind p k) Q known.
Proof.
  revert known. induction p as [A a|A h|A X e k' IH|A t _ p IH]; intros known; cbn [obeys bind]; auto.
  - intros [Hg Hk]. split; [done|]. intros x Hx. by apply IH, Hk.
  - intros [Ht Hp]. split; [done|]. by apply IH.
Qed.

Lemma obeys_try {A B} (p : prog (result A)) (k : A -> prog (result B)) Q known :
  obeys owns p (fun r known' => match r with Ok a => obeys owns (k a) Q known' | Err e => Q (Err e) known' end) known ->
  obeys owns (try_bind p k) Q known.
Proof. intros Hp. apply obeys_bind. eapply obeys_mono; [exact Hp|]. by intros [] known'. Qed.

Lemma obeys_call {X} (e : event X) (Q : X -> knowledge -> Prop) known :
  guarantee owns known e -> (forall x, rely e x -> Q x (learn e x known)) -> obeys owns (call e) Q known.
Proof. done. Qed.

Lemma learn_subset {X} (e : event X) x known : known ⊆ learn e x known.
Proof. destruct e; cbn; try done; destruct x; set_solver. Qed.

(** Programs that write no secret of the registry. *)
Lemma obeys_quiet {A} (p : prog A) (Q : A -> knowledge -> Prop) known :
  effects no_registry_writes p -> (forall a known', known ⊆ known' -> Q a known') -> obeys owns p Q known.
Proof.
  intros Hp. revert known. induction p as [A a|A h|A X e k IH|A t _ p IH]; intros known HQ; cbn [obeys effects] in *; auto.
  - destruct Hp as [He Hk]. split; [by destruct e|]. intros x _. apply IH; [done|]. intros a known' Hsub. apply HQ.
    etransitivity; [apply (learn_subset e x)|exact Hsub].
  - done.
Qed.

(** Deferred programs that write no secret of the registry. *)
Lemma obeys_defer {A} d (p : prog A) (Q : A -> knowledge -> Prop) known :
  effects no_registry_writes d ->
  obeys owns p (fun a known' => forall known'', known' ⊆ known'' -> Q a known'') known -> obeys owns (defer d p) Q known.
Proof.
  intros Hd. revert known. induction p as [A a|A h|A X e k IH|A t _ p IH]; intros known; cbn [obeys defer].
  - intros HQ. by apply obeys_bind, obeys_quiet.
  - intros _. by apply obeys_bind, obeys_quiet.
  - intros [Hg Hk]. split; [done|]. intros x Hx. by apply IH, Hk.
  - intros [Ht Hp]. split; [done|]. by apply IH.
Qed.

(** An entry whose secret is one of the known ones, up to changes of its data
    that have not been written; [d] is the data that was.  The program wrote
    that data itself when [mine]. *)
Definition draft (mine : bool) (known : knowledge) (e : Entry) (d : data) : Prop :=
  entry_exists e = true /\ entry_name (secret_Name (entry_secret e)) /\ owns (secret_Name (entry_secret e)) /\
  well_formed d /\
  exists s0, (s0, mine) ∈ known /\ secret_key s0 = secret_key (entry_secret e) /\
    secret_ResourceVersion s0 = secret_ResourceVersion (entry_secret e) /\ data_of s0 = d.

Lemma draft_known m known known' e d : known ⊆ known' -> draft m known e d -> draft m known' e d.
Proof. intros Hk (Hex & Hn & Ho & Hwf & s0 & Hs0 & Hs). do 4 (split; [done|]). exists s0. split; [by apply Hk|done]. Qed.

Lemma draft_edit m known e e' d :
  entry_exists e' = entry_exists e -> secret_key (entry_secret e') = secret_key (entry_secret e) ->
  secret_ResourceVersion (entry_secret e') = secret_ResourceVersion (entry_secret e) ->
  draft m known e d -> draft m known e' d.
Proof.
  intros Hex Hk Hv (He & Hn & Ho & Hwf & s0 & Hs0 & Hk0 & Hv0 & Hd). injection Hk as Hns Hnm.
  split; [congruence|]. rewrite Hnm. do 3 (split; [done|]). exists s0. split; [done|].
  split; [|by rewrite Hv]. rewrite Hk0. unfold secret_key. congruence.
Qed.

(** [New] of an existing entry is a draft; of a missing one it is empty. *)
Lemma obeys_New t ns n ro Q known :
  t ∈ [ServiceInstance; ServiceBinding] -> (ro = false -> owns (Name t n)) ->
  (forall r known', known ⊆ known' ->
     match r with
     | Ok e =>
         entry_readOnly e = ro /\ secret_Name (entry_secret e) = Name t n /\
         (if entry_exists e then well_formed (entry_data e) /\ (ro = false -> draft false known' e (entry_data e))
          else entry_data e = ∅)
     | Err _ => True
     end -> Q r known') ->
  obeys owns (Entry.New t ns n ro) Q known.
Proof.
  intros Ht Hown HQ. unfold Entry.New. apply obeys_bind, obeys_call; [done|]. intros [s|err] Hr; cbn [rely learn] in *.
  - apply HQ; [set_solver|]. destruct Hr as [[= Hns Hnm] [Hwf _]]. assert (entry_name (Name t n)) as Hen by (by exists t, n).
    split; [done|]. split; [done|]. cbn. specialize (Hwf Hen). split; [done|]. intros Hro.
    split; [done|]. cbn. rewrite Hnm. do 3 (split; [by auto|]). exists s. split; [left|done].
  - destruct (IsNotFound err); apply HQ; done.
Qed.

Lemma draft_guarantee m known e d :
  draft m known e d -> entry_step (secret_Name (entry_secret e)) d (entry_data e) ->
  (locked (secret_Name (entry_secret e)) d -> m = true) -> guarantee owns known (SecretsUpdate (entry_secret e)).
Proof.
  intros (Hex & Hn & Ho & Hwf & s0 & Hs0 & Hk & Hv & Hd) Hstep Hm. exists s0, m. do 3 (split; [done|]).
  rewrite Hd. split; [by apply change_entry|done].
Qed.

(** Committing one step of a draft. *)
Lemma obeys_Commit m e d (Q : result Entry -> knowledge -> Prop) known :
  draft m known e d -> entry_step (secret_Name (entry_secret e)) d (entry_data e) ->
  (locked (secret_Name (entry_secret e)) d -> m = true) ->
  (forall r known', known ⊆ known' ->
     match r with
     | Ok e' => entry_data e' = entry_data e /\ draft true known' e' (entry_data e) /\
                entry_readOnly e' = entry_readOnly e
     | Err _ => True
     end -> Q r known') ->
  obeys owns (Entry.Commit e) Q known.
Proof.
  intros Hd Hs Hm HQ. unfold Entry.Commit. pose proof Hd as (Hex & Hn & Ho & Hwf & _). rewrite Hex.
  destruct (entry_readOnly e) eqn:Hro; [by apply HQ|]. apply obeys_try, obeys_call; [by eapply draft_guarantee|].
  intros [s|err] Hr; cbn [rely learn obeys] in *; [|by apply HQ]. apply HQ; [set_solver|].
  pose proof (same_payload_key _ _ Hr) as Hk. pose proof (same_payload_data _ _ Hr) as Hdata.
  split; [by unfold entry_data; cbn|]. split; [|done]. split; [done|]. injection Hk as Hns Hnm. cbn. rewrite <- Hnm.
  do 2 (split; [done|]). split; [by eapply entry_step_well_formed|]. exists s. split; [left|done].
Qed.

(** Committing a new entry. *)
Lemma obeys_Commit_new e (Q : result Entry -> knowledge -> Prop) known :
  entry_exists e = false -> entry_name (secret_Name (entry_secret e)) -> owns (secret_Name (entry_secret e)) ->
  well_formed (entry_data e) ->
  (forall i, secret_Name (entry_secret e) = Name ServiceInstance i -> records (entry_data e) Idle) ->
  (forall r known', known ⊆ known' ->
     match r with
     | Ok e' => entry_data e' = entry_data e /\ draft true known' e' (entry_data e) /\
                entry_readOnly e' = entry_readOnly e
     | Err _ => True
     end -> Q r known') ->
  obeys owns (Entry.Commit e) Q known.
Proof.
  intros Hex Hn Ho Hwf Hi HQ. unfold Entry.Commit. rewrite Hex.
  destruct (entry_readOnly e) eqn:Hro; [by apply HQ|]. apply obeys_try, obeys_call; [by apply change_create|].
  intros [s|err] Hr; cbn [rely learn obeys] in *; [|by apply HQ]. apply HQ; [set_solver|].
  pose proof (same_payload_key _ _ Hr) as Hk. pose proof (same_payload_data _ _ Hr) as Hdata.
  split; [by unfold entry_data; cbn|]. split; [|done]. split; [done|]. injection Hk as Hns Hnm. cbn. rewrite <- Hnm.
  do 3 (split; [done|]). exists s. split; [left|done].
Qed.

Lemma obeys_Delete e (Q : option error -> knowledge -> Prop) known :
  owns (secret_Name (entry_secret e)) -> entry_name (secret_Name (entry_secret e)) ->
  (forall i, secret_Name (entry_secret e) = Name ServiceInstance i ->
     exists d id, draft true known e d /\ records d (Running TypeDeprovision id)) ->
  (forall r, Q r known) -> obeys owns (Entry.Delete e) Q known.
Proof.
  intros Ho Hn Hi HQ. unfold Entry.Delete. destruct (entry_readOnly e); [by apply HQ|].
  destruct (negb (entry_exists e)); [by apply HQ|]. apply obeys_call; [|intros r _; apply HQ].
  split; [done|]. split; [done|]. intros i Hname. destruct (Hi i Hname) as (d & id & (_ & _ & _ & _ & s0 & Hs0 & Hk & _ & <-) & Hr).
  by exists s0, id.
Qed.

(** ** Operations *)

(** What may have happened to an entry between its read and the start of an
    operation: templates have set their keys, an update its parameters. *)
Definition prepared_from (d : data) (e : Entry) (t : string) : Prop :=
  (forall k, k ∈ [Operation; OperationID; OperationStatus] -> entry_data e !! k = d !! k) /\
  (forall k, k ∈ identity_keys -> entry_data e !! k = d !! k) /\
  (entry_data e !! Parameters_ = d !! Parameters_ \/ (t = TypeUpdate /\ has_type RawExtension (entry_data e) Parameters_)).

Lemma prepared_from_self e t : prepared_from (entry_data e) e t.
Proof. split; [done|]. split; [done|by left]. Qed.

Lemma started_step d e t id :
  t ∈ op_types -> records d Idle -> prepared_from d e t ->
  forall n, records (entry_data (started e t id)) (Running t id) /\ entry_step n d (entry_data (started e t id)).
Proof.
  intros Ht Hi (Hop & Hid & Hpar) n. assert (records (entry_data (started e t id)) (Running t id)) as Hr.
  { unfold started. rewrite !entry_data_put. inversion Hi as [H1 H2 H3| |].
    constructor; simplify_map_eq; try done. rewrite Hop by set_solver. done. }
  split; [done|]. eapply entry_start; [done|done| |].
  - intros k Hk. rewrite <- Hid by done. unfold started. rewrite !entry_data_put.
    rewrite !lookup_insert_ne; [done|..]; intros <-; revert Hk; unfold identity_keys; set_solver.
  - unfold started. rewrite !entry_data_put. rewrite !lookup_insert_ne by done.
    destruct Hpar as [Hpar|[-> Hpar]]; [by left|right]. split; [done|]. eapply has_type_lookup; [|done].
    by rewrite !lookup_insert_ne by done.
Qed.

(** A well-formed entry without an operation is idle. *)
Lemma idle_records d : well_formed d -> d !! Operation = None -> records d Idle.
Proof. intros [_ _ _ _ _ _ [st Hst]] Hn. inversion Hst; subst; [by constructor|congruence..]. Qed.

(** One with a status is finished. *)
Lemma finished_records d t :
  well_formed d -> d !! OperationStatus = Some t -> exists t id status, records d (Finished t id status).
Proof. intros [_ _ _ _ _ _ [st Hst]] Hn. inversion Hst; subst; [congruence..|eauto]. Qed.

Lemma obeys_Start m e d t (Q : result Entry -> knowledge -> Prop) known :
  t ∈ op_types -> draft m known e d -> prepared_from d e t ->
  (forall r known', known ⊆ known' ->
     match r with
     | Ok e' => draft true known' e' (entry_data e') /\ exists id, records (entry_data e') (Running t id)
     | Err _ => True
     end -> Q r known') ->
  obeys owns (Start e t) Q known.
Proof.
  intros Ht Hd Hp HQ. unfold Start. destruct (Entry.GetString e Operation) as [[op|]|err] eqn:Hop; try by apply HQ.
  apply GetString_Ok_None in Hop. apply obeys_bind, obeys_call; [done|]. intros id _. cbn [learn]. rewrite !Set_string.
  change (put (put e Operation (quote t)) OperationID (quote id)) with (started e t id).
  assert (records d Idle) as Hi.
  { pose proof Hd as (_ & _ & _ & Hwf & _). apply idle_records; [done|]. destruct Hp as [Hp _]. rewrite <- Hp by set_solver. done. }
  destruct (started_step d e t id Ht Hi Hp (secret_Name (entry_secret e))) as [Hr Hs].
  eapply obeys_Commit; [by eapply (draft_edit m known e)|done| |].
  { intros [_ (t' & id' & Hrun)]. inversion Hi; inversion Hrun; congruence. }
  intros [e'|err] known' Hk Hc; apply HQ; try done.
  destruct Hc as (Hdata & Hdr & _). rewrite <- Hdata in Hdr. split; [done|]. exists id. by rewrite Hdata.
Qed.

(** An entry of an operation that has been started, and what is stored of it:
    the two may differ in the status, after a completion that failed. *)
Definition busy (known : knowledge) (e : Entry) (t id : string) (st : op_state) : Prop :=
  exists d m, draft m known e d /\ records d st /\ (st = Running t id \/ exists status, st = Finished t id status) /\
    forall k, k <> OperationStatus -> entry_data e !! k = d !! k.

Lemma busy_known known known' e t id st : known ⊆ known' -> busy known e t id st -> busy known' e t id st.
Proof. intros Hk (d & m & Hd & Hr). exists d, m. split; [by eapply draft_known|done]. Qed.

Lemma busy_draft m known e t id : draft m known e (entry_data e) -> records (entry_data e) (Running t id) -> busy known e t id (Running t id).
Proof. intros Hd Hr. exists (entry_data e), m. do 2 (split; [done|]). split; [by left|done]. Qed.

Lemma obeys_Complete e t id status (Q : Entry * option error -> knowledge -> Prop) known :
  draft true known e (entry_data e) -> records (entry_data e) (Running t id) ->
  (forall r known' st, known ⊆ known' -> busy known' r.1 t id st -> Q r known') ->
  obeys owns (Complete e status) Q known.
Proof.
  intros Hd Hr HQ. pose proof (busy_draft _ _ _ _ _ Hd Hr) as Hb. unfold Complete.
  destruct (Entry.GetString e Operation) as [[op|]|err]; try (by eapply HQ).
  cbv zeta. rewrite Set_string. set (text := match status with Some err => Error err | None => "" end).
  apply obeys_bind. eapply obeys_Commit.
  - by eapply (draft_edit true known e).
  - rewrite entry_data_put. by eapply entry_complete.
  - done.
  - intros [e'|err] known' Hk Hc.
    + apply (HQ _ _ (Finished t id text)); [done|]. destruct Hc as (Hdata & Hdr & _). cbn [fst].
      exists (entry_data (put e OperationStatus (quote text))), true. split; [done|]. split.
      { rewrite entry_data_put. inversion Hr; subst. constructor; by simplify_map_eq. }
      split; [by right; eexists|]. intros k _. by rewrite Hdata.
    + apply (HQ _ _ (Running t id)); [done|]. cbn [fst]. exists (entry_data e), true. split.
      { eapply (draft_edit true known' e); [done..|]. by eapply draft_known. }
      split; [done|]. split; [by left|]. intros k Hne. by rewrite entry_data_put, lookup_insert_ne.
Qed.

Lemma obeys_End e t id st (Q : result Entry -> knowledge -> Prop) known :
  busy known e t id st ->
  (forall i, secret_Name (entry_secret e) <> Name ServiceInstance i) \/ (exists status, st = Finished t id status) ->
  (forall r known', known ⊆ known' -> Q r known') ->
  obeys owns (End_ e) Q known.
Proof.
  intros (d & m & Hd & Hr & Hst & Hk) Hn HQ. unfold End_. destruct (Entry.GetString e Operation) as [[op|]|err]; try by apply HQ.
  cbv zeta. change (obeys owns (Entry.Commit (ended e)) Q known).
  assert (entry_data (ended e) = without_operation d) as He.
  { rewrite ended_data. unfold without_operation. apply map_eq. intros k.
    destruct (decide (k = OperationStatus)) as [->|Hne]; [by rewrite !lookup_delete_eq|].
    rewrite !(lookup_delete_ne _ OperationStatus) by congruence. rewrite !lookup_delete. repeat case_decide; [done..|by apply Hk]. }
  eapply obeys_Commit; [by eapply (draft_edit m known e)| | |].
  - rewrite He. destruct Hst as [->|[status ->]]; [|by eapply entry_end]. eapply entry_abandon; [|done].
    destruct Hn as [Hn|[status Hn]]; [exact Hn|done].
  - intros [[i Hi] (t' & id' & Hrun)]. destruct Hn as [Hn|[status ->]]; [by destruct (Hn i)|].
    inversion Hr; inversion Hrun; congruence.
  - intros r known' Hk' _. by apply HQ.
Qed.
End Rules.

(** ** Systems of programs that keep to the protocol *)

(** What has been stored under each version. *)
Abbreviation history := (gmap ((string * string) * string) data).

Definition in_history (h : history) (sec : Secret) : Prop :=
  h !! (secret_key sec, secret_ResourceVersion sec) = Some (data_of sec) /\ secret_ResourceVersion sec <> "".

(** What a program knows is of the history. *)
Abbreviation remembered h :=
  (Forall (fun sm : Secret * bool => templated (secret_key sm.1) = false -> in_history h sm.1)).

Section System.
Context `{Vendor} {W : Type} `{PlatformLaws W} (owns : string -> Prop).

Implicit Types s : sys W.

Record store_ok (h : history) (w : W) : Prop := {
  ok_stored k sec : templated k = false -> stored w !! k = Some sec -> in_history h sec /\ well_formed_data k.2 (data_of sec);
  ok_issued k v d : h !! (k, v) = Some d -> issued w k v;
}.

Definition stored_data (w : W) (k : string * string) : option data := data_of <$> stored w !! k.

(** The effect of one call on the store. *)
Definition changes (w w' : W) : Prop :=
  forall k, templated k = false ->
    stored_data w' k = stored_data w k \/ change owns k.2 (stored_data w k) (stored_data w' k).

Lemma changes_same w w' : owned w' = owned w -> changes w w'.
Proof. intros Hs k Hk. left. unfold stored_data. by rewrite (owned_key _ _ _ Hk Hs). Qed.

(** The protocol speaks of no secret that templates reach. *)
Lemma entry_name_untemplated ns n : entry_name n -> templated (ns, n) = false.
Proof. intros (t & id & _ & ->). done. Qed.

Lemma change_untemplated ns n o o' : change owns n o o' -> templated (ns, n) = false.
Proof.
  intros [d _ Hn _ _|d d' _ Hn _|d _ Hn|id d -> _ _|id d d' -> _ _]; first [by apply entry_name_untemplated|done].
Qed.

Lemma change_key_untemplated sec o o' : change owns (secret_Name sec) o o' -> templated (secret_key sec) = false.
Proof. apply change_untemplated. Qed.

Lemma locked_untemplated k d : locked k.2 d -> templated k = false.
Proof. destruct k as [ns n]. cbn. by intros [[i ->] _]. Qed.

Lemma in_history_weaken h h' known : h ⊆ h' -> remembered h known -> remembered h' known.
Proof.
  intros Hh Hk. eapply Forall_impl; [exact Hk|]. intros [sec m] Hin Hun. destruct (Hin Hun) as [Hl Hv].
  split; [by eapply lookup_weaken|done].
Qed.

Lemma store_ok_frame h w w' :
  owned w' = owned w -> (forall k v, issued w k v -> issued w' k v) -> store_ok h w -> store_ok h w'.
Proof.
  intros Hs Hi [Hst His]. split; [|eauto]. intros k sec Hk. rewrite (owned_key _ _ _ Hk Hs). by apply Hst.
Qed.

Lemma ok_well_formed h w k sec :
  store_ok h w -> stored w !! k = Some sec -> well_formed_data k.2 (data_of sec).
Proof.
  intros Hok Hs. destruct k as [ns n]. split; cbn.
  - intros Hn. by apply (ok_stored _ _ Hok _ _ (entry_name_untemplated ns n Hn) Hs).
  - intros ->. by apply (ok_stored _ _ Hok _ _ (directory_untemplated ns) Hs).
Qed.

(** A write that succeeded: the secret is stored under a version that is new,
    or that already named this data. *)
Lemma store_ok_write h w w' sec :
  store_ok h w -> (forall k v, issued w k v -> issued w' k v) ->
  stored w' = <[secret_key sec := sec]> (stored w) -> well_formed_data (secret_Name sec) (data_of sec) ->
  secret_ResourceVersion sec <> "" -> issued w' (secret_key sec) (secret_ResourceVersion sec) ->
  (forall d, h !! (secret_key sec, secret_ResourceVersion sec) = Some d -> d = data_of sec) ->
  exists h', h ⊆ h' /\ store_ok h' w' /\ in_history h' sec.
Proof.
  intros [Hst His] Hmono Hs Hwf Hv Hiss Hsame. set (kv := (secret_key sec, secret_ResourceVersion sec)).
  exists (<[kv := data_of sec]> h). assert (h ⊆ <[kv := data_of sec]> h) as Hsub.
  { apply map_subseteq_spec. intros i d Hd. destruct (decide (i = kv)) as [->|Hne].
    - by rewrite lookup_insert_eq, <- (Hsame d Hd).
    - by rewrite lookup_insert_ne. }
  split; [done|]. assert (in_history (<[kv := data_of sec]> h) sec) as Hin by (split; [by rewrite lookup_insert_eq|done]).
  split; [|done]. split.
  - intros k sec' Hun Hl. rewrite Hs in Hl. destruct (decide (k = secret_key sec)) as [->|Hne].
    + rewrite lookup_insert_eq in Hl. injection Hl as <-. done.
    + rewrite lookup_insert_ne in Hl by done. destruct (Hst k sec' Hun Hl) as [[Hh Hv'] Hw]. split; [|done].
      split; [by eapply lookup_weaken|done].
  - intros k v d Hl. destruct (decide ((k, v) = kv)) as [[= -> ->]|Hne]; [done|].
    rewrite lookup_insert_ne in Hl by done. eauto.
Qed.

Lemma changes_write w w' sec sec' :
  stored w' = <[secret_key sec := sec']> (stored w) -> data_of sec = data_of sec' ->
  change owns (secret_Name sec) (stored_data w (secret_key sec)) (Some (data_of sec)) -> changes w w'.
Proof.
  intros Hs Hd Hc k _. unfold stored_data in *. rewrite Hs. destruct (decide (k = secret_key sec)) as [->|Hne].
  - right. rewrite lookup_insert_eq. cbn. by rewrite <- Hd.
  - left. by rewrite lookup_insert_ne.
Qed.

Lemma create_protocol h w sec sec' :
  store_ok h w -> guarantee owns [] (SecretsCreate sec) -> (perform (SecretsCreate sec) w).1 = Ok sec' ->
  let w' := (perform (SecretsCreate sec) w).2 in
  changes w w' /\ same_payload sec sec' /\ exists h', h ⊆ h' /\ store_ok h' w' /\ in_history h' sec'.
Proof.
  intros Hok Hg He w'. destruct (create_ok _ _ _ He) as (Hnone & Hs & Hp). destruct (create_version _ _ _ He) as (Hv & Hni & Hi).
  pose proof (same_payload_key _ _ Hp) as Hk. pose proof (same_payload_data _ _ Hp) as Hd. cbn [guarantee] in Hg.
  assert (stored_data w (secret_key sec) = None) as Hn by (unfold stored_data; by rewrite Hnone).
  split; [|split; [done|]].
  { eapply changes_write; [exact Hs|done|]. by rewrite Hn. }
  apply store_ok_write with (w := w); [done|by intros; apply issued_frame|by rewrite <- Hk| |done|by rewrite <- Hk|].
  - rewrite <- Hd. assert (secret_Name sec' = secret_Name sec) as -> by (by injection Hk).
    by eapply change_well_formed with (o := None).
  - intros d Hl. rewrite <- Hk in Hl. by apply (ok_issued _ _ Hok) in Hl.
Qed.

(** An update that the API server accepts is one of what is stored. *)
Lemma update_current h w known sec sec' :
  store_ok h w -> remembered h known -> guarantee owns known (SecretsUpdate sec) ->
  (perform (SecretsUpdate sec) w).1 = Ok sec' ->
  exists old read mine, stored w !! secret_key sec = Some old /\ (read, mine) ∈ known /\ secret_key read = secret_key sec /\
    change owns (secret_Name sec) (Some (data_of old)) (Some (data_of sec)) /\
    (locked (secret_Name sec) (data_of old) -> mine = true).
Proof.
  intros Hok Hkn (s0 & m & Hs0 & Hk0 & Hv0 & Hc & Hm) He. destruct (update_ok _ _ _ He) as (old & Hold & Hver & _).
  pose proof (change_key_untemplated _ _ _ Hc) as Hun.
  rewrite Forall_forall in Hkn. destruct (Hkn (s0, m) Hs0) as [Hh0 Hne0]; [by cbn [fst]; rewrite Hk0|]. cbn [fst] in Hh0, Hne0.
  destruct (ok_stored _ _ Hok _ _ Hun Hold) as [[Hho _] _]. pose proof (stored_key _ _ _ Hold) as Hko.
  assert (data_of s0 = data_of old) as Hd0.
  { destruct Hver as [Hver|Hver]; [|congruence]. rewrite Hko, <- Hver, <- Hv0, <- Hk0 in Hho. congruence. }
  exists old, s0, m. rewrite <- Hd0. auto.
Qed.

Lemma update_protocol h w known sec sec' :
  store_ok h w -> remembered h known -> guarantee owns known (SecretsUpdate sec) ->
  (perform (SecretsUpdate sec) w).1 = Ok sec' ->
  let w' := (perform (SecretsUpdate sec) w).2 in
  changes w w' /\ same_payload sec sec' /\ exists h', h ⊆ h' /\ store_ok h' w' /\ in_history h' sec'.
Proof.
  intros Hok Hkn Hg He w'. destruct (update_current _ _ _ _ _ Hok Hkn Hg He) as (old & _ & _ & Hold & _ & _ & Hc & _).
  destruct (update_ok _ _ _ He) as (old' & Hold' & _ & Hs & Hp & _ & Hv & Hsame).
  rewrite Hold in Hold'. injection Hold' as <-. destruct (update_version _ _ _ He) as (Hi & Hnew).
  pose proof (same_payload_key _ _ Hp) as Hk. pose proof (same_payload_data _ _ Hp) as Hd.
  pose proof (change_key_untemplated _ _ _ Hc) as Hun.
  destruct (ok_stored _ _ Hok _ _ Hun Hold) as [[Hho _] Hwf]. pose proof (stored_key _ _ _ Hold) as Hko.
  assert (stored_data w (secret_key sec) = Some (data_of old)) as Hso by (unfold stored_data; by rewrite Hold).
  split; [|split; [done|]].
  { eapply changes_write; [exact Hs|done|]. by rewrite Hso. }
  apply store_ok_write with (w := w); [done|by intros; apply issued_frame|by rewrite <- Hk| |done|by rewrite <- Hk|].
  - rewrite <- Hd. assert (secret_Name sec' = secret_Name sec) as -> by (by injection Hk).
    by eapply change_well_formed with (o := Some (data_of old)).
  - intros d Hl. rewrite <- Hk in Hl. pose proof (ok_issued _ _ Hok _ _ _ Hl) as Hiss. apply Hnew in Hiss.
    rewrite Hold in Hiss. injection Hiss as Hvo. rewrite Hko, Hvo in Hho. rewrite Hho in Hl. injection Hl as <-.
    apply same_payload_data. by apply Hsame.
Qed.

(** One call of a program that keeps to the protocol. *)
Lemma perform_protocol {X} (e : event X) h w known :
  store_ok h w -> remembered h known -> guarantee owns known e ->
  let x := (perform e w).1 in let w' := (perform e w).2 in
  changes w w' /\ rely e x /\
  exists h', h ⊆ h' /\ store_ok h' w' /\ remembered h' (learn e x known).
Proof.
  intros Hok Hkn Hg x w'.
  assert (forall h', h ⊆ h' -> store_ok h' w' -> learn e x known = known ->
            exists h', h ⊆ h' /\ store_ok h' w' /\ remembered h' (learn e x known)) as Hsame.
  { intros h' Hh Hw Hl. exists h'. split; [done|]. split; [done|]. rewrite Hl. by eapply in_history_weaken. }
  assert (owned w' = owned w -> store_ok h w') as Hframe
    by (intros Hs; eapply store_ok_frame; [exact Hs|by intros; apply issued_frame|done]).
  destruct (mutates_secrets e) eqn:Hm.
  - destruct e; try done; cbn [guarantee rely learn] in *.
    + destruct x as [sec'|err] eqn:Hx.
      * destruct (create_protocol h w s sec' Hok Hg Hx) as (Hc & Hp & h' & Hh & Hw & Hin).
        split; [done|]. split; [done|]. exists h'. split; [done|]. split; [done|]. constructor; [by intros _|by eapply in_history_weaken].
      * pose proof (owned_stored _ _ (create_err _ _ _ Hx)) as Hs. split; [by apply changes_same|]. split; [done|]. by apply (Hsame h); [|apply Hframe|].
    + destruct x as [sec'|err] eqn:Hx.
      * destruct (update_protocol h w known s sec' Hok Hkn Hg Hx) as (Hc & Hp & h' & Hh & Hw & Hin).
        split; [done|]. split; [done|]. exists h'. split; [done|]. split; [done|]. constructor; [by intros _|by eapply in_history_weaken].
      * pose proof (owned_stored _ _ (update_err _ _ _ Hx)) as Hs. split; [by apply changes_same|]. split; [done|]. by apply (Hsame h); [|apply Hframe|].
    + destruct x as [err|] eqn:Hx.
      * pose proof (owned_stored _ _ (delete_err _ _ _ _ Hx)) as Hs. split; [by apply changes_same|]. split; [done|]. by apply (Hsame h); [|apply Hframe|].
      * pose proof (delete_ok _ _ _ Hx) as Hs. fold w' in Hs. destruct Hg as (Ho & Hn & _). split; [|split; [done|]].
        { intros k _. unfold stored_data. rewrite Hs. destruct (decide (k = (namespace, name))) as [->|Hne].
          - rewrite lookup_delete_eq. destruct (stored w !! (namespace, name)); cbn; [right|by left].
            by apply change_delete.
          - left. by rewrite lookup_delete_ne. }
        apply (Hsame h); [done| |done]. split.
        { intros k sec Hun Hl. rewrite Hs in Hl. apply lookup_delete_Some in Hl as [_ Hl]. by apply (ok_stored _ _ Hok). }
        { intros k v d Hl. apply issued_frame. by eapply ok_issued. }
  - pose proof (owned_frame _ e w Hm) as Hs. split; [by apply changes_same|]. specialize (Hframe Hs).
    destruct e; try done; cbn [rely learn] in *; try (split; [done|by apply (Hsame h)]).
    destruct x as [sec|err] eqn:Hx; [|split; [done|by apply (Hsame h)]].
    apply get_ok in Hx. pose proof (stored_key _ _ _ Hx) as Hkx. split.
    { split; [done|]. by eapply (ok_well_formed h w (_, _)). }
    exists h. split; [done|]. split; [done|]. constructor; [|done]. cbn [fst]. rewrite Hkx. intros Hun.
    by apply (ok_stored _ _ Hok _ _ Hun).
Qed.

(** ** The invariant of a system *)

Definition keeps_protocol (s : sys W) : Prop :=
  exists h, store_ok h (world s) /\
    Forall (fun p => exists known, remembered h known /\ obeys owns p (fun _ _ => True) known) (spawned s).

(** A state of the store that may be the first: it is well formed, and its
    versions are issued. *)
Record initial_store (w : W) : Prop := {
  initial_well_formed k sec : templated k = false -> stored w !! k = Some sec -> well_formed_data k.2 (data_of sec);
  initial_version k sec : templated k = false -> stored w !! k = Some sec ->
    secret_ResourceVersion sec <> "" /\ issued w k (secret_ResourceVersion sec);
}.

(** The history that begins with what is stored. *)
Definition first_history (w : W) : history :=
  list_to_map ((fun kv => ((kv.1, secret_ResourceVersion kv.2), data_of kv.2)) <$> map_to_list (owned w)).

Lemma first_history_lookup w k v d :
  first_history w !! (k, v) = Some d <->
  exists sec, owned w !! k = Some sec /\ v = secret_ResourceVersion sec /\ d = data_of sec.
Proof.
  unfold first_history. rewrite <- elem_of_list_to_map; [rewrite list_elem_of_fmap|].
  - split.
    + intros ([k' sec] & [= -> -> ->] & Hin). apply elem_of_map_to_list in Hin. eauto.
    + intros (sec & Hs & -> & ->). exists (k, sec). split; [done|]. by apply elem_of_map_to_list.
  - rewrite <- list_fmap_compose. apply NoDup_fmap_2_strong; [|apply NoDup_map_to_list].
    intros [k1 s1] [k2 s2] H1'%elem_of_map_to_list H2'%elem_of_map_to_list. cbn. intros [= -> _]. congruence.
Qed.

Lemma initial_in_history w k sec :
  initial_store w -> templated k = false -> stored w !! k = Some sec -> in_history (first_history w) sec.
Proof.
  intros [_ Hv] Hk Hs. split; [|by eapply Hv]. apply first_history_lookup. exists sec.
  rewrite (stored_key _ _ _ Hs). by rewrite owned_lookup.
Qed.

Lemma initial_history w : initial_store w -> store_ok (first_history w) w.
Proof.
  intros Hi. pose proof Hi as [Hwf Hv]. split.
  - intros k sec Hk Hs. split; [by eapply initial_in_history|by apply Hwf].
  - intros k v d Hd. apply first_history_lookup in Hd as (sec & Hs & -> & _).
    destruct (templated k) eqn:Hk; [by rewrite owned_templated in Hs|]. rewrite owned_lookup in Hs by done. by eapply Hv.
Qed.

Lemma initial_protocol s :
  initial_store (world s) -> Forall (fun p => obeys owns p (fun _ _ => True) []) (spawned s) -> keeps_protocol s.
Proof.
  intros Hi Hp. exists (first_history (world s)). split; [by apply initial_history|].
  eapply Forall_impl; [exact Hp|]. intros p Ho. by exists [].
Qed.

(** A state that a broker has reached may be the first of another. *)
Lemma keeps_protocol_initial s : keeps_protocol s -> initial_store (world s).
Proof.
  intros (h & Hok & _). split; intros k sec Hk Hs; destruct (ok_stored _ _ Hok _ _ Hk Hs) as [[Hh Hv] Hwf]; [done|].
  split; [done|]. rewrite <- (stored_key _ _ _ Hs) at 1. by eapply ok_issued.
Qed.

Lemma keeps_protocol_well_formed s k sec :
  keeps_protocol s -> stored (world s) !! k = Some sec -> well_formed_data k.2 (data_of sec).
Proof. intros (h & Hok & _) Hs. by eapply ok_well_formed. Qed.

(** What a goroutine knows after its next step. *)
Definition knows_next {A} (p : prog A) (w : W) (known : knowledge) : knowledge :=
  match p with
  | Vis e k => learn e (perform e w).1 known
  | Go _ _ => disown known
  | Ret _ | Halt _ => known
  end.

(** One step of a goroutine that keeps to the protocol. *)
Lemma advance_protocol p w p' w' started h known :
  advance p w = Some (p', w', started) -> store_ok h w -> remembered h known ->
  obeys owns p (fun _ _ => True) known ->
  changes w w' /\ obeys owns p' (fun _ _ => True) (knows_next p w known) /\
  Forall (fun t => obeys owns t (fun _ _ => True) known) started /\
  exists h', h ⊆ h' /\ store_ok h' w' /\ remembered h' (knows_next p w known).
Proof.
  intros Ha Hok Hkn Hp. destruct p as [| |X e k|t k]; cbn [advance obeys knows_next] in *; try done.
  - destruct Hp as [Hg Hk]. destruct (perform_protocol e h w known Hok Hkn Hg) as (Hc & Hr & Hh).
    destruct (perform e w) as [x w1]. injection Ha as <- <- <-. cbn in *. auto.
  - injection Ha as <- <- <-. destruct Hp as [Ht Hk]. split; [by apply changes_same|]. split; [done|].
    split; [by constructor|]. exists h. split; [done|]. split; [done|]. by apply Forall_fmap.
Qed.

(** Nothing that the program knows is a write of its own to this secret. *)
Definition unowned (k : string * string) (known : knowledge) : Prop :=
  forall sec, (sec, true) ∈ known -> secret_key sec <> k.

Lemma unowned_cons k known sec m :
  (m = true -> secret_key sec <> k) -> unowned k known -> unowned k ((sec, m) :: known).
Proof. intros Hm Hu sec' [[= -> <-]|Hin]%elem_of_cons; auto. Qed.

(** A write to a secret that a program does not own leaves a locked one alone. *)
Lemma perform_locked {X} (e : event X) h w known k sec :
  store_ok h w -> remembered h known -> guarantee owns known e ->
  stored w !! k = Some sec -> locked k.2 (data_of sec) -> unowned k known ->
  stored (perform e w).2 !! k = Some sec /\ unowned k (learn e (perform e w).1 known).
Proof.
  intros Hok Hkn Hg Hs Hl Hu. destruct (mutates_secrets e) eqn:Hm.
  2:{ rewrite (owned_key w _ k (locked_untemplated _ _ Hl) (owned_frame _ e w Hm)). split; [done|]. destruct e; try done. cbn [learn].
      destruct (perform _ w).1; [|done]. by apply unowned_cons. }
  destruct e as [|s|s|ns n| | | | | | | | | | | | | | | | | | |]; try done; cbn [learn].
  - destruct (perform (SecretsCreate s) w).1 as [s'|err] eqn:Hx; [|by rewrite (create_err _ _ _ Hx)].
    apply create_ok in Hx as (Hn & -> & Hp). apply same_payload_key in Hp.
    assert (secret_key s <> k) as Hne by (intros <-; congruence). split; [by rewrite lookup_insert_ne|].
    apply unowned_cons; [by rewrite <- Hp|done].
  - destruct (perform (SecretsUpdate s) w).1 as [s'|err] eqn:Hx; [|by rewrite (update_err _ _ _ Hx)].
    destruct (update_current _ _ _ _ _ Hok Hkn Hg Hx) as (old & s0 & m & Hold & Hs0 & Hk0 & _ & Hlk).
    apply update_ok in Hx as (_ & _ & _ & -> & Hp & _). apply same_payload_key in Hp.
    assert (secret_key s <> k) as Hne.
    { intros <-. rewrite Hs in Hold. injection Hold as <-. rewrite (Hlk Hl) in Hs0. by apply (Hu s0). }
    split; [by rewrite lookup_insert_ne|]. apply unowned_cons; [by rewrite <- Hp|done].
  - destruct (perform (SecretsDelete ns n) w).1 as [err|] eqn:Hx; [by rewrite (delete_err _ _ _ _ Hx)|].
    rewrite (delete_ok _ _ _ Hx). split; [|done]. destruct Hg as (_ & _ & Hg).
    rewrite lookup_delete_ne; [done|]. intros <-. destruct Hl as [[i Hi] _].
    destruct (Hg i Hi) as (s0 & id & Hs0 & Hk0 & _). by apply (Hu s0).
Qed.

Lemma advance_locked p w p' w' started h known k sec :
  advance p w = Some (p', w', started) -> store_ok h w -> remembered h known ->
  obeys owns p (fun _ _ => True) known ->
  stored w !! k = Some sec -> locked k.2 (data_of sec) -> unowned k known ->
  stored w' !! k = Some sec /\ unowned k (knows_next p w known).
Proof.
  intros Ha Hok Hkn Hp Hs Hl Hu. destruct p as [| |X e q|t q]; cbn [advance obeys knows_next] in *; try done.
  - destruct Hp as [Hg _]. destruct (perform_locked e h w known k sec Hok Hkn Hg Hs Hl Hu) as [Hs' Hu'].
    destruct (perform e w) as [x w1]. by injection Ha as <- <- <-.
  - injection Ha as <- <- <-. split; [done|]. by intros s1 ([s2 m] & [= ] & _)%list_elem_of_fmap.
Qed.

Lemma protocol_step s s' : thread_step s s' -> keeps_protocol s -> keeps_protocol s' /\ changes (world s) (world s').
Proof.
  intros [s0 i p p' w' started Hi Ha] (h & Hok & Hth). cbn [world spawned].
  destruct (Forall_lookup_1 _ _ _ _ Hth Hi) as (known & Hkn & Hp).
  destruct (advance_protocol _ _ _ _ _ _ _ Ha Hok Hkn Hp) as (Hc & Hp' & Hst & h' & Hh & Hw & Hkn').
  split; [|done]. exists h'. split; [done|]. apply Forall_app. split.
  - apply Forall_insert; [|by exists (knows_next p (world s0) known)]. eapply Forall_impl; [exact Hth|].
    intros q (kn & Hq & Ho). exists kn. split; [by eapply in_history_weaken|done].
  - eapply Forall_impl; [exact Hst|]. intros q Hq. exists known. split; [by eapply in_history_weaken|done].
Qed.

(** Every interleaving. *)
Lemma protocol_steps s s' :
  rtc thread_step s s' -> keeps_protocol s ->
  keeps_protocol s' /\
  forall k, templated k = false -> rtc (change owns k.2) (stored_data (world s) k) (stored_data (world s') k).
Proof.
  induction 1 as [s|s1 s2 s3 H12 H23 IH]; intros Hs; [done|].
  destruct (protocol_step s1 s2 H12 Hs) as [Hs2 Hc]. destruct (IH Hs2) as [Hs3 Hk]. split; [done|].
  intros k Hun. destruct (Hc k Hun) as [Heq|Hch]; [rewrite <- Heq; by apply Hk|]. eapply rtc_l; [exact Hch|by apply Hk].
Qed.
End System.
