(* ===== verification/Handlers.v ===== *)
(** * Request handlers ([pkg/broker/handlers.go])

    One definition per handler of the Open Service Broker API, and the login.
    A handler that is long in the source is split where it branches on the
    existence of the instance or binding. *)

From S2P Require Import Prelude Json Errors Types Platform Vendor Api Http Registry Operation Config.
From S2P Require Import BrokerUtil Auth Template Provision.

Local Open Scope broker_scope.

(** [fmt.Errorf("%w: ...", ErrUnexpected)] *)
Definition unexpected (message : string) : error := wrappedError ErrUnexpected message.

(** [if id == "" { jsonError(...); return }] *)
Definition check_id (id name : string) : handler unit :=
  check (if id =?s "" then Some (unexpected ("request missing " +++ name +++ " parameter")) else None).

(** [x, ok, err := r; if err != nil {...return}; if !ok { jsonError(...) }]:
    the response does not end the handler, which goes on with the empty string. *)
Definition require_unchecked (r : result (option string)) (missing : error) : handler string :=
  o <~ try_ r ;;
  match o with
  | Some v => hret v
  | None => hwrite (fun w => jsonError w missing) ;;~ hret ""
  end.

(** [&runtime.RawExtension{}], overridden by the request. *)
Definition raw_or_empty (o : option RawExtension) : RawExtension := default (mkRaw None) o.

Definition handleReadyz : handler unit := hwrite (fun w => httpResponse w StatusOK).

Section Handlers.
Context `{Vendor} (bounds : Bounds) (configuration : ServerConfiguration).

Definition handleReadCatalog : handler unit :=
  config <~ hlift Config ;;
  respond StatusOK (ServiceCatalog_Marshal (ServiceCatalog_Convert (spec_Catalog (config_Spec config)))).

(** ** Authorization *)

Definition bought_services_query : string :=
  "SELECT service_id, plan_id FROM users, bought_services WHERE username = $1 AND users.id = bought_services.user_id".

(** The loop over the rows, each scanned into two strings. *)
Fixpoint scan_rows (rows : list (list string)) (serviceID planID : string) : option error :=
  match rows with
  | [] => Some (plainError "service id and plan id not bought by user")
  | [serviceIDRow; planIDRow] :: rows =>
      if (serviceIDRow =?s serviceID) && (planIDRow =?s planID) then None
      else scan_rows rows serviceID planID
  | _ :: _ => Some (plainError "sql: unexpected number of destination arguments in Scan, not 2")
  end.

Definition checkBoughtServices (username serviceID planID : string) : prog (option error) :=
  rows <- call (DbQuery bought_services_query [username]) ;;
  match rows with
  | Err err => Ret (Some err)
  | Ok rows => Ret (scan_rows rows serviceID planID)
  end.

Definition type_assertion {A} : prog A := Halt (Panic "interface conversion").

(** The claims are read before the error is looked at. *)
Definition authorize (r : Request) (serviceID planID : string) : prog (option error) :=
  match extractJwtToken r with
  | Err err => Ret (Some err)
  | Ok tokenString =>
      match server_AdvancedToken configuration with
      | None => nil_dereference
      | Some advanced =>
          now <- call TimeNow ;;
          match jwt_Parse now tokenString (JwtSecret advanced) with
          | (None, _) => nil_dereference
          | (Some token, err) =>
              match token_Claims token with
              | None => type_assertion
              | Some claims =>
                  match err with
                  | Some _ => Ret (Some (plainError "unable to parse claims"))
                  | None =>
                      match claims !! "username" with
                      | Some (VString username) => checkBoughtServices username serviceID planID
                      | _ => type_assertion
                      end
                  end
              end
          end
      end
  end.

(** ** Creation of a service instance *)

(** An attribute of the request is compared with that of the existing entry. *)
Definition same_id (entry : Entry) (key what requested : string) : handler unit :=
  existing <~ require (Entry.GetString entry key) (unexpected ("unable to lookup existing " +++ what +++ " ID")) ;;
  check (if existing =?s requested then None
         else Some (NewResourceConflictError
                      (what +++ " ID " +++ requested +++ " does not match existing value " +++ existing))).

Definition same_raw (entry : Entry) (key what verb : string) (requested : RawExtension) : handler unit :=
  existing <~ require (Entry.Get (T := RawExtension) entry key) (unexpected ("unable to lookup existing " +++ what)) ;;
  check (if bool_decide (requested = existing) then None
         else Some (NewResourceConflictError
                      ("request " +++ what +++ " " +++ RawExtension_String requested +++ " " +++ verb +++
                       " not match existing value " +++ RawExtension_String existing))).

(** What an existing instance or binding is compared on. *)
Definition same_attributes (entry : Entry) (serviceID planID : string)
    (context parameters : option RawExtension) : handler unit :=
  same_id entry ServiceID "service" serviceID ;;~
  same_id entry PlanID "plan" planID ;;~
  same_raw entry Context_ "context" "does" (raw_or_empty context) ;;~
  same_raw entry Parameters_ "parameters" "do" (raw_or_empty parameters).

(** The ID of a creation in progress, if any; another operation is a conflict. *)
Definition provision_in_progress (entry : Entry) : handler (option string) :=
  operationType <~ try_ (Entry.GetString entry Operation) ;;
  match operationType with
  | None => hret None
  | Some operationType =>
      if negb (operationType =?s TypeProvision)
      then fail (NewResourceConflictError ("existing " +++ operationType +++ " operation in progress"))
      else
        operationID <~ require (Entry.GetString entry OperationID) (unexpected "service instance missing operation ID") ;;
        hret (Some operationID)
  end.

Definition existing_instance (entry : Entry) (request : CreateServiceInstanceRequest) : handler unit :=
  same_attributes entry (ci_ServiceID request) (ci_PlanID request) (ci_Context request) (ci_Parameters request) ;;~
  inProgress <~ provision_in_progress entry ;;
  dashboardURL <~ try_ (Entry.GetString entry DashboardURL) ;;
  let status := match inProgress with Some _ => StatusAccepted | None => StatusOK end in
  respond status (CreateServiceInstanceResponse_Marshal
    (mkCreateInstanceResponse (default "" dashboardURL) (default "" inProgress))).

(** The keys of a new entry, in the order in which they are set. *)
Definition instance_keys (entry : Entry) (instanceID namespace : string)
    (request : CreateServiceInstanceRequest) : result Entry :=
  let? entry := Entry.Set_ entry Namespace namespace in
  let? entry := Entry.Set_ entry InstanceID instanceID in
  let? entry := Entry.Set_ entry ServiceID (ci_ServiceID request) in
  let? entry := Entry.Set_ entry PlanID (ci_PlanID request) in
  let? entry := Entry.Set_ entry Context_ (raw_or_empty (ci_Context request)) in
  Entry.Set_ entry Parameters_ (raw_or_empty (ci_Parameters request)).

Definition new_instance (entry : Entry) (instanceID : string) (request : CreateServiceInstanceRequest)
    : handler unit :=
  namespace <~ try_ (getNamespace (ci_Context request) (server_Namespace configuration)) ;;
  entry <~ try_ (instance_keys entry instanceID namespace request) ;;
  entry <~ tryp (Entry.Commit entry) ;;
  provisioner <~ try_ (NewCreator ResourceTypeServiceInstance) ;;
  ' (provisioner, entry) <~ tryp (Creator_Prepare bounds provisioner entry) ;;
  entry <~ tryp (Start entry TypeProvision) ;;
  let frozenEntry := Entry.Clone entry in
  hlift (go (_ <- Creator_Run bounds provisioner entry ;; Ret tt)) ;;~
  operationID <~ require (Entry.GetString frozenEntry OperationID) (unexpected "service instance missing operation ID") ;;
  dashboardURL <~ try_ (Entry.GetString frozenEntry DashboardURL) ;;
  respond StatusAccepted (CreateServiceInstanceResponse_Marshal
    (mkCreateInstanceResponse (default "" dashboardURL) operationID)).

Definition handleCreateServiceInstance (r : Request) (params : Params) : handler unit :=
  check (asyncRequired r) ;;~
  request <~ try_ (jsonRequest (T := CreateServiceInstanceRequest) r) ;;
  err <~ hlift (authorize r (ci_ServiceID request) (ci_PlanID request)) ;;
  check err ;;~
  let instanceID := ByName params "instance_id" in
  check_id instanceID "instance_id" ;;~
  config <~ hlift Config ;;
  check (validateServicePlan config (ci_ServiceID request) (ci_PlanID request)) ;;~
  config <~ hlift Config ;;
  err <~ hlift (validateParameters config (ci_ServiceID request) (ci_PlanID request)
                  schemaTypeServiceInstance schemaOperationCreate (ci_Parameters request)) ;;
  check err ;;~
  config <~ hlift Config ;;
  dirent <~ tryp (registerDirectoryInstance config (ci_Context request) (server_Namespace configuration)
                    instanceID (ci_ServiceID request) (ci_PlanID request)) ;;
  entry <~ tryp (Entry.New ServiceInstance (dirent_Namespace dirent) instanceID false) ;;
  if Entry.Exists entry then existing_instance entry request
  else new_instance entry instanceID request.

(** ** Reading a service instance *)

(** A hint of the query, compared with the entry. *)
Definition check_hint (provided : option string) (actual message : string) : handler unit :=
  check (match provided with
         | Some v => if v =?s actual then None else Some (NewQueryError (message +++ v +++ " does not match " +++ actual))
         | None => None
         end).

Definition handleReadServiceInstance (r : Request) (params : Params) : handler unit :=
  let instanceID := ByName params "instance_id" in
  check_id instanceID "instance_id" ;;~
  dirent <~ hlift (getDirectoryInstance (server_Namespace configuration) instanceID) ;;
  entry <~ tryp (Entry.New ServiceInstance (dirent_Namespace dirent) instanceID true) ;;
  check (if Entry.Exists entry then None
         else Some (NewResourceNotFoundError "service instance does not exist")) ;;~
  serviceID <~ try_ (maygetSingleParameter r "service_id") ;;
  planID <~ try_ (maygetSingleParameter r "plan_id") ;;
  instanceServiceID <~ require (Entry.GetString entry ServiceID) (unexpected "unable to lookup existing service ID") ;;
  instancePlanID <~ require (Entry.GetString entry PlanID) (unexpected "unable to lookup existing plan ID") ;;
  check_hint serviceID instanceServiceID "specified service ID " ;;~
  check_hint planID instancePlanID "specified plan ID " ;;~
  parameters <~ require (Entry.Get (T := RawExtension) entry Parameters_) (unexpected "unable to lookup existing parameters") ;;
  op <~ try_ (Entry.GetString entry Operation) ;;
  check (match op with
         | Some op => Some (NewParameterError (op +++ " operation in progress"))
         | None => None
         end) ;;~
  respond StatusOK (GetServiceInstanceResponse_Marshal
    (mkGetInstanceResponse instanceServiceID instancePlanID "" (Some parameters))).

(** ** Updating a service instance *)

Definition checkUsable (err : option error) : handler unit :=
  match err with Some err => failUsable err | None => hret tt end.

Definition trypUsable {A} (p : prog (result A)) : handler A :=
  r <~ hlift p ;; match r with Ok a => hret a | Err err => failUsable err end.

(** After the checks. *)
Definition update_instance (entry : Entry) (request : UpdateServiceInstanceRequest) : handler unit :=
  entry <~ try_ (Entry.Set_ entry Parameters_ (raw_or_empty (ui_Parameters request))) ;;
  updater <~ trypUsable (Ret (NewUpdater ResourceTypeServiceInstance request)) ;;
  updater <~ trypUsable (Updater_Prepare bounds updater entry) ;;
  entry <~ tryp (Start entry TypeUpdate) ;;
  let frozenEntry := Entry.Clone entry in
  hlift (go (_ <- Updater_Run updater entry ;; Ret tt)) ;;~
  operationID <~ require_unchecked (Entry.GetString frozenEntry OperationID)
                   (unexpected "service instance missing operation ID") ;;
  respond StatusAccepted (UpdateServiceInstanceResponse_Marshal (mkUpdateInstanceResponse "" operationID)).

Definition handleUpdateServiceInstance (r : Request) (params : Params) : handler unit :=
  check (asyncRequired r) ;;~
  let instanceID := ByName params "instance_id" in
  checkUsable (if instanceID =?s "" then Some (unexpected "request missing instance_id parameter") else None) ;;~
  request <~ try_ (jsonRequest (T := UpdateServiceInstanceRequest) r) ;;
  dirent <~ hlift (getDirectoryInstance (server_Namespace configuration) instanceID) ;;
  entry <~ tryp (Entry.New ServiceInstance (dirent_Namespace dirent) instanceID false) ;;
  check (if Entry.Exists entry then None
         else Some (NewResourceNotFoundError "service instance does not exist")) ;;~
  planID <~ require (Entry.GetString entry PlanID) (unexpected "unable to lookup existing plan ID") ;;
  let newPlanID := if ui_PlanID request =?s "" then planID else ui_PlanID request in
  config <~ hlift Config ;;
  check (validateServicePlan config (ui_ServiceID request) newPlanID) ;;~
  config <~ hlift Config ;;
  check (planUpdatable config (ui_ServiceID request) planID newPlanID) ;;~
  config <~ hlift Config ;;
  err <~ hlift (validateParameters config (ui_ServiceID request) planID
                  schemaTypeServiceInstance schemaOperationUpdate (ui_Parameters request)) ;;
  checkUsable err ;;~
  update_instance entry request.

(** ** Deleting a service instance *)

(** The service and plan of the query, which must be those of the entry. *)
Definition check_service_plan (r : Request) (entry : Entry) : handler unit :=
  serviceID <~ try_ (getSingleParameter r "service_id") ;;
  planID <~ try_ (getSingleParameter r "plan_id") ;;
  entryServiceID <~ require (Entry.GetString entry ServiceID) (unexpected "unable to lookup existing service ID") ;;
  entryPlanID <~ require (Entry.GetString entry PlanID) (unexpected "unable to lookup existing plan ID") ;;
  check_hint (Some serviceID) entryServiceID "specified service ID " ;;~
  check_hint (Some planID) entryPlanID "specified plan ID ".

Definition handleDeleteServiceInstance (r : Request) (params : Params) : handler unit :=
  check (asyncRequired r) ;;~
  let instanceID := ByName params "instance_id" in
  check_id instanceID "instance_id" ;;~
  dirent <~ hlift (getDirectoryInstance (server_Namespace configuration) instanceID) ;;
  hlift (deleteDirectoryInstance (server_Namespace configuration) instanceID) ;;~
  entry <~ tryp (Entry.New ServiceInstance (dirent_Namespace dirent) instanceID false) ;;
  check (if Entry.Exists entry then None
         else Some (NewResourceGoneError "service instance does not exist")) ;;~
  check_service_plan r entry ;;~
  entry <~ tryp (Start entry TypeDeprovision) ;;
  hlift (go (Deleter_Run entry)) ;;~
  operationID <~ require_unchecked (Entry.GetString entry OperationID)
                   (unexpected "service instance missing operation ID") ;;
  respond StatusAccepted (CreateServiceInstanceResponse_Marshal (mkCreateInstanceResponse "" operationID)).

(** ** Polling *)

Definition poll_response (state : PollState) (description : string) : result string :=
  PollServiceInstanceResponse_Marshal (mkPollResponse state description).

(** The answer once the request has been checked. *)
Definition poll_status (entry : Entry) : handler unit :=
  operationStatus <~ try_ (Entry.GetString entry OperationStatus) ;;
  match operationStatus with
  | None => respond StatusOK (poll_response PollStateInProgress "asynchronous provisioning in progress")
  | Some operationStatus =>
      _ <~ tryp (End_ entry) ;;
      if operationStatus =?s "" then respond StatusOK (poll_response PollStateSucceeded "")
      else respond StatusOK (poll_response PollStateFailed operationStatus)
  end.

Definition handlePollServiceInstance (r : Request) (params : Params) : handler unit :=
  let instanceID := ByName params "instance_id" in
  check_id instanceID "instance_id" ;;~
  dirent <~ hlift (getDirectoryInstance (server_Namespace configuration) instanceID) ;;
  entry <~ tryp (Entry.New ServiceInstance (dirent_Namespace dirent) instanceID false) ;;
  if negb (Entry.Exists entry) then respond StatusGone empty_Marshal
  else
    serviceID <~ try_ (maygetSingleParameter r "service_id") ;;
    planID <~ try_ (maygetSingleParameter r "plan_id") ;;
    operationID <~ try_ (getSingleParameter r "operation") ;;
    instanceServiceID <~ require_unchecked (Entry.GetString entry ServiceID)
                           (unexpected "service instance missing operation ID") ;;
    instancePlanID <~ require_unchecked (Entry.GetString entry PlanID)
                        (unexpected "service instance missing operation ID") ;;
    instanceOperationID <~ require_unchecked (Entry.GetString entry OperationID)
                             (unexpected "service instance missing operation ID") ;;
    check_hint serviceID instanceServiceID "provided service ID " ;;~
    check_hint planID instancePlanID "provided plan ID " ;;~
    check (if operationID =?s instanceOperationID then None
           else Some (NewQueryError
                        ("provided operation " +++ operationID +++ " does not match operation " +++ instanceOperationID))) ;;~
    poll_status entry.

(** ** Creation of a service binding *)

Definition existing_binding (entry : Entry) (request : CreateServiceBindingRequest) : handler unit :=
  same_attributes entry (cb_ServiceID request) (cb_PlanID request) (cb_Context request) (cb_Parameters request) ;;~
  inProgress <~ provision_in_progress entry ;;
  respond StatusOK (CreateServiceBindingResponse_Marshal (mkCreateBindingResponse (default "" inProgress))).

(** The binding starts from the data of its instance. *)
Definition binding_keys (entry instanceEntry : Entry) (bindingID : string)
    (request : CreateServiceBindingRequest) : result Entry :=
  let entry := Entry.Inherit entry instanceEntry in
  let? entry := Entry.Set_ entry BindingID bindingID in
  let? entry := Entry.Set_ entry Context_ (raw_or_empty (cb_Context request)) in
  Entry.Set_ entry Parameters_ (raw_or_empty (cb_Parameters request)).

Definition new_binding (entry instanceEntry : Entry) (bindingID : string)
    (request : CreateServiceBindingRequest) : handler unit :=
  entry <~ try_ (binding_keys entry instanceEntry bindingID request) ;;
  entry <~ tryp (Entry.Commit entry) ;;
  provisioner <~ try_ (NewCreator ResourceTypeServiceBinding) ;;
  ' (provisioner, entry) <~ tryp (Creator_Prepare bounds provisioner entry) ;;
  entry <~ tryp (Start entry TypeProvision) ;;
  let frozenEntry := Entry.Clone entry in
  entry <~ hlift (Creator_Run bounds provisioner entry) ;;
  operationStatus <~ require (Entry.GetString entry OperationStatus)
                       (unexpected "expected operation status not found") ;;
  _ <~ tryp (End_ entry) ;;
  check (if operationStatus =?s "" then None else Some (NewConfigurationError operationStatus)) ;;~
  credentials <~ try_ (Entry.Get (T := RawExtension) frozenEntry Credentials) ;;
  respond StatusCreated (GetServiceBindingResponse_Marshal
    (binding_response (Some (raw_or_empty credentials)))).

Definition handleCreateServiceBinding (r : Request) (params : Params) : handler unit :=
  request <~ try_ (jsonRequest (T := CreateServiceBindingRequest) r) ;;
  let instanceID := ByName params "instance_id" in
  check_id instanceID "instance_id" ;;~
  let bindingID := ByName params "binding_id" in
  check_id bindingID "binding_id" ;;~
  config <~ hlift Config ;;
  check (validateServicePlan config (cb_ServiceID request) (cb_PlanID request)) ;;~
  config <~ hlift Config ;;
  check (verifyBindable config (cb_ServiceID request) (cb_PlanID request)) ;;~
  config <~ hlift Config ;;
  err <~ hlift (validateParameters config (cb_ServiceID request) (cb_PlanID request)
                  schemaTypeServiceBinding schemaOperationCreate (cb_Parameters request)) ;;
  check err ;;~
  dirent <~ hlift (getDirectoryInstance (server_Namespace configuration) instanceID) ;;
  instanceEntry <~ tryp (Entry.New ServiceInstance (dirent_Namespace dirent) instanceID true) ;;
  check (if Entry.Exists instanceEntry then None
         else Some (NewParameterError ("service instance " +++ instanceID +++ " not found"))) ;;~
  entry <~ tryp (Entry.New ServiceBinding (dirent_Namespace dirent) bindingID false) ;;
  if Entry.Exists entry then existing_binding entry request
  else new_binding entry instanceEntry bindingID request.

(** ** Deleting a service binding *)

Definition handleDeleteServiceBinding (r : Request) (params : Params) : handler unit :=
  let instanceID := ByName params "instance_id" in
  check_id instanceID "instance_id" ;;~
  dirent <~ hlift (getDirectoryInstance (server_Namespace configuration) instanceID) ;;
  instanceEntry <~ tryp (Entry.New ServiceInstance (dirent_Namespace dirent) instanceID true) ;;
  check (if Entry.Exists instanceEntry then None
         else Some (NewParameterError ("service instance " +++ instanceID +++ " not found"))) ;;~
  let bindingID := ByName params "binding_id" in
  check_id bindingID "binding_id" ;;~
  entry <~ tryp (Entry.New ServiceBinding (dirent_Namespace dirent) bindingID false) ;;
  check (if Entry.Exists entry then None
         else Some (NewResourceGoneError "service instance does not exist")) ;;~
  check_service_plan r entry ;;~
  hlift (Deleter_Run entry) ;;~
  respond StatusOK empty_Marshal.

(** ** Login *)

Definition login_query : string := "SELECT * FROM users WHERE username = $1 AND hashedpassword = $2".

Definition handleLogin (r : Request) (params : Params) : handler unit :=
  request <~ try_ (jsonRequest (T := LoginRequest) r) ;;
  check (if (login_Username request =?s "") || (login_Password request =?s "")
         then Some (NewParameterError "username or password is empty") else None) ;;~
  advanced <~ hlift (match server_AdvancedToken configuration with
                     | Some advanced => Ret advanced
                     | None => nil_dereference
                     end) ;;
  rows <~ tryp (call (DbQuery login_query [login_Username request; sha256_hex (login_Password request)])) ;;
  match rows with
  | [] => fail (NewParameterError "username or password is incorrect")
  | _ :: _ =>
      token <~ try_ (jwt_SignedString {["username" := VString (login_Username request)]} (JwtSecret advanced)) ;;
      respond StatusOK (LoginResponse_Marshal (mkLoginResponse token))
  end.
End Handlers.
