(* ===== verification/HandlerFacts.v ===== *)
(** * Properties of the handlers ([pkg/broker/handlers.go])

    What the Open Service Broker API promises of each request, for entries in
    the states the broker puts them in: creation and its retries, polling,
    deletion, the lock that an operation in progress is. *)

From S2P Require Import Prelude Json JsonFacts Errors Types Platform Vendor Sim Fixture Api Http Registry.
From S2P Require Import RegistryFacts Operation Config BrokerUtil DirectoryFacts Auth Template TemplateFacts.
From S2P Require Import Provision ProvisionFacts Handlers.
From Stdlib Require Import Lia.

Local Open Scope broker_scope.

(** ** Rules *)

Section Rules.
Context {W : Type} `{PlatformLaws W}.

Implicit Types s : sys W.

(** The statement before the semicolon does not end the handler. *)
Lemma hwp_step {A B} (m : handler A) (k : A -> handler B) (R : A -> writer -> sys W -> Prop) Q w s :
  hwp m (fun w' o s' => exists a, o = Some a /\ R a w' s') w s ->
  (forall a w' s', R a w' s' -> hwp (k a) Q w' s') ->
  hwp (hbind m k) Q w s.
Proof.
  intros Hm Hk. apply hwp_bind. eapply hwp_mono; [exact Hm|]. intros w' o s' (a & -> & Ha). by apply Hk.
Qed.

Lemma hwp_check_bind err (k : unit -> handler unit) Q w s :
  match err with None => hwp (k tt) Q w s | Some e => Q (jsonError w e) None s end ->
  hwp (hbind (check err) k) Q w s.
Proof. intros Hk. apply hwp_bind, hwp_check. by destruct err. Qed.

Lemma hwp_try_bind {A} (r : result A) (k : A -> handler unit) Q w s :
  match r with Ok a => hwp (k a) Q w s | Err e => Q (jsonError w e) None s end ->
  hwp (hbind (try_ r) k) Q w s.
Proof. intros Hk. apply hwp_bind, hwp_try. by destruct r. Qed.

Lemma hwp_require_bind {A} (r : result (option A)) m (k : A -> handler unit) Q w s :
  match r with
  | Ok (Some a) => hwp (k a) Q w s
  | Ok None => Q (jsonError w m) None s
  | Err e => Q (jsonError w e) None s
  end -> hwp (hbind (require r m) k) Q w s.
Proof. intros Hk. apply hwp_bind, hwp_require. by destruct r as [[]|]. Qed.

Lemma hwp_lift_bind {A} (p : prog A) (k : A -> handler unit) Q w s :
  wp p (fun a s' => hwp (k a) Q w s') s -> hwp (hbind (hlift p) k) Q w s.
Proof. intros Hp. apply hwp_bind, hwp_lift. exact Hp. Qed.

Lemma hwp_tryp_bind {A} (p : prog (result A)) (k : A -> handler unit) Q w s :
  wp p (fun r s' => match r with Ok a => hwp (k a) Q w s' | Err e => Q (jsonError w e) None s' end) s ->
  hwp (hbind (tryp p) k) Q w s.
Proof.
  intros Hp. apply hwp_bind, hwp_tryp. eapply wp_mono; [exact Hp|]. by intros [].
Qed.

Lemma hwp_Config_bind c (k : ServiceBrokerConfig -> handler unit) Q w s :
  configured (world s) = Some c -> (forall s', unchanged s s' -> hwp (k c) Q w s') ->
  hwp (hbind (hlift Config) k) Q w s.
Proof. intros Hc Hk. apply hwp_lift_bind. by eapply wp_Config. Qed.

Lemma kept_configured s s' c : kept s s' -> configured (world s) = Some c -> configured (world s') = Some c.
Proof. intros (Hc & _ & _) Hs. congruence. Qed.

Lemma kept_available s s' : kept s s' -> available (world s) -> available (world s').
Proof. by intros (_ & _ & Ha). Qed.
End Rules.

(** ** Records of instances *)

Section Records.
Context `{VendorLaws}.

(** The attributes of a service instance in its registry entry. *)
Record describes (e : Entry) (sid pid : string) (context parameters : RawExtension) : Prop := {
  describes_service : Entry.GetString e ServiceID = Ok (Some sid);
  describes_plan : Entry.GetString e PlanID = Ok (Some pid);
  describes_context : Entry.Get (T := RawExtension) e Context_ = Ok (Some context);
  describes_parameters : Entry.Get (T := RawExtension) e Parameters_ = Ok (Some parameters);
}.

Lemma describes_data e e' sid pid c p :
  (forall k, k ∈ reserved_keys -> k <> Operation -> k <> OperationID -> k <> OperationStatus ->
     entry_data e' !! k = entry_data e !! k) ->
  describes e sid pid c p -> describes e' sid pid c p.
Proof.
  intros Hd [Hs Hp Hc Hq]. unfold Entry.GetString in *. rewrite !Get_data in *.
  split; unfold Entry.GetString; rewrite Get_data, Hd by (set_solver || done); done.
Qed.

Lemma describes_started e t id sid pid c p :
  describes e sid pid c p -> describes (started e t id) sid pid c p.
Proof.
  apply describes_data. intros k Hk H1 H2 H3. unfold started. rewrite !entry_data_put. by simplify_map_eq.
Qed.
End Records.

(** ** Retrying a creation *)

Section Existing.
Context `{VendorLaws} {W : Type} `{PlatformLaws W}.

Implicit Types s : sys W.

Definition same_request (sid pid : string) (c p : RawExtension) (sid' pid' : string)
    (c' p' : option RawExtension) : bool :=
  (sid =?s sid') && (pid =?s pid') && bool_decide (raw_or_empty c' = c) && bool_decide (raw_or_empty p' = p).

Lemma hwp_same_attributes e sid pid c p sid' pid' c' p' (k : unit -> handler unit) Q w s :
  describes e sid pid c p ->
  (if same_request sid pid c p sid' pid' c' p' then hwp (k tt) Q w s
   else forall m, Q (jsonError w (NewResourceConflictError m)) None s) ->
  hwp (hbind (same_attributes e sid' pid' c' p') k) Q w s.
Proof.
  intros [Hs Hp Hc Hq] Hk. unfold same_attributes, same_request, same_id, same_raw in *.
  apply hwp_bind. apply hwp_bind, hwp_require_bind. rewrite Hs. apply hwp_check.
  case_bool_decide; cbn [andb] in Hk; [|by apply Hk].
  apply hwp_bind, hwp_require_bind. rewrite Hp. apply hwp_check.
  case_bool_decide; cbn [andb] in Hk; [|by apply Hk].
  apply hwp_bind, hwp_require_bind. rewrite Hc. apply hwp_check.
  case_bool_decide; cbn [andb] in Hk; [|by apply Hk].
  apply hwp_require_bind. rewrite Hq. apply hwp_check.
  case_bool_decide; cbn [andb] in Hk; [|by apply Hk]. exact Hk.
Qed.

Lemma op_state_reads e st :
  op_state_of e = st ->
  match st with
  | Idle => Entry.GetString e Operation = Ok None
  | Running t id =>
      Entry.GetString e Operation = Ok (Some t) /\ Entry.GetString e OperationID = Ok (Some id) /\
      Entry.GetString e OperationStatus = Ok None
  | Finished t id status =>
      Entry.GetString e Operation = Ok (Some t) /\ Entry.GetString e OperationID = Ok (Some id) /\
      Entry.GetString e OperationStatus = Ok (Some status)
  | Inconsistent => True
  end.
Proof. intros <-. unfold op_state_of. repeat case_match; simplify_eq; done. Qed.

(** The operation in progress, if the state has one. *)
Definition operation_of (st : op_state) : option (string * string) :=
  match st with
  | Running t id | Finished t id _ => Some (t, id)
  | _ => None
  end.

Lemma hwp_provision_in_progress e (k : option string -> handler unit) Q w s :
  op_state_of e <> Inconsistent ->
  match operation_of (op_state_of e) with
  | None => hwp (k None) Q w s
  | Some (t, id) =>
      if t =?s TypeProvision then hwp (k (Some id)) Q w s
      else forall m, Q (jsonError w (NewResourceConflictError m)) None s
  end ->
  hwp (hbind (provision_in_progress e) k) Q w s.
Proof.
  intros Hi Hk. unfold provision_in_progress. pose proof (op_state_reads e _ eq_refl) as Hr.
  apply hwp_bind. destruct (op_state_of e) as [|t id|t id st|]; [| | |done]; cbn [operation_of] in Hk.
  - apply hwp_bind, hwp_try. rewrite Hr. exact Hk.
  - destruct Hr as (Ho & Hid & _). apply hwp_bind, hwp_try. rewrite Ho.
    case_bool_decide; cbn [negb]; [|by apply hwp_fail]. apply hwp_bind, hwp_require. rewrite Hid. exact Hk.
  - destruct Hr as (Ho & Hid & _). apply hwp_bind, hwp_try. rewrite Ho.
    case_bool_decide; cbn [negb]; [|by apply hwp_fail]. apply hwp_bind, hwp_require. rewrite Hid. exact Hk.
Qed.

(** Retrying a creation.  For an instance that exists, the request is
    answered from the registry without changing anything: 409 when its
    service, plan, context or parameters are not, byte for byte, those of the
    entry, or when an update or deletion is in progress; 202 with the ID of
    the operation while it is being created; 200 when no operation is
    recorded. *)
Lemma create_existing_instance e request sid pid c p dashboard s :
  describes e sid pid c p -> op_state_of e <> Inconsistent ->
  Entry.GetString e DashboardURL = Ok dashboard ->
  hwp (existing_instance e request) (fun w' _ s' => s' = s /\
    let answer status id := w' = JSONResponse new_writer status (CreateServiceInstanceResponse_Marshal
                                   (mkCreateInstanceResponse (default "" dashboard) id)) in
    if same_request sid pid c p (ci_ServiceID request) (ci_PlanID request) (ci_Context request) (ci_Parameters request)
    then match operation_of (op_state_of e) with
         | None => answer StatusOK ""
         | Some (t, id) => if t =?s TypeProvision then answer StatusAccepted id
                           else rw_sent w' = Some StatusConflict
         end
    else rw_sent w' = Some StatusConflict) new_writer s.
Proof.
  intros Hd Hi Hu. unfold existing_instance. eapply hwp_same_attributes; [done|].
  destruct (same_request _ _ _ _ _ _ _ _); [|intros m; split; [done|]; by rewrite rw_sent_jsonError].
  apply hwp_provision_in_progress; [done|].
  destruct (operation_of (op_state_of e)) as [[t id]|].
  - destruct (t =?s TypeProvision); [|intros m; split; [done|]; by rewrite rw_sent_jsonError].
    apply hwp_try_bind. rewrite Hu. by apply hwp_respond.
  - apply hwp_try_bind. rewrite Hu. by apply hwp_respond.
Qed.

(** For a binding the answer to a retry is always 200, or 409. *)
Lemma create_existing_binding e request sid pid c p s :
  describes e sid pid c p -> op_state_of e <> Inconsistent ->
  hwp (existing_binding e request) (fun w' _ s' => s' = s /\
    if same_request sid pid c p (cb_ServiceID request) (cb_PlanID request) (cb_Context request) (cb_Parameters request)
    then match operation_of (op_state_of e) with
         | None => w' = JSONResponse new_writer StatusOK (CreateServiceBindingResponse_Marshal (mkCreateBindingResponse ""))
         | Some (t, id) =>
             if t =?s TypeProvision
             then w' = JSONResponse new_writer StatusOK (CreateServiceBindingResponse_Marshal (mkCreateBindingResponse id))
             else rw_sent w' = Some StatusConflict
         end
    else rw_sent w' = Some StatusConflict) new_writer s.
Proof.
  intros Hd Hi. unfold existing_binding. eapply hwp_same_attributes; [done|].
  destruct (same_request _ _ _ _ _ _ _ _); [|intros m; split; [done|]; by rewrite rw_sent_jsonError].
  apply hwp_provision_in_progress; [done|].
  destruct (operation_of (op_state_of e)) as [[t id]|].
  - destruct (t =?s TypeProvision); [|intros m; split; [done|]; by rewrite rw_sent_jsonError]. by apply hwp_respond.
  - by apply hwp_respond.
Qed.
End Existing.

(** ** Finding an instance *)

Section Loading.
Context `{VendorLaws} {W : Type} `{PlatformLaws W}.

Implicit Types s : sys W.

(** The namespace of the registry of an instance. *)
Definition instance_namespace (w : W) (ns id : string) : string :=
  match directory_view w ns !! id with
  | Some t => match Unmarshal (T := DirectoryEntry) t with Ok d => dirent_Namespace d | Err _ => ns end
  | None => ns
  end.

Definition instance_key (w : W) (ns id : string) : string * string :=
  (instance_namespace w ns id, Name ServiceInstance id).

(** The registry entry of an instance that exists. *)
Definition instance_entry (w : W) (ns id : string) (e : Entry) : Prop :=
  stored w !! instance_key w ns id = Some (entry_secret e) /\ entry_exists e = true /\ entry_readOnly e = false.

Lemma instance_entry_committable w ns id e : instance_entry w ns id e -> committable w e.
Proof.
  intros (Hs & Hex & Hro). split; [done|]. rewrite Hex. rewrite (stored_key _ _ _ Hs). eauto.
Qed.

Lemma instance_namespace_stored w w' ns id :
  stored w' = stored w -> instance_namespace w' ns id = instance_namespace w ns id.
Proof. unfold instance_namespace, directory_view. by intros ->. Qed.

Lemma instance_entry_stored w w' ns id e :
  stored w' = stored w -> instance_entry w ns id e -> instance_entry w' ns id e.
Proof. intros Hs. unfold instance_entry, instance_key. by rewrite (instance_namespace_stored _ _ _ _ Hs), Hs. Qed.

Lemma hwp_directory ns id (k : DirectoryEntry -> handler unit) Q w s :
  available (world s) ->
  (forall d s', unchanged s s' -> dirent_Namespace d = instance_namespace (world s) ns id -> hwp (k d) Q w s') ->
  hwp (hbind (hlift (getDirectoryInstance ns id)) k) Q w s.
Proof.
  intros Hav Hk. apply hwp_lift_bind, wp_getDirectoryInstance. intros d s' Hs' Hd. apply Hk; [done|].
  rewrite Hd by done. unfold instance_namespace. destruct (directory_view _ _ !! id) as [t|]; [|done].
  by destruct (Unmarshal t).
Qed.

Lemma hwp_New_existing t rn n ro sec (k : Entry -> handler unit) Q w s :
  available (world s) -> stored (world s) !! (rn, Name t n) = Some sec ->
  (forall s', unchanged s s' -> hwp (k (mkEntry sec true ro)) Q w s') ->
  hwp (hbind (tryp (Entry.New t rn n ro)) k) Q w s.
Proof.
  intros Hav Hs Hk. apply hwp_tryp_bind, wp_New. intros [e|err] s' Hs' Hr; [|by destruct Hr].
  destruct Hr as (Hro & Hkey & He). destruct e as [sec' ex ro']; simpl in *. subst ro'.
  destruct ex; [|destruct He; congruence]. rewrite Hs in He. injection He as <-. by apply Hk.
Qed.

Lemma hwp_New_missing t rn n ro (k : Entry -> handler unit) Q w s :
  available (world s) -> stored (world s) !! (rn, Name t n) = None ->
  (forall s', unchanged s s' -> hwp (k (mkEntry (Entry.fresh_secret rn (Name t n)) false ro)) Q w s') ->
  hwp (hbind (tryp (Entry.New t rn n ro)) k) Q w s.
Proof.
  intros Hav Hs Hk. apply hwp_tryp_bind, wp_New. intros [e|err] s' Hs' Hr; [|by destruct Hr].
  destruct Hr as (Hro & Hkey & He). destruct e as [sec' ex ro']; simpl in *. subst ro'.
  destruct ex; [congruence|]. destruct He as [_ ->]. by apply Hk.
Qed.

Lemma mkEntry_eta e : entry_exists e = true -> entry_readOnly e = false -> mkEntry (entry_secret e) true false = e.
Proof. destruct e; simpl. by intros -> ->. Qed.

Lemma hwp_instance ns id e (k : Entry -> handler unit) Q w s d :
  available (world s) -> instance_entry (world s) ns id e ->
  dirent_Namespace d = instance_namespace (world s) ns id ->
  (forall s', unchanged s s' -> hwp (k e) Q w s') ->
  hwp (hbind (tryp (Entry.New ServiceInstance (dirent_Namespace d) id false)) k) Q w s.
Proof.
  intros Hav (Hs & Hex & Hro) Hd Hk. rewrite Hd. eapply hwp_New_existing; [done|exact Hs|].
  intros s' Hs'. rewrite mkEntry_eta by done. by apply Hk.
Qed.

(** ** Polling *)

(** The hints of a request agree with the instance. *)
Definition hint_agrees (r : Request) (name actual : string) : Prop :=
  maygetSingleParameter r name = Ok None \/ maygetSingleParameter r name = Ok (Some actual).

Lemma hwp_hint_bind r name actual m (k : unit -> handler unit) o Q w s :
  hint_agrees r name actual -> maygetSingleParameter r name = Ok o ->
  hwp (k tt) Q w s -> hwp (hbind (check_hint o actual m) k) Q w s.
Proof.
  intros Hh Ho Hk. apply hwp_check_bind. destruct o as [v|]; [|done].
  assert (v = actual) as -> by (destruct Hh; congruence). by rewrite bool_decide_true.
Qed.

Lemma hwp_unchecked_bind r m v (k : string -> handler unit) Q w s :
  r = Ok (Some v) -> hwp (k v) Q w s -> hwp (hbind (require_unchecked r m) k) Q w s.
Proof. intros -> Hk. exact Hk. Qed.

(** The state that a poll reports. *)
Definition poll_answer (st : op_state) : result string :=
  match st with
  | Finished _ _ status =>
      if status =?s "" then poll_response PollStateSucceeded "" else poll_response PollStateFailed status
  | _ => poll_response PollStateInProgress "asynchronous provisioning in progress"
  end.

(** The entry after a poll. *)
Definition polled (st : op_state) (s s' : sys W) (e : Entry) : Prop :=
  match st with
  | Finished _ _ _ => exists e', committed (world s) (world s') (ended e) e'
  | _ => unchanged s s'
  end.

Lemma hwp_poll configuration e r params sid pid c p id t opid status s :
  let st := op_state_of e in
  st = Running t opid \/ st = Finished t opid status ->
  ByName params "instance_id" = id -> id <> "" -> available (world s) ->
  instance_entry (world s) (server_Namespace configuration) id e -> describes e sid pid c p ->
  hint_agrees r "service_id" sid -> hint_agrees r "plan_id" pid ->
  getSingleParameter r "operation" = Ok opid ->
  hwp (handlePollServiceInstance configuration r params) (fun w' _ s' =>
    w' = JSONResponse new_writer StatusOK (poll_answer st) /\ polled st s s' e) new_writer s.
Proof.
  intros st Hst Hid Hne Hav He [Hs Hp _ _] Hh1 Hh2 Hop. unfold handlePollServiceInstance. rewrite Hid.
  apply hwp_check_bind. rewrite bool_decide_false by done.
  apply hwp_directory; [done|]. intros d s1 Hs1 Hd.
  pose proof (kept_available _ _ (unchanged_kept _ _ Hs1) Hav) as Hav1.
  eapply (hwp_instance (server_Namespace configuration) id e); [done| |..].
  { eapply instance_entry_stored, He. apply Hs1. }
  { rewrite Hd. symmetry. apply instance_namespace_stored, Hs1. }
  intros s2 Hs2. pose proof He as (_ & Hex & _). unfold Entry.Exists. rewrite Hex. cbn [negb].
  assert (exists o1, maygetSingleParameter r "service_id" = Ok o1) as [o1 Ho1] by (destruct Hh1; eauto).
  assert (exists o2, maygetSingleParameter r "plan_id" = Ok o2) as [o2 Ho2] by (destruct Hh2; eauto).
  assert (Entry.GetString e OperationID = Ok (Some opid) /\ Entry.GetString e Operation = Ok (Some t)) as [Hopid Hopt].
  { pose proof (op_state_reads e _ eq_refl) as Hr. fold st in Hr. destruct Hst as [Hst|Hst]; rewrite Hst in Hr; tauto. }
  apply hwp_try_bind. rewrite Ho1. apply hwp_try_bind. rewrite Ho2. apply hwp_try_bind. rewrite Hop.
  eapply hwp_unchecked_bind; [exact Hs|]. eapply hwp_unchecked_bind; [exact Hp|].
  eapply hwp_unchecked_bind; [exact Hopid|].
  eapply hwp_hint_bind; [exact Hh1|exact Ho1|]. eapply hwp_hint_bind; [exact Hh2|exact Ho2|].
  apply hwp_check_bind. rewrite bool_decide_true by done.
  assert (unchanged s s2) as Hu by (by etransitivity). unfold poll_status. apply hwp_try_bind.
  pose proof (op_state_reads e _ eq_refl) as Hr. fold st in Hr.
  destruct Hst as [Hst|Hst]; rewrite Hst in Hr |- *; destruct Hr as (_ & _ & ->).
  - by apply hwp_respond.
  - apply hwp_tryp_bind. eapply wp_End; [exact Hopt|]. intros [e'|err] s3 Hk3 Hc.
    + assert (committed (world s) (world s3) (ended e) e') as Hc' by (eapply committed_before, Hc; apply Hu).
      cbn [poll_answer polled]. destruct (status =?s ""); apply hwp_respond; (split; [done|eauto]).
    + destruct Hc as [_ Hno]. destruct Hno; [eapply kept_available; [apply unchanged_kept, Hu|done]|].
      eapply (committable_unchanged s s2); [done|]. by eapply instance_entry_committable.
Qed.

(** Polling drives the end of an operation.  The client that asks for the
    operation in progress is told its state.  While it runs nothing changes;
    the first poll after it finished reports success or the error it ended
    with and removes the operation from the entry, which is idle from then on. *)
Lemma poll_reports configuration e r params sid pid c p id t opid status s :
  let st := op_state_of e in
  st = Running t opid \/ st = Finished t opid status ->
  ByName params "instance_id" = id -> id <> "" -> available (world s) ->
  instance_entry (world s) (server_Namespace configuration) id e -> describes e sid pid c p ->
  hint_agrees r "service_id" sid -> hint_agrees r "plan_id" pid ->
  getSingleParameter r "operation" = Ok opid ->
  hwp (handlePollServiceInstance configuration r params) (fun w' _ s' =>
    w' = JSONResponse new_writer StatusOK (poll_answer st) /\ polled st s s' e) new_writer s.
Proof. apply hwp_poll. Qed.
End Loading.

(** ** Steps that handlers share *)

Section Steps.
Context `{VendorLaws} {W : Type} `{PlatformLaws W} (bounds : Bounds).

Implicit Types s : sys W.

Lemma op_state_edit e e' :
  (forall k, k ∈ reserved_keys -> entry_data e' !! k = entry_data e !! k) -> op_state_of e' = op_state_of e.
Proof.
  intros Hd. unfold op_state_of, Entry.GetString. rewrite !Get_data, !Hd by set_solver. done.
Qed.

Lemma user_edit_committable w e e' : user_edit e e' -> committable w e -> committable w e'.
Proof. intros (Hk & Hv & Hex & Hro & _) [Hro' Hc]. split; [congruence|]. by rewrite Hex, Hk, Hv. Qed.

(** The first commit of an entry. *)
Lemma hwp_Commit_new e (k : Entry -> handler unit) Q w s :
  available (world s) -> entry_exists e = false -> entry_readOnly e = false ->
  stored (world s) !! secret_key (entry_secret e) = None ->
  (forall e' s', run (Entry.Commit e) s = (Done (Ok e'), s') -> kept s s' -> committed (world s) (world s') e e' ->
     hwp (k e') Q w s') ->
  hwp (hbind (tryp (Entry.Commit e)) k) Q w s.
Proof.
  intros Hav Hex Hro Hnone Hk. apply hwp_tryp_bind. eapply wp_mono; [apply wp_run, wp_Commit; intros r s' Hks Hr;
    exact (conj Hks Hr)|]. intros [e'|err] s' (Hrun & Hks & Hr); [by apply Hk|].
  destruct Hr as [_ Hno]. destruct Hno; [done|]. split; [done|]. by rewrite Hex.
Qed.

(** Preparing reads the entry and changes what belongs to templates. *)
Lemma hwp_prepare p e (R : result (Creator * Entry) -> sys W -> Prop) (k : Creator * Entry -> handler unit) Q w s :
  committable (world s) e -> wp (Creator_Prepare bounds p e) R s ->
  (forall r s', run (Creator_Prepare bounds p e) s = (Done r, s') -> R r s' -> unchanged s s' ->
     match r with
     | Ok (p', e') => user_edit e e' -> committable (world s') e' -> op_state_of e' = op_state_of e -> hwp (k (p', e')) Q w s'
     | Err err => Q (jsonError w err) None s'
     end) ->
  hwp (hbind (tryp (Creator_Prepare bounds p e)) k) Q w s.
Proof.
  intros Hc Hr Hk. apply hwp_bind, hwp_tryp. eapply wp_mono.
  { apply wp_run. eapply wp_wlp_and; [exact Hr|apply wlp_Creator_Prepare]. }
  intros r s' (Hrun & HR & Hu & Hedit). specialize (Hk r s' Hrun HR Hu). destruct r as [[p' e']|err]; [|done].
  destruct Hedit as [Hedit _]. apply Hk; [done| |].
  - eapply user_edit_committable; [exact Hedit|]. by eapply committable_unchanged.
  - destruct Hedit as (_ & _ & _ & _ & Hd). by apply op_state_edit.
Qed.

(** Starting an operation on an idle entry. *)
Lemma hwp_Start_idle e t (k : Entry -> handler unit) Q w s :
  available (world s) -> committable (world s) e -> op_state_of e = Idle ->
  (forall e' opid s', run (Start e t) s = (Done (Ok e'), s') -> kept s s' ->
     committed (world s) (world s') (started e t opid) e' ->
     op_state_of e' = Running t opid -> hwp (k e') Q w s') ->
  hwp (hbind (tryp (Start e t)) k) Q w s.
Proof.
  intros Hav Hc Hst Hk. apply hwp_tryp_bind.
  eapply wp_mono; [apply wp_run, (wp_Start e t); [by apply op_state_Idle|]; intros r opid s' Hks Hr;
    exact (ex_intro _ opid (conj Hks Hr))|].
  intros [e'|err] s' (Hrun & opid & Hks & Hr).
  - apply (Hk e' opid); [done..|]. rewrite (op_state_of_data _ _ (committed_data _ _ _ _ Hr)). apply started_Running.
    revert Hst. unfold op_state_of. by repeat case_match.
  - destruct Hr as [_ Hno]. by destruct Hno.
Qed.

(** Starting a program in the background. *)
Lemma hwp_go t (k : unit -> handler unit) Q w s :
  hwp (k tt) Q w (mkSys (world s) (spawned s ++ [t])) -> hwp (hbind (hlift (go t)) k) Q w s.
Proof. intros Hk. apply hwp_lift_bind. unfold go. by apply wp_go, wp_ret. Qed.

Lemma Running_id e t opid : op_state_of e = Running t opid -> Entry.GetString e OperationID = Ok (Some opid).
Proof. intros Hst. pose proof (op_state_reads e _ eq_refl) as Hr. rewrite Hst in Hr. tauto. Qed.
End Steps.

(** ** Deleting an instance *)

Section Deleting.
Context `{VendorLaws} {W : Type} `{PlatformLaws W}.

Implicit Types s : sys W.

Lemma Name_not_directory t id : Name t id <> directoryName.
Proof. done. Qed.

Lemma directory_set_instance s s' ns m rn t id :
  directory_set s s' ns m -> stored (world s') !! (rn, Name t id) = stored (world s) !! (rn, Name t id).
Proof. intros (_ & _ & Hne). apply Hne. by intros [= _ ?]. Qed.

(** The handler up to the entry: the directory entry of the instance is gone,
    the entry of the instance is not. *)
Lemma hwp_delete_prefix configuration r params id e (k : Entry -> handler unit) Q s :
  asyncRequired r = None -> ByName params "instance_id" = id -> id <> "" -> available (world s) ->
  instance_entry (world s) (server_Namespace configuration) id e ->
  (forall s', kept s s' -> directory_view (world s') (server_Namespace configuration) !! id = None ->
     stored (world s') !! instance_key (world s) (server_Namespace configuration) id = Some (entry_secret e) ->
     (forall k, k <> directory_key (server_Namespace configuration) -> stored (world s') !! k = stored (world s) !! k) ->
     hwp (k e) Q new_writer s') ->
  hwp (check (asyncRequired r) ;;~
       let instanceID := ByName params "instance_id" in
       check_id instanceID "instance_id" ;;~
       dirent <~ hlift (getDirectoryInstance (server_Namespace configuration) instanceID) ;;
       hlift (deleteDirectoryInstance (server_Namespace configuration) instanceID) ;;~
       entry <~ tryp (Entry.New ServiceInstance (dirent_Namespace dirent) instanceID false) ;;
       check (if Entry.Exists entry then None
              else Some (NewResourceGoneError "service instance does not exist")) ;;~
       k entry) Q new_writer s.
Proof.
  intros Hasync Hid Hne Hav He Hk. rewrite Hasync. apply hwp_check_bind. cbv zeta. rewrite Hid.
  apply hwp_check_bind. rewrite bool_decide_false by done.
  apply hwp_directory; [done|]. intros d s1 Hs1 Hd.
  pose proof (kept_available _ _ (unchanged_kept _ _ Hs1) Hav) as Hav1.
  apply hwp_lift_bind, wp_deleteDirectoryInstance. intros s2 Hk2 Hdel.
  pose proof (kept_available _ _ Hk2 Hav1) as Hav2. destruct He as (Hse & Hex & Hro).
  assert (stored (world s2) !! instance_key (world s) (server_Namespace configuration) id = Some (entry_secret e)) as Hst.
  { destruct Hs1 as [Hs1 _]. destruct Hdel as [[Hs2 _]|Hset]; [by rewrite Hs2, Hs1|].
    unfold instance_key in *. by rewrite (directory_set_instance _ _ _ _ _ _ _ Hset), Hs1. }
  rewrite Hd. eapply hwp_New_existing; [done|exact Hst|]. intros s3 Hs3. rewrite mkEntry_eta by done.
  apply hwp_check_bind. unfold Entry.Exists. rewrite Hex. apply Hk.
  - etransitivity; [apply unchanged_kept, Hs1|]. etransitivity; [exact Hk2|apply unchanged_kept, Hs3].
  - destruct Hs3 as [Hs3 _]. unfold directory_view at 1. rewrite Hs3. fold (directory_view (world s2) (server_Namespace configuration)).
    destruct Hdel as [[Hs2 Hn]|(_ & -> & _)]; [|by simplify_map_eq].
    unfold directory_view. rewrite Hs2. by apply Hn.
  - destruct Hs3 as [-> _]. exact Hst.
  - intros k' Hk'. destruct Hs3 as [-> _], Hs1 as [<- _]. destruct Hdel as [[-> _]|(_ & _ & Hf)]; [done|by apply Hf].
Qed.

Lemma hwp_service_plan r e sid pid sid' pid' (k : unit -> handler unit) Q w s :
  Entry.GetString e ServiceID = Ok (Some sid) -> Entry.GetString e PlanID = Ok (Some pid) ->
  getSingleParameter r "service_id" = Ok sid' -> getSingleParameter r "plan_id" = Ok pid' ->
  (if (sid' =?s sid) && (pid' =?s pid) then hwp (k tt) Q w s
   else forall m, Q (jsonError w (NewQueryError m)) None s) ->
  hwp (hbind (check_service_plan r e) k) Q w s.
Proof.
  intros Hs Hp Hq1 Hq2 Hk. unfold check_service_plan. apply hwp_bind.
  apply hwp_try_bind. rewrite Hq1. apply hwp_try_bind. rewrite Hq2.
  apply hwp_require_bind. rewrite Hs. apply hwp_require_bind. rewrite Hp.
  unfold check_hint. apply hwp_check_bind. case_bool_decide; cbn [andb] in Hk; [|by apply Hk].
  apply hwp_check. case_bool_decide; [exact Hk|by apply Hk].
Qed.

Lemma wp_Deleter_Run e Q s :
  available (world s) -> committable (world s) e -> entry_exists e = true ->
  (forall s', kept s s' -> stored (world s') = delete (secret_key (entry_secret e)) (stored (world s)) -> Q tt s') ->
  wp (Deleter_Run e) Q s.
Proof.
  intros Hav Hc Hex HQ. unfold Deleter_Run. apply wp_bind, wp_Delete. intros [err|] s' Hk Hr; apply wp_ret.
  - destruct Hr as [_ Hno]. by destruct Hno.
  - destruct Hr as [_ Hs]. rewrite Hex in Hs. by apply HQ.
Qed.

Lemma hwp_deprovision configuration r params id e sid pid c p s :
  asyncRequired r = None -> ByName params "instance_id" = id -> id <> "" -> available (world s) ->
  instance_entry (world s) (server_Namespace configuration) id e -> describes e sid pid c p ->
  op_state_of e = Idle ->
  getSingleParameter r "service_id" = Ok sid -> getSingleParameter r "plan_id" = Ok pid ->
  let key := instance_key (world s) (server_Namespace configuration) id in
  hwp (handleDeleteServiceInstance configuration r params) (fun w' _ s' =>
    exists opid e' t,
      w' = JSONResponse new_writer StatusAccepted (CreateServiceInstanceResponse_Marshal (mkCreateInstanceResponse "" opid)) /\
      stored (world s') !! key = Some (entry_secret e') /\ op_state_of e' = Running TypeDeprovision opid /\
      spawned s' = spawned s ++ [t] /\
      directory_view (world s') (server_Namespace configuration) !! id = None /\
      (forall k, k <> key -> k <> directory_key (server_Namespace configuration) ->
         stored (world s') !! k = stored (world s) !! k) /\
      wp t (fun _ s'' => stored (world s'') = delete key (stored (world s'))) s') new_writer s.
Proof.
  intros Hasync Hid Hne Hav He [Hs Hp _ _] Hst Hq1 Hq2 key. unfold handleDeleteServiceInstance.
  eapply (hwp_delete_prefix configuration r params id e); try done. intros s1 Hk1 Hdir Hkey Hframe.
  eapply hwp_service_plan; [exact Hs|exact Hp|exact Hq1|exact Hq2|].
  rewrite !bool_decide_true by done. cbn [andb].
  pose proof He as (Hse & Hex & Hro). pose proof (stored_key _ _ _ Hse) as Hsk.
  assert (committable (world s1) e) as Hc.
  { split; [done|]. rewrite Hex, Hsk. eauto. }
  apply hwp_Start_idle; [by eapply kept_available|done|done|]. intros e' opid s2 _ Hk2 Hr Hst'. apply hwp_go.
  eapply hwp_unchecked_bind; [by eapply Running_id|]. apply hwp_respond.
  assert (secret_key (entry_secret e') = key) as Hkey'.
  { rewrite (committed_key _ _ _ _ Hr), started_key. exact Hsk. }
  exists opid, e', (Deleter_Run e'). split; [done|]. cbn [world spawned].
  split; [rewrite <- Hkey', (committed_key _ _ _ _ Hr); by apply committed_lookup with (1 := Hr)|].
  split; [done|]. split.
  { destruct Hk2 as (_ & -> & _). by destruct Hk1 as (_ & -> & _). }
  assert (forall k, k <> key -> stored (world s2) !! k = stored (world s1) !! k) as Hf2
    by (intros k Hk; eapply committed_lookup_ne; [exact Hr|by rewrite started_key, Hsk]).
  split; [unfold directory_view; rewrite Hf2; [exact Hdir|by intros [= _ ?]]|].
  split; [intros k Hk Hk'; by rewrite Hf2, Hframe|].
  apply wp_Deleter_Run.
  - cbn [world]. eapply kept_available; [exact Hk2|]. by eapply kept_available.
  - by apply (committed_committable _ _ _ _ Hr).
  - by destruct Hr as (_ & _ & _ & ? & _).
  - intros s3 _ ->. by rewrite Hkey'.
Qed.

(** C10: deprovisioning.  Deleting an idle instance with its own service and
    plan is accepted: the response is 202 with the ID of a deprovision
    operation that the stored entry then records, and one program is started
    in the background.  The request removes the instance from the directory and
    changes no other secret; once the program has run, the entry of the
    instance is gone too. *)
Theorem deprovision configuration r params id e sid pid c p s :
  asyncRequired r = None -> ByName params "instance_id" = id -> id <> "" -> available (world s) ->
  instance_entry (world s) (server_Namespace configuration) id e -> describes e sid pid c p ->
  op_state_of e = Idle ->
  getSingleParameter r "service_id" = Ok sid -> getSingleParameter r "plan_id" = Ok pid ->
  let key := instance_key (world s) (server_Namespace configuration) id in
  hwp (handleDeleteServiceInstance configuration r params) (fun w' _ s' =>
    exists opid e' t,
      w' = JSONResponse new_writer StatusAccepted (CreateServiceInstanceResponse_Marshal (mkCreateInstanceResponse "" opid)) /\
      stored (world s') !! key = Some (entry_secret e') /\ op_state_of e' = Running TypeDeprovision opid /\
      spawned s' = spawned s ++ [t] /\
      directory_view (world s') (server_Namespace configuration) !! id = None /\
      (forall k, k <> key -> k <> directory_key (server_Namespace configuration) ->
         stored (world s') !! k = stored (world s) !! k) /\
      wp t (fun _ s'' => stored (world s'') = delete key (stored (world s'))) s') new_writer s.
Proof. apply hwp_deprovision. Qed.

(** C36: a deletion that is refused still forgets where the instance is.  When
    the service or plan of the request is not that of the instance, the answer
    is 400 and the entry is untouched; but its directory entry has been
    deleted, and the next request for the instance looks for it in the
    broker's own namespace. *)
Theorem refused_deletion_forgets configuration r params id e sid pid c p sid' pid' s :
  asyncRequired r = None -> ByName params "instance_id" = id -> id <> "" -> available (world s) ->
  instance_entry (world s) (server_Namespace configuration) id e -> describes e sid pid c p ->
  getSingleParameter r "service_id" = Ok sid' -> getSingleParameter r "plan_id" = Ok pid' ->
  sid' <> sid \/ pid' <> pid ->
  hwp (handleDeleteServiceInstance configuration r params) (fun w' _ s' =>
    rw_sent w' = Some StatusBadRequest /\ spawned s' = spawned s /\
    stored (world s') !! instance_key (world s) (server_Namespace configuration) id = Some (entry_secret e) /\
    instance_namespace (world s') (server_Namespace configuration) id = server_Namespace configuration) new_writer s.
Proof.
  intros Hasync Hid Hne Hav He [Hs Hp _ _] Hq1 Hq2 Hdiff. unfold handleDeleteServiceInstance.
  eapply (hwp_delete_prefix configuration r params id e); try done. intros s1 Hk1 Hdir Hkey Hframe.
  eapply hwp_service_plan; [exact Hs|exact Hp|exact Hq1|exact Hq2|].
  replace ((sid' =?s sid) && (pid' =?s pid)) with false.
  2:{ symmetry. apply andb_false_iff. rewrite !bool_decide_eq_false. tauto. }
  intros m. split; [by rewrite rw_sent_jsonError|]. split; [by destruct Hk1 as (_ & ? & _)|]. split; [done|].
  unfold instance_namespace. by rewrite Hdir.
Qed.

(** An instance that is not found has been deleted, for a poll. *)
Lemma poll_gone configuration r params id s :
  ByName params "instance_id" = id -> id <> "" -> available (world s) ->
  stored (world s) !! instance_key (world s) (server_Namespace configuration) id = None ->
  hwp (handlePollServiceInstance configuration r params) (fun w' _ s' =>
    w' = JSONResponse new_writer StatusGone empty_Marshal /\ unchanged s s') new_writer s.
Proof.
  intros Hid Hne Hav Hn. unfold handlePollServiceInstance. rewrite Hid.
  apply hwp_check_bind. rewrite bool_decide_false by done.
  apply hwp_directory; [done|]. intros d s1 Hs1 Hd. rewrite Hd.
  eapply hwp_New_missing; [by eapply kept_available; [apply unchanged_kept, Hs1|]| |].
  { destruct Hs1 as [-> _]. exact Hn. }
  intros s2 Hs2. cbn [Entry.Exists entry_exists negb]. apply hwp_respond. split; [done|]. by etransitivity.
Qed.

(** An operation in progress locks the instance.  A deletion of an
    instance whose entry records an operation, even a finished one that was
    not polled, is answered with 500; the entry stays as it is and nothing is
    started. *)
Lemma busy_instance_not_deleted configuration r params id e sid pid c p t opid status s :
  asyncRequired r = None -> ByName params "instance_id" = id -> id <> "" -> available (world s) ->
  instance_entry (world s) (server_Namespace configuration) id e -> describes e sid pid c p ->
  op_state_of e = Running t opid \/ op_state_of e = Finished t opid status ->
  getSingleParameter r "service_id" = Ok sid -> getSingleParameter r "plan_id" = Ok pid ->
  hwp (handleDeleteServiceInstance configuration r params) (fun w' _ s' =>
    rw_sent w' = Some StatusInternalServerError /\ spawned s' = spawned s /\
    stored (world s') !! instance_key (world s) (server_Namespace configuration) id = Some (entry_secret e)) new_writer s.
Proof.
  intros Hasync Hid Hne Hav He [Hs Hp _ _] Hst Hq1 Hq2. unfold handleDeleteServiceInstance.
  eapply (hwp_delete_prefix configuration r params id e); try done. intros s1 Hk1 Hdir Hkey Hframe.
  eapply hwp_service_plan; [exact Hs|exact Hp|exact Hq1|exact Hq2|].
  rewrite !bool_decide_true by done. cbn [andb].
  destruct (op_state_busy e t opid status Hst) as [op Hop].
  apply hwp_tryp_bind. rewrite (Start_busy _ _ _ Hop). apply wp_ret.
  split; [by rewrite rw_sent_jsonError|]. split; [by destruct Hk1 as (_ & ? & _)|done].
Qed.
End Deleting.

(** ** Creating an instance *)

Section Creating.
Context `{VendorLaws} {W : Type} `{PlatformLaws W} (bounds : Bounds) (configuration : ServerConfiguration).

Implicit Types s : sys W.

(** A value survives being stored: what it is read back as. *)
Definition stores (r r' : RawExtension) : Prop := exists t, Marshal r = Ok t /\ Unmarshal t = Ok r'.

(** What the entry of a new instance holds. *)
Record fresh_record (e : Entry) (id ns sid pid : string) (c p : RawExtension) : Prop := {
  fresh_describes : describes e sid pid c p;
  fresh_namespace : Entry.GetString e Namespace = Ok (Some ns);
  fresh_instance : Entry.GetString e InstanceID = Ok (Some id);
}.

Lemma Set_raw e k (r : RawExtension) t : Marshal r = Ok t -> Entry.Set_ e k r = Ok (put e k t).
Proof. intros Hm. by rewrite Set_put, Hm. Qed.

(** The six keys, on a fresh entry. *)
Lemma instance_keys_spec rn id ns request c p :
  stores (raw_or_empty (ci_Context request)) c -> stores (raw_or_empty (ci_Parameters request)) p ->
  let e0 := mkEntry (Entry.fresh_secret rn (Name ServiceInstance id)) false false in
  exists e, instance_keys e0 id ns request = Ok e /\
    secret_key (entry_secret e) = (rn, Name ServiceInstance id) /\ entry_exists e = false /\ entry_readOnly e = false /\
    fresh_record e id ns (ci_ServiceID request) (ci_PlanID request) c p /\ op_state_of e = Idle.
Proof.
  intros (tc & Hmc & Huc) (tp & Hmp & Hup) e0. unfold instance_keys. rewrite !Set_string. cbn [res_bind].
  rewrite Set_string. cbn [res_bind]. rewrite Set_string. cbn [res_bind]. rewrite Set_string. cbn [res_bind].
  rewrite (Set_raw _ _ _ _ Hmc). cbn [res_bind]. rewrite (Set_raw _ _ _ _ Hmp).
  eexists. split; [done|]. do 3 (split; [done|]). split.
  - split; [split|..]; unfold Entry.GetString; rewrite Get_data, !entry_data_put; simplify_map_eq;
      try (by cbn [Unmarshal GoJSON_string]; rewrite unmarshal_quote);
      cbn [res_bind]; rewrite ?Huc, ?Hup; done.
  - unfold op_state_of, Entry.GetString. rewrite !Get_data, !entry_data_put. simplify_map_eq.
    done.
Qed.

Lemma fresh_record_data e e' id ns sid pid c p :
  (forall k, k ∈ reserved_keys -> k <> Operation -> k <> OperationID -> k <> OperationStatus ->
     entry_data e' !! k = entry_data e !! k) ->
  fresh_record e id ns sid pid c p -> fresh_record e' id ns sid pid c p.
Proof.
  intros Hd [Hde Hn Hi]. split; [by eapply describes_data|..]; unfold Entry.GetString in *;
    rewrite Get_data, Hd by (set_solver || done); by rewrite Get_data in Hn, Hi.
Qed.

(** The run of a creation up to [Prepare], from a state without the entry: the
    keys of the request are set and committed, and [Prepare] ends like this. *)
Definition prepared (request : CreateServiceInstanceRequest) (rn id ns : string) (s0 : sys W)
    (r : result (Creator * Entry)) (s2 : sys W) : Prop :=
  exists e0 e1 s1,
    instance_keys (mkEntry (Entry.fresh_secret rn (Name ServiceInstance id)) false false) id ns request = Ok e0 /\
    run (Entry.Commit e0) s0 = (Done (Ok e1), s1) /\
    run (Creator_Prepare bounds (mkCreator ResourceTypeServiceInstance []) e1) s1 = (Done r, s2).

(** And on: the operation is started on what [Prepare] returned, and the
    creator that it returned is left to a program in the background. *)
Definition creation_started (request : CreateServiceInstanceRequest) (rn id ns : string) (s0 : sys W)
    (provisioner : Creator) (e : Entry) (s' : sys W) : Prop :=
  exists e2 s2 s3, prepared request rn id ns s0 (Ok (provisioner, e2)) s2 /\
    run (Start e2 TypeProvision) s2 = (Done (Ok e), s3) /\
    s' = mkSys (world s3) (spawned s0 ++ [_ <- Creator_Run bounds provisioner e ;; Ret tt]).

(** The answer to an accepted creation. *)
Definition accepted (e : Entry) (opid : string) (w : writer) : Prop :=
  match Entry.GetString e DashboardURL with
  | Ok dashboard => w = JSONResponse new_writer StatusAccepted (CreateServiceInstanceResponse_Marshal
                          (mkCreateInstanceResponse (default "" dashboard) opid))
  | Err _ => rw_sent w = Some StatusInternalServerError
  end.

(** How a creation request ends: accepted with a program in the background
    that will create the resources of the prepared entry, or refused by
    [Prepare] after the entry was committed. *)
Definition creation_outcome (request : CreateServiceInstanceRequest) (s0 s' : sys W) (rn id ns : string)
    (c p : RawExtension) (w' : writer) : Prop :=
  exists e, stored (world s') !! (rn, Name ServiceInstance id) = Some (entry_secret e) /\
    fresh_record e id ns (ci_ServiceID request) (ci_PlanID request) c p /\ committable (world s') e /\
    ((exists opid provisioner,
        creation_started request rn id ns s0 provisioner e s' /\ op_state_of e = Running TypeProvision opid /\
        spawned s' = spawned s0 ++ [_ <- Creator_Run bounds provisioner e ;; Ret tt] /\ accepted e opid w') \/
     (exists err, prepared request rn id ns s0 (Err err) s' /\ op_state_of e = Idle /\ spawned s' = spawned s0 /\
        w' = jsonError new_writer err)).

(** [Prepare] returns, for this service and plan. *)
Definition prepares (config : ServiceBrokerConfig) (sid pid : string) : Prop :=
  forall e s, configured (world s) = Some config ->
    Entry.GetString e ServiceID = Ok (Some sid) -> Entry.GetString e PlanID = Ok (Some pid) ->
    wp (Creator_Prepare bounds (mkCreator ResourceTypeServiceInstance []) e) (fun _ _ => True) s.

Lemma json_decode_error e :
  match Entry.GetString e DashboardURL with Ok _ => True | Err err => translateError err = (StatusInternalServerError, ErrorInternalServerError) end.
Proof.
  unfold Entry.GetString. rewrite Get_data. destruct (entry_data e !! DashboardURL) as [t|]; [|done].
  cbn [res_bind Unmarshal GoJSON_string]. destruct (unmarshal t) as [[]|]; done.
Qed.

(** The handler from the start of the operation on. *)
Lemma create_start request provisioner rn id ns c p e s0 s :
  available (world s) -> committable (world s) e -> op_state_of e = Idle ->
  prepared request rn id ns s0 (Ok (provisioner, e)) s -> spawned s = spawned s0 ->
  secret_key (entry_secret e) = (rn, Name ServiceInstance id) ->
  fresh_record e id ns (ci_ServiceID request) (ci_PlanID request) c p ->
  hwp (entry <~ tryp (Start e TypeProvision) ;;
       let frozenEntry := Entry.Clone entry in
       hlift (go (_ <- Creator_Run bounds provisioner entry ;; Ret tt)) ;;~
       operationID <~ require (Entry.GetString frozenEntry OperationID) (unexpected "service instance missing operation ID") ;;
       dashboardURL <~ try_ (Entry.GetString frozenEntry DashboardURL) ;;
       respond StatusAccepted (CreateServiceInstanceResponse_Marshal
         (mkCreateInstanceResponse (default "" dashboardURL) operationID)))
    (fun w' _ s' => creation_outcome request s0 s' rn id ns c p w' /\
       (forall k, k <> (rn, Name ServiceInstance id) -> stored (world s') !! k = stored (world s) !! k)) new_writer s.
Proof.
  intros Hav Hc Hst Hprep Hsp Hk Hrec. apply hwp_Start_idle; [done..|]. intros e' opid s1 Hrun Hk1 Hr Hst'. cbv zeta. apply hwp_go.
  pose proof (committed_data _ _ _ _ Hr) as Hd. pose proof (committed_lookup _ _ _ _ Hr) as Hl. rewrite started_key, Hk in Hl.
  assert (spawned s1 = spawned s0) as Hsp1 by (destruct Hk1 as (_ & -> & _); done).
  assert (forall w', accepted e' opid w' ->
            creation_outcome request s0 (mkSys (world s1) (spawned s1 ++ [_ <- Creator_Run bounds provisioner e' ;; Ret tt]))
              rn id ns c p w' /\
            (forall k, k <> (rn, Name ServiceInstance id) -> stored (world s1) !! k = stored (world s) !! k)) as Hout.
  { intros w' Hw. split.
    - exists e'. split; [exact Hl|]. split.
      { eapply fresh_record_data, Hrec. intros k Hkr Ho1 Ho2 Ho3. rewrite Hd. unfold started.
        by rewrite !entry_data_put, !lookup_insert_ne by congruence. }
      split; [by eapply committed_committable|]. left. exists opid, provisioner. rewrite Hsp1. split; [|done].
      by exists e, s, s1.
    - intros k Hne. eapply committed_lookup_ne; [exact Hr|]. by rewrite started_key, Hk. }
  apply hwp_require_bind. change (Entry.GetString (Entry.Clone e') OperationID) with (Entry.GetString e' OperationID).
  rewrite (Running_id _ _ _ Hst'). apply hwp_try_bind. unfold accepted in Hout.
  change (Entry.GetString (Entry.Clone e') DashboardURL) with (Entry.GetString e' DashboardURL).
  pose proof (json_decode_error e') as Hj. destruct (Entry.GetString e' DashboardURL) as [d|err].
  - by apply hwp_respond, Hout.
  - apply Hout. rewrite rw_sent_jsonError. by rewrite Hj.
Qed.

Lemma create_new request rn id ns c p config s :
  available (world s) -> configured (world s) = Some config ->
  stored (world s) !! (rn, Name ServiceInstance id) = None ->
  getNamespace (ci_Context request) (server_Namespace configuration) = Ok ns ->
  stores (raw_or_empty (ci_Context request)) c -> stores (raw_or_empty (ci_Parameters request)) p ->
  prepares config (ci_ServiceID request) (ci_PlanID request) ->
  hwp (new_instance bounds configuration
         (mkEntry (Entry.fresh_secret rn (Name ServiceInstance id)) false false) id request)
    (fun w' _ s' =>
       creation_outcome request s s' rn id ns c p w' /\
       (forall k, k <> (rn, Name ServiceInstance id) -> stored (world s') !! k = stored (world s) !! k)) new_writer s.
Proof.
  intros Hav Hcf Hnone Hns Hc Hp Hprep. unfold new_instance. apply hwp_try_bind. rewrite Hns.
  destruct (instance_keys_spec rn id ns request c p Hc Hp) as (e1 & He1 & Hk1 & Hex1 & Hro1 & Hrec1 & Hst1).
  apply hwp_try_bind. rewrite He1. apply hwp_Commit_new; [done..|by rewrite Hk1|]. intros e2 s2 Hrun2 Hkept2 Hr2.
  pose proof (committed_data _ _ _ _ Hr2) as Hd2. pose proof (committed_key _ _ _ _ Hr2) as Hk2. rewrite Hk1 in Hk2.
  pose proof (committed_lookup _ _ _ _ Hr2) as Hl2. rewrite Hk1 in Hl2.
  assert (forall k, k <> (rn, Name ServiceInstance id) -> stored (world s2) !! k = stored (world s) !! k) as Hframe
    by (intros k Hk; eapply committed_lookup_ne; [exact Hr2|by rewrite Hk1]).
  assert (fresh_record e2 id ns (ci_ServiceID request) (ci_PlanID request) c p) as Hrec2
    by (eapply fresh_record_data, Hrec1; intros; by rewrite Hd2).
  assert (op_state_of e2 = Idle) as Hst2 by (by rewrite (op_state_of_data _ _ Hd2)).
  apply hwp_try_bind. cbn [NewCreator]. eapply hwp_prepare; [by eapply committed_committable| |].
  { destruct Hrec2 as [[Hs Hpl _ _] _ _]. apply Hprep; [by eapply kept_configured|done|done]. }
  intros r s3 Hrun3 _ Hu3. assert (prepared request rn id ns s r s3) as Hpr by by exists e1, e2, s2.
  pose proof Hu3 as [Hs3 (_ & Hsp3 & _)]. pose proof Hkept2 as (_ & Hsp2 & _). destruct r as [[pr e3]|err].
  2:{ rewrite Hs3. split; [|done]. exists e2. rewrite Hs3. do 2 (split; [done|]).
      split; [eapply (committable_unchanged s2); [exact Hu3|by eapply committed_committable]|].
      right. exists err. do 2 (split; [done|]). split; [congruence|done]. }
  intros Hedit Hc3 Hst3. destruct Hedit as (Hk3 & _ & _ & _ & Hd3).
  eapply hwp_mono.
  { eapply (create_start request pr rn id ns c p e3 s); [|done|by rewrite Hst3|done|congruence|by rewrite Hk3|].
    - eapply kept_available; [apply unchanged_kept, Hu3|by eapply kept_available].
    - eapply fresh_record_data, Hrec2. intros k Hk _ _ _. by apply Hd3. }
  intros w' o s' [Hout Hf]. split; [done|]. intros k Hk. by rewrite Hf, Hs3, Hframe.
Qed.

(** ** The whole handler *)

(** A creation request that passes every check on the request itself. *)
Record creation_request (config : ServiceBrokerConfig) (r : Request) (params : Params)
    (request : CreateServiceInstanceRequest) (rn id : string) (s : sys W) : Prop := {
  request_async : asyncRequired r = None;
  request_body : jsonRequest r = Ok request;
  request_id : ByName params "instance_id" = id /\ id <> "";
  request_authorized : wp (authorize configuration r (ci_ServiceID request) (ci_PlanID request))
                         (fun err _ => err = None) s;
  request_plan : validateServicePlan config (ci_ServiceID request) (ci_PlanID request) = None;
  request_parameters : validateParameters config (ci_ServiceID request) (ci_PlanID request)
      schemaTypeServiceInstance schemaOperationCreate (ci_Parameters request) = Ret None;
  request_registry : exists binding,
      GetTemplateBindings config (ci_ServiceID request) (ci_PlanID request) = Ok binding /\
      registryNamespace binding (ci_Context request) (server_Namespace configuration) = Ok rn;
}.

Lemma calm_authorize r sid pid : effects no_writes (authorize configuration r sid pid).
Proof. unfold authorize, checkBoughtServices, nil_dereference, type_assertion. effects_solver. Qed.

(** The instance has been entered in the directory, with its namespace, and
    nothing else has been written. *)
Definition registered (ns id rn : string) (s s' : sys W) : Prop :=
  directory_set s s' ns (<[id := encode_dirent (mkDirectoryEntry rn)]> (directory_view (world s) ns)).

Lemma registered_namespace ns id rn s s' : registered ns id rn s s' -> instance_namespace (world s') ns id = rn.
Proof. intros (_ & Hv & _). unfold instance_namespace. rewrite Hv, lookup_insert_eq. by rewrite Unmarshal_dirent. Qed.

Lemma registered_unchanged ns id rn s s' s'' : registered ns id rn s s' -> unchanged s' s'' -> registered ns id rn s s''.
Proof.
  intros (Hk & Hv & Hf) [Hs Hk']. split; [by etransitivity|]. split; [unfold directory_view; by rewrite Hs|].
  intros k Hne. rewrite Hs. by apply Hf.
Qed.

Lemma hwp_create_prefix config r params request rn id Q s :
  creation_request config r params request rn id s -> available (world s) -> configured (world s) = Some config ->
  (forall s', registered (server_Namespace configuration) id rn s s' ->
     hwp (entry <~ tryp (Entry.New ServiceInstance rn id false) ;;
          if Entry.Exists entry then existing_instance entry request
          else new_instance bounds configuration entry id request) Q new_writer s') ->
  hwp (handleCreateServiceInstance bounds configuration r params) Q new_writer s.
Proof.
  intros [Ha Hb [Hid Hne] Hauth Hpl Hpar (binding & Hbind & Hrn)] Hav Hcf Hk. unfold handleCreateServiceInstance.
  rewrite Ha, Hb. apply hwp_check_bind, hwp_try_bind. apply hwp_lift_bind.
  apply wp_no_writes; [apply calm_authorize|]. eapply wp_mono; [exact Hauth|]. intros err s1 -> Hs1.
  apply hwp_check_bind. cbv zeta. rewrite Hid. apply hwp_check_bind. rewrite bool_decide_false by done.
  assert (forall s', unchanged s s' -> configured (world s') = Some config) as Hcf'
    by (intros; eapply kept_configured; [by apply unchanged_kept|done]).
  eapply hwp_Config_bind; [by apply Hcf'|]. intros s2 Hs2. apply hwp_check_bind. rewrite Hpl.
  assert (unchanged s s2) as Hu2 by (by etransitivity).
  eapply hwp_Config_bind; [by apply Hcf'|]. intros s3 Hs3. rewrite Hpar. apply hwp_lift_bind, wp_ret, hwp_check_bind.
  assert (unchanged s s3) as Hu3 by (by etransitivity).
  eapply hwp_Config_bind; [by apply Hcf'|]. intros s4 Hs4.
  assert (unchanged s s4) as Hu4 by (by etransitivity).
  apply hwp_tryp_bind, wp_registerDirectoryInstance. intros [d|err] s5 Hk5 Hr.
  - destruct Hr as [(b & Hb' & Hn) (_ & Hv & Hf)]. rewrite Hbind in Hb'. injection Hb' as <-.
    rewrite Hrn in Hn. injection Hn as Hn. rewrite <- Hn. apply Hk. split; [|split].
    + etransitivity; [apply unchanged_kept, Hu4|done].
    + rewrite Hv. unfold directory_view at 1. destruct Hu4 as [-> _]. fold (directory_view (world s) (server_Namespace configuration)).
      rewrite Hn. by destruct d.
    + intros k Hne'. rewrite Hf by done. by destruct Hu4 as [-> _].
  - exfalso. destruct Hr as [_ Hr]. rewrite Hbind in Hr.
    specialize (Hr (kept_available _ _ (unchanged_kept _ _ Hu4) Hav)). congruence.
Qed.

Lemma instance_directory_key rn id ns : (rn, Name ServiceInstance id) <> directory_key ns.
Proof. by intros [= _ ?]. Qed.

Lemma hwp_create_instance config r params request rn id ns c p s :
  creation_request config r params request rn id s -> available (world s) -> configured (world s) = Some config ->
  stored (world s) !! (rn, Name ServiceInstance id) = None ->
  getNamespace (ci_Context request) (server_Namespace configuration) = Ok ns ->
  stores (raw_or_empty (ci_Context request)) c -> stores (raw_or_empty (ci_Parameters request)) p ->
  prepares config (ci_ServiceID request) (ci_PlanID request) ->
  hwp (handleCreateServiceInstance bounds configuration r params) (fun w' _ s' => exists s0,
    registered (server_Namespace configuration) id rn s s0 /\
    creation_outcome request s0 s' rn id ns c p w' /\ spawned s0 = spawned s /\
    instance_namespace (world s') (server_Namespace configuration) id = rn /\
    (forall k, k <> (rn, Name ServiceInstance id) -> k <> directory_key (server_Namespace configuration) ->
       stored (world s') !! k = stored (world s) !! k)) new_writer s.
Proof.
  intros Hreq Hav Hcf Hnone Hns Hc Hp Hprep. eapply hwp_create_prefix; [done..|]. intros s1 Hreg1.
  pose proof Hreg1 as (Hk1 & _ & Hf1). pose proof (kept_available _ _ Hk1 Hav) as Hav1.
  eapply hwp_New_missing; [done|by rewrite Hf1 by apply instance_directory_key|]. intros s2 Hs2. cbn [Entry.Exists entry_exists].
  pose proof (registered_unchanged _ _ _ _ _ _ Hreg1 Hs2) as Hreg. pose proof Hreg as (Hk2 & Hv2 & Hf2).
  eapply hwp_mono.
  { eapply (create_new request rn id ns c p config); try done; [by eapply kept_available|by eapply kept_configured|].
    rewrite Hf2; [done|apply instance_directory_key]. }
  intros w' o s3 [Hout Hf3]. exists s2. do 2 (split; [done|]). split; [by destruct Hk2 as (_ & ? & _)|]. split.
  - unfold instance_namespace, directory_view. rewrite Hf3 by (apply not_eq_sym, instance_directory_key).
    by apply registered_namespace in Hreg.
  - intros k Hk Hk'. by rewrite Hf3, Hf2.
Qed.

(** C9: creating a service instance.  A valid request for an instance that
    does not exist registers it in the directory and writes an entry with its
    identity and with the context and parameters of the request.  Then the run
    of [Prepare] on that entry decides.  When it succeeds, a provision
    operation is started on the entry that it returned, one program that will
    create the resources that it prepared is started in the background, and the
    answer is 202 with the ID of that operation (500 when the dashboard URL
    that was computed is not a string); when it failed, the answer is its
    error, and the idle entry stays.  No other secret changes. *)
Theorem create_instance config r params request rn id ns c p s :
  creation_request config r params request rn id s -> available (world s) -> configured (world s) = Some config ->
  stored (world s) !! (rn, Name ServiceInstance id) = None ->
  getNamespace (ci_Context request) (server_Namespace configuration) = Ok ns ->
  stores (raw_or_empty (ci_Context request)) c -> stores (raw_or_empty (ci_Parameters request)) p ->
  prepares config (ci_ServiceID request) (ci_PlanID request) ->
  hwp (handleCreateServiceInstance bounds configuration r params) (fun w' _ s' => exists s0,
    registered (server_Namespace configuration) id rn s s0 /\
    creation_outcome request s0 s' rn id ns c p w' /\ spawned s0 = spawned s /\
    instance_namespace (world s') (server_Namespace configuration) id = rn /\
    (forall k, k <> (rn, Name ServiceInstance id) -> k <> directory_key (server_Namespace configuration) ->
       stored (world s') !! k = stored (world s) !! k)) new_writer s.
Proof. apply hwp_create_instance. Qed.

(** C14: retrying a creation.  For an instance that exists the request
    changes no secret but the directory, starts nothing, and is answered from
    the registry: 409 when service, plan, context or parameters are not, byte
    for byte, those of the entry, or when an update or deletion is in progress;
    202 with the ID of the operation while the instance is being created; 200
    when no operation is recorded.  The directory then says of the instance
    that it is in its namespace, and of the others what it said before; it is
    the same directory when the instance was registered, and a new entry when it
    was not, as after a deletion that was refused. *)
Theorem create_retry config r params request rn id e sid pid c p dashboard s :
  creation_request config r params request rn id s -> available (world s) -> configured (world s) = Some config ->
  stored (world s) !! (rn, Name ServiceInstance id) = Some (entry_secret e) ->
  describes e sid pid c p -> op_state_of e <> Inconsistent -> Entry.GetString e DashboardURL = Ok dashboard ->
  let directory w := directory_view w (server_Namespace configuration) in
  let entered := encode_dirent (mkDirectoryEntry rn) in
  hwp (handleCreateServiceInstance bounds configuration r params) (fun w' _ s' =>
    spawned s' = spawned s /\
    directory (world s') = <[id := entered]> (directory (world s)) /\
    (directory (world s) !! id = Some entered -> directory (world s') = directory (world s)) /\
    (forall k, k <> directory_key (server_Namespace configuration) -> stored (world s') !! k = stored (world s) !! k) /\
    let answer status opid := w' = JSONResponse new_writer status (CreateServiceInstanceResponse_Marshal
                                     (mkCreateInstanceResponse (default "" dashboard) opid)) in
    if same_request sid pid c p (ci_ServiceID request) (ci_PlanID request) (ci_Context request) (ci_Parameters request)
    then match operation_of (op_state_of e) with
         | None => answer StatusOK ""
         | Some (t, opid) => if t =?s TypeProvision then answer StatusAccepted opid
                             else rw_sent w' = Some StatusConflict
         end
    else rw_sent w' = Some StatusConflict) new_writer s.
Proof.
  intros Hreq Hav Hcf Hs Hd Hi Hu directory entered. eapply hwp_create_prefix; [done..|]. intros s1 Hreg1.
  pose proof Hreg1 as (Hk1 & _ & Hf1).
  eapply hwp_New_existing; [by eapply kept_available|rewrite Hf1; [exact Hs|apply instance_directory_key]|].
  intros s2 Hs2. cbn [Entry.Exists entry_exists].
  pose proof (registered_unchanged _ _ _ _ _ _ Hreg1 Hs2) as (Hk2 & Hv2 & Hf2).
  eapply hwp_mono.
  { eapply (create_existing_instance (mkEntry (entry_secret e) true false) request sid pid c p dashboard).
    - destruct Hd as [? ? ? ?]. by split.
    - exact Hi.
    - exact Hu. }
  intros w' o s3 [-> Hw]. split; [by destruct Hk2 as (_ & ? & _)|]. split; [exact Hv2|]. split; [|done].
  intros Hin. unfold directory. rewrite Hv2. by apply insert_id.
Qed.
End Creating.

(** ** Examples *)

Module HandlerWitness.
Import Fixture.

Definition bounds : Bounds := mkBounds 5 5.

Definition server : ServerConfiguration :=
  mkServerConfiguration "ns" None None (Some (mkAdvancedToken "" "" "" "" "" "key")).

Definition request (method query : string) : Request :=
  mkRequest method "" query [("Authorization", ["Bearer joe:key"])] 10
    (Ok (marshal (VObject [("plan_id", VString "p1"); ("service_id", VString "s1")]))).

Definition params : Params := [("instance_id", "i1")].

Definition create_query : Request := request "PUT" "accepts_incomplete=true".
Definition delete_query : Request := request "DELETE" "accepts_incomplete=true&service_id=s1&plan_id=p1".
Definition poll_query : Request := request "GET" "operation=uuid-2".

Definition create_body : CreateServiceInstanceRequest :=
  match jsonRequest (T := CreateServiceInstanceRequest) create_query with
  | Ok b => b
  | Err _ => mkCreateInstance "" "" None "" "" None None
  end.

Definition after {A} (o : outcome A * sys SimWorld) : sys SimWorld := mkSys (world o.2) [].

(** The instance is being created, then its program has run, then it was polled. *)
Definition created := run (handleCreateServiceInstance bounds server create_query params new_writer) start.
Definition creating : sys SimWorld := after created.
Definition finished : sys SimWorld :=
  match spawned created.2 with t :: _ => after (run t creating) | [] => creating end.
Definition idle : sys SimWorld := after (run (handlePollServiceInstance server poll_query params new_writer) finished).

Definition entry_at (s : sys SimWorld) : Entry :=
  mkEntry (default (Entry.fresh_secret "" "") (stored (world s) !! ("ns", Name ServiceInstance "i1"))) true false.

Abbreviation null := (mkRaw None).
Ltac evaluate := vm_compute; reflexivity.

Lemma creating_entry : instance_entry (world creating) "ns" "i1" (entry_at creating).
Proof. split; [|split]; evaluate. Qed.

Lemma finished_entry : instance_entry (world finished) "ns" "i1" (entry_at finished).
Proof. split; [|split]; evaluate. Qed.

Lemma idle_entry : instance_entry (world idle) "ns" "i1" (entry_at idle).
Proof. split; [|split]; evaluate. Qed.

Lemma creating_describes : describes (entry_at creating) "s1" "p1" null null.
Proof. split; evaluate. Qed.

Lemma finished_describes : describes (entry_at finished) "s1" "p1" null null.
Proof. split; evaluate. Qed.

Lemma idle_describes : describes (entry_at idle) "s1" "p1" null null.
Proof. split; evaluate. Qed.

Lemma poll_reports_witness :
  hwp (handlePollServiceInstance server poll_query params) (fun w' _ s' =>
    w' = JSONResponse new_writer StatusOK (poll_response PollStateSucceeded "") /\
    polled (Finished TypeProvision "uuid-2" "") finished s' (entry_at finished)) new_writer finished.
Proof.
  assert (op_state_of (entry_at finished) = Finished TypeProvision "uuid-2" "") as Hst by evaluate.
  eapply hwp_mono.
  - apply (poll_reports server (entry_at finished) poll_query params "s1" "p1" null null "i1" TypeProvision "uuid-2" "" finished);
      [right; exact Hst|evaluate|discriminate|evaluate|exact finished_entry|exact finished_describes
      |left; evaluate|left; evaluate|evaluate].
  - rewrite Hst. intros w' o s' Hw. exact Hw.
Defined.

Lemma deprovision_witness :
  hwp (handleDeleteServiceInstance server delete_query params) (fun w' _ s' =>
    exists opid e' t,
      w' = JSONResponse new_writer StatusAccepted (CreateServiceInstanceResponse_Marshal (mkCreateInstanceResponse "" opid)) /\
      stored (world s') !! ("ns", Name ServiceInstance "i1") = Some (entry_secret e') /\
      op_state_of e' = Running TypeDeprovision opid /\ spawned s' = [t] /\
      directory_view (world s') "ns" !! "i1" = None /\
      (forall k, k <> ("ns", Name ServiceInstance "i1") -> k <> directory_key "ns" ->
         stored (world s') !! k = stored (world idle) !! k) /\
      wp t (fun _ s'' => stored (world s'') = delete ("ns", Name ServiceInstance "i1") (stored (world s'))) s')
    new_writer idle.
Proof.
  assert (instance_key (world idle) "ns" "i1" = ("ns", Name ServiceInstance "i1")) as Hk by evaluate.
  rewrite <- Hk.
  apply (deprovision server delete_query params "i1" (entry_at idle) "s1" "p1" null null idle);
    [evaluate|evaluate|discriminate|evaluate|exact idle_entry|exact idle_describes|evaluate|evaluate|evaluate].
Defined.

(** A deletion with the wrong plan. *)
Lemma refused_deletion_forgets_witness :
  let r := request "DELETE" "accepts_incomplete=true&service_id=s1&plan_id=p2" in
  hwp (handleDeleteServiceInstance server r params) (fun w' _ s' =>
    rw_sent w' = Some StatusBadRequest /\ spawned s' = [] /\
    stored (world s') !! instance_key (world idle) "ns" "i1" = Some (entry_secret (entry_at idle)) /\
    instance_namespace (world s') "ns" "i1" = "ns") new_writer idle.
Proof.
  intros r.
  apply (refused_deletion_forgets server r params "i1" (entry_at idle) "s1" "p1" null null "s1" "p2" idle);
    [evaluate|evaluate|discriminate|evaluate|exact idle_entry|exact idle_describes|evaluate|evaluate|right; discriminate].
Defined.

Lemma busy_instance_not_deleted_witness :
  hwp (handleDeleteServiceInstance server delete_query params) (fun w' _ s' =>
    rw_sent w' = Some StatusInternalServerError /\ spawned s' = [] /\
    stored (world s') !! instance_key (world creating) "ns" "i1" = Some (entry_secret (entry_at creating)))
    new_writer creating.
Proof.
  apply (busy_instance_not_deleted server delete_query params "i1" (entry_at creating) "s1" "p1" null null
           TypeProvision "uuid-2" "" creating);
    [evaluate|evaluate|discriminate|evaluate|exact creating_entry|exact creating_describes|left; evaluate|evaluate|evaluate].
Defined.

(** Preparing an instance that is a registry entry only. *)
Lemma entry_prepares : prepares (W := SimWorld) bounds entry_config "s1" "p1".
Proof.
  intros e s Hc Hs Hp. unfold Creator_Prepare, entry_service_plan. rewrite Hs. cbn [res_bind]. rewrite Hp.
  apply wp_try. unfold getTemplateBinding. apply wp_bind. eapply wp_Config; [exact Hc|]. intros s1 Hs1.
  apply wp_ret.
  assert (GetTemplateBindings entry_config "s1" "p1" = Ok entry_binding) as -> by evaluate.
  vm_compute. exact I.
Qed.

(** The request is valid at the start and when the instance exists. *)
Lemma entry_request :
  creation_request server entry_config create_query params create_body "ns" "i1" entry_start.
Proof.
  split; try evaluate; [split; [evaluate|discriminate]|]. exists entry_binding. split; evaluate.
Qed.

Lemma finished_request :
  creation_request server Fixture.config create_query params create_body "ns" "i1" finished.
Proof.
  split; try evaluate; [split; [evaluate|discriminate]|]. exists database_binding. split; evaluate.
Qed.

Lemma create_instance_witness :
  hwp (handleCreateServiceInstance bounds server create_query params) (fun w' _ s' => exists s0,
    registered "ns" "i1" "ns" entry_start s0 /\
    creation_outcome bounds create_body s0 s' "ns" "i1" "ns" null null w' /\ spawned s0 = [] /\
    instance_namespace (world s') "ns" "i1" = "ns" /\
    (forall k, k <> ("ns", Name ServiceInstance "i1") -> k <> directory_key "ns" ->
       stored (world s') !! k = stored (world entry_start) !! k)) new_writer entry_start.
Proof.
  apply (create_instance bounds server entry_config create_query params create_body "ns" "i1" "ns" null null entry_start);
    [exact entry_request|evaluate|evaluate|evaluate|evaluate| | |exact entry_prepares];
    exists "null"; split; evaluate.
Defined.

(** The creation is retried after it has been polled: nothing changes.  It is
    also retried after a deletion with the wrong plan: the directory entry that
    the deletion lost is there again. *)
Definition forgotten : sys SimWorld :=
  after (run (handleDeleteServiceInstance server (request "DELETE" "accepts_incomplete=true&service_id=s1&plan_id=p2")
                params new_writer) finished).

Lemma forgotten_request :
  creation_request server Fixture.config create_query params create_body "ns" "i1" forgotten.
Proof.
  split; try evaluate; [split; [evaluate|discriminate]|]. exists database_binding. split; evaluate.
Qed.

Lemma create_retry_witness :
  (hwp (handleCreateServiceInstance bounds server create_query params) (fun w' _ s' =>
    spawned s' = [] /\ directory_view (world s') "ns" = directory_view (world finished) "ns" /\
    w' = JSONResponse new_writer StatusAccepted (CreateServiceInstanceResponse_Marshal
           (mkCreateInstanceResponse "http://dashboard" "uuid-2"))) new_writer finished) /\
  directory_view (world forgotten) "ns" !! "i1" = None /\
  (hwp (handleCreateServiceInstance bounds server create_query params) (fun w' _ s' =>
    directory_view (world s') "ns" !! "i1" = Some (encode_dirent (mkDirectoryEntry "ns")) /\
    w' = JSONResponse new_writer StatusAccepted (CreateServiceInstanceResponse_Marshal
           (mkCreateInstanceResponse "http://dashboard" "uuid-2"))) new_writer forgotten).
Proof.
  assert (op_state_of (entry_at finished) = Finished TypeProvision "uuid-2" "") as Hst by evaluate.
  split; [|split; [evaluate|]]; eapply hwp_mono.
  - apply (create_retry bounds server Fixture.config create_query params create_body "ns" "i1" (entry_at finished)
             "s1" "p1" null null (Some "http://dashboard") finished);
      [exact finished_request|evaluate|evaluate|evaluate|exact finished_describes
      |rewrite Hst; discriminate|evaluate].
  - rewrite Hst. intros w' o s' (Hsp & _ & Hd & _ & Hw). split; [exact Hsp|]. split; [apply Hd; evaluate|exact Hw].
  - apply (create_retry bounds server Fixture.config create_query params create_body "ns" "i1" (entry_at finished)
             "s1" "p1" null null (Some "http://dashboard") forgotten);
      [exact forgotten_request|evaluate|evaluate|evaluate|exact finished_describes
      |rewrite Hst; discriminate|evaluate].
  - rewrite Hst. intros w' o s' (_ & Hd & _ & _ & Hw). split; [|exact Hw].
    exact (eq_trans (f_equal (lookup "i1") Hd) (lookup_insert_eq _ _ _)).
Defined.

End HandlerWitness.
