(* ===== verification/BindingFacts.v ===== *)
(** * Properties of service bindings ([pkg/broker/handlers.go])

    Creating a binding is synchronous: the resources are created and the
    operation is ended before the answer.  The binding starts from the data of
    its instance, and that includes an operation in progress. *)

From S2P Require Import Prelude Json JsonFacts Errors Types Platform Vendor Sim Fixture Api Http Registry.
From S2P Require Import RegistryFacts Operation Config BrokerUtil DirectoryFacts Auth Template TemplateFacts.
From S2P Require Import Provision ProvisionFacts Handlers HandlerFacts.
From Stdlib Require Import Lia.

Local Open Scope broker_scope.

Section Binding.
Context `{VendorLaws} {W : Type} `{PlatformLaws W} (bounds : Bounds) (configuration : ServerConfiguration).

Implicit Types s : sys W.

Abbreviation ns := (server_Namespace configuration).

(** A binding request that passes every check on the request itself. *)
Record binding_request (config : ServiceBrokerConfig) (r : Request) (params : Params)
    (request : CreateServiceBindingRequest) (id bid : string) : Prop := {
  binding_body : jsonRequest r = Ok request;
  binding_instance : ByName params "instance_id" = id /\ id <> "";
  binding_id : ByName params "binding_id" = bid /\ bid <> "";
  binding_plan : validateServicePlan config (cb_ServiceID request) (cb_PlanID request) = None;
  binding_bindable : verifyBindable config (cb_ServiceID request) (cb_PlanID request) = None;
  binding_parameters : validateParameters config (cb_ServiceID request) (cb_PlanID request)
      schemaTypeServiceBinding schemaOperationCreate (cb_Parameters request) = Ret None;
}.

Definition binding_key (w : W) (id bid : string) : string * string :=
  (instance_namespace w ns id, Name ServiceBinding bid).

Lemma hwp_binding_prefix config r params request id bid e Q s :
  binding_request config r params request id bid -> available (world s) -> configured (world s) = Some config ->
  instance_entry (world s) ns id e ->
  stored (world s) !! binding_key (world s) id bid = None ->
  (forall s', unchanged s s' ->
     hwp (new_binding bounds (mkEntry (Entry.fresh_secret (instance_namespace (world s) ns id) (Name ServiceBinding bid)) false false)
            (Entry.Clone e) bid request) Q new_writer s') ->
  hwp (handleCreateServiceBinding bounds configuration r params) Q new_writer s.
Proof.
  intros [Hb [Hid Hne] [Hbid Hbne] Hpl Hbd Hpar] Hav Hcf He Hnone Hk. unfold handleCreateServiceBinding.
  rewrite Hb. apply hwp_try_bind. cbv zeta. rewrite Hid, Hbid.
  apply hwp_check_bind. rewrite bool_decide_false by done. apply hwp_check_bind. rewrite bool_decide_false by done.
  assert (forall s', unchanged s s' -> configured (world s') = Some config) as Hcf'
    by (intros; eapply kept_configured; [by apply unchanged_kept|done]).
  eapply hwp_Config_bind; [done|]. intros s1 Hs1. apply hwp_check_bind. rewrite Hpl.
  eapply hwp_Config_bind; [by apply Hcf'|]. intros s2 Hs2. apply hwp_check_bind. rewrite Hbd.
  assert (unchanged s s2) as Hu2 by (by etransitivity).
  eapply hwp_Config_bind; [by apply Hcf'|]. intros s3 Hs3. rewrite Hpar. apply hwp_lift_bind, wp_ret, hwp_check_bind.
  assert (unchanged s s3) as Hu3 by (by etransitivity).
  apply hwp_directory; [by eapply kept_available; [apply unchanged_kept, Hu3|]|]. intros d s4 Hs4 Hd.
  assert (unchanged s s4) as Hu4 by (by etransitivity).
  rewrite (instance_namespace_stored _ _ _ _ (proj1 Hu3)) in Hd.
  destruct He as (Hse & Hex & Hro). rewrite Hd.
  eapply hwp_New_existing; [by eapply kept_available; [apply unchanged_kept, Hu4|]|by destruct Hu4 as [-> _]|].
  intros s5 Hs5. assert (unchanged s s5) as Hu5 by (by etransitivity). cbn [Entry.Exists entry_exists].
  apply hwp_check_bind.
  eapply hwp_New_missing; [by eapply kept_available; [apply unchanged_kept, Hu5|]|by destruct Hu5 as [-> _]|].
  intros s6 Hs6. cbn [Entry.Exists entry_exists].
  replace (mkEntry (entry_secret e) true true) with (Entry.Clone e) by (unfold Entry.Clone; by rewrite Hex).
  apply Hk. by etransitivity.
Qed.

(** ** The entry of a new binding *)

(** Nothing protects the key that holds the ID of the binding: a registry
    value of the configuration may overwrite it. *)
Lemma binding_id_unprotected : isKeyReadable BindingID = true /\ isKeyWritable BindingID = true.
Proof. done. Qed.

(** The keys are set on the data of the instance. *)
Lemma binding_keys_spec rn ie bid request sid pid ic ip c p :
  describes ie sid pid ic ip ->
  stores (raw_or_empty (cb_Context request)) c -> stores (raw_or_empty (cb_Parameters request)) p ->
  let e0 := mkEntry (Entry.fresh_secret rn (Name ServiceBinding bid)) false false in
  exists e, binding_keys e0 (Entry.Clone ie) bid request = Ok e /\
    secret_key (entry_secret e) = (rn, Name ServiceBinding bid) /\ entry_exists e = false /\ entry_readOnly e = false /\
    describes e sid pid c p /\ Entry.GetString e BindingID = Ok (Some bid) /\
    (forall k, k <> BindingID -> k <> Context_ -> k <> Parameters_ -> entry_data e !! k = entry_data ie !! k).
Proof.
  intros [Hs Hp _ _] (tc & Hmc & Huc) (tp & Hmp & Hup) e0. unfold binding_keys.
  rewrite Set_string. cbn [res_bind]. rewrite (Set_raw _ _ _ _ Hmc). cbn [res_bind].
  rewrite (Set_raw _ _ _ _ Hmp).
  assert (forall k, k <> BindingID -> k <> Context_ -> k <> Parameters_ ->
    entry_data (put (put (put (Entry.Inherit e0 (Entry.Clone ie)) BindingID (quote bid)) Context_ tc) Parameters_ tp) !! k
      = entry_data ie !! k) as Hd.
  { intros k Hk1 Hk2 Hk3. rewrite !entry_data_put, !lookup_insert_ne by congruence. rewrite Inherit_lookup.
    change (entry_data (Entry.Clone ie)) with (entry_data ie). by destruct (entry_data ie !! k). }
  eexists. split; [done|]. split.
  { rewrite !put_key. unfold Entry.Inherit. by destruct (secret_Data _). }
  split; [unfold Entry.Inherit; by destruct (secret_Data _)|]. split; [unfold Entry.Inherit; by destruct (secret_Data _)|].
  split; [split|split; [|exact Hd]].
  - unfold Entry.GetString in *. rewrite Get_data, Hd by done. by rewrite Get_data in Hs.
  - unfold Entry.GetString in *. rewrite Get_data, Hd by done. by rewrite Get_data in Hp.
  - rewrite Get_data, !entry_data_put. simplify_map_eq. by rewrite Huc.
  - rewrite Get_data, !entry_data_put. simplify_map_eq. by rewrite Hup.
  - rewrite <- (GetString_put_eq (Entry.Inherit e0 (Entry.Clone ie)) BindingID bid) at 1.
    unfold Entry.GetString. rewrite !Get_put_ne by done. done.
Qed.

Lemma op_state_agree e e' :
  (forall k, k ∈ [Operation; OperationID; OperationStatus] -> entry_data e' !! k = entry_data e !! k) ->
  op_state_of e' = op_state_of e.
Proof. intros Hd. unfold op_state_of, Entry.GetString. by rewrite !Get_data, !Hd by set_solver. Qed.

(** ** Creating a binding *)

(** Preparing a binding of this service and plan returns, and so does running
    what it prepared. *)
Definition provisions (config : ServiceBrokerConfig) (sid pid : string) : Prop :=
  forall e s, configured (world s) = Some config ->
    Entry.GetString e ServiceID = Ok (Some sid) -> Entry.GetString e PlanID = Ok (Some pid) ->
    wp (Creator_Prepare bounds (mkCreator ResourceTypeServiceBinding []) e) (fun r _ =>
      match r with
      | Ok (provisioner, _) => forall e1 s1, wp (Creator_run bounds provisioner e1) (fun _ _ => True) s1
      | Err _ => True
      end) s.

(** The run of a creation up to [Prepare], from a state without the entry: the
    keys are set on the data of the instance and committed, and [Prepare] ends
    like this. *)
Definition binding_prepared (ie : Entry) (bid : string) (request : CreateServiceBindingRequest) (rn : string)
    (s0 : sys W) (r : result (Creator * Entry)) (s2 : sys W) : Prop :=
  exists e0 e1 s1,
    binding_keys (mkEntry (Entry.fresh_secret rn (Name ServiceBinding bid)) false false) (Entry.Clone ie) bid request = Ok e0 /\
    run (Entry.Commit e0) s0 = (Done (Ok e1), s1) /\
    run (Creator_Prepare bounds (mkCreator ResourceTypeServiceBinding []) e1) s1 = (Done r, s2).

(** The answer once the creator has run with this error. *)
Definition binding_answer (e : Entry) (err : option error) : writer :=
  if error_text err =?s ""
  then match Entry.Get (T := RawExtension) e Credentials with
       | Ok credentials => JSONResponse new_writer StatusCreated (GetServiceBindingResponse_Marshal
                             (binding_response (Some (raw_or_empty credentials))))
       | Err err => jsonError new_writer err
       end
  else jsonError new_writer (NewConfigurationError (error_text err)).

(** And on: the operation is started on the entry that [Prepare] returned, the
    creator that it returned is run, and the operation is completed with what
    that run gave, and ended. *)
Definition binding_run (e2 e : Entry) (provisioner : Creator) (s2 : sys W) (err : option error) (s' : sys W) : Prop :=
  exists e3 s3 s4 e4 s5,
    run (Start e2 TypeProvision) s2 = (Done (Ok e3), s3) /\
    run (Creator_run bounds provisioner e3) s3 = (Done err, s4) /\
    run (Complete e3 err) s4 = (Done (e4, None), s5) /\
    run (End_ e4) s5 = (Done (Ok e), s').

(** How the request ends, from the state [s0] on. *)
Definition binding_outcome (ie : Entry) (bid : string) (request : CreateServiceBindingRequest) (rn : string)
    (s0 : sys W) (e : Entry) (w' : writer) (s' : sys W) : Prop :=
  (exists err, binding_prepared ie bid request rn s0 (Err err) s' /\ w' = jsonError new_writer err) \/
  (exists provisioner e2 s2 err, binding_prepared ie bid request rn s0 (Ok (provisioner, e2)) s2 /\
     binding_run e2 e provisioner s2 err s' /\ w' = binding_answer e err).

(** Running and ending the operation that was started. *)
Lemma hwp_run_binding provisioner e opid s Q :
  available (world s) -> committable (world s) e -> templated (secret_key (entry_secret e)) = false ->
  op_state_of e = Running TypeProvision opid ->
  wp (Creator_run bounds provisioner e) (fun _ _ => True) s ->
  (forall e' s' err, kept s s' ->
     (exists s1 e2 s2, run (Creator_run bounds provisioner e) s = (Done err, s1) /\
        run (Complete e err) s1 = (Done (e2, None), s2) /\ run (End_ e2) s2 = (Done (Ok e'), s')) ->
     owned (world s') = <[secret_key (entry_secret e) := entry_secret e']> (owned (world s)) ->
     entry_data e' = delete OperationStatus (delete OperationID (delete Operation (entry_data e))) ->
     Q (binding_answer e err)
       (if error_text err =?s ""
        then match Entry.Get (T := RawExtension) e Credentials with Ok _ => Some tt | Err _ => None end
        else None) s') ->
  hwp (let frozenEntry := Entry.Clone e in
       entry <~ hlift (Creator_Run bounds provisioner e) ;;
       operationStatus <~ require (Entry.GetString entry OperationStatus)
                            (unexpected "expected operation status not found") ;;
       _ <~ tryp (End_ entry) ;;
       check (if operationStatus =?s "" then None else Some (NewConfigurationError operationStatus)) ;;~
       credentials <~ try_ (Entry.Get (T := RawExtension) frozenEntry Credentials) ;;
       respond StatusCreated (GetServiceBindingResponse_Marshal
         (binding_response (Some (raw_or_empty credentials))))) Q new_writer s.
Proof.
  intros Hav Hc Hun Hst Hrun HQ. cbv zeta. apply hwp_lift_bind. unfold Creator_Run. apply wp_bind.
  apply wp_no_own_writes; [apply mild_run_steps|]. eapply wp_mono; [by apply wp_run|].
  intros err s1 [Her _] [Ho1 Hk1]. pose proof (owned_key _ _ _ Hun Ho1) as Hs1.
  destruct (op_state_busy e TypeProvision opid "" (or_introl Hst)) as [op Hop]. apply wp_bind.
  eapply wp_mono.
  { apply wp_run, (wp_Complete e err op (fun r s2 => kept s1 s2 /\
      match r.2 with
      | None => committed (world s1) (world s2) (put e OperationStatus (quote (error_text err))) r.1
      | Some _ => stored (world s2) = stored (world s1) /\ (available (world s1) -> ~ committable (world s1) e)
      end)); [done|]. intros e2 oerr s2 Hk2 Hr2. split; [done|]. cbn. destruct oerr; tauto. }
  intros [e2 oerr] s2 (Hcomp & Hk2 & Hr2). cbn [fst snd] in Hr2. apply wp_ret.
  pose proof (kept_available _ _ Hk1 Hav) as Hav1.
  destruct oerr as [cerr|].
  { destruct Hr2 as (_ & Hno). destruct Hno; [done|]. unfold committable in *. by rewrite Hs1. }
  assert (op_state_of e2 = Finished TypeProvision opid (error_text err)) as Hst2.
  { rewrite (op_state_of_data _ _ (committed_data _ _ _ _ Hr2)). apply (completed_state e TypeProvision opid ""). by left. }
  pose proof (op_state_reads e2 _ eq_refl) as Hrd. rewrite Hst2 in Hrd. destruct Hrd as (Hop2 & _ & Hstat2).
  apply hwp_require_bind. cbn [fst]. rewrite Hstat2. apply hwp_tryp_bind.
  eapply wp_mono; [apply wp_run, (wp_End e2 TypeProvision); [exact Hop2|]; intros r s3 Hk3 Hr3; exact (conj Hk3 Hr3)|].
  intros [e3|err3] s3 (Hend & Hk3 & Hr3).
  2:{ destruct Hr3 as [_ Hno]. destruct Hno; [by eapply kept_available|by eapply committed_committable]. }
  assert (kept s s3) as Hk by (etransitivity; [exact Hk1|by etransitivity]).
  assert (entry_data e3 = delete OperationStatus (delete OperationID (delete Operation (entry_data e)))) as Hd3.
  { rewrite (committed_data _ _ _ _ Hr3), ended_data, (committed_data _ _ _ _ Hr2), entry_data_put.
    apply map_eq. intros k. rewrite !lookup_delete, !lookup_insert. by repeat case_decide. }
  assert (owned (world s3) = <[secret_key (entry_secret e) := entry_secret e3]> (owned (world s))) as Hs3.
  { rewrite <- Ho1. apply owned_insert; [done|]. destruct Hr3 as (-> & _). rewrite ended_key, (committed_key _ _ _ _ Hr2), put_key.
    destruct Hr2 as (-> & _). by rewrite put_key, insert_insert_eq. }
  specialize (HQ e3 s3 err Hk ltac:(by exists s1, e2, s2) Hs3 Hd3). apply hwp_check_bind. unfold binding_answer in HQ.
  destruct (error_text err =?s ""); [|exact HQ]. apply hwp_try_bind.
  change (Entry.Get (Entry.Clone e) Credentials) with (Entry.Get (T := RawExtension) e Credentials).
  destruct (Entry.Get e Credentials); exact HQ.
Qed.

(** The handler from the commit of the entry on. *)
Lemma hwp_new_binding config ie bid request rn sid pid ic ip c p s :
  available (world s) -> configured (world s) = Some config ->
  stored (world s) !! (rn, Name ServiceBinding bid) = None ->
  describes ie sid pid ic ip -> op_state_of ie = Idle ->
  stores (raw_or_empty (cb_Context request)) c -> stores (raw_or_empty (cb_Parameters request)) p ->
  provisions config sid pid ->
  hwp (new_binding bounds (mkEntry (Entry.fresh_secret rn (Name ServiceBinding bid)) false false)
         (Entry.Clone ie) bid request)
    (fun w' _ s' => kept s s' /\ exists e,
       owned (world s') = <[(rn, Name ServiceBinding bid) := entry_secret e]> (owned (world s)) /\
       describes e sid pid c p /\ op_state_of e = Idle /\ binding_outcome ie bid request rn s e w' s') new_writer s.
Proof.
  intros Hav Hcf Hnone Hdesc Hidle Hc Hp Hprov. unfold new_binding.
  destruct (binding_keys_spec rn ie bid request sid pid ic ip c p Hdesc Hc Hp)
    as (e1 & He1 & Hk1 & Hex1 & Hro1 & Hrec1 & _ & Hd1).
  apply hwp_try_bind. rewrite He1. apply hwp_Commit_new; [done..|by rewrite Hk1|]. intros e2 s2 Hrun2 Hkept2 Hr2.
  pose proof (committed_data _ _ _ _ Hr2) as Hd2. pose proof (committed_key _ _ _ _ Hr2) as Hk2. rewrite Hk1 in Hk2.
  pose proof (committed_committable _ _ _ _ Hr2) as Hc2.
  assert (owned (world s2) = <[(rn, Name ServiceBinding bid) := entry_secret e2]> (owned (world s))) as Hs2
    by (apply owned_insert; [done|]; destruct Hr2 as (-> & _); by rewrite Hk1).
  assert (describes e2 sid pid c p) as Hrec2 by (eapply describes_data, Hrec1; intros; by rewrite Hd2).
  assert (op_state_of e2 = Idle) as Hst2.
  { rewrite (op_state_of_data _ _ Hd2), <- Hidle. apply op_state_agree. intros k Hk. apply Hd1; set_solver. }
  apply hwp_try_bind. cbn [NewCreator]. eapply hwp_prepare; [done| |].
  { destruct Hrec2 as [Hsv Hpl _ _]. apply Hprov; [by eapply kept_configured|done|done]. }
  intros r s3 Hrun3 Hall3 Hu3. pose proof (unchanged_owned _ _ Hu3) as [Ho3 Hkept3].
  assert (binding_prepared ie bid request rn s r s3) as Hpr by by exists e1, e2, s2. destruct r as [[pr e3]|err].
  2:{ split; [by etransitivity|]. exists e2. rewrite Ho3. do 3 (split; [done|]). left. by exists err. }
  intros Hedit Hc3 Hst3. destruct Hedit as (Hk3 & _ & _ & _ & Hd3).
  pose proof (kept_available _ _ Hkept2 Hav) as Hav2. pose proof (kept_available _ _ Hkept3 Hav2) as Hav3.
  apply hwp_Start_idle; [done|done|by rewrite Hst3|]. intros e4 opid s4 Hrun4 Hkept4 Hr4 Hst4.
  assert (secret_key (entry_secret e4) = (rn, Name ServiceBinding bid)) as Hk4
    by (by rewrite (committed_key _ _ _ _ Hr4), started_key, Hk3, Hk2).
  eapply hwp_run_binding; [by eapply kept_available|by eapply committed_committable|by rewrite Hk4|exact Hst4|apply Hall3|].
  intros e5 s5 err Hkept5 (s6 & e6 & s7 & Hrun5 & Hrun6 & Hrun7) Hs5 Hd5. rewrite Hk4 in Hs5.
  split; [etransitivity; [exact Hkept2|]; etransitivity; [exact Hkept3|]; by etransitivity|]. exists e5. split.
  { rewrite Hs5. rewrite (owned_insert (world s3) (world s4) (rn, Name ServiceBinding bid) (entry_secret e4)); [|done|].
    - by rewrite insert_insert_eq, Ho3, Hs2, insert_insert_eq.
    - destruct Hr4 as (-> & _). by rewrite started_key, Hk3, Hk2. }
  pose proof (committed_data _ _ _ _ Hr4) as Hd4.
  assert (forall k, k <> Operation -> k <> OperationID -> k <> OperationStatus ->
            entry_data e5 !! k = entry_data e3 !! k) as Hd53.
  { intros k Ho1 Ho2 Ho3'. rewrite Hd5, !lookup_delete_ne by congruence. rewrite Hd4. unfold started.
    by rewrite !entry_data_put, !lookup_insert_ne by congruence. }
  split.
  { eapply describes_data, Hrec2. intros k Hkr Ho1 Ho2 Ho3'. rewrite Hd53 by done. by apply Hd3. }
  split.
  { rewrite (op_state_of_data e5 (ended e4)) by (by rewrite ended_data). apply ended_Idle. }
  right. exists pr, e3, s3, err. split; [done|]. split; [by exists e4, s4, s6, e6, s7|].
  unfold binding_answer. replace (Entry.Get (T := RawExtension) e5 Credentials) with (Entry.Get (T := RawExtension) e4 Credentials); [done|].
  rewrite !Get_data, Hd5. by rewrite !lookup_delete_ne by done.
Qed.

(** C11: creating a service binding.  A valid request for a new binding of an
    idle instance ends with an entry for the binding that holds the context
    and parameters of the request, the service and plan of the instance
    (whatever those of the request are) and no operation; no other secret out
    of the templates' reach changes and nothing is left running.  What the
    request did, after checks that changed nothing, is this run: the entry was
    committed and prepared; when that failed, the answer is its error.
    Otherwise the operation was started, the prepared creator run, and the
    operation completed with the error of that run and ended; the answer is 201
    with the credentials of the entry when the run had no error, and else its
    error. *)
Theorem create_binding config r params request id bid ie sid pid ic ip c p s :
  binding_request config r params request id bid -> available (world s) -> configured (world s) = Some config ->
  instance_entry (world s) ns id ie -> describes ie sid pid ic ip -> op_state_of ie = Idle ->
  stored (world s) !! binding_key (world s) id bid = None ->
  stores (raw_or_empty (cb_Context request)) c -> stores (raw_or_empty (cb_Parameters request)) p ->
  provisions config sid pid ->
  hwp (handleCreateServiceBinding bounds configuration r params) (fun w' _ s' => kept s s' /\ exists e,
    owned (world s') = <[binding_key (world s) id bid := entry_secret e]> (owned (world s)) /\
    describes e sid pid c p /\ op_state_of e = Idle /\
    exists s0, unchanged s s0 /\
      binding_outcome ie bid request (instance_namespace (world s) ns id) s0 e w' s') new_writer s.
Proof.
  intros Hreq Hav Hcf Hie Hd Hidle Hnone Hc Hp Hprov. eapply hwp_binding_prefix; [done..|]. intros s1 Hu1.
  pose proof Hu1 as [Hs1 Hk1]. eapply hwp_mono; [eapply hwp_new_binding; try done|].
  - by eapply kept_available.
  - by eapply kept_configured.
  - by rewrite Hs1.
  - intros w' o s' [Hk' (e & Hs' & Hdes & Hst & Hout)]. split; [by etransitivity|]. exists e.
    rewrite Hs', (owned_stored _ _ Hs1). do 3 (split; [done|]). by exists s1.
Qed.

(** C35: binding to a busy instance.  The entry of the binding inherits the
    operation that the entry of the instance records, so that its own
    operation cannot be started: a valid request is answered with an error,
    but the entry of the binding stays, in the state of the operation of the
    instance. *)
Theorem bind_busy_instance config r params request id bid ie sid pid ic ip c p t opid status s :
  binding_request config r params request id bid -> available (world s) -> configured (world s) = Some config ->
  instance_entry (world s) ns id ie -> describes ie sid pid ic ip ->
  op_state_of ie = Running t opid \/ op_state_of ie = Finished t opid status ->
  stored (world s) !! binding_key (world s) id bid = None ->
  stores (raw_or_empty (cb_Context request)) c -> stores (raw_or_empty (cb_Parameters request)) p ->
  provisions config sid pid ->
  hwp (handleCreateServiceBinding bounds configuration r params) (fun w' _ s' => kept s s' /\
    (exists err, w' = jsonError new_writer err) /\
    exists e, stored (world s') = <[binding_key (world s) id bid := entry_secret e]> (stored (world s)) /\
      op_state_of e = op_state_of ie) new_writer s.
Proof.
  intros Hreq Hav Hcf Hie Hd Hbusy Hnone Hc Hp Hprov. eapply hwp_binding_prefix; [done..|]. intros s1 [Hs1 Hkept1].
  unfold new_binding.
  destruct (binding_keys_spec (instance_namespace (world s) ns id) ie bid request sid pid ic ip c p Hd Hc Hp)
    as (e1 & He1 & Hk1 & Hex1 & Hro1 & Hrec1 & _ & Hd1).
  apply hwp_try_bind. rewrite He1.
  apply hwp_Commit_new; [by eapply kept_available|done|done|by rewrite Hk1, Hs1|]. intros e2 s2 _ Hkept2 Hr2.
  pose proof (committed_data _ _ _ _ Hr2) as Hd2.
  assert (op_state_of e2 = op_state_of ie) as Hst2.
  { rewrite (op_state_of_data _ _ Hd2). apply op_state_agree. intros k Hk. apply Hd1; set_solver. }
  assert (stored (world s2) = <[binding_key (world s) id bid := entry_secret e2]> (stored (world s))) as Hs2
    by (destruct Hr2 as (-> & _); by rewrite Hk1, Hs1).
  apply hwp_try_bind. cbn [NewCreator]. assert (kept s s2) as Hks2 by (by etransitivity).
  eapply hwp_prepare; [by eapply committed_committable| |].
  { assert (describes e2 sid pid c p) as [Hsv Hpl _ _] by (eapply describes_data, Hrec1; intros; by rewrite Hd2).
    apply Hprov; [by eapply kept_configured|done|done]. }
  intros [[pr e3]|err] s3 _ _ Hu3;
    (assert (kept s s3) as Hks3 by (etransitivity; [exact Hks2|by apply unchanged_kept]));
    (assert (stored (world s3) = stored (world s2)) as Hs3 by apply Hu3).
  2:{ split; [done|]. split; [eauto|]. exists e2. by rewrite Hs3. }
  intros _ _ Hst3. rewrite <- Hst2, <- Hst3 in Hbusy. destruct (op_state_busy e3 t opid status Hbusy) as [op Hop].
  apply hwp_tryp_bind. rewrite (Start_busy _ _ _ Hop). apply wp_ret. split; [done|]. split; [eauto|].
  exists e2. by rewrite Hs3.
Qed.

(** ** Deleting a binding *)

(** The entry of the instance is only looked at. *)
Lemma hwp_unbind_prefix r params id bid ie Q s :
  ByName params "instance_id" = id -> id <> "" -> ByName params "binding_id" = bid -> bid <> "" ->
  available (world s) -> instance_entry (world s) ns id ie ->
  (forall s', unchanged s s' ->
     hwp (entry <~ tryp (Entry.New ServiceBinding (instance_namespace (world s) ns id) bid false) ;;
          check (if Entry.Exists entry then None
                 else Some (NewResourceGoneError "service instance does not exist")) ;;~
          check_service_plan r entry ;;~
          hlift (Deleter_Run entry) ;;~
          respond StatusOK empty_Marshal) Q new_writer s') ->
  hwp (handleDeleteServiceBinding configuration r params) Q new_writer s.
Proof.
  intros Hid Hne Hbid Hbne Hav Hie Hk. unfold handleDeleteServiceBinding. cbv zeta. rewrite Hid, Hbid.
  apply hwp_check_bind. rewrite bool_decide_false by done.
  apply hwp_directory; [done|]. intros d s1 Hs1 Hd. destruct Hie as (Hse & Hex & Hro). rewrite Hd.
  eapply hwp_New_existing; [by eapply kept_available; [apply unchanged_kept, Hs1|]|by destruct Hs1 as [-> _]|].
  intros s2 Hs2. cbn [Entry.Exists entry_exists]. apply hwp_check_bind, hwp_check_bind. rewrite bool_decide_false by done.
  apply Hk. by etransitivity.
Qed.

(** Deleting a service binding.  With the service and plan that the entry
    of the binding records, the answer is 200 and the entry of the binding,
    and nothing else, is gone; for a binding that does not exist it is 410 and
    nothing changes. *)
Lemma unbind r params id bid ie (be : option Entry) sid pid c p s :
  ByName params "instance_id" = id -> id <> "" -> ByName params "binding_id" = bid -> bid <> "" ->
  available (world s) -> instance_entry (world s) ns id ie ->
  stored (world s) !! binding_key (world s) id bid = entry_secret <$> be ->
  match be with Some be => describes be sid pid c p | None => True end ->
  getSingleParameter r "service_id" = Ok sid -> getSingleParameter r "plan_id" = Ok pid ->
  hwp (handleDeleteServiceBinding configuration r params) (fun w' _ s' => kept s s' /\
    match be with
    | Some _ => w' = JSONResponse new_writer StatusOK empty_Marshal /\
                stored (world s') = delete (binding_key (world s) id bid) (stored (world s))
    | None => rw_sent w' = Some StatusGone /\ stored (world s') = stored (world s)
    end) new_writer s.
Proof.
  intros Hid Hne Hbid Hbne Hav Hie Hkey Hbe Hq1 Hq2. apply (hwp_unbind_prefix r params id bid ie); [done..|]. intros s1 [Hs1 Hk1].
  pose proof (kept_available _ _ Hk1 Hav) as Hav1. unfold binding_key in Hkey. destruct be as [be|]; cbn [fmap option_fmap option_map] in Hkey.
  - eapply hwp_New_existing; [done|rewrite Hs1; exact Hkey|]. intros s2 Hs2. cbn [Entry.Exists entry_exists].
    apply hwp_check_bind. destruct Hbe as [Hs Hp _ _].
    eapply hwp_service_plan; [exact Hs|exact Hp|exact Hq1|exact Hq2|]. rewrite !bool_decide_true by done. cbn [andb].
    pose proof (stored_key _ _ _ Hkey) as Hsk. destruct Hs2 as [Hs2 Hk2].
    apply hwp_lift_bind, wp_Deleter_Run; [exact (kept_available _ _ Hk2 Hav1)| |reflexivity|].
    + split; [done|]. cbn [entry_exists entry_secret]. rewrite Hsk, Hs2, Hs1. eauto.
    + intros s3 Hk3 Hs3. apply hwp_respond. split; [etransitivity; [exact Hk1|by etransitivity]|].
      split; [done|]. rewrite Hs3. cbn [entry_secret]. by rewrite Hsk, Hs2, Hs1.
  - eapply hwp_New_missing; [done|rewrite Hs1; exact Hkey|]. intros s2 [Hs2 Hk2]. cbn [Entry.Exists entry_exists].
    apply hwp_check_bind. split; [by etransitivity|]. rewrite rw_sent_jsonError. split; [done|]. by rewrite Hs2.
Qed.
End Binding.

Module BindingWitness.
Import Fixture HandlerWitness.

(** An instance that is a registry entry only: being created, then idle. *)
Definition entry_created := run (handleCreateServiceInstance bounds server create_query params new_writer) entry_start.
Definition entry_creating : sys SimWorld := after entry_created.
Definition entry_idle : sys SimWorld :=
  match spawned entry_created.2 with
  | t :: _ => after (run (handlePollServiceInstance server poll_query params new_writer) (after (run t entry_creating)))
  | [] => entry_creating
  end.

Definition bind_params : Params := [("instance_id", "i1"); ("binding_id", "b1")].
Definition bind_query : Request := request "PUT" "".
Definition bind_body : CreateServiceBindingRequest :=
  match jsonRequest (T := CreateServiceBindingRequest) bind_query with
  | Ok b => b
  | Err _ => mkCreateBinding None "" "" "" None None
  end.

Definition bound : sys SimWorld :=
  after (run (handleCreateServiceBinding bounds server bind_query bind_params new_writer) entry_idle).
Definition bound_entry : Entry :=
  mkEntry (default (Entry.fresh_secret "" "") (stored (world bound) !! ("ns", Name ServiceBinding "b1"))) true false.

Lemma bind_request : binding_request entry_config bind_query bind_params bind_body "i1" "b1".
Proof. split; try evaluate; (split; [evaluate|discriminate]). Qed.

Lemma entry_provisions : provisions (W := SimWorld) bounds entry_config "s1" "p1".
Proof.
  intros e s Hc Hs Hp. unfold Creator_Prepare, entry_service_plan. rewrite Hs. cbn [res_bind]. rewrite Hp.
  apply wp_try. unfold getTemplateBinding. apply wp_bind. eapply wp_Config; [exact Hc|]. intros s1 Hs1.
  apply wp_ret.
  assert (GetTemplateBindings entry_config "s1" "p1" = Ok entry_binding) as -> by evaluate.
  vm_compute. intros e1 s2. exact I.
Qed.

Lemma entry_idle_entry : instance_entry (world entry_idle) "ns" "i1" (entry_at entry_idle).
Proof. split; [|split]; evaluate. Qed.

Lemma entry_creating_entry : instance_entry (world entry_creating) "ns" "i1" (entry_at entry_creating).
Proof. split; [|split]; evaluate. Qed.

Lemma bound_instance : instance_entry (world bound) "ns" "i1" (entry_at bound).
Proof. split; [|split]; evaluate. Qed.

Lemma entry_idle_describes : describes (entry_at entry_idle) "s1" "p1" null null.
Proof. split; evaluate. Qed.

Lemma entry_creating_describes : describes (entry_at entry_creating) "s1" "p1" null null.
Proof. split; evaluate. Qed.

Lemma bound_describes : describes bound_entry "s1" "p1" null null.
Proof. split; evaluate. Qed.

Lemma create_binding_witness :
  hwp (handleCreateServiceBinding bounds server bind_query bind_params) (fun w' _ s' => kept entry_idle s' /\ exists e,
    owned (world s') = <[("ns", Name ServiceBinding "b1") := entry_secret e]> (owned (world entry_idle)) /\
    describes e "s1" "p1" null null /\ op_state_of e = Idle /\
    exists s0, unchanged entry_idle s0 /\
      binding_outcome (W := SimWorld) bounds (entry_at entry_idle) "b1" bind_body "ns" s0 e w' s') new_writer entry_idle.
Proof.
  assert (binding_key server (world entry_idle) "i1" "b1" = ("ns", Name ServiceBinding "b1")) as Hk by evaluate.
  rewrite <- Hk. change "ns" with (instance_namespace (world entry_idle) "ns" "i1") at 1.
  apply (create_binding bounds server entry_config bind_query bind_params bind_body "i1" "b1" (entry_at entry_idle)
           "s1" "p1" null null null null entry_idle);
    [exact bind_request|evaluate|evaluate|exact entry_idle_entry|exact entry_idle_describes|evaluate|evaluate
    |exists "null"; split; evaluate|exists "null"; split; evaluate|exact entry_provisions].
Defined.

Lemma bind_busy_instance_witness :
  hwp (handleCreateServiceBinding bounds server bind_query bind_params) (fun w' _ s' => kept entry_creating s' /\
    (exists err, w' = jsonError new_writer err) /\
    exists e, stored (world s') = <[binding_key server (world entry_creating) "i1" "b1" := entry_secret e]>
                                    (stored (world entry_creating)) /\
      op_state_of e = op_state_of (entry_at entry_creating)) new_writer entry_creating.
Proof.
  apply (bind_busy_instance bounds server entry_config bind_query bind_params bind_body "i1" "b1" (entry_at entry_creating)
           "s1" "p1" null null null null TypeProvision "uuid-2" "" entry_creating);
    [exact bind_request|evaluate|evaluate|exact entry_creating_entry|exact entry_creating_describes|left; evaluate|evaluate
    |exists "null"; split; evaluate|exists "null"; split; evaluate|exact entry_provisions].
Defined.

Lemma unbind_witness :
  hwp (handleDeleteServiceBinding server delete_query bind_params) (fun w' _ s' => kept bound s' /\
    (w' = JSONResponse new_writer StatusOK empty_Marshal /\
     stored (world s') = delete (binding_key server (world bound) "i1" "b1") (stored (world bound)))) new_writer bound.
Proof.
  apply (unbind server delete_query bind_params "i1" "b1" (entry_at bound) (Some bound_entry) "s1" "p1" null null bound);
    [evaluate|discriminate|evaluate|discriminate|evaluate|exact bound_instance|evaluate|exact bound_describes
    |evaluate|evaluate].
Defined.

(** The binding was created, with the credentials of the configuration. *)
Example bound_credentials :
  Entry.Get (T := value) bound_entry Credentials = Ok (Some (VString "secret")).
Proof. evaluate. Qed.
End BindingWitness.
