(* ===== verification/UpdateFacts.v ===== *)
(** * Reading and updating a service instance ([pkg/broker/handlers.go])

    Reading answers from the registry and writes nothing.  Updating records
    the new parameters and starts the update; the plan of the instance stays
    what it was, whatever plan the request asks for. *)

From S2P Require Import Prelude Json JsonFacts Errors Types Platform Vendor Sim Fixture Api Http Registry.
From S2P Require Import RegistryFacts Operation Config BrokerUtil DirectoryFacts Auth Template TemplateFacts.
From S2P Require Import Provision ProvisionFacts Handlers HandlerFacts.
From Stdlib Require Import Lia.

Local Open Scope broker_scope.

Section Reading.
Context `{VendorLaws} {W : Type} `{PlatformLaws W} (configuration : ServerConfiguration).

Implicit Types s : sys W.

Abbreviation ns := (server_Namespace configuration).

(** Reading an instance.  Nothing is written.  The client that names an
    instance that exists is told its service, plan and parameters when no
    operation is recorded, and gets 400 while one is; for an instance that
    does not exist the answer is 404. *)
Lemma read_instance r params id (oe : option Entry) sid pid c p s :
  ByName params "instance_id" = id -> id <> "" -> available (world s) ->
  match oe with
  | Some e => instance_entry (world s) ns id e /\ describes e sid pid c p /\ op_state_of e <> Inconsistent
  | None => stored (world s) !! instance_key (world s) ns id = None
  end ->
  hint_agrees r "service_id" sid -> hint_agrees r "plan_id" pid ->
  hwp (handleReadServiceInstance configuration r params) (fun w' _ s' => unchanged s s' /\
    match oe with
    | None => rw_sent w' = Some StatusNotFound
    | Some e =>
        match operation_of (op_state_of e) with
        | None => w' = JSONResponse new_writer StatusOK (GetServiceInstanceResponse_Marshal
                         (mkGetInstanceResponse sid pid "" (Some p)))
        | Some _ => rw_sent w' = Some StatusBadRequest
        end
    end) new_writer s.
Proof.
  intros Hid Hne Hav Hoe Hh1 Hh2. unfold handleReadServiceInstance. cbv zeta. rewrite Hid.
  apply hwp_check_bind. rewrite bool_decide_false by done.
  apply hwp_directory; [done|]. intros d s1 Hs1 Hd. rewrite Hd.
  pose proof (kept_available _ _ (unchanged_kept _ _ Hs1) Hav) as Hav1. destruct oe as [e|].
  2:{ eapply hwp_New_missing; [done|destruct Hs1 as [-> _]; exact Hoe|]. intros s2 Hs2. cbn [Entry.Exists entry_exists].
      apply hwp_check_bind. split; [by etransitivity|]. by rewrite rw_sent_jsonError. }
  destruct Hoe as ((Hse & Hex & Hro) & [Hs Hp Hc Hq] & Hi).
  eapply hwp_New_existing; [done|destruct Hs1 as [-> _]; exact Hse|]. intros s2 Hs2. cbn [Entry.Exists entry_exists].
  assert (unchanged s s2) as Hu by (by etransitivity).
  assert (forall (T : Type) (HT : GoJSON T) k, Entry.Get (T := T) (mkEntry (entry_secret e) true true) k = Entry.Get e k) as Hget
    by (intros; by rewrite !Get_data).
  unfold Entry.GetString in *. apply hwp_check_bind.
  assert (exists o1, maygetSingleParameter r "service_id" = Ok o1) as [o1 Ho1] by (destruct Hh1; eauto).
  assert (exists o2, maygetSingleParameter r "plan_id" = Ok o2) as [o2 Ho2] by (destruct Hh2; eauto).
  apply hwp_try_bind. rewrite Ho1. apply hwp_try_bind. rewrite Ho2.
  apply hwp_require_bind. rewrite Hget, Hs. apply hwp_require_bind. rewrite Hget, Hp.
  eapply hwp_hint_bind; [exact Hh1|exact Ho1|]. eapply hwp_hint_bind; [exact Hh2|exact Ho2|].
  apply hwp_require_bind. rewrite Hget, Hq. apply hwp_try_bind. rewrite Hget.
  pose proof (op_state_reads e _ eq_refl) as Hr. unfold Entry.GetString in Hr.
  destruct (op_state_of e) as [|t opid|t opid st|]; [| | |done]; cbn [operation_of].
  - rewrite Hr. apply hwp_check_bind, hwp_respond. done.
  - destruct Hr as (-> & _). apply hwp_check_bind. split; [done|]. by rewrite rw_sent_jsonError.
  - destruct Hr as (-> & _). apply hwp_check_bind. split; [done|]. by rewrite rw_sent_jsonError.
Qed.
End Reading.

Section Updating.
Context `{VendorLaws} {W : Type} `{PlatformLaws W} (bounds : Bounds) (configuration : ServerConfiguration).

Implicit Types s : sys W.

Abbreviation ns := (server_Namespace configuration).

(** The plan an update asks for. *)
Definition requested_plan (request : UpdateServiceInstanceRequest) (pid : string) : string :=
  if ui_PlanID request =?s "" then pid else ui_PlanID request.

(** An update request that passes every check; the parameters are validated
    against the schema of the plan the instance has. *)
Record update_request (config : ServiceBrokerConfig) (r : Request) (params : Params)
    (request : UpdateServiceInstanceRequest) (id pid : string) : Prop := {
  update_async : asyncRequired r = None;
  update_id : ByName params "instance_id" = id /\ id <> "";
  update_body : jsonRequest r = Ok request;
  update_plan : validateServicePlan config (ui_ServiceID request) (requested_plan request pid) = None;
  update_updatable : planUpdatable config (ui_ServiceID request) pid (requested_plan request pid) = None;
  update_parameters : validateParameters config (ui_ServiceID request) pid
      schemaTypeServiceInstance schemaOperationUpdate (ui_Parameters request) = Ret None;
}.

Definition new_updater (request : UpdateServiceInstanceRequest) : Updater :=
  mkUpdater ResourceTypeServiceInstance request [].

(** The run of an update up to [Prepare], after checks that changed nothing:
    the parameters are set in the entry that was read, and [Prepare] of that
    entry, [e1], ends like this. *)
Definition update_prepared (e : Entry) (request : UpdateServiceInstanceRequest) (s : sys W) (e1 : Entry)
    (r : result Updater) (s1 : sys W) : Prop :=
  Entry.Set_ e Parameters_ (raw_or_empty (ui_Parameters request)) = Ok e1 /\
  exists s0, unchanged s s0 /\ run (Updater_Prepare bounds (new_updater request) e1) s0 = (Done r, s1).

(** And on: the operation is started on that entry, and the updater that
    [Prepare] returned is left to a program in the background. *)
Definition update_started (e : Entry) (request : UpdateServiceInstanceRequest) (s : sys W)
    (updater : Updater) (e' : Entry) (s' : sys W) : Prop :=
  exists e1 s1 s2, update_prepared e request s e1 (Ok updater) s1 /\
    run (Start e1 TypeUpdate) s1 = (Done (Ok e'), s2) /\
    s' = mkSys (world s2) (spawned s ++ [_ <- Updater_Run updater e' ;; Ret tt]).

(** The entry with the new parameters. *)
Lemma parameters_set e request sid pid c p p' :
  describes e sid pid c p -> stores (raw_or_empty (ui_Parameters request)) p' -> op_state_of e = Idle ->
  exists t, Entry.Set_ e Parameters_ (raw_or_empty (ui_Parameters request)) = Ok (put e Parameters_ t) /\
    describes (put e Parameters_ t) sid pid c p' /\ op_state_of (put e Parameters_ t) = Idle.
Proof.
  intros [Hs Hp Hc Hq] (t & Hm & Hu) Hst. exists t. split; [by apply Set_raw|]. split.
  - split; unfold Entry.GetString in *; rewrite ?Get_put_ne by done; try done.
    rewrite Get_data, entry_data_put, lookup_insert_eq. by rewrite Hu.
  - rewrite <- Hst. unfold op_state_of, Entry.GetString. by rewrite !Get_put_ne by done.
Qed.

(** Preparing an update of this service and plan returns. *)
Definition update_prepares (config : ServiceBrokerConfig) (request : UpdateServiceInstanceRequest) (sid pid : string) : Prop :=
  forall e s, configured (world s) = Some config ->
    Entry.GetString e ServiceID = Ok (Some sid) -> Entry.GetString e PlanID = Ok (Some pid) ->
    wp (Updater_Prepare bounds (new_updater request) e) (fun _ _ => True) s.

(** How an update request ends: refused by [Prepare], with nothing written, or
    accepted with a program in the background. *)
Definition update_result (key : string * string) (e : Entry) (request : UpdateServiceInstanceRequest) (sid pid : string)
    (c p : RawExtension) (s s' : sys W) (w' : writer) : Prop :=
  (exists e1 err, update_prepared e request s e1 (Err err) s' /\ unchanged s s' /\ w' = jsonErrorUsable new_writer err) \/
  (exists opid e' updater,
     update_started e request s updater e' s' /\
     w' = JSONResponse new_writer StatusAccepted (UpdateServiceInstanceResponse_Marshal (mkUpdateInstanceResponse "" opid)) /\
     stored (world s') = <[key := entry_secret e']> (stored (world s)) /\
     describes e' sid pid c p /\ op_state_of e' = Running TypeUpdate opid /\ committable (world s') e' /\
     spawned s' = spawned s ++ [_ <- Updater_Run updater e' ;; Ret tt]).

Lemma hwp_update_instance config request e sid pid c p p' s :
  available (world s) -> configured (world s) = Some config -> committable (world s) e ->
  describes e sid pid c p -> op_state_of e = Idle ->
  stores (raw_or_empty (ui_Parameters request)) p' -> update_prepares config request sid pid ->
  hwp (update_instance bounds e request) (fun w' _ s' =>
    update_result (secret_key (entry_secret e)) e request sid pid c p' s s' w') new_writer s.
Proof.
  intros Hav Hcf Hc Hdesc Hst Hstores Hprep.
  unfold update_instance. destruct (parameters_set e request sid pid c p p' Hdesc Hstores Hst) as (t & Hset & Hdesc' & Hst').
  apply hwp_try_bind. rewrite Hset. set (e1 := put e Parameters_ t) in *.
  apply hwp_bind. unfold trypUsable at 1. apply hwp_bind, hwp_lift, wp_ret. cbn [NewUpdater]. apply hwp_ret.
  change (mkUpdater ResourceTypeServiceInstance request []) with (new_updater request).
  apply hwp_bind. unfold trypUsable. apply hwp_bind, hwp_lift. apply wp_no_writes; [apply calm_Updater_Prepare|].
  eapply wp_mono; [apply wp_run, Hprep; [done|apply Hdesc'|apply Hdesc']|].
  intros [u|err] s1 [Hrun _] Hu1.
  2:{ apply hwp_failUsable. left. exists e1, err. split; [|done]. split; [done|]. by exists s. }
  apply hwp_ret. assert (committable (world s1) e1) as Hc1.
  { eapply (committable_unchanged s); [exact Hu1|]. by apply put_committable. }
  apply hwp_Start_idle; [eapply kept_available; [apply unchanged_kept, Hu1|done]|done|done|].
  intros e2 opid s2 Hrun2 Hk2 Hr2 Hst2. cbv zeta. apply hwp_go. pose proof (committed_data _ _ _ _ Hr2) as Hd2.
  eapply hwp_unchecked_bind.
  { change (Entry.GetString (Entry.Clone e2) OperationID) with (Entry.GetString e2 OperationID). by eapply Running_id. }
  apply hwp_respond. right. exists opid, e2, u.
  assert (spawned s2 = spawned s) as Hsp by (destruct Hk2 as (_ & -> & _); by destruct Hu1 as [_ (_ & -> & _)]).
  rewrite Hsp. split; [exists e1, s1, s2; split; [split; [done|by exists s]|done]|]. split; [done|]. cbn [world spawned]. split.
  { destruct Hr2 as (-> & _). rewrite started_key. unfold e1. rewrite put_key. by destruct Hu1 as [-> _]. }
  split.
  { eapply describes_data, (describes_started e1 TypeUpdate opid sid pid c p' Hdesc'). intros. by rewrite Hd2. }
  split; [done|]. split; [by eapply committed_committable|done].
Qed.

(** The whole handler: what comes before reads only. *)
Lemma hwp_update config r params request id e sid pid c p p' s :
  update_request config r params request id pid -> available (world s) -> configured (world s) = Some config ->
  instance_entry (world s) ns id e -> describes e sid pid c p -> op_state_of e = Idle ->
  stores (raw_or_empty (ui_Parameters request)) p' -> update_prepares config request sid pid ->
  hwp (handleUpdateServiceInstance bounds configuration r params) (fun w' _ s' =>
    update_result (instance_key (world s) ns id) e request sid pid c p' s s' w') new_writer s.
Proof.
  intros [Ha [Hid Hne] Hb Hpl Hup Hpar] Hav Hcf He Hdesc Hst Hstores Hprep.
  pose proof Hdesc as [Hs Hp Hc Hq]. unfold handleUpdateServiceInstance. rewrite Ha. apply hwp_check_bind. cbv zeta. rewrite Hid.
  apply hwp_bind. rewrite bool_decide_false by done. apply hwp_ret. apply hwp_try_bind. rewrite Hb.
  apply hwp_directory; [done|]. intros d s1 Hs1 Hd.
  pose proof (kept_available _ _ (unchanged_kept _ _ Hs1) Hav) as Hav1.
  eapply (hwp_instance ns id e); [done| |..].
  { eapply instance_entry_stored, He. apply Hs1. }
  { rewrite Hd. symmetry. apply instance_namespace_stored, Hs1. }
  intros s2 Hs2. pose proof He as (Hse & Hex & Hro). unfold Entry.Exists. rewrite Hex. apply hwp_check_bind.
  assert (unchanged s s2) as Hu2 by (by etransitivity).
  apply hwp_require_bind. rewrite Hp. change (if ui_PlanID request =?s "" then pid else ui_PlanID request) with (requested_plan request pid).
  assert (forall s', unchanged s s' -> configured (world s') = Some config) as Hcf'
    by (intros; eapply kept_configured; [by apply unchanged_kept|done]).
  eapply hwp_Config_bind; [by apply Hcf'|]. intros s3 Hs3. apply hwp_check_bind. rewrite Hpl.
  assert (unchanged s s3) as Hu3 by (by etransitivity).
  eapply hwp_Config_bind; [by apply Hcf'|]. intros s4 Hs4. apply hwp_check_bind. rewrite Hup.
  assert (unchanged s s4) as Hu4 by (by etransitivity).
  eapply hwp_Config_bind; [by apply Hcf'|]. intros s5 Hs5. rewrite Hpar. apply hwp_lift_bind, wp_ret, hwp_bind, hwp_ret.
  assert (unchanged s s5) as Hu5 by (by etransitivity). pose proof (unchanged_kept _ _ Hu5) as Hk5.
  eapply hwp_mono.
  { eapply hwp_update_instance; [by eapply kept_available|by apply Hcf'| |exact Hdesc|done|exact Hstores|exact Hprep].
    eapply (committable_unchanged s); [exact Hu5|]. by eapply instance_entry_committable. }
  assert (forall e1 r0 s', update_prepared e request s5 e1 r0 s' -> update_prepared e request s e1 r0 s') as Hprs
    by (intros e1 r0 s' (Hset & s0 & Hs0 & Hrun); split; [done|]; exists s0; split; [by etransitivity|done]).
  intros w' o s' [(e1 & err & Hpr & Hu & Hw)|(opid & e' & u & (e1 & s6 & s7 & Hpr & Hrun & Hs') & Hw & Hst' & Hde & Hop & Hcm & Hsp)].
  - left. exists e1, err. split; [by apply Hprs|]. split; [by etransitivity|done].
  - right. exists opid, e', u. split.
    { exists e1, s6, s7. split; [by apply Hprs|]. split; [done|]. rewrite Hs'. by destruct Hk5 as (_ & -> & _). }
    split; [done|]. rewrite (stored_key _ _ _ Hse) in Hst'.
    destruct Hu5 as [<- (_ & <- & _)]. done.
Qed.

(** Updating an instance.  A valid update of an idle instance is refused
    when preparing it fails, and then nothing is written; otherwise the answer
    is 202 with the ID of an update operation, the entry holds that operation
    and the new parameters, and one program that will apply the prepared
    resources is started in the background.  The service and the plan of the
    entry stay what they were, also when the request asks for another plan. *)
Lemma update_outcome config r params request id e sid pid c p p' s :
  update_request config r params request id pid -> available (world s) -> configured (world s) = Some config ->
  instance_entry (world s) ns id e -> describes e sid pid c p -> op_state_of e = Idle ->
  stores (raw_or_empty (ui_Parameters request)) p' -> update_prepares config request sid pid ->
  hwp (handleUpdateServiceInstance bounds configuration r params) (fun w' _ s' =>
    update_result (instance_key (world s) ns id) e request sid pid c p' s s' w') new_writer s.
Proof. apply hwp_update. Qed.
End Updating.

Module UpdateWitness.
Import Fixture HandlerWitness.

Lemma read_instance_witness :
  hwp (handleReadServiceInstance server (request "GET" "") params) (fun w' _ s' => unchanged idle s' /\
    w' = JSONResponse new_writer StatusOK (GetServiceInstanceResponse_Marshal
           (mkGetInstanceResponse "s1" "p1" "" (Some null)))) new_writer idle.
Proof.
  assert (op_state_of (entry_at idle) = Idle) as Hst by evaluate.
  eapply hwp_mono.
  - apply (read_instance server (request "GET" "") params "i1" (Some (entry_at idle)) "s1" "p1" null null idle);
      [evaluate|discriminate|evaluate
      |split; [exact idle_entry|split; [exact idle_describes|rewrite Hst; discriminate]]|left; evaluate|left; evaluate].
  - rewrite Hst. intros w' o s' Hw. exact Hw.
Defined.

(** The instance of [entry_config], which no template was rendered for. *)
Definition entry_idle : sys SimWorld := mkSys (with_config (world idle) (Some entry_config)) [].

Definition update_query : Request := request "PATCH" "accepts_incomplete=true".
Definition update_body : UpdateServiceInstanceRequest :=
  match jsonRequest (T := UpdateServiceInstanceRequest) update_query with
  | Ok b => b
  | Err _ => mkUpdateInstance None "" "" None None None
  end.

Lemma update_query_request : update_request entry_config update_query params update_body "i1" "p1".
Proof. split; try evaluate. split; [evaluate|discriminate]. Qed.

Lemma update_query_prepares : update_prepares (W := SimWorld) bounds entry_config update_body "s1" "p1".
Proof.
  intros e s Hc Hs Hp. unfold Updater_Prepare, entry_service_plan. rewrite Hs. cbn [res_bind]. rewrite Hp.
  apply wp_try. unfold getTemplateBinding. apply wp_bind. eapply wp_Config; [exact Hc|]. intros s1 Hs1.
  apply wp_ret.
  assert (GetTemplateBindings entry_config "s1" "p1" = Ok entry_binding) as -> by evaluate.
  exact I.
Qed.

Lemma update_outcome_witness :
  hwp (handleUpdateServiceInstance bounds server update_query params) (fun w' _ s' =>
    update_result bounds (instance_key (world entry_idle) "ns" "i1") (entry_at entry_idle) update_body "s1" "p1" null null entry_idle s' w')
    new_writer entry_idle.
Proof.
  apply (update_outcome bounds server entry_config update_query params update_body "i1" (entry_at entry_idle)
           "s1" "p1" null null null entry_idle);
    [exact update_query_request|evaluate|evaluate|split; [|split]; evaluate|split; evaluate|evaluate
    |exists "null"; split; evaluate|exact update_query_prepares].
Defined.
End UpdateWitness.
