(* ===== verification/LifecycleFacts.v ===== *)
(** * Life cycles ([pkg/broker/handlers.go], [pkg/provisioners])

    What a client and the broker do together: a request starts an operation,
    the program in the background ends it, a poll reports its outcome and makes
    the instance idle, and a deletion removes it. *)

From S2P Require Import Prelude Json JsonFacts Errors Types Platform Vendor Sim Fixture Api Http Registry Operation BrokerUtil Auth RegistryFacts.
From S2P Require Import DirectoryFacts Template Provision ProvisionFacts Handlers HandlerFacts UpdateFacts.

Local Open Scope broker_scope.

Section Lifecycle.
Context `{VendorLaws} {W : Type} `{PlatformLaws W} (bounds : Bounds) (configuration : ServerConfiguration).

Implicit Types s : sys W.

Abbreviation ns := (server_Namespace configuration).

(** A poll for an operation of the instance. *)
Record poll_request (r : Request) (params : Params) (id sid pid opid : string) : Prop := {
  poll_id : ByName params "instance_id" = id /\ id <> "";
  poll_service : hint_agrees r "service_id" sid;
  poll_plan : hint_agrees r "plan_id" pid;
  poll_operation : getSingleParameter r "operation" = Ok opid;
}.

(** A deletion of the instance. *)
Record deletion_request (r : Request) (params : Params) (id sid pid : string) : Prop := {
  deletion_async : asyncRequired r = None;
  deletion_id : ByName params "instance_id" = id /\ id <> "";
  deletion_service : getSingleParameter r "service_id" = Ok sid;
  deletion_plan : getSingleParameter r "plan_id" = Ok pid;
}.

(** From [s] to [s'] an instance came to be idle, with this service, plan,
    context and parameters, and no secret in [P] but its entry and the
    directory changed. *)
Definition idle_instance (P : string * string -> Prop) (id sid pid : string) (c p : RawExtension) s s' : Prop :=
  (exists e, instance_entry (world s') ns id e /\ describes e sid pid c p /\ op_state_of e = Idle) /\
  (forall k, P k -> k <> instance_key (world s') ns id -> k <> directory_key ns ->
     stored (world s') !! k = stored (world s) !! k).

(** The secrets out of the templates' reach: those of the registry and those
    that no template names. *)
Definition out_of_reach (k : string * string) : Prop := templated k = false.

Definition every_secret (k : string * string) : Prop := True.

(** The next poll for the operation reports its outcome and makes the
    instance idle. *)
Definition settles (t opid : string) (outcome : option error) (id sid pid : string) (c p : RawExtension) s s' : Prop :=
  forall r params, poll_request r params id sid pid opid ->
    hwp (handlePollServiceInstance configuration r params) (fun w _ s'' =>
      w = JSONResponse new_writer StatusOK (poll_answer (Finished t opid (error_text outcome))) /\
      idle_instance out_of_reach id sid pid c p s s'') new_writer s'.

(** ** The entry of an instance *)

Lemma stored_entry w id e :
  stored w !! instance_key w ns id = Some (entry_secret e) -> committable w e -> instance_entry w ns id e.
Proof.
  intros Hl [Hro Hc]. split; [done|]. split; [|done]. destruct (entry_exists e); [done|].
  by rewrite (stored_key _ _ _ Hl), Hl in Hc.
Qed.

(** Writing the entry does not move the instance. *)
Lemma instance_key_frame w w' id :
  stored w' !! directory_key ns = stored w !! directory_key ns -> instance_key w' ns id = instance_key w ns id.
Proof. intros Hs. unfold instance_key, instance_namespace, directory_view. by rewrite Hs. Qed.

Lemma instance_key_insert w w' id sec :
  stored w' = <[instance_key w ns id := sec]> (stored w) -> instance_key w' ns id = instance_key w ns id.
Proof.
  intros Hs. apply instance_key_frame. rewrite Hs, lookup_insert_ne; [done|]. apply instance_directory_key.
Qed.

Lemma instance_key_untemplated w id : templated (instance_key w ns id) = false.
Proof. apply Name_untemplated. Qed.

(** What a program that only writes the entry, and objects of templates, leaves. *)
Lemma owned_insert_lookup w w' id sec :
  owned w' = <[instance_key w ns id := sec]> (owned w) ->
  instance_key w' ns id = instance_key w ns id /\ stored w' !! instance_key w ns id = Some sec /\
  forall k, templated k = false -> k <> instance_key w ns id -> stored w' !! k = stored w !! k.
Proof.
  intros Hs. assert (forall k, templated k = false -> k <> instance_key w ns id -> stored w' !! k = stored w !! k) as Hf.
  { intros k Hk Hne. by rewrite <- (owned_lookup w'), Hs, lookup_insert_ne, owned_lookup. }
  split; [|split; [|exact Hf]].
  - apply instance_key_frame, Hf; [apply directory_untemplated|]. apply not_eq_sym, instance_directory_key.
  - rewrite <- owned_lookup by apply instance_key_untemplated. by rewrite Hs, lookup_insert_eq.
Qed.

Lemma describes_put_status e e' v sid pid c p :
  entry_data e' = <[OperationStatus := v]> (entry_data e) -> describes e sid pid c p -> describes e' sid pid c p.
Proof. intros Hd. apply describes_data. intros k _ _ _ Hk. by rewrite Hd, lookup_insert_ne by congruence. Qed.

Lemma describes_ended e e' sid pid c p :
  entry_data e' = entry_data (ended e) -> describes e sid pid c p -> describes e' sid pid c p.
Proof.
  intros Hd. apply describes_data. intros k _ Ho1 Ho2 Ho3. by rewrite Hd, ended_data, !lookup_delete_ne by congruence.
Qed.

Lemma hwp_available {A} (h : handler A) (Q : writer -> option A -> sys W -> Prop) w s :
  available (world s) -> hwp h Q w s -> hwp h (fun w' o s' => Q w' o s' /\ available (world s')) w s.
Proof. intros Hav Hh. eapply wp_mono; [by apply wp_available|]. intros [w' o] s'. done. Qed.

(** A poll after the operation has finished. *)
Lemma finished_settles t opid outcome id sid pid c p e s s' :
  available (world s') -> instance_entry (world s') ns id e -> describes e sid pid c p ->
  op_state_of e = Finished t opid (error_text outcome) ->
  (forall k, out_of_reach k -> k <> instance_key (world s') ns id -> k <> directory_key ns ->
     stored (world s') !! k = stored (world s) !! k) ->
  settles t opid outcome id sid pid c p s s'.
Proof.
  intros Hav He Hde Hst Hf r params [[Hid Hne] Hh1 Hh2 Hop]. eapply hwp_mono.
  { eapply (hwp_poll configuration e r params sid pid c p id t opid (error_text outcome)); try done. by right. }
  intros w o s'' [-> Hpoll]. rewrite Hst in *. cbn [polled] in Hpoll. destruct Hpoll as [e' Hc]. split; [done|].
  pose proof He as (Hl & _). pose proof Hc as (Hs & _). rewrite ended_key, (stored_key _ _ _ Hl) in Hs.
  pose proof (instance_key_insert _ _ _ _ Hs) as Hkey. pose proof (committed_data _ _ _ _ Hc) as Hd. split.
  - exists e'. split; [|split].
    + apply stored_entry; [by rewrite Hkey, Hs, lookup_insert_eq|by eapply committed_committable].
    + by eapply describes_ended.
    + rewrite (op_state_of_data _ _ Hd). apply ended_Idle.
  - intros k Hin Hk Hk'. rewrite Hkey in Hk. rewrite Hs, lookup_insert_ne by congruence. by apply Hf.
Qed.

(** A program that ends the operation of the stored entry, and then a poll. *)
Lemma background_settles (run_it : prog (option error)) t opid id sid pid c p e s0 s :
  effects no_own_writes run_it -> available (world s) -> op_state_of e = Running t opid ->
  stored (world s) !! instance_key (world s) ns id = Some (entry_secret e) -> committable (world s) e ->
  describes e sid pid c p ->
  (forall k, k <> instance_key (world s) ns id -> k <> directory_key ns -> stored (world s) !! k = stored (world s0) !! k) ->
  wp run_it (fun _ _ => True) s ->
  wp (_ <- (err <- run_it ;; r <- Complete e err ;; Ret r.1) ;; Ret tt) (fun _ s' => exists outcome,
    (exists s1, run run_it s = (Done outcome, s1)) /\ settles t opid outcome id sid pid c p s0 s') s.
Proof.
  intros Hcalm Hav Hst Hl Hc Hde Hf Hw. pose proof (stored_key _ _ _ Hl) as Hek.
  apply wp_bind. eapply wp_mono; [apply (run_records run_it e t opid); try done|].
  { rewrite Hek. apply instance_key_untemplated. }
  intros e' s' (Hk & outcome & Hst' & Hrun & Hs & Hd & Hc'). apply wp_ret. exists outcome. split; [done|].
  rewrite Hek in Hs. destruct (owned_insert_lookup _ _ _ _ Hs) as (Hkey & Hl' & Hf').
  eapply (finished_settles t opid outcome id sid pid c p e'); [by eapply kept_available| |by eapply describes_put_status|done|].
  - apply stored_entry; [by rewrite Hkey|done].
  - intros k Hin Hne Hne'. rewrite Hkey in Hne. rewrite Hf' by done. by apply Hf.
Qed.

(** ** Creation *)

(** C8: the creation of an instance, from the request to the end of its
    operation.  A valid request for an instance that does not exist is entered
    in the directory; then it is either refused with the error of preparing it,
    and then the instance is idle, nothing runs, and no other secret has
    changed; or what [Prepare] returned is started, it is accepted and one
    program runs in the background.  When that program has run, with whatever
    outcome, a poll for the operation that was returned reports success, or
    failure with the error of the run, and leaves an idle instance with the
    service, plan, context and parameters of the request.  No other secret out
    of the templates' reach changes on the way. *)
Theorem creation_lifecycle config r params request rn id tns c p s :
  creation_request configuration config r params request rn id s -> available (world s) ->
  configured (world s) = Some config -> stored (world s) !! (rn, Name ServiceInstance id) = None ->
  getNamespace (ci_Context request) ns = Ok tns ->
  stores (raw_or_empty (ci_Context request)) c -> stores (raw_or_empty (ci_Parameters request)) p ->
  prepares (W := W) bounds config (ci_ServiceID request) (ci_PlanID request) ->
  let sid := ci_ServiceID request in let pid := ci_PlanID request in
  hwp (handleCreateServiceInstance bounds configuration r params) (fun w _ s1 => exists s0,
    registered ns id rn s s0 /\
    ((exists err, prepared bounds request rn id tns s0 (Err err) s1 /\ w = jsonError new_writer err /\
        spawned s1 = spawned s /\ idle_instance every_secret id sid pid c p s s1) \/
     (exists opid provisioner e, creation_started bounds request rn id tns s0 provisioner e s1 /\ accepted e opid w /\
        spawned s1 = spawned s ++ [_ <- Creator_Run bounds provisioner e ;; Ret tt] /\
        (wp (Creator_run bounds provisioner e) (fun _ _ => True) s1 ->
         wp (_ <- Creator_Run bounds provisioner e ;; Ret tt) (fun _ s2 => exists outcome,
           (exists s', run (Creator_run bounds provisioner e) s1 = (Done outcome, s')) /\
           settles TypeProvision opid outcome id sid pid c p s s2) s1)))) new_writer s.
Proof.
  intros Hreq Hav Hcf Hnone Hns Hc Hp Hprep sid pid.
  eapply hwp_mono; [by apply hwp_available, (hwp_create_instance bounds configuration config r params request rn id tns c p)|].
  intros w o s1 [(s0 & Hreg & (e & Hl & [Hde _ _] & Hcm & Hout) & Hsp0 & Hrn & Hf) Hav1]. exists s0. split; [done|].
  assert (instance_key (world s1) ns id = (rn, Name ServiceInstance id)) as Hkey by (unfold instance_key; by rewrite Hrn).
  rewrite <- Hkey in Hf, Hl. rewrite Hsp0 in Hout.
  destruct Hout as [(opid & pr & Hpr & Hst & Hsp & Hw)|(err & Hpr & Hst & Hsp & Hw)].
  - right. exists opid, pr, e. do 3 (split; [done|]). intros Hrun.
    by apply (background_settles (Creator_run bounds pr e)); [apply mild_run_steps|..].
  - left. exists err. do 3 (split; [done|]). split; [exists e; split; [by apply stored_entry|done]|]. intros k _. apply Hf.
Qed.

(** ** Update *)

(** C12: an update, from the request to the end of its operation.  A valid
    update of an idle instance is refused with the error of preparing it and
    writes nothing, or what [Prepare] returned is started, it is accepted and
    one program runs in the background.  When that program has run, a poll
    for the operation that was returned reports its outcome and leaves the
    instance idle with its service, plan and context, and with the parameters
    of the request, also when the update failed.  No other secret out of the
    templates' reach changes on the way. *)
Theorem update_lifecycle config r params request id e sid pid c p p' s :
  update_request config r params request id pid -> available (world s) -> configured (world s) = Some config ->
  instance_entry (world s) ns id e -> describes e sid pid c p -> op_state_of e = Idle ->
  stores (raw_or_empty (ui_Parameters request)) p' -> update_prepares (W := W) bounds config request sid pid ->
  hwp (handleUpdateServiceInstance bounds configuration r params) (fun w _ s1 =>
    (exists e1 err, update_prepared bounds e request s e1 (Err err) s1 /\
       w = jsonErrorUsable new_writer err /\ unchanged s s1) \/
    (exists opid updater e', update_started bounds e request s updater e' s1 /\
       w = JSONResponse new_writer StatusAccepted (UpdateServiceInstanceResponse_Marshal (mkUpdateInstanceResponse "" opid)) /\
       spawned s1 = spawned s ++ [_ <- Updater_Run updater e' ;; Ret tt] /\
       (wp (Updater_run updater) (fun _ _ => True) s1 ->
        wp (_ <- Updater_Run updater e' ;; Ret tt) (fun _ s2 => exists outcome,
          (exists s', run (Updater_run updater) s1 = (Done outcome, s')) /\
          settles TypeUpdate opid outcome id sid pid c p' s s2) s1))) new_writer s.
Proof.
  intros Hreq Hav Hcf He Hde Hst Hstores Hprep.
  eapply hwp_mono; [by eapply hwp_available, hwp_update|].
  intros w o s1 [[(e1 & err & Hpr & Hu & Hw)|(opid & e' & u & Hpr & Hw & Hs & Hde' & Hst' & Hcm & Hsp)] Hav1].
  - left. by exists e1, err.
  - right. exists opid, u, e'. do 3 (split; [done|]). intros Hrun. pose proof (instance_key_insert _ _ _ _ Hs) as Hkey.
    apply (background_settles (Updater_run u)); try done; [apply mild_update_all|by rewrite Hkey, Hs, lookup_insert_eq|].
    intros k Hk _. rewrite Hkey in Hk. by rewrite Hs, lookup_insert_ne by congruence.
Qed.

(** ** Deletion *)

(** C13: deleting undoes creating.  For an instance that did not exist and has
    become idle since, a deletion is accepted and starts one program; once it
    has run, the instance is not in the directory, a poll is answered with 410,
    its entry is gone, and every secret but the directory that was left alone
    between is what it was before the instance was created: every secret at all
    when the templates made none. *)
Theorem deletion_undoes_creation (P : string * string -> Prop) r params r' params' id sid pid c p s s1 :
  P (ns, Name ServiceInstance id) ->
  idle_instance P id sid pid c p s s1 -> available (world s1) ->
  stored (world s) !! instance_key (world s1) ns id = None -> stored (world s) !! (ns, Name ServiceInstance id) = None ->
  deletion_request r params id sid pid -> ByName params' "instance_id" = id ->
  hwp (handleDeleteServiceInstance configuration r params) (fun w _ s2 => exists opid t,
    w = JSONResponse new_writer StatusAccepted (CreateServiceInstanceResponse_Marshal (mkCreateInstanceResponse "" opid)) /\
    spawned s2 = spawned s1 ++ [t] /\
    wp t (fun _ s3 =>
      directory_view (world s3) ns !! id = None /\
      stored (world s3) !! instance_key (world s1) ns id = None /\
      (forall k, P k -> k <> directory_key ns -> stored (world s3) !! k = stored (world s) !! k) /\
      hwp (handlePollServiceInstance configuration r' params') (fun w' _ _ =>
        w' = JSONResponse new_writer StatusGone empty_Marshal) new_writer s3) s2) new_writer s1.
Proof.
  intros HP [(e & He & Hde & Hst) Hf] Hav Hnone Hown [Ha [Hid Hne] Hq1 Hq2] Hid'.
  eapply hwp_mono; [by eapply hwp_available, hwp_deprovision|].
  intros w o s2 [(opid & e' & t & Hw & _ & _ & Hsp & Hdir & Hf2 & Ht) Hav2].
  exists opid, t. do 2 (split; [done|]). eapply wp_mono; [by apply wp_available|]. intros [] s3 [Hs Hav3].
  assert (directory_view (world s3) ns !! id = None) as Hdir3.
  { unfold directory_view. rewrite Hs, lookup_delete_ne by apply instance_directory_key. exact Hdir. }
  assert (forall k, P k -> k <> directory_key ns -> stored (world s3) !! k = stored (world s) !! k) as Hf3.
  { intros k HPk Hk. rewrite Hs. destruct (decide (k = instance_key (world s1) ns id)) as [->|Hk'].
    - by rewrite lookup_delete_eq.
    - by rewrite lookup_delete_ne, Hf2, Hf by congruence. }
  split; [done|]. split; [by rewrite Hs, lookup_delete_eq|]. split; [done|]. eapply hwp_mono; [eapply poll_gone; try done|by intros w' o' s4 [-> _]].
  unfold instance_key, instance_namespace. rewrite Hdir3, Hf3; [done|done|]. by intros [=].
Qed.
End Lifecycle.

Module LifecycleWitness.
Import Fixture HandlerWitness UpdateWitness.

Lemma creation_lifecycle_witness :
  hwp (handleCreateServiceInstance bounds server create_query params) (fun w _ s1 => exists s0,
    registered "ns" "i1" "ns" entry_start s0 /\
    ((exists err, prepared bounds create_body "ns" "i1" "ns" s0 (Err err) s1 /\ w = jsonError new_writer err /\
        spawned s1 = [] /\ idle_instance server every_secret "i1" "s1" "p1" null null entry_start s1) \/
     (exists opid provisioner e, creation_started bounds create_body "ns" "i1" "ns" s0 provisioner e s1 /\
        accepted e opid w /\
        spawned s1 = [_ <- Creator_Run bounds provisioner e ;; Ret tt] /\
        (wp (Creator_run bounds provisioner e) (fun _ _ => True) s1 ->
         wp (_ <- Creator_Run bounds provisioner e ;; Ret tt) (fun _ s2 => exists outcome,
           (exists s', run (Creator_run bounds provisioner e) s1 = (Done outcome, s')) /\
           settles server TypeProvision opid outcome "i1" "s1" "p1" null null entry_start s2) s1)))) new_writer entry_start.
Proof.
  apply (creation_lifecycle bounds server entry_config create_query params create_body "ns" "i1" "ns" null null entry_start);
    [exact entry_request|evaluate|evaluate|evaluate|evaluate| | |exact entry_prepares];
    exists "null"; split; evaluate.
Defined.

Lemma update_lifecycle_witness :
  hwp (handleUpdateServiceInstance bounds server update_query params) (fun w _ s1 =>
    (exists e1 err, update_prepared bounds (entry_at entry_idle) update_body entry_idle e1 (Err err) s1 /\
       w = jsonErrorUsable new_writer err /\ unchanged entry_idle s1) \/
    (exists opid updater e', update_started bounds (entry_at entry_idle) update_body entry_idle updater e' s1 /\
       w = JSONResponse new_writer StatusAccepted (UpdateServiceInstanceResponse_Marshal (mkUpdateInstanceResponse "" opid)) /\
       spawned s1 = [_ <- Updater_Run updater e' ;; Ret tt] /\
       (wp (Updater_run updater) (fun _ _ => True) s1 ->
        wp (_ <- Updater_Run updater e' ;; Ret tt) (fun _ s2 => exists outcome,
          (exists s', run (Updater_run updater) s1 = (Done outcome, s')) /\
          settles server TypeUpdate opid outcome "i1" "s1" "p1" null null entry_idle s2) s1))) new_writer entry_idle.
Proof.
  apply (update_lifecycle bounds server entry_config update_query params update_body "i1" (entry_at entry_idle)
           "s1" "p1" null null null entry_idle);
    [exact update_query_request|evaluate|evaluate|split; [|split]; evaluate|split; evaluate|evaluate
    |exists "null"; split; evaluate|exact update_query_prepares].
Defined.

(** From the start to the idle instance only its entry and the directory changed. *)
Lemma idle_since_start : idle_instance server every_secret "i1" "s1" "p1" null null start idle.
Proof.
  split.
  - exists (entry_at idle). split; [exact idle_entry|]. split; [exact idle_describes|]. evaluate.
  - assert (delete (instance_key (world idle) "ns" "i1") (delete (directory_key "ns") (stored (world idle))) =
            delete (instance_key (world idle) "ns" "i1") (delete (directory_key "ns") (stored (world start)))) as Hd by evaluate.
    intros k _ Hk Hk'. change (server_Namespace server) with "ns" in *.
    apply (f_equal (fun m => m !! k)) in Hd. by rewrite !lookup_delete_ne in Hd by congruence.
Qed.

Lemma deletion_undoes_creation_witness :
  hwp (handleDeleteServiceInstance server delete_query params) (fun w _ s2 => exists opid t,
    w = JSONResponse new_writer StatusAccepted (CreateServiceInstanceResponse_Marshal (mkCreateInstanceResponse "" opid)) /\
    spawned s2 = [t] /\
    wp t (fun _ s3 =>
      directory_view (world s3) "ns" !! "i1" = None /\
      stored (world s3) !! ("ns", Name ServiceInstance "i1") = None /\
      (forall k, every_secret k -> k <> directory_key "ns" -> stored (world s3) !! k = stored (world start) !! k) /\
      hwp (handlePollServiceInstance server poll_query params) (fun w' _ _ =>
        w' = JSONResponse new_writer StatusGone empty_Marshal) new_writer s3) s2) new_writer idle.
Proof.
  assert (instance_key (world idle) "ns" "i1" = ("ns", Name ServiceInstance "i1")) as Hk by evaluate. rewrite <- Hk.
  apply (deletion_undoes_creation server every_secret delete_query params poll_query params "i1" "s1" "p1" null null start idle);
    [exact I|exact idle_since_start|evaluate|evaluate|evaluate| |evaluate].
  split; [evaluate|split; [evaluate|discriminate]|evaluate|evaluate].
Defined.
End LifecycleWitness.
