(* ===== verification/Server.v ===== *)
(** * The server ([pkg/broker/broker.go])

    The router and what surrounds it: readiness, then authentication and the
    other header checks, then the handler of the route.  [config.Lock] and
    [config.Unlock] hold the read lock of the configuration in between. *)

From S2P Require Import Prelude Json Errors Types Platform Vendor Api Http Registry Operation Config.
From S2P Require Import BrokerUtil Auth Template Provision Handlers.

Local Open Scope broker_scope.

Section Server.
Context `{Vendor} (bounds : Bounds) (configuration : ServerConfiguration).

Record route : Type := mkRoute {
  route_method : string;
  route_path : string;
  route_handler : Request -> Params -> handler unit;
}.

(** [NewOpenServiceBrokerHandler] *)
Definition routes : list route := [
  mkRoute "GET" "/readyz" (fun _ _ => handleReadyz);
  mkRoute "GET" "/v2/catalog" (fun _ _ => handleReadCatalog);
  mkRoute "PUT" "/v2/service_instances/:instance_id" (handleCreateServiceInstance bounds configuration);
  mkRoute "GET" "/v2/service_instances/:instance_id" (handleReadServiceInstance configuration);
  mkRoute "PATCH" "/v2/service_instances/:instance_id" (handleUpdateServiceInstance bounds configuration);
  mkRoute "DELETE" "/v2/service_instances/:instance_id" (handleDeleteServiceInstance configuration);
  mkRoute "GET" "/v2/service_instances/:instance_id/last_operation" (handlePollServiceInstance configuration);
  mkRoute "PUT" "/v2/service_instances/:instance_id/service_bindings/:binding_id"
    (handleCreateServiceBinding bounds configuration);
  mkRoute "DELETE" "/v2/service_instances/:instance_id/service_bindings/:binding_id"
    (handleDeleteServiceBinding configuration);
  mkRoute "POST" "/login" (handleLogin configuration)
].

Definition patterns : list (string * string) := map (fun r => (route_method r, route_path r)) routes.

(** The router calls the handler of the route that matches. *)
Definition router_ServeHTTP (r : Request) : handler unit :=
  match httprouter_Lookup patterns (req_Method r) (req_Path r) with
  | (Some i, params) =>
      match routes !! i with
      | Some route => route_handler route r params
      | None => hwrite (fun w => httpResponse w (httprouter_Unmatched patterns (req_Method r) (req_Path r)))
      end
  | (None, _) => hwrite (fun w => httpResponse w (httprouter_Unmatched patterns (req_Method r) (req_Path r)))
  end.

(** The paths that are served without authentication. *)
Definition is_open (path : string) : bool :=
  (path =?s "/readyz") || (path =?s "/login") || (path =?s "/register").

(** A request from its arrival: the readiness of the service, the headers of
    the request, the route; all under the read lock of the configuration.
    What is logged is not modelled. *)
Definition ServeHTTP (r : Request) : prog writer :=
  _ <- call TimeNow ;;
  _ <- Lock ;;
  defer Unlock
    (' (w, err) <- handleReadiness new_writer ;;
     match err with
     | Some _ => Ret w
     | None =>
         ' (w, err) <- (if is_open (req_Path r) then Ret (w, None)
                        else handleRequestHeaders configuration w r) ;;
         match err with
         | Some _ => Ret w
         | None => o <- router_ServeHTTP r w ;; Ret o.1
         end
     end).
End Server.
