(* ===== verification/ProtocolFacts.v ===== *)
(** * Requests and background programs keep to the protocol

    Every handler, and every program that it starts, obeys the protocol of
    [Protocol]: each write is one step of the entry that was read.  From this
    follow the properties of the broker under any interleaving of requests:
    the registry stays well formed, an entry changes by the steps of its life
    only, and requests leave the entries of other instances alone. *)

From S2P Require Import Prelude Json JsonFacts Errors Types Platform Vendor Sim Fixture Api Http Registry.
From S2P Require Import RegistryFacts Operation Config BrokerUtil DirectoryFacts Auth Template TemplateFacts.
From S2P Require Import Provision ProvisionFacts Protocol Handlers HandlerFacts Server.
From stdpp Require Import relations.

Local Open Scope broker_scope.

(** ** Handlers *)

Section Rules.
Context `{Vendor} (owns : string -> Prop).

(** The handler keeps to the protocol from every response; when it goes on,
    it does with a value that satisfies [Q]. *)
Definition hobeys {A} (h : handler A) (Q : A -> knowledge -> Prop) (known : knowledge) : Prop :=
  forall w, obeys owns (h w) (fun r known' => match r.2 with Some a => Q a known' | None => True end) known.

Lemma hobeys_bind {A B} (m : handler A) (k : A -> handler B) Q known :
  hobeys m (fun a known' => hobeys (k a) Q known') known -> hobeys (hbind m k) Q known.
Proof.
  intros Hm w. apply obeys_bind. eapply obeys_mono; [apply Hm|]. intros [w' [a|]] known' Ha; [apply Ha|done].
Qed.

Lemma hobeys_lift {A} (p : prog A) (k : A -> handler unit) Q known :
  obeys owns p (fun a known' => hobeys (k a) Q known') known -> hobeys (hbind (hlift p) k) Q known.
Proof. intros Hp. apply hobeys_bind. intros w. apply obeys_bind. eapply obeys_mono; [exact Hp|]. done. Qed.

Lemma hobeys_try {A} (r : result A) (k : A -> handler unit) Q known :
  (forall a, r = Ok a -> hobeys (k a) Q known) -> hobeys (hbind (try_ r) k) Q known.
Proof. intros Hk. apply hobeys_bind. intros w. destruct r as [a|err]; cbn; [by apply Hk|done]. Qed.

Lemma hobeys_tryp {A} (p : prog (result A)) (k : A -> handler unit) Q known :
  obeys owns p (fun r known' => match r with Ok a => hobeys (k a) Q known' | Err _ => True end) known ->
  hobeys (hbind (tryp p) k) Q known.
Proof.
  intros Hp. apply hobeys_bind. intros w. apply obeys_bind, obeys_bind.
  eapply obeys_mono; [exact Hp|]. by intros [a|err] known' Ha.
Qed.

Lemma hobeys_check err (k : unit -> handler unit) Q known :
  (err = None -> hobeys (k tt) Q known) -> hobeys (hbind (check err) k) Q known.
Proof. intros Hk. apply hobeys_bind. intros w. destruct err; cbn; [done|by apply Hk]. Qed.

Lemma hobeys_require {A} (r : result (option A)) m (k : A -> handler unit) Q known :
  (forall a, r = Ok (Some a) -> hobeys (k a) Q known) -> hobeys (hbind (require r m) k) Q known.
Proof. intros Hk. apply hobeys_bind. intros w. destruct r as [[a|]|err]; cbn; [by apply Hk|done..]. Qed.

Lemma hobeys_unchecked r m (k : string -> handler unit) Q known :
  (forall v, hobeys (k v) Q known) -> hobeys (hbind (require_unchecked r m) k) Q known.
Proof. intros Hk. apply hobeys_bind. intros w. destruct r as [[a|]|err]; cbn; [apply Hk..|done]. Qed.

Lemma hobeys_checkUsable err (k : unit -> handler unit) Q known :
  (err = None -> hobeys (k tt) Q known) -> hobeys (hbind (checkUsable err) k) Q known.
Proof. intros Hk. apply hobeys_bind. intros w. destruct err; cbn; [done|by apply Hk]. Qed.

Lemma hobeys_trypUsable {A} (p : prog (result A)) (k : A -> handler unit) Q known :
  obeys owns p (fun r known' => match r with Ok a => hobeys (k a) Q known' | Err _ => True end) known ->
  hobeys (hbind (trypUsable p) k) Q known.
Proof.
  intros Hp. apply hobeys_bind. intros w. apply obeys_bind, obeys_bind.
  eapply obeys_mono; [exact Hp|]. by intros [a|err] known' Ha.
Qed.

(** Parts that only look at what was read. *)
Lemma hobeys_quiet {A} (h : handler A) (k : A -> handler unit) Q known :
  heffects no_registry_writes h -> (forall a known', known ⊆ known' -> hobeys (k a) Q known') ->
  hobeys (hbind h k) Q known.
Proof.
  intros Hh Hk. apply hobeys_bind. intros w. apply obeys_quiet; [apply Hh|].
  intros [w' [a|]] known' Hsub; [by apply Hk|done].
Qed.

Lemma hobeys_done {A} (h : handler A) known : heffects no_registry_writes h -> hobeys h (fun _ _ => True) known.
Proof. intros Hh w. apply obeys_quiet; [apply Hh|]. by intros [w' [a|]] known'. Qed.

Lemma hobeys_Config (k : ServiceBrokerConfig -> handler unit) Q known :
  (forall c known', known ⊆ known' -> hobeys (k c) Q known') -> hobeys (hbind (hlift Config) k) Q known.
Proof.
  intros Hk. apply hobeys_lift, obeys_quiet; [|done]. unfold Config, nil_dereference. effects_solver.
Qed.

Lemma hobeys_go t (k : unit -> handler unit) Q known :
  obeys owns t (fun _ _ => True) known -> hobeys (k tt) Q (disown known) -> hobeys (hbind (hlift (go t)) k) Q known.
Proof. intros Ht Hk. by apply hobeys_lift. Qed.
End Rules.

Lemma mild_secrets {A} (p : prog A) : effects no_own_writes p -> effects no_registry_writes p.
Proof. apply effects_weaken, no_own_writes_secrets. Qed.

Lemma calm_secrets {A} (p : prog A) : effects no_writes p -> effects no_registry_writes p.
Proof. intros Hp. by apply mild_secrets, calm_mild. Qed.

(** ** Parts of handlers that write nothing *)

Section Quiet.
Context `{Vendor}.

Ltac quiet_handler :=
  repeat first
    [ done
    | progress intros
    | apply heffects_bind
    | apply heffects_try
    | apply heffects_check
    | apply heffects_require
    | match goal with |- heffects _ (match ?x with _ => _ end) => destruct x end ].

Lemma quiet_existing_instance e request : heffects no_registry_writes (existing_instance e request).
Proof. unfold existing_instance. quiet_handler. Qed.

Lemma quiet_existing_binding e request : heffects no_registry_writes (existing_binding e request).
Proof. unfold existing_binding. quiet_handler. Qed.

Lemma quiet_check_service_plan r e : heffects no_registry_writes (check_service_plan r e).
Proof. unfold check_service_plan, check_hint. quiet_handler. Qed.

Lemma quiet_validateParameters c sid pid t o p : effects no_registry_writes (validateParameters c sid pid t o p).
Proof. unfold validateParameters, nil_dereference. repeat case_match; done. Qed.

Lemma quiet_authorize configuration r sid pid : effects no_registry_writes (authorize configuration r sid pid).
Proof. apply calm_secrets, calm_authorize. Qed.

Lemma quiet_NewDirectory ns : effects no_registry_writes (Directory.NewDirectory ns).
Proof. unfold Directory.NewDirectory. effects_solver. Qed.

Lemma quiet_getDirectoryInstance ns id : effects no_registry_writes (getDirectoryInstance ns id).
Proof. unfold getDirectoryInstance. effects_solver. Qed.
End Quiet.

(** ** The registry and the directory *)

Section Parts.
Context `{Vendor} (owns : string -> Prop) (bounds : Bounds) (configuration : ServerConfiguration).

Lemma obeys_registerDirectoryInstance c ctx ns id sid pid (Q : result DirectoryEntry -> knowledge -> Prop) known :
  owns (Name ServiceInstance id) -> (forall r known', known ⊆ known' -> Q r known') ->
  obeys owns (registerDirectoryInstance c ctx ns id sid pid) Q known.
Proof.
  intros Ho HQ. unfold registerDirectoryInstance. destruct (GetTemplateBindings c sid pid) as [b|]; [|by apply HQ].
  destruct (registryNamespace b ctx ns) as [rn|]; [|by apply HQ]. apply obeys_try.
  unfold Directory.NewDirectory. apply obeys_bind, obeys_call; [done|]. intros [sec|err] Hr; cbn [rely learn obeys] in *.
  - destruct Hr as [[= Hns Hn] [_ Hwf]]. apply obeys_try. unfold Directory.Add.
    destruct (Marshal (mkDirectoryEntry rn)) as [t|] eqn:Hm; [|apply HQ; set_solver]. unfold Directory.commit. cbn [directory_exists].
    apply obeys_try, obeys_call.
    + exists sec, false. split; [left|]. split; [done|]. split; [done|]. split; [|by intros Hl%directory_unlocked].
      apply (change_directory owns _ id); [done|done|]. cbn. split; [intros id' Hid; by rewrite lookup_insert_ne|]. right. exists (mkDirectoryEntry rn), t.
      split; [done|]. by rewrite lookup_insert_eq.
    + intros [sec'|err] _; apply HQ; set_solver.
  - destruct (IsNotFound err); [|by apply HQ]. cbn [obeys]. apply obeys_try. unfold Directory.Add.
    destruct (Marshal (mkDirectoryEntry rn)) as [t|] eqn:Hm; [|by apply HQ]. unfold Directory.commit. cbn [directory_exists].
    apply obeys_try, obeys_call.
    + apply (change_directory_create owns _ id); [done|done|].
      cbn. split; [intros id' Hid; by rewrite lookup_insert_ne|]. right. exists (mkDirectoryEntry rn), t.
      split; [done|]. by rewrite lookup_insert_eq.
    + intros [sec'|err'] _; apply HQ; set_solver.
Qed.

Lemma obeys_deleteDirectoryInstance ns id (Q : unit -> knowledge -> Prop) known :
  owns (Name ServiceInstance id) -> (forall known', known ⊆ known' -> Q tt known') ->
  obeys owns (deleteDirectoryInstance ns id) Q known.
Proof.
  intros Ho HQ. unfold deleteDirectoryInstance, Directory.NewDirectory. apply obeys_bind, obeys_bind, obeys_call; [done|].
  intros [sec|err] Hr; cbn [rely learn obeys] in *.
  2:{ destruct (IsNotFound err); cbn [obeys]; by apply HQ. }
  destruct Hr as [[= Hns Hn] [_ Hwf]]. apply obeys_bind. unfold Directory.Remove. cbn [directory_secret].
  destruct (secret_Data sec) as [m|] eqn:Hm; [|cbn; apply HQ; set_solver].
  destruct (m !! id) eqn:Hid; [|cbn; apply HQ; set_solver]. unfold Directory.commit. cbn [directory_exists].
  apply obeys_try, obeys_call.
  - exists sec, false. split; [left|]. split; [done|]. split; [done|]. split; [|by intros Hl%directory_unlocked].
    apply (change_directory owns _ id); [done|done|]. unfold data_of. rewrite Hm. cbn. split; [intros id' Hne; by rewrite lookup_delete_ne|]. left. by rewrite lookup_delete_eq.
  - intros [sec'|err] _; cbn; apply HQ; set_solver.
Qed.

Lemma obeys_render_registry l e (Q : result Entry -> knowledge -> Prop) known :
  (forall r known', known ⊆ known' -> (forall e', r = Ok e' -> user_edit e e') -> Q r known') ->
  obeys owns (render_registry bounds l e) Q known.
Proof.
  revert e known. induction l as [|r l IH]; intros e known HQ; cbn [render_registry].
  { apply HQ; [done|]. intros e' [= <-]. apply user_edit_refl. }
  apply obeys_try, obeys_quiet; [apply calm_secrets, calm_render_string|]. intros [v|err] known1 Hk1; [|by apply HQ].
  assert (forall e1, user_edit e e1 -> obeys owns (render_registry bounds l e1) Q known1) as Hrest.
  { intros e1 He1. apply IH. intros r' known' Hk He'. apply HQ; [by etransitivity|]. intros e' ->.
    eapply user_edit_trans; [done|by apply He']. }
  assert (obeys owns (match Entry.SetUser e (value_Name r) v with
                      | Err err => Ret (Err err) | Ok e => render_registry bounds l e end) Q known1) as Hset.
  { destruct (Entry.SetUser e (value_Name r) v) as [e1|err] eqn:Es; [|by apply HQ]. apply Hrest. by eapply SetUser_edit. }
  destruct v; try exact Hset. apply Hrest, user_edit_refl.
Qed.

Lemma obeys_Creator_Prepare p e (Q : result (Creator * Entry) -> knowledge -> Prop) known :
  (forall r known', known ⊆ known' -> (forall p' e', r = Ok (p', e') -> user_edit e e') -> Q r known') ->
  obeys owns (Creator_Prepare bounds p e) Q known.
Proof.
  intros HQ. unfold Creator_Prepare. destruct (entry_service_plan e _ _) as [[sid pid]|]; [|by apply HQ].
  apply obeys_try, obeys_quiet; [apply calm_secrets, calm_getTemplateBinding|]. intros [t|] known1 Hk1; [|by apply HQ].
  apply obeys_try, obeys_render_registry. intros [e1|] known2 Hk2 He; (assert (known ⊆ known2) by (by etransitivity)); [|by apply HQ].
  apply obeys_try, obeys_quiet; [apply calm_secrets, calm_render_steps|].
  intros [steps|] known3 Hk3; (apply HQ; [by etransitivity|]); [|done]. intros p' e' [= <- <-]. by apply He.
Qed.

(** A draft that templates have edited. *)
Lemma draft_user_edit m known e e' d t :
  user_edit e e' -> draft owns m known e d -> prepared_from d e t -> draft owns m known e' d /\ prepared_from d e' t.
Proof.
  intros (Hk & Hv & Hex & _ & Hd) Hdr (Hop & Hid & Hpar). split; [by eapply draft_edit|]. split; [|split].
  - intros k Hk'. rewrite Hd by (revert Hk'; unfold reserved_keys; set_solver). by apply Hop.
  - intros k Hk'. rewrite Hd by (revert Hk'; unfold reserved_keys, identity_keys; set_solver). by apply Hid.
  - assert (entry_data e' !! Parameters_ = entry_data e !! Parameters_) as Hp by (apply Hd; unfold reserved_keys; set_solver).
    rewrite Hp. destruct Hpar as [Hpar|[Ht Hpar]]; [by left|right]. split; [done|]. by eapply has_type_lookup.
Qed.

(** The programs in the background. *)
Lemma obeys_Creator_Run p e t id (Q : Entry -> knowledge -> Prop) known :
  draft owns true known e (entry_data e) -> records (entry_data e) (Running t id) ->
  (forall e' known' st, known ⊆ known' -> busy owns known' e' t id st -> Q e' known') ->
  obeys owns (Creator_Run bounds p e) Q known.
Proof.
  intros Hd Hr HQ. unfold Creator_Run, Creator_run. apply obeys_bind, obeys_quiet; [apply mild_secrets, mild_run_steps|].
  intros err known1 Hk1. apply obeys_bind. eapply obeys_Complete; [by eapply draft_known|done|].
  intros r known2 st Hk2 Hb. eapply HQ; [by etransitivity|exact Hb].
Qed.

Lemma obeys_Updater_Run u e t id (Q : Entry -> knowledge -> Prop) known :
  draft owns true known e (entry_data e) -> records (entry_data e) (Running t id) ->
  (forall e' known' st, known ⊆ known' -> busy owns known' e' t id st -> Q e' known') ->
  obeys owns (Updater_Run u e) Q known.
Proof.
  intros Hd Hr HQ. unfold Updater_Run, Updater_run. apply obeys_bind, obeys_quiet; [apply mild_secrets, mild_update_all|].
  intros err known1 Hk1. apply obeys_bind. eapply obeys_Complete; [by eapply draft_known|done|].
  intros r known2 st Hk2 Hb. eapply HQ; [by etransitivity|exact Hb].
Qed.
End Parts.

(** ** The handlers *)

Section Handlers.
Context `{Vendor} (owns : string -> Prop) (bounds : Bounds) (configuration : ServerConfiguration).

Abbreviation ns := (server_Namespace configuration).
Abbreviation anything := (fun (_ : unit) (_ : knowledge) => True).

Lemma instance_type : ServiceInstance ∈ [ServiceInstance; ServiceBinding].
Proof. by left. Qed.

Lemma binding_type : ServiceBinding ∈ [ServiceInstance; ServiceBinding].
Proof. by right; left. Qed.

Lemma Marshal_has_type T `{GoJSON T} (v : T) t d k : Marshal v = Ok t -> d !! k = Some t -> has_type T d k.
Proof. intros Hm Hl. by exists v, t. Qed.

Lemma has_type_quote d k v : d !! k = Some (quote v) -> has_type string d k.
Proof. intros Hl. by exists v, (quote v). Qed.

(** A new instance starts well formed. *)
Lemma instance_keys_well_formed e id n request e' :
  entry_data e = ∅ -> instance_keys e id n request = Ok e' ->
  well_formed (entry_data e') /\ records (entry_data e') Idle /\ entry_exists e' = entry_exists e /\
  secret_Name (entry_secret e') = secret_Name (entry_secret e).
Proof.
  intros He. unfold instance_keys. rewrite !Set_string. cbn [res_bind]. rewrite Set_string. cbn [res_bind].
  rewrite Set_string. cbn [res_bind]. rewrite Set_string. cbn [res_bind]. rewrite Set_put.
  destruct (Marshal (raw_or_empty (ci_Context request))) as [tc|] eqn:Hc; [|done]. cbn [res_bind]. rewrite Set_put.
  destruct (Marshal (raw_or_empty (ci_Parameters request))) as [tp|] eqn:Hp; [|done]. cbn [res_bind].
  intros [= <-]. rewrite !entry_data_put, He.
  match goal with |- well_formed ?d /\ _ => assert (records d Idle) as Hi by (constructor; by simplify_map_eq) end.
  split; [|done]. split; try (eapply has_type_quote; simplify_map_eq; reflexivity).
  - eapply Marshal_has_type; [exact Hc|by simplify_map_eq].
  - eapply Marshal_has_type; [exact Hp|by simplify_map_eq].
  - by exists Idle.
Qed.

(** A new binding starts with what its instance has. *)
Lemma binding_keys_well_formed e ie bid request e' :
  entry_data e = ∅ -> well_formed (entry_data ie) -> binding_keys e ie bid request = Ok e' ->
  well_formed (entry_data e') /\ entry_exists e' = entry_exists e /\
  secret_Name (entry_secret e') = secret_Name (entry_secret e).
Proof.
  intros He Hie. unfold binding_keys. rewrite Set_string. cbn [res_bind]. rewrite Set_put.
  destruct (Marshal (raw_or_empty (cb_Context request))) as [tc|] eqn:Hc; [|done]. cbn [res_bind]. rewrite Set_put.
  destruct (Marshal (raw_or_empty (cb_Parameters request))) as [tp|] eqn:Hp; [|done]. cbn [res_bind].
  intros [= <-].
  assert (forall x, entry_exists (Entry.Inherit x ie) = entry_exists x /\
            secret_Name (entry_secret (Entry.Inherit x ie)) = secret_Name (entry_secret x)) as Hinh.
  { intros x. unfold Entry.Inherit. by destruct (secret_Data (entry_secret ie)). }
  split; [|by destruct (Hinh e)]. rewrite !entry_data_put, entry_data_Inherit, He, (right_id_L ∅ (∪)).
  destruct Hie as [? ? ? ? ? ? [st Hst]].
  split; try (eapply has_type_lookup; [|done]; by rewrite !lookup_insert_ne by done).
  - eapply Marshal_has_type; [exact Hc|by simplify_map_eq].
  - eapply Marshal_has_type; [exact Hp|by simplify_map_eq].
  - exists st. eapply records_lookup; [..|done]; by rewrite !lookup_insert_ne by done.
Qed.

Lemma hobeys_new_instance e id request known :
  owns (Name ServiceInstance id) -> entry_exists e = false -> entry_readOnly e = false ->
  secret_Name (entry_secret e) = Name ServiceInstance id -> entry_data e = ∅ ->
  hobeys owns (new_instance bounds configuration e id request) anything known.
Proof.
  intros Ho Hex Hro Hn He. unfold new_instance. apply hobeys_try. intros n _. apply hobeys_try. intros e1 Hk.
  destruct (instance_keys_well_formed _ _ _ _ _ He Hk) as (Hwf & Hidle & Hex1 & Hn1). rewrite Hn in Hn1. rewrite Hex in Hex1.
  apply hobeys_tryp, obeys_Commit_new; [done|rewrite Hn1; exists ServiceInstance, id; split; [apply instance_type|done]|by rewrite Hn1|done|done|].
  intros [e2|err] known2 Hk2 Hr; [|done]. destruct Hr as (Hd2 & Hdr2 & _). rewrite <- Hd2 in Hdr2.
  apply hobeys_try. cbn [NewCreator]. intros pr [= <-].
  apply hobeys_tryp, obeys_Creator_Prepare. intros [[pr e3]|err] known3 Hk3 He3; [|done].
  destruct (draft_user_edit owns true known2 e2 e3 _ TypeProvision (He3 _ _ eq_refl) Hdr2 (prepared_from_self e2 _)) as [Hdr3 Hpf].
  apply hobeys_tryp. eapply obeys_Start; [by left|by eapply draft_known|exact Hpf|]. intros [e4|err] known4 Hk4 Hr4; [|done].
  destruct Hr4 as (Hdr4 & opid & Hrec). apply hobeys_go.
  { apply obeys_bind. by eapply obeys_Creator_Run. }
  apply hobeys_done. apply heffects_bind; [apply heffects_require|]. intros o. apply heffects_bind; [apply heffects_try|]. done.
Qed.

Lemma hobeys_create_instance r params known :
  owns (Name ServiceInstance (ByName params "instance_id")) ->
  hobeys owns (handleCreateServiceInstance bounds configuration r params) anything known.
Proof.
  intros Ho. unfold handleCreateServiceInstance. apply hobeys_check. intros _. apply hobeys_try. intros request _.
  apply hobeys_lift, obeys_quiet; [apply quiet_authorize|]. intros err known1 _. apply hobeys_check. intros _. cbv zeta.
  apply hobeys_check. intros _. apply hobeys_Config. intros c known2 _. apply hobeys_check. intros _.
  apply hobeys_Config. intros c' known3 _. apply hobeys_lift, obeys_quiet; [apply quiet_validateParameters|].
  intros err' known4 _. apply hobeys_check. intros _. apply hobeys_Config. intros c'' known5 _.
  apply hobeys_tryp, obeys_registerDirectoryInstance; [done|]. intros [d|] known6 _; [|done].
  apply hobeys_tryp, obeys_New; [apply instance_type|done|]. intros [e|] known7 _ Hr; [|done].
  destruct Hr as (Hro & Hn & He). unfold Entry.Exists. destruct (entry_exists e) eqn:Hex.
  - apply hobeys_done, quiet_existing_instance.
  - by apply hobeys_new_instance.
Qed.

Lemma hobeys_read_instance r params known :
  hobeys owns (handleReadServiceInstance configuration r params) anything known.
Proof.
  apply hobeys_done. unfold handleReadServiceInstance, check_hint. apply heffects_bind; [apply heffects_check|]. intros _.
  apply heffects_bind; [apply heffects_lift, quiet_getDirectoryInstance|]. intros d.
  apply heffects_bind; [apply heffects_tryp; unfold Entry.New; effects_solver|]. intros e.
  repeat (apply heffects_bind; [first [apply heffects_check|apply heffects_try|apply heffects_require]|intros ?]). done.
Qed.

Lemma hobeys_update_instance e request known :
  draft owns false known e (entry_data e) -> hobeys owns (update_instance bounds e request) anything known.
Proof.
  intros Hd. unfold update_instance. apply hobeys_try. intros e1. rewrite Set_put.
  destruct (Marshal (raw_or_empty (ui_Parameters request))) as [t|] eqn:Hm; [|done]. cbn [res_bind]. intros [= <-].
  apply hobeys_trypUsable. cbn [NewUpdater obeys]. apply hobeys_trypUsable, obeys_quiet; [apply calm_secrets, calm_Updater_Prepare|].
  intros [u|err] known1 Hk1; [|done]. apply hobeys_tryp.
  eapply (obeys_Start owns false _ (entry_data e)); [by right; left|eapply draft_edit; [..|by eapply draft_known]; done| |].
  - split; [|split].
    + intros k Hk. rewrite entry_data_put, lookup_insert_ne; [done|]. intros <-. revert Hk. set_solver.
    + intros k Hk. rewrite entry_data_put, lookup_insert_ne; [done|]. intros <-. revert Hk. unfold identity_keys. set_solver.
    + right. split; [done|]. eapply Marshal_has_type; [exact Hm|]. by rewrite entry_data_put, lookup_insert_eq.
  - intros [e2|err] known2 Hk2 Hr; [|done]. destruct Hr as (Hdr & opid & Hrec). apply hobeys_go.
    { apply obeys_bind. by eapply obeys_Updater_Run. }
    apply hobeys_unchecked. intros v. by apply hobeys_done.
Qed.

Lemma hobeys_update r params known :
  owns (Name ServiceInstance (ByName params "instance_id")) ->
  hobeys owns (handleUpdateServiceInstance bounds configuration r params) anything known.
Proof.
  intros Ho. unfold handleUpdateServiceInstance. apply hobeys_check. intros _. cbv zeta. apply hobeys_checkUsable. intros _.
  apply hobeys_try. intros request _. apply hobeys_lift, obeys_quiet; [apply quiet_getDirectoryInstance|]. intros d known1 _.
  apply hobeys_tryp, obeys_New; [apply instance_type|done|]. intros [e|] known2 _ Hr; [|done].
  destruct Hr as (Hro & Hn & He). apply hobeys_check. unfold Entry.Exists. destruct (entry_exists e) eqn:Hex; [|done]. intros _.
  destruct He as [_ Hd]. specialize (Hd eq_refl). apply hobeys_require. intros pid _. apply hobeys_Config. intros c known3 Hk3. apply hobeys_check. intros _.
  apply hobeys_Config. intros c' known4 Hk4. apply hobeys_check. intros _. apply hobeys_Config. intros c'' known5 Hk5.
  apply hobeys_lift, obeys_quiet; [apply quiet_validateParameters|]. intros err known6 Hk6. apply hobeys_checkUsable. intros _.
  apply hobeys_update_instance. eapply draft_known; [|exact Hd]. set_solver.
Qed.

Lemma hobeys_delete_instance r params known :
  owns (Name ServiceInstance (ByName params "instance_id")) ->
  hobeys owns (handleDeleteServiceInstance configuration r params) anything known.
Proof.
  intros Ho. unfold handleDeleteServiceInstance. apply hobeys_check. intros _. cbv zeta. apply hobeys_check. intros _.
  apply hobeys_lift, obeys_quiet; [apply quiet_getDirectoryInstance|]. intros d known1 _.
  apply hobeys_lift, obeys_deleteDirectoryInstance; [done|]. intros known2 _.
  apply hobeys_tryp, obeys_New; [apply instance_type|done|]. intros [e|] known3 _ Hr; [|done].
  destruct Hr as (Hro & Hn & He). apply hobeys_check. unfold Entry.Exists. destruct (entry_exists e) eqn:Hex; [|done]. intros _.
  destruct He as [_ Hd]. specialize (Hd eq_refl). apply hobeys_quiet; [apply quiet_check_service_plan|]. intros _ known4 Hk4.
  apply hobeys_tryp. eapply (obeys_Start owns false e (entry_data e)); [by do 2 right; left|by eapply draft_known|apply prepared_from_self|].
  intros [e2|err] known5 Hk5 Hr; [|done]. destruct Hr as (Hdr & opid & Hrec). apply hobeys_go.
  { pose proof Hdr as (_ & Hen & Hown & _). apply obeys_bind, obeys_Delete; [done|done| |done].
    intros i _. by exists (entry_data e2), opid. }
  apply hobeys_unchecked. intros v. by apply hobeys_done.
Qed.

Lemma hobeys_poll r params known :
  owns (Name ServiceInstance (ByName params "instance_id")) ->
  hobeys owns (handlePollServiceInstance configuration r params) anything known.
Proof.
  intros Ho. unfold handlePollServiceInstance. cbv zeta. apply hobeys_check. intros _.
  apply hobeys_lift, obeys_quiet; [apply quiet_getDirectoryInstance|]. intros d known1 _.
  apply hobeys_tryp, obeys_New; [apply instance_type|done|]. intros [e|] known2 _ Hr; [|done].
  destruct Hr as (Hro & Hn & He). unfold Entry.Exists. destruct (entry_exists e) eqn:Hex; cbn [negb]; [|by apply hobeys_done].
  destruct He as [Hwf Hd]. specialize (Hd eq_refl). do 3 (apply hobeys_try; intros ? _). do 3 (apply hobeys_unchecked; intros ?).
  do 2 (apply hobeys_check; intros _). apply hobeys_check. intros _. unfold poll_status. apply hobeys_try. intros [status|] Hstat; [|by apply hobeys_done].
  apply hobeys_tryp. unfold Entry.GetString in Hstat. rewrite Get_data in Hstat.
  destruct (entry_data e !! OperationStatus) as [text|] eqn:Ht; [|done].
  destruct (finished_records _ _ Hwf Ht) as (t & opid & st & Hrec). eapply (obeys_End owns e t opid (Finished t opid st)).
  - exists (entry_data e), false. do 2 (split; [done|]). split; [right; by eexists|done].
  - right. by eexists.
  - intros [x|err] known3 _; [|done]. destruct (status =?s ""); by apply hobeys_done.
Qed.

Lemma hobeys_new_binding_only e ie bid request known :
  (forall n, owns n <-> n = Name ServiceBinding bid) -> entry_exists e = false -> entry_readOnly e = false ->
  secret_Name (entry_secret e) = Name ServiceBinding bid -> entry_data e = ∅ -> well_formed (entry_data ie) ->
  hobeys owns (new_binding bounds e ie bid request) anything known.
Proof.
  intros Honly Hex Hro Hn He Hie. pose proof (proj2 (Honly _) eq_refl) as Ho. unfold new_binding. apply hobeys_try. intros e1 Hk.
  destruct (binding_keys_well_formed _ _ _ _ _ He Hie Hk) as (Hwf & Hex1 & Hn1). rewrite Hn in Hn1. rewrite Hex in Hex1.
  apply hobeys_tryp, obeys_Commit_new; [done|rewrite Hn1; exists ServiceBinding, bid; split; [apply binding_type|done]|by rewrite Hn1|done|by rewrite Hn1|].
  intros [e2|err] known2 Hk2 Hr; [|done]. destruct Hr as (Hd2 & Hdr2 & _). rewrite <- Hd2 in Hdr2.
  apply hobeys_try. cbn [NewCreator]. intros pr [= <-].
  apply hobeys_tryp, obeys_Creator_Prepare. intros [[pr e3]|err] known3 Hk3 He3; [|done].
  destruct (draft_user_edit owns true known2 e2 e3 _ TypeProvision (He3 _ _ eq_refl) Hdr2 (prepared_from_self e2 _)) as [Hdr3 Hpf].
  apply hobeys_tryp. eapply obeys_Start; [by left|by eapply draft_known|exact Hpf|]. intros [e4|err] known4 Hk4 Hr4; [|done].
  destruct Hr4 as (Hdr4 & opid & Hrec). apply hobeys_lift. eapply obeys_Creator_Run; [done|done|]. intros e5 known5 st Hk5 Hb.
  apply hobeys_require. intros status _. apply hobeys_tryp. eapply obeys_End; [exact Hb| |].
  - left. intros i. destruct Hb as (d & m & (_ & _ & Hown & _) & _). by apply Honly in Hown as ->.
  - intros [x|err] known6 _; [|done]. apply hobeys_done. apply heffects_bind; [apply heffects_check|]. intros _.
    apply heffects_bind; [apply heffects_try|]. done.
Qed.

End Handlers.

Lemma hobeys_owns `{Vendor} (owns owns' : string -> Prop) {A} (h : handler A) Q known :
  (forall n, owns' n -> owns n) -> hobeys owns' h Q known -> hobeys owns h Q known.
Proof. intros Hsub Hh w. eapply obeys_owns; [exact Hsub|apply Hh]. Qed.

Section BindingHandlers.
Context `{Vendor} (owns : string -> Prop) (bounds : Bounds) (configuration : ServerConfiguration).

Abbreviation ns := (server_Namespace configuration).
Abbreviation anything := (fun (_ : unit) (_ : knowledge) => True).

Lemma hobeys_new_binding e ie bid request known :
  owns (Name ServiceBinding bid) -> entry_exists e = false -> entry_readOnly e = false ->
  secret_Name (entry_secret e) = Name ServiceBinding bid -> entry_data e = ∅ -> well_formed (entry_data ie) ->
  hobeys owns (new_binding bounds e ie bid request) anything known.
Proof.
  intros Ho ? ? ? ? ?. apply (hobeys_owns owns (fun n => n = Name ServiceBinding bid)); [by intros n ->|].
  by apply hobeys_new_binding_only.
Qed.

Lemma hobeys_create_binding r params known :
  owns (Name ServiceBinding (ByName params "binding_id")) ->
  hobeys owns (handleCreateServiceBinding bounds configuration r params) anything known.
Proof.
  intros Ho. unfold handleCreateServiceBinding. apply hobeys_try. intros request _. cbv zeta.
  do 2 (apply hobeys_check; intros _). apply hobeys_Config. intros c known1 _. apply hobeys_check. intros _.
  apply hobeys_Config. intros c' known2 _. apply hobeys_check. intros _. apply hobeys_Config. intros c'' known3 _.
  apply hobeys_lift, obeys_quiet; [apply quiet_validateParameters|]. intros err known4 _. apply hobeys_check. intros _.
  apply hobeys_lift, obeys_quiet; [apply quiet_getDirectoryInstance|]. intros d known5 _.
  apply hobeys_tryp, obeys_New; [apply instance_type|done|]. intros [ie|] known6 _ Hr; [|done].
  destruct Hr as (_ & _ & Hie). apply hobeys_check. unfold Entry.Exists. destruct (entry_exists ie); [|done]. intros _. destruct Hie as [Hie _].
  apply hobeys_tryp, obeys_New; [apply binding_type|done|]. intros [e|] known7 _ Hr; [|done].
  destruct Hr as (Hro & Hn & He). destruct (entry_exists e) eqn:Hex.
  - apply hobeys_done, quiet_existing_binding.
  - by apply hobeys_new_binding.
Qed.

Lemma hobeys_delete_binding r params known :
  owns (Name ServiceBinding (ByName params "binding_id")) ->
  hobeys owns (handleDeleteServiceBinding configuration r params) anything known.
Proof.
  intros Ho. unfold handleDeleteServiceBinding. cbv zeta. apply hobeys_check. intros _.
  apply hobeys_lift, obeys_quiet; [apply quiet_getDirectoryInstance|]. intros d known1 _.
  apply hobeys_tryp, obeys_New; [apply instance_type|done|]. intros [ie|] known2 _ _; [|done].
  apply hobeys_check. intros _. apply hobeys_check. intros _.
  apply hobeys_tryp, obeys_New; [apply binding_type|done|]. intros [e|] known3 _ Hr; [|done].
  destruct Hr as (Hro & Hn & He). apply hobeys_check. unfold Entry.Exists. destruct (entry_exists e) eqn:Hex; [|done]. intros _.
  apply hobeys_quiet; [apply quiet_check_service_plan|]. intros _ known4 _. apply hobeys_lift. unfold Deleter_Run.
  apply obeys_bind, obeys_Delete; [by rewrite Hn|rewrite Hn; exists ServiceBinding; eexists; split; [apply binding_type|done]|by intros i; rewrite Hn|].
  intros _. by apply hobeys_done.
Qed.
End BindingHandlers.

(** ** What happens to a broker *)

Section Broker.
Context `{Vendor} (bounds : Bounds) (configuration : ServerConfiguration).

(** The entries that a request can be about. *)
Definition request_owns (r : Request) (n : string) : Prop :=
  exists i params, httprouter_Lookup (patterns bounds configuration) (req_Method r) (req_Path r) = (Some i, params) /\
    (n = Name ServiceInstance (ByName params "instance_id") \/ n = Name ServiceBinding (ByName params "binding_id")).

(** What can arrive: requests, and the events of the configuration resource. *)
Inductive arrival : Type :=
  | RequestArrives (r : Request)
  | ConfigAdded (name : string) (config : option ServiceBrokerConfig)
  | ConfigUpdated (name : string) (old config : option ServiceBrokerConfig)
  | ConfigDeleted (name : string) (config : option ServiceBrokerConfig).

Definition goroutine (a : arrival) : prog unit :=
  match a with
  | RequestArrives r => _ <- ServeHTTP bounds configuration r ;; Ret tt
  | ConfigAdded name config => createHandler name config
  | ConfigUpdated name old config => updateHandler name old config
  | ConfigDeleted name config => deleteHandler name config
  end.

Definition arrivals_own (l : list arrival) (n : string) : Prop :=
  exists r, RequestArrives r ∈ l /\ request_owns r n.

Lemma quiet_handleRequestHeaders w r : effects no_registry_writes (handleRequestHeaders configuration w r).
Proof.
  unfold handleRequestHeaders, handleAdvancedToken, handleJwtAuth. effects_solver.
Qed.

Lemma quiet_login r params : heffects no_registry_writes (handleLogin configuration r params).
Proof.
  unfold handleLogin, nil_dereference. apply heffects_bind; [apply heffects_try|intros request].
  apply heffects_bind; [apply heffects_check|intros _]. apply heffects_bind; [apply heffects_lift; by destruct (server_AdvancedToken configuration)|intros a].
  apply heffects_bind; [apply heffects_tryp; effects_solver|intros rows]. destruct rows as [|row rows]; [done|].
  apply heffects_bind; [apply heffects_try|done].
Qed.

Lemma quiet_catalog : heffects no_registry_writes handleReadCatalog.
Proof.
  unfold handleReadCatalog. apply heffects_bind; [|done]. apply heffects_lift, calm_secrets, calm_Config.
Qed.

Lemma hobeys_router r known :
  hobeys (request_owns r) (router_ServeHTTP bounds configuration r) (fun _ _ => True) known.
Proof.
  unfold router_ServeHTTP. destruct (httprouter_Lookup _ _ _) as [[i|] params] eqn:Hl; [|by apply hobeys_done].
  assert (forall n, n = Name ServiceInstance (ByName params "instance_id") \/
                    n = Name ServiceBinding (ByName params "binding_id") -> request_owns r n) as Ho
    by (intros n Hn; by exists i, params).
  destruct (routes bounds configuration !! i) as [rt|] eqn:Hr; [|by apply hobeys_done].
  apply list_elem_of_lookup_2 in Hr. unfold routes in Hr. rewrite !elem_of_cons, elem_of_nil in Hr.
  destruct Hr as [->|[->|[->|[->|[->|[->|[->|[->|[->|[->|[]]]]]]]]]]]; cbn [route_handler].
  - by apply hobeys_done.
  - apply hobeys_done, quiet_catalog.
  - apply hobeys_create_instance, Ho. by left.
  - apply hobeys_read_instance.
  - apply hobeys_update, Ho. by left.
  - apply hobeys_delete_instance, Ho. by left.
  - apply hobeys_poll, Ho. by left.
  - apply hobeys_create_binding, Ho. by right.
  - apply hobeys_delete_binding, Ho. by right.
  - apply hobeys_done, quiet_login.
Qed.

Lemma obeys_ServeHTTP r (Q : writer -> knowledge -> Prop) known :
  (forall w known', Q w known') -> obeys (request_owns r) (ServeHTTP bounds configuration r) Q known.
Proof.
  intros HQ. unfold ServeHTTP. apply obeys_bind, obeys_call; [done|]. intros now _. cbn [learn].
  apply obeys_bind, obeys_call; [done|]. intros [] _. cbn [learn]. apply obeys_defer; [done|].
  apply obeys_bind, obeys_quiet; [unfold handleReadiness; effects_solver|]. intros [w [err|]] known1 _; [cbn [obeys]; auto|].
  apply obeys_bind, obeys_quiet; [destruct (is_open (req_Path r)); [done|apply quiet_handleRequestHeaders]|].
  intros [w1 [err|]] known2 _; [cbn [obeys]; auto|]. apply obeys_bind. eapply obeys_mono; [apply hobeys_router|].
  intros o known3 _. cbn [obeys]. auto.
Qed.

Lemma quiet_config_events name old config :
  effects no_registry_writes (createHandler name config) /\ effects no_registry_writes (updateHandler name old config) /\
  effects no_registry_writes (deleteHandler name config).
Proof.
  unfold createHandler, updateHandler, deleteHandler, updateStatus. split; [|split]; effects_solver.
Qed.

Lemma obeys_goroutine l a : a ∈ l -> obeys (arrivals_own l) (goroutine a) (fun _ _ => True) [].
Proof.
  intros Ha. destruct a as [r|name c|name old c|name c]; cbn [goroutine].
  - apply (obeys_owns _ (request_owns r)); [by exists r|]. by apply obeys_bind, obeys_ServeHTTP.
  - apply obeys_quiet; [by apply quiet_config_events|done].
  - apply obeys_quiet; [by apply quiet_config_events|done].
  - apply obeys_quiet; [by apply quiet_config_events|done].
Qed.
End Broker.
