(* ===== verification/InterleavingFacts.v ===== *)
(** * The broker under interleaving ([pkg/broker], [pkg/registry], [pkg/operation])

    Any number of requests and of events of the configuration resource, each
    in its goroutine, with the background programs that they start, advance in
    any order, one call at a time.  Whatever the order: the registry stays
    well formed; an instance lives through the states of its operations with
    the identity it was created with; requests change the entries they name
    and no others, and secrets outside the registry only by templates. *)

From S2P Require Import Prelude Json JsonFacts Errors Types Platform Vendor Sim Fixture Api Http Registry.
From S2P Require Import RegistryFacts Operation Config BrokerUtil DirectoryFacts Auth Provision Protocol Handlers.
From S2P Require Import HandlerFacts Server ProtocolFacts.
From stdpp Require Import relations.

Local Open Scope broker_scope.

Section Interleaving.
Context `{Vendor} {W : Type} `{PlatformLaws W} (bounds : Bounds) (configuration : ServerConfiguration).

Implicit Types s : sys W.

(** A broker that these arrivals have reached, and what it can have become. *)
Definition reaches (l : list arrival) s s' : Prop :=
  initial_store (world s) /\ spawned s = map (goroutine bounds configuration) l /\ rtc thread_step s s'.

Lemma reaches_protocol l s s' :
  reaches l s s' ->
  keeps_protocol (arrivals_own bounds configuration l) s' /\
  forall k, templated k = false -> rtc (change (arrivals_own bounds configuration l) k.2) (stored_data (world s) k) (stored_data (world s') k).
Proof.
  intros (Hi & Hsp & Hsteps). apply (protocol_steps _ _ _ Hsteps), initial_protocol; [done|].
  rewrite Hsp. apply Forall_forall. intros p Hp. apply list_elem_of_fmap in Hp as (a & -> & Ha).
  by apply obeys_goroutine.
Qed.

(** C3: the registry stays well formed.  In a broker whose registry is well
    formed, whatever requests arrive and however they and the programs they
    start interleave, every entry of an instance or binding has its identity,
    its context and its parameters, each the encoding of a value of its type,
    and records a state of an operation that [Start], [Complete] and [End]
    can leave; every value of the directory is an encoded directory entry. *)
Theorem registry_well_formed l s s' k sec :
  reaches l s s' -> stored (world s') !! k = Some sec -> well_formed_data k.2 (data_of sec).
Proof. intros [Hk _]%reaches_protocol. by eapply keeps_protocol_well_formed. Qed.

(** ** The life of an instance *)

(** What is seen of an instance: its identity and the state of its operation. *)
Definition instance_view (o : option data) : option (list (option string) * op_state) :=
  d ← o; Some ((fun k => d !! k) <$> identity_keys, op_state_of (mkEntry (mkSecret "" "" "" "" ∅ ∅ (Some d)) true false)).

Inductive life_step : option (list (option string) * op_state) -> option (list (option string) * op_state) -> Prop :=
  | life_create i : life_step None (Some (i, Idle))
  | life_start i t id : t ∈ op_types -> life_step (Some (i, Idle)) (Some (i, Running t id))
  | life_complete i t id status : life_step (Some (i, Running t id)) (Some (i, Finished t id status))
  | life_end i t id status : life_step (Some (i, Finished t id status)) (Some (i, Idle))
  | life_delete v : life_step (Some v) None.

Lemma instance_view_records d st :
  records d st -> instance_view (Some d) = Some ((fun k => d !! k) <$> identity_keys, st).
Proof. intros Hr. unfold instance_view. cbn. do 2 f_equal. by apply records_state. Qed.

Lemma same_identity (d d' : data) :
  (forall k, k ∈ identity_keys -> d' !! k = d !! k) ->
  (fun k => d' !! k) <$> identity_keys = (fun k => d !! k) <$> identity_keys.
Proof. intros Hd. apply list_fmap_ext. intros i k Hk. apply Hd. by eapply list_elem_of_lookup_2. Qed.

Lemma entry_step_life id d d' :
  entry_step (Name ServiceInstance id) d d' -> life_step (instance_view (Some d)) (instance_view (Some d')).
Proof.
  intros Hs. destruct Hs as [d' t opid Hi Hr Hk _|t opid status Hr|t opid status Hr|t opid Hn _]; [| | |by destruct (Hn id)].
  - rewrite (instance_view_records _ _ Hi), (instance_view_records _ _ Hr), (same_identity _ _ Hk).
    apply life_start. by inversion Hr.
  - assert (records (<[OperationStatus := quote status]> d) (Finished t opid status)) as Hr'.
    { inversion Hr; subst. constructor; by simplify_map_eq. }
    rewrite (instance_view_records _ _ Hr), (instance_view_records _ _ Hr'), (same_identity d (<[_ := _]> d)); [constructor|].
    intros k Hk. rewrite lookup_insert_ne; [done|]. intros <-. revert Hk. unfold identity_keys. set_solver.
  - assert (records (without_operation d) Idle) as Hr' by (constructor; unfold without_operation; by simplify_map_eq).
    rewrite (instance_view_records _ _ Hr), (instance_view_records _ _ Hr'), (same_identity d (without_operation d)); [econstructor|].
    intros k Hk. unfold without_operation. rewrite !lookup_delete_ne; [done|..]; intros <-; revert Hk; unfold identity_keys; set_solver.
Qed.

Lemma change_life owns id o o' :
  change owns (Name ServiceInstance id) o o' -> life_step (instance_view o) (instance_view o').
Proof.
  intros [d _ _ _ Hi|d d' _ _ Hs|d _ _|i d Hn _ _|i d d' Hn _ _]; [| | |done..].
  - rewrite (instance_view_records _ _ (Hi id eq_refl)). constructor.
  - by eapply entry_step_life.
  - constructor.
Qed.

(** C2: an instance lives through the states of its operations.  However
    requests and background programs interleave, the entry of an instance
    changes by steps of this machine only: it is created idle; an idle one
    starts an operation; a running operation is completed, and a completed one
    ended; it can be deleted.  Its namespace, instance, service and plan ID and
    its context never change. *)
Theorem instance_life l s s' ns id :
  reaches l s s' ->
  let k := (ns, Name ServiceInstance id) in
  rtc life_step (instance_view (stored_data (world s) k)) (instance_view (stored_data (world s') k)).
Proof.
  intros [_ Hk]%reaches_protocol k. specialize (Hk k (Name_untemplated _ _ _)). cbn in Hk.
  induction Hk as [o|o1 o2 o3 H12 _ IH]; [done|]. eapply rtc_l; [by eapply change_life|exact IH].
Qed.

(** ** Isolation *)

Lemma change_owned owns n o o' : change owns n o o' -> n <> directoryName -> owns n.
Proof. by intros []. Qed.

Lemma change_directory_member owns id o o' :
  change owns directoryName o o' -> ~ owns (Name ServiceInstance id) ->
  default ∅ o' !! id = default ∅ o !! id.
Proof.
  intros Hc Hn. inversion Hc as [d Ho He _ _|d d' Ho He _|d Ho He|i d _ Ho Hs|i d d' _ Ho Hs]; subst;
    try (by apply entry_not_directory in He); destruct Hs as [Hs _]; apply Hs; by intros ->.
Qed.

(** C4: requests do not interfere with other instances.  A secret that is not
    the entry of an instance or binding that one of the requests names, not a
    directory, and out of the templates' reach, has the data that it had: so
    do the entries of all other instances and bindings.  The directory says of
    an instance that no request names what it said.  All that holds however the
    requests and the programs they start interleave. *)
Theorem isolation l s s' :
  reaches l s s' ->
  (forall k, templated k = false -> ~ arrivals_own bounds configuration l k.2 -> k.2 <> directoryName ->
     stored_data (world s') k = stored_data (world s) k) /\
  (forall ns t id, ~ arrivals_own bounds configuration l (Name t id) ->
     stored_data (world s') (ns, Name t id) = stored_data (world s) (ns, Name t id)) /\
  (forall ns id, ~ arrivals_own bounds configuration l (Name ServiceInstance id) ->
     directory_view (world s') ns !! id = directory_view (world s) ns !! id).
Proof.
  intros [_ Hk]%reaches_protocol.
  assert (forall k, templated k = false -> ~ arrivals_own bounds configuration l k.2 -> k.2 <> directoryName ->
            stored_data (world s') k = stored_data (world s) k) as Hown.
  { intros k Hun Hn Hd. specialize (Hk k Hun). induction Hk as [o|o1 o2 o3 H12 _ IH]; [done|].
    by apply change_owned in H12. }
  split; [exact Hown|]. split; [intros ns t id Hn; by apply Hown|].
  intros ns id Hn. specialize (Hk (directory_key ns) (directory_untemplated ns)).
  assert (forall w : W, directory_view w ns = default ∅ (stored_data w (directory_key ns))) as Hv.
  { intros w. unfold directory_view, stored_data. by destruct (stored w !! directory_key ns). }
  rewrite !Hv. induction Hk as [o|o1 o2 o3 H12 _ IH]; [done|]. rewrite IH. by eapply change_directory_member.
Qed.
End Interleaving.

Module InterleavingWitness.
Import Fixture HandlerWitness.

Definition arrives (method path query : string) : arrival :=
  RequestArrives (mkRequest method path query
    [("Authorization", ["Bearer joe:key"]); ("X-Broker-API-Version", ["2.14"]); ("Content-Type", ["application/json"])] 10
    (Ok (marshal (VObject [("plan_id", VString "p1"); ("service_id", VString "s1")])))).

(** An instance is created, polled and deleted at the same time. *)
Definition create (id : string) : arrival := arrives "PUT" ("/v2/service_instances/" +++ id) "accepts_incomplete=true".
Definition poll (id : string) : arrival := arrives "GET" ("/v2/service_instances/" +++ id +++ "/last_operation") "".
Definition remove (id : string) : arrival :=
  arrives "DELETE" ("/v2/service_instances/" +++ id) "accepts_incomplete=true&service_id=s1&plan_id=p1".

Definition arrivals : list arrival := [create "i1"; poll "i1"; remove "i1"].
Definition first : sys SimWorld := mkSys empty_world (map (goroutine bounds server) arrivals).

(** The creation is accepted; then its program and the other requests take turns. *)
Definition accepted_state : sys SimWorld := foldl step_at first (repeat 0 22).
Definition last : sys SimWorld := foldl step_at accepted_state (flat_map (fun _ => [3; 1; 2]) (seq 0 11)).

Lemma empty_initial : initial_store empty_world.
Proof. split; intros k sec _ Hs; vm_compute in Hs; discriminate Hs. Qed.

Lemma first_accepted : reaches bounds server arrivals first accepted_state.
Proof. split; [exact empty_initial|]. split; [reflexivity|exact (schedule_steps _ _)]. Qed.

Lemma accepted_initial : initial_store (world accepted_state).
Proof. eapply keeps_protocol_initial. exact (proj1 (reaches_protocol _ _ _ _ _ first_accepted)). Qed.

Lemma first_last : reaches bounds server arrivals first last.
Proof. split; [exact empty_initial|]. split; [reflexivity|]. transitivity accepted_state; exact (schedule_steps _ _). Qed.

Abbreviation entry_key := ("ns", Name ServiceInstance "i1").

Lemma registry_well_formed_witness :
  exists sec, stored (world last) !! entry_key = Some sec /\ well_formed_data (Name ServiceInstance "i1") (data_of sec).
Proof.
  destruct (stored (world last) !! entry_key) as [sec|] eqn:Hs; [|vm_compute in Hs; discriminate Hs].
  exists sec. split; [reflexivity|]. apply (registry_well_formed bounds server arrivals first last entry_key sec);
    [exact first_last|exact Hs].
Defined.

Lemma instance_life_witness :
  snd <$> instance_view (stored_data (world last) entry_key) = Some (Finished TypeProvision "uuid-2" "") /\
  rtc life_step None (instance_view (stored_data (world last) entry_key)).
Proof.
  split; [vm_compute; reflexivity|]. exact (instance_life bounds server arrivals first last "ns" "i1" first_last).
Defined.

(** Another instance is created and deleted while the operation of this one runs. *)
Definition others : list arrival := [create "i2"; remove "i2"; poll "i2"].
Definition beside : sys SimWorld := mkSys (world accepted_state) (map (goroutine bounds server) others).
Definition beside_last : sys SimWorld := foldl step_at beside (repeat 0 22 ++ flat_map (fun _ => [3; 1; 2]) (seq 0 20)).

Lemma others_own i : arrivals_own bounds server others (Name ServiceInstance i) -> i = "i2".
Proof.
  intros (r & Hr & n & params & Hl & Hn). unfold others in Hr. rewrite !elem_of_cons, elem_of_nil in Hr.
  destruct Hr as [[= ->]|[[= ->]|[[= ->]|[]]]]; vm_compute in Hl; injection Hl as _ <-; destruct Hn as [Hn|Hn];
    vm_compute in Hn; congruence.
Qed.

Lemma isolation_witness :
  is_Some (stored (world beside_last) !! ("ns", Name ServiceInstance "i2")) /\
  stored_data (world beside_last) entry_key = stored_data (world beside) entry_key /\
  directory_view (world beside_last) "ns" !! "i1" = directory_view (world beside) "ns" !! "i1".
Proof.
  split; [eexists; vm_compute; reflexivity|].
  assert (~ arrivals_own bounds server others (Name ServiceInstance "i1")) as Hn by (intros Hi%others_own; discriminate Hi).
  destruct (isolation bounds server others beside beside_last) as (_ & Hs & Hd).
  - split; [exact accepted_initial|]. split; [reflexivity|exact (schedule_steps _ _)].
  - split; [exact (Hs "ns" ServiceInstance "i1" Hn)|exact (Hd "ns" "i1" Hn)].
Defined.
End InterleavingWitness.
