(* ===== verification/CompletionFacts.v ===== *)
(** * An operation in the background, among other requests ([pkg/operation],
    [pkg/provisioners])

    The goroutine of a provision, an update or a deletion runs while other
    requests come in. Until it has recorded how the operation ended, no request
    can change the entry of its instance, whatever the order of their calls;
    nothing of what the requests do can prevent it from recording that; and from
    there on the entry goes through the life of an instance again. *)

From S2P Require Import Prelude Json JsonFacts Errors Types Platform Threads Vendor Sim Fixture Api Http Registry.
From S2P Require Import RegistryFacts Operation Config BrokerUtil DirectoryFacts Auth Provision ProvisionFacts Protocol.
From S2P Require Import Handlers HandlerFacts Server ProtocolFacts InterleavingFacts.
From stdpp Require Import relations.

Local Open Scope broker_scope.

Section Completion.
Context `{Vendor} {W : Type} `{PlatformLaws W} (bounds : Bounds) (configuration : ServerConfiguration).

Implicit Types s : sys W.

(** ** The goroutine of an operation *)

(** What is seen of an instance. *)
Abbreviation view := (option (list (option string) * op_state)).

(** What is left of a provision or an update while it runs: the rest of its work,
    then [Complete]. *)
Definition running (work : prog (option error)) (e : Entry) : prog unit :=
  _ <- (err <- work ;; r <- Complete e err ;; Ret r.1) ;; Ret tt.

(** The programs that the handlers start for an operation of type [t], and
    what is seen of the instance when they are done. *)
Inductive operation_program (e : Entry) (t : string) (finished : view -> Prop) : prog unit -> (view -> Prop) -> Prop :=
  | program_creator c : operation_program e t finished (_ <- Creator_Run bounds c e ;; Ret tt) finished
  | program_updater u : operation_program e t finished (_ <- Updater_Run u e ;; Ret tt) finished
  | program_deleter : t = TypeDeprovision -> operation_program e t finished (Deleter_Run e) (fun v => v = None).

(** What is left of such a program. *)
Inductive remaining (e : Entry) (t : string) (finished : view -> Prop) : prog unit -> (view -> Prop) -> Prop :=
  | remaining_work work : effects no_registry_writes work -> remaining e t finished (running work e) finished
  | remaining_delete : t = TypeDeprovision -> remaining e t finished (Deleter_Run e) (fun v => v = None)
  | remaining_halt h left : remaining e t finished (Halt h) left.

Lemma operation_program_remaining e t finished p left :
  operation_program e t finished p left -> remaining e t finished p left.
Proof.
  intros [c|u|Ht]; [apply (remaining_work e t finished (Creator_run bounds c e))|apply (remaining_work e t finished (Updater_run u))|
    by apply remaining_delete]; apply mild_secrets; [apply mild_run_steps|apply mild_update_all].
Qed.

(** The completion of a running operation is one update. *)
Lemma Complete_update e t id err :
  entry_exists e = true -> entry_readOnly e = false -> records (entry_data e) (Running t id) ->
  exists status kont,
    Complete e err = Vis (SecretsUpdate (entry_secret (put e OperationStatus (quote status)))) kont /\
    forall r, exists o, kont r = Ret o.
Proof.
  intros Hex Hro Hr. inversion Hr as [|t' id' Ht Hop Hid Hst|]; subst.
  assert (Entry.GetString e Operation = Ok (Some t)) as Hg.
  { unfold Entry.GetString. rewrite Get_data, Hop. cbn. by rewrite unmarshal_quote. }
  unfold Complete. rewrite Hg. cbv zeta. rewrite Set_string. unfold Entry.Commit.
  cbn [entry_readOnly entry_exists put set_secret]. rewrite Hro, Hex. unfold try_bind. cbn [bind call].
  eexists _, _. split; [reflexivity|]. intros [sec|err']; by eexists.
Qed.

(** One step of it while its entry is stored as it was started. *)
Lemma running_step work e t id p' w w' started :
  effects no_registry_writes work -> available w ->
  stored w !! secret_key (entry_secret e) = Some (entry_secret e) ->
  templated (secret_key (entry_secret e)) = false ->
  entry_exists e = true -> entry_readOnly e = false -> records (entry_data e) (Running t id) ->
  advance (running work e) w = Some (p', w', started) ->
  started = [] /\ available w' /\ (forall key v, issued w key v -> issued w' key v) /\
  ((exists work', effects no_registry_writes work' /\ p' = running work' e /\ owned w' = owned w) \/
   (p' = Ret tt /\ exists status, stored_data w' (secret_key (entry_secret e)) = Some (<[OperationStatus := quote status]> (entry_data e)))).
Proof.
  intros Hq Hav Hs Hun Hex Hro Hr. unfold running. destruct work as [err|h|X ev q|g q]; cbn [effects] in Hq; [| |destruct Hq as [Hev Hq]|done].
  - cbn [bind]. destruct (Complete_update e t id err Hex Hro Hr) as (status & kont & -> & Hkont).
    set (e' := put e OperationStatus _). cbn [bind advance].
    destruct (update_available (entry_secret e') w (entry_secret e) Hav Hs eq_refl) as [s' Hu].
    pose proof (available_frame _ (SecretsUpdate (entry_secret e')) w Hav) as Hav'.
    pose proof (fun key v => issued_frame _ (SecretsUpdate (entry_secret e')) w key v) as Hiss.
    destruct (update_ok _ _ _ Hu) as (_ & _ & _ & Hst' & Hp & _). destruct (perform _ w) as [x w1].
    cbn [fst snd] in *. subst x. intros [= <- <- <-]. do 3 (split; [done|]). right.
    destruct (Hkont (Ok s')) as [o ->]. split; [done|]. exists status. unfold stored_data.
    rewrite Hst'. change (secret_key (entry_secret e')) with (secret_key (entry_secret e)).
    rewrite lookup_insert_eq. cbn. f_equal. rewrite <- (same_payload_data _ _ Hp). apply entry_data_put.
  - done.
  - cbn [bind advance]. pose proof (owned_frame _ ev w) as Hf. pose proof (available_frame _ ev w Hav) as Hav'.
    pose proof (fun key v => issued_frame _ ev w key v) as Hiss. destruct (perform ev w) as [x w1]. cbn [snd] in *. intros [= <- <- <-]. do 3 (split; [done|]). left.
    exists (q x). split; [apply Hq|]. split; [done|]. apply Hf. unfold no_registry_writes in Hev. by destruct (mutates_secrets ev).
Qed.

(** ** Among other requests *)

Section Operation.
Context (e : Entry) (t opid instance : string).
Context (Hname : secret_Name (entry_secret e) = Name ServiceInstance instance).
Context (Hexists : entry_exists e = true) (Hwritable : entry_readOnly e = false).
Context (Hrunning : records (entry_data e) (Running t opid)).

Abbreviation k := (secret_key (entry_secret e)).
Abbreviation anything := (fun _ : string => True).

(** A goroutine that cannot touch the entry while its operation runs. *)
Definition bystander (h : history) (p : prog unit) : Prop :=
  exists known, remembered h known /\ unowned k known /\ obeys anything p (fun _ _ => True) known.

Lemma bystander_weaken h h' p : h ⊆ h' -> bystander h p -> bystander h' p.
Proof. intros Hh (known & Hkn & Hrest). exists known. split; [by eapply in_history_weaken|done]. Qed.

(** The entry as the operation leaves it: with its identity, and finished. *)
Definition finished_view (v : view) : Prop :=
  exists status, v = Some ((fun key => entry_data e !! key) <$> identity_keys, Finished t opid status).

(** The operation runs. *)
Definition underway (left : view -> Prop) s : Prop :=
  available (world s) /\ stored (world s) !! k = Some (entry_secret e) /\
  exists h head others, store_ok h (world s) /\ spawned s = head :: others /\ Forall (bystander h) others /\
    remaining e t finished_view head left.

(** The operation has been completed, and life goes on. *)
Definition completed (left : view -> Prop) s : Prop :=
  spawned s !! 0 = Some (Ret tt) /\
  exists v, left v /\ rtc life_step v (instance_view (stored_data (world s) k)).

Lemma entry_untemplated : templated k = false.
Proof. unfold secret_key. rewrite Hname. apply Name_untemplated. Qed.

Lemma instance_locked : locked k.2 (data_of (entry_secret e)).
Proof. split; [by exists instance|]. by exists t, opid. Qed.

(** A step of another goroutine. *)
Lemma underway_other left s head others j p p' w' started h :
  available (world s) -> stored (world s) !! k = Some (entry_secret e) -> store_ok h (world s) ->
  spawned s = head :: others -> Forall (bystander h) others ->
  remaining e t finished_view head left -> others !! j = Some p -> advance p (world s) = Some (p', w', started) ->
  underway left (mkSys w' (head :: <[j := p']> others ++ started)).
Proof.
  intros Hav Hst Hok Hsp Hall Hhead Hj Ha. destruct (Forall_lookup_1 _ _ _ _ Hall Hj) as (known & Hkn & Hu & Ho).
  destruct (advance_protocol _ _ _ _ _ _ _ _ Ha Hok Hkn Ho) as (_ & Ho' & Hnew & h' & Hh & Hok' & Hkn').
  destruct (advance_locked _ _ _ _ _ _ _ _ _ _ Ha Hok Hkn Ho Hst instance_locked Hu) as [Hst' Hu'].
  split; [|split; [exact Hst'|]].
  { cbn [world]. destruct p as [| |X ev q|q]; cbn [advance] in Ha; try done; [|by injection Ha as _ <- _].
    pose proof (available_frame _ ev _ Hav) as Hav'. destruct (perform ev (world s)). by injection Ha as _ <- _. }
  exists h', head, (<[j := p']> others ++ started). do 2 (split; [done|]). split; [|exact Hhead]. apply Forall_app. split.
  - apply Forall_insert; [eapply Forall_impl; [exact Hall|intros q; by apply bystander_weaken]|].
    by exists (knows_next p (world s) known).
  - eapply Forall_impl; [exact Hnew|]. intros q Hq. exists known. split; [by eapply in_history_weaken|done].
Qed.

(** The step that ends a deletion: an available server has deleted the entry. *)
Lemma deleter_step p' w w' started :
  available w -> stored w !! k = Some (entry_secret e) -> advance (Deleter_Run e) w = Some (p', w', started) ->
  started = [] /\ p' = Ret tt /\ stored_data w' k = None.
Proof.
  intros Hav Hst. unfold Deleter_Run, Entry.Delete. rewrite Hwritable, Hexists. cbn [negb bind call advance].
  pose proof (delete_available _ _ _ _ Hav Hst) as Hd. apply delete_ok in Hd as Hs.
  destruct (perform (SecretsDelete _ _) w) as [x w1]. cbn [fst snd] in *. subst x. intros [= <- <- <-].
  do 2 (split; [done|]). unfold stored_data. rewrite Hs. change (secret_Namespace _, secret_Name _) with k. by rewrite lookup_delete_eq.
Qed.

Lemma underway_step left s s' :
  thread_step s s' -> keeps_protocol anything s' -> underway left s -> underway left s' \/ completed left s'.
Proof.
  intros [s0 i p p' w' started Hi Ha] Hkeeps (Hav & Hst & h & head & others & Hok & Hsp & Hall & Hhead).
  rewrite Hsp in Hi |- *. destruct i as [|j]; cbn in Hi; [|left; by eapply underway_other].
  injection Hi as <-. destruct Hhead as [work Hq|Ht|h']; [| |done].
  - destruct (running_step _ _ _ _ _ _ _ _ Hq Hav Hst entry_untemplated Hexists Hwritable Hrunning Ha) as (-> & Hav' & Hiss & Hcase).
    cbn. rewrite app_nil_r. destruct Hcase as [(work' & Hq' & -> & Hs')|[-> [status Hd]]]; [left|right].
    + split; [done|]. cbn [world]. split; [by rewrite (owned_key _ _ _ entry_untemplated Hs')|]. exists h, (running work' e), others.
      split; [by eapply store_ok_frame|]. do 2 (split; [done|]). by constructor.
    + split; [done|]. eexists. split; [by exists status|]. cbn [world]. rewrite Hd.
      assert (records (<[OperationStatus := quote status]> (entry_data e)) (Finished t opid status)) as Hr.
      { inversion Hrunning; subst. constructor; by simplify_map_eq. }
      rewrite (instance_view_records _ _ Hr), (same_identity (entry_data e) (<[_ := _]> (entry_data e))); [done|].
      intros key Hkey. rewrite lookup_insert_ne; [done|]. intros <-. revert Hkey. unfold identity_keys. set_solver.
  - destruct (deleter_step _ _ _ _ Hav Hst Ha) as (-> & -> & Hd). right. split; [done|]. exists None. split; [done|].
    cbn [world]. by rewrite Hd.
Qed.

Lemma completed_step left s s' :
  thread_step s s' -> changes anything (world s) (world s') -> completed left s -> completed left s'.
Proof.
  intros Hstep Hc [Hd (v & Hv & Hl)]. split.
  - destruct Hstep as [s0 i p p' w' started Hi Ha]. cbn [spawned].
    rewrite lookup_app_l by (rewrite length_insert; by eapply lookup_lt_Some).
    rewrite list_lookup_insert_ne; [done|]. intros ->. rewrite Hd in Hi. by injection Hi as <-.
  - exists v. split; [exact Hv|]. destruct (Hc k entry_untemplated) as [->|Hch]; [done|]. eapply rtc_r; [exact Hl|].
    apply (change_life anything instance). cbn [secret_key snd] in Hch. by rewrite Hname in Hch.
Qed.

Lemma operation_steps left s s' :
  keeps_protocol anything s -> underway left s -> rtc thread_step s s' -> underway left s' \/ completed left s'.
Proof.
  intros Hk Hu Hsteps.
  refine (proj2 (steps_invariant (fun s => keeps_protocol anything s /\ (underway left s \/ completed left s)) s s' _ Hsteps _)).
  - intros s1 s2 H12 [Hk1 Hc]. destruct (protocol_step anything s1 s2 H12 Hk1) as [Hk2 Hch]. split; [done|].
    destruct Hc as [Hc|Hc]; [by eapply underway_step|right]. by eapply completed_step.
  - split; [done|by left].
Qed.

(** The first state: the goroutine of the operation, and what arrives. *)
Lemma operation_starts left s p l :
  initial_store (world s) -> available (world s) -> stored (world s) !! k = Some (entry_secret e) ->
  operation_program e t finished_view p left -> spawned s = p :: map (goroutine bounds configuration) l ->
  keeps_protocol anything s /\ underway left s.
Proof.
  intros Hi Hav Hst Hp Hsp. pose proof (initial_history _ Hi) as Hok.
  assert (Forall (bystander (first_history (world s))) (map (goroutine bounds configuration) l)) as Hall.
  { apply Forall_forall. intros q (a & -> & Ha)%list_elem_of_fmap. exists []. split; [done|].
    split; [by intros sec ?%not_elem_of_nil|]. apply (obeys_owns _ (arrivals_own bounds configuration l)); [done|].
    by apply obeys_goroutine. }
  assert (draft anything true [(entry_secret e, true)] e (entry_data e)) as Hdraft.
  { assert (entry_name k.2) as Hn by (exists ServiceInstance, instance; split; [by left|done]). do 3 (split; [done|]).
    split; [by apply (initial_well_formed _ Hi _ _ entry_untemplated Hst)|]. exists (entry_secret e). split; [by left|done]. }
  split.
  - exists (first_history (world s)). split; [done|]. rewrite Hsp. constructor.
    + exists [(entry_secret e, true)]. split; [constructor; [intros Hun; by eapply initial_in_history|constructor]|].
      destruct Hp as [c|u|Ht]; apply obeys_bind; [by eapply obeys_Creator_Run|by eapply obeys_Updater_Run|].
      apply obeys_Delete; [done|by apply Hdraft| |done]. intros i _. exists (entry_data e), opid. split; [done|]. by rewrite <- Ht.
    + eapply Forall_impl; [exact Hall|]. intros q (known & Hkn & _ & Ho). by exists known.
  - split; [done|]. split; [done|]. exists (first_history (world s)), p, (map (goroutine bounds configuration) l).
    do 3 (split; [done|]). by apply operation_program_remaining.
Qed.

(** C1: an operation in the background is recorded, and exclusively. While the
    goroutine of a provision, an update or a deletion runs among any requests,
    in any interleaving, the entry of its instance is stored as the goroutine
    was started with it: no request completes, ends, replaces or deletes it.
    When the goroutine has returned, the entry has recorded that this provision
    or update finished, or it has been deleted by this deletion, and has only
    gone through the life of an instance since. And it does end, whatever the
    scheduler does: there is no infinite execution, and when nothing can go on
    the goroutine has ended, with a return, a panic or a bound of [Bounds]. *)
Theorem operation_completes s s' p left l :
  initial_store (world s) -> available (world s) -> stored (world s) !! k = Some (entry_secret e) ->
  operation_program e t finished_view p left -> spawned s = p :: map (goroutine bounds configuration) l ->
  rtc thread_step s s' ->
  exists p', spawned s' !! 0 = Some p' /\
    match p' with
    | Ret _ => exists v, left v /\ rtc life_step v (instance_view (stored_data (world s') k))
    | _ => stored (world s') !! k = Some (entry_secret e)
    end /\
    sn thread_step s' /\ (nf thread_step s' -> ended_goroutine p' = true).
Proof.
  intros Hi Hav Hst Hp Hsp Hsteps. destruct (operation_starts left s p l Hi Hav Hst Hp Hsp) as [Hk Hu].
  assert (forall p', spawned s' !! 0 = Some p' -> sn thread_step s' /\ (nf thread_step s' -> ended_goroutine p' = true)) as Hend.
  { intros p' Hp'. split; [apply threads_terminate|]. intros Hn. by eapply thread_progress. }
  destruct (operation_steps left s s' Hk Hu Hsteps) as [(_ & Hst' & h & head & others & _ & Hsp' & _ & Hhead)|[Hd Hl]].
  - assert (spawned s' !! 0 = Some head) as Hhd by (by rewrite Hsp'). exists head. split; [exact Hhd|]. split; [|by apply Hend].
    destruct Hhead as [work Hq|Ht|h']; [| |done].
    + destruct work as [err| |X ev q|g q]; try done. unfold running. cbn [bind].
      by destruct (Complete_update e t opid err Hexists Hwritable Hrunning) as (status & kont & -> & _).
    + unfold Deleter_Run, Entry.Delete. by rewrite Hwritable, Hexists.
  - exists (Ret tt). split; [done|]. split; [done|]. by apply Hend.
Qed.
End Operation.
End Completion.

Module CompletionWitness.
Import Fixture HandlerWitness InterleavingWitness ProvisionWitness.

(** The goroutine of the accepted operation, a poll and a deletion. *)
Definition entry : Entry := entry_at accepted_state.
Definition begin : sys SimWorld :=
  mkSys (world accepted_state)
    ((_ <- Creator_Run bounds creator entry ;; Ret tt) :: map (goroutine bounds server) [poll "i1"; remove "i1"]).
Definition final : sys SimWorld := foldl step_at begin (flat_map (fun _ => [1; 2; 0]) (seq 0 20)).

(** The instance is polled when its creation is done, and its deletion is accepted. *)
Definition poll_operation (id operation : string) : arrival :=
  arrives "GET" ("/v2/service_instances/" +++ id +++ "/last_operation") ("operation=" +++ operation).
Definition serving (w : SimWorld) (a : arrival) : sys SimWorld :=
  foldl step_at (mkSys w [goroutine bounds server a]) (repeat 0 40).
Definition removing : sys SimWorld :=
  serving (world (serving (world (foldl step_at accepted_state (repeat 3 20))) (poll_operation "i1" "uuid-2"))) (remove "i1").

Lemma serving_initial w a : initial_store w -> initial_store (world (serving w a)).
Proof.
  intros Hw. eapply keeps_protocol_initial, (reaches_protocol bounds server [a] (mkSys w [goroutine bounds server a])).
  split; [exact Hw|]. split; [reflexivity|exact (schedule_steps _ _)].
Qed.

Lemma removing_initial : initial_store (world removing).
Proof.
  do 2 apply serving_initial. eapply keeps_protocol_initial, (reaches_protocol bounds server arrivals first).
  split; [exact empty_initial|]. split; [reflexivity|]. transitivity accepted_state; exact (schedule_steps _ _).
Qed.

(** The goroutine of the deletion, while the instance is created again and polled. *)
Definition removed_entry : Entry := entry_at removing.
Definition delete_begin : sys SimWorld :=
  mkSys (world removing) (Deleter_Run removed_entry :: map (goroutine bounds server) [create "i1"; poll "i1"]).
Definition delete_final : sys SimWorld := foldl step_at delete_begin (repeat 1 10 ++ [0] ++ flat_map (fun _ => [1; 2]) (seq 0 20)).

Lemma entry_running : records (entry_data entry) (Running TypeProvision "uuid-2").
Proof. apply records_Running; [by left|vm_compute; reflexivity..]. Qed.

Lemma removed_running : records (entry_data removed_entry) (Running TypeDeprovision "uuid-7").
Proof. apply records_Running; [by do 2 right; left|vm_compute; reflexivity..]. Qed.

Lemma operation_completes_witness :
  (exists p', spawned final !! 0 = Some p' /\
     match p' with
     | Ret _ => exists v, finished_view entry TypeProvision "uuid-2" v /\
         rtc life_step v (instance_view (stored_data (world final) entry_key))
     | _ => stored (world final) !! entry_key = Some (entry_secret entry)
     end /\
     sn thread_step final /\ (nf thread_step final -> ended_goroutine p' = true)) /\
  spawned delete_final !! 0 = Some (Ret tt) /\ rtc life_step None (instance_view (stored_data (world delete_final) entry_key)).
Proof.
  split.
  - apply (operation_completes bounds server entry TypeProvision "uuid-2" "i1") with (s := begin) (s' := final)
      (p := _ <- Creator_Run bounds creator entry ;; Ret tt) (l := [poll "i1"; remove "i1"])
      (left := finished_view entry TypeProvision "uuid-2").
    + vm_compute. reflexivity.
    + vm_compute. reflexivity.
    + vm_compute. reflexivity.
    + exact entry_running.
    + exact accepted_initial.
    + vm_compute. reflexivity.
    + vm_compute. reflexivity.
    + constructor.
    + reflexivity.
    + exact (schedule_steps _ _).
  - assert (spawned delete_final !! 0 = Some (Ret tt)) as Hd by (vm_compute; reflexivity). split; [exact Hd|].
    destruct (operation_completes bounds server removed_entry TypeDeprovision "uuid-7" "i1") with (s := delete_begin) (s' := delete_final)
      (p := Deleter_Run removed_entry) (l := [create "i1"; poll "i1"]) (left := fun v : option (list (option string) * op_state) => v = None) as (p' & Hp & Hl & _).
    + vm_compute. reflexivity.
    + vm_compute. reflexivity.
    + vm_compute. reflexivity.
    + exact removed_running.
    + exact removing_initial.
    + vm_compute. reflexivity.
    + vm_compute. reflexivity.
    + constructor. reflexivity.
    + reflexivity.
    + exact (schedule_steps _ _).
    + rewrite Hd in Hp. injection Hp as <-. destruct Hl as (v & -> & Hl). exact Hl.
Defined.
End CompletionWitness.
