(* ===== verification/LockedBroker.v ===== *)
(** * The broker under the lock of its configuration ([pkg/config], [pkg/broker])

    Requests and events of the configuration resource use the lock properly. So,
    in any interleaving that the lock allows: a request works on one
    configuration from its beginning to its end, that configuration is valid,
    and every request and event comes to its end. *)

From S2P Require Import Prelude Json Errors Types Platform Threads Vendor Sim Fixture Api Http Registry Operation Config.
From S2P Require Import Lock LockFacts BrokerUtil Auth Template TemplateFacts Provision ProvisionFacts Handlers HandlerFacts.
From S2P Require Import Server Protocol ProtocolFacts InterleavingFacts.
From stdpp Require Import relations.

Local Open Scope broker_scope.

(** ** The programs are disciplined *)

Section Programs.
Context `{Vendor} (bounds : Bounds) (configuration : ServerConfiguration) (accepts : ServiceBrokerConfig -> Prop).

Lemma no_own_writes_locks X (e : event X) : no_own_writes X e = true -> mutates_config e = false /\ locks e = false.
Proof. intros [_ Hc]%andb_prop. by destruct (mutates_config e), (locks e). Qed.

Section Rules.
Context (m : mode) (Hm : m = Reading \/ m = Background).

Abbreviation steady := (steady accepts m).

Lemma mild_steady {A} (p : prog A) : effects no_own_writes p -> steady p.
Proof. intros Hp. eapply effects_steady; [apply no_own_writes_locks|done..]. Qed.

Lemma calm_steady {A} (p : prog A) : effects no_writes p -> steady p.
Proof. intros Hp. by apply mild_steady, calm_mild. Qed.

Definition hsteady {A} (h : handler A) : Prop := forall w, steady (h w).

Lemma hsteady_bind {A B} (h : handler A) (k : A -> handler B) :
  hsteady h -> (forall a, hsteady (k a)) -> hsteady (hbind h k).
Proof. intros Hh Hk w. apply steady_bind; [apply Hh|]. intros [w' [a|]]; [apply Hk|done]. Qed.

Lemma hsteady_lift {A} (p : prog A) : steady p -> hsteady (hlift p).
Proof. intros Hp w. by apply steady_bind. Qed.

Lemma hsteady_try {A} (r : result A) : hsteady (try_ r).
Proof. by destruct r. Qed.

Lemma hsteady_tryp {A} (p : prog (result A)) : steady p -> hsteady (tryp p).
Proof. intros Hp. apply hsteady_bind; [by apply hsteady_lift|]. intros. apply hsteady_try. Qed.

Lemma hsteady_trypUsable {A} (p : prog (result A)) : steady p -> hsteady (trypUsable p).
Proof. intros Hp. apply hsteady_bind; [by apply hsteady_lift|]. by intros []. Qed.

Lemma hsteady_check err : hsteady (check err).
Proof. by destruct err. Qed.

Lemma hsteady_checkUsable err : hsteady (checkUsable err).
Proof. by destruct err. Qed.

Lemma hsteady_require {A} (r : result (option A)) err : hsteady (require r err).
Proof. by destruct r as [[]|]. Qed.

Lemma hsteady_unchecked (r : result (option string)) err : hsteady (require_unchecked r err).
Proof. by destruct r as [[]|]. Qed.

End Rules.

Ltac steady_solver :=
  repeat first
    [ done
    | assumption
    | match goal with |- hsteady _ _ => intros w; exact I end
    | progress intros
    | apply hsteady_bind | apply hsteady_lift | apply hsteady_tryp | apply hsteady_try | apply hsteady_trypUsable
    | apply hsteady_check | apply hsteady_checkUsable | apply hsteady_require | apply hsteady_unchecked
    | match goal with
      | |- Lock.steady _ _ (try_bind _ _) => apply steady_try
      | |- Lock.steady _ _ (bind _ _) => apply steady_bind
      end
    | apply steady_call; [exact I|reflexivity]
    | match goal with |- Lock.steady _ _ (match ?x with _ => _ end) => destruct x end
    | match goal with |- hsteady _ (match ?x with _ => _ end) => destruct x end
    | progress cbn [negb] ].

Section Steady.
Context (m : mode) (Hm : m = Reading \/ m = Background).

Abbreviation steady := (steady accepts m).

(** *** The registry and operations *)

Lemma steady_New t ns n ro : steady (Entry.New t ns n ro).
Proof. unfold Entry.New. steady_solver. Qed.

Lemma steady_Commit e : steady (Entry.Commit e).
Proof. unfold Entry.Commit. steady_solver. Qed.

Lemma steady_Delete e : steady (Entry.Delete e).
Proof. unfold Entry.Delete. steady_solver. Qed.

Lemma steady_Start e t : steady (Start e t).
Proof. unfold Start. steady_solver; apply steady_Commit. Qed.

Lemma steady_Complete e err : steady (Complete e err).
Proof. unfold Complete. steady_solver; apply steady_Commit. Qed.

Lemma steady_End e : steady (End_ e).
Proof. unfold End_. steady_solver; apply steady_Commit. Qed.

Lemma steady_commit d : steady (Directory.commit d).
Proof. unfold Directory.commit. steady_solver. Qed.

Lemma steady_NewDirectory ns : steady (Directory.NewDirectory ns).
Proof. unfold Directory.NewDirectory. steady_solver. Qed.

Lemma steady_getDirectoryInstance ns id : steady (getDirectoryInstance ns id).
Proof. unfold getDirectoryInstance. steady_solver; apply steady_NewDirectory. Qed.

Lemma steady_deleteDirectoryInstance ns id : steady (deleteDirectoryInstance ns id).
Proof.
  unfold deleteDirectoryInstance, Directory.Remove. steady_solver; (apply steady_NewDirectory || apply steady_commit).
Qed.

Lemma steady_registerDirectoryInstance c ctx ns id sid pid : steady (registerDirectoryInstance c ctx ns id sid pid).
Proof.
  unfold registerDirectoryInstance, Directory.Add. steady_solver; (apply steady_NewDirectory || apply steady_commit).
Qed.

(** *** What runs in the background *)

Lemma steady_Creator_Run c e : steady (Creator_Run bounds c e).
Proof. unfold Creator_Run. steady_solver; [apply mild_steady; [exact Hm|apply mild_run_steps]|apply steady_Complete]. Qed.

Lemma steady_Updater_Run u e : steady (Updater_Run u e).
Proof. unfold Updater_Run. steady_solver; [apply mild_steady; [exact Hm|apply mild_update_all]|apply steady_Complete]. Qed.

Lemma steady_Deleter_Run e : steady (Deleter_Run e).
Proof. unfold Deleter_Run. steady_solver; apply steady_Delete. Qed.
End Steady.

(** *** Requests *)

Abbreviation reading := (hsteady Reading).

Create HintDb reading.
#[local] Hint Resolve steady_New steady_Commit steady_Start steady_End steady_getDirectoryInstance
  steady_deleteDirectoryInstance steady_registerDirectoryInstance : reading.
#[local] Hint Resolve steady_Creator_Run steady_Updater_Run steady_Deleter_Run : reading.

Lemma reading_calm {A} (p : prog A) : effects no_writes p -> steady accepts Reading p.
Proof. apply calm_steady. by left. Qed.

Lemma reading_authorize r sid pid : steady accepts Reading (authorize configuration r sid pid).
Proof. apply reading_calm, calm_authorize. Qed.

Lemma reading_Config : steady accepts Reading Config.
Proof. apply reading_calm, calm_Config. Qed.

Lemma reading_validateParameters c sid pid t o ps : steady accepts Reading (validateParameters c sid pid t o ps).
Proof. apply reading_calm. unfold validateParameters. effects_solver. Qed.

Lemma reading_Creator_Prepare c e : steady accepts Reading (Creator_Prepare bounds c e).
Proof. apply reading_calm, calm_Creator_Prepare. Qed.

Lemma reading_Updater_Prepare u e : steady accepts Reading (Updater_Prepare bounds u e).
Proof. apply reading_calm, calm_Updater_Prepare. Qed.

#[local] Hint Resolve reading_authorize reading_Config reading_validateParameters reading_Creator_Prepare
  reading_Updater_Prepare : reading.

Lemma reading_go t (Ht : steady accepts Background t) : steady accepts Reading (go t).
Proof. done. Qed.

Ltac reading_solver :=
  steady_solver; try apply reading_go; steady_solver; auto with reading.

Lemma reading_existing_instance e request : reading (existing_instance e request).
Proof. unfold existing_instance, same_attributes, same_id, same_raw, provision_in_progress. reading_solver. Qed.

Lemma reading_existing_binding e request : reading (existing_binding e request).
Proof. unfold existing_binding, same_attributes, same_id, same_raw, provision_in_progress. reading_solver. Qed.

Lemma reading_new_instance e id request : reading (new_instance bounds configuration e id request).
Proof. unfold new_instance. reading_solver. Qed.

Lemma reading_new_binding e ie id request : reading (new_binding bounds e ie id request).
Proof. unfold new_binding. reading_solver. Qed.

#[local] Hint Resolve reading_existing_instance reading_existing_binding reading_new_instance reading_new_binding : reading.

Lemma reading_create_instance r params : reading (handleCreateServiceInstance bounds configuration r params).
Proof. unfold handleCreateServiceInstance, check_id. reading_solver. Qed.

Lemma reading_read_instance r params : reading (handleReadServiceInstance configuration r params).
Proof. unfold handleReadServiceInstance, check_id, check_hint. reading_solver. Qed.

Lemma reading_update_instance r params : reading (handleUpdateServiceInstance bounds configuration r params).
Proof. unfold handleUpdateServiceInstance, update_instance. reading_solver. Qed.

Lemma reading_delete_instance r params : reading (handleDeleteServiceInstance configuration r params).
Proof. unfold handleDeleteServiceInstance, check_id, check_service_plan, check_hint. reading_solver. Qed.

Lemma reading_poll r params : reading (handlePollServiceInstance configuration r params).
Proof. unfold handlePollServiceInstance, poll_status, check_id, check_hint. reading_solver. Qed.

Lemma reading_create_binding r params : reading (handleCreateServiceBinding bounds configuration r params).
Proof. unfold handleCreateServiceBinding, check_id. reading_solver. Qed.

Lemma reading_delete_binding r params : reading (handleDeleteServiceBinding configuration r params).
Proof. unfold handleDeleteServiceBinding, check_id, check_service_plan, check_hint. reading_solver. Qed.

Lemma reading_login r params : reading (handleLogin configuration r params).
Proof. unfold handleLogin. reading_solver. Qed.

Lemma reading_catalog : reading handleReadCatalog.
Proof. unfold handleReadCatalog. reading_solver. Qed.

Lemma reading_router r : reading (router_ServeHTTP bounds configuration r).
Proof.
  unfold router_ServeHTTP. destruct (httprouter_Lookup _ _ _) as [[i|] params]; [|done].
  destruct (routes bounds configuration !! i) as [rt|] eqn:Hr; [|done].
  apply list_elem_of_lookup_2 in Hr. unfold routes in Hr. rewrite !elem_of_cons, elem_of_nil in Hr.
  destruct Hr as [->|[->|[->|[->|[->|[->|[->|[->|[->|[->|[]]]]]]]]]]]; cbn [route_handler].
  - done.
  - apply reading_catalog.
  - apply reading_create_instance.
  - apply reading_read_instance.
  - apply reading_update_instance.
  - apply reading_delete_instance.
  - apply reading_poll.
  - apply reading_create_binding.
  - apply reading_delete_binding.
  - apply reading_login.
Qed.

Lemma reading_request_headers w r : steady accepts Reading (handleRequestHeaders configuration w r).
Proof. apply reading_calm. unfold handleRequestHeaders, handleAdvancedToken, handleJwtAuth. effects_solver. Qed.

Lemma disciplined_ServeHTTP r : disciplined accepts Free (ServeHTTP bounds configuration r).
Proof.
  unfold ServeHTTP. cbn [bind call disciplined permitted next_mode Lock]. split; [done|]. intros _. split; [done|]. intros _.
  apply disciplined_defer; [done..|]. apply steady_bind; [apply reading_calm; unfold handleReadiness; effects_solver|].
  intros [w [err|]]; [done|]. apply steady_bind; [destruct (is_open (req_Path r)); [done|apply reading_request_headers]|].
  intros [w1 [err|]]; [done|]. by apply steady_bind; [apply reading_router|].
Qed.
End Programs.

(** *** Events of the configuration resource *)

Section Events.
Context (accepts : ServiceBrokerConfig -> Prop).

(** Writing the pointer under the lock. *)
Lemma disciplined_write x :
  (forall y, x = Some y -> accepts y) ->
  disciplined accepts Free (_ <- call MutexLock ;; _ <- call (ConfigWrite x) ;; call MutexUnlock) /\
  disciplined accepts Free (_ <- call MutexLock ;; defer (call MutexUnlock) (call (ConfigWrite x))).
Proof.
  intros Hx. cbn. repeat (split || intros _); try done; try (by left); exact Hx.
Qed.

Lemma disciplined_updateStatus c (k : option error -> prog unit) :
  disciplined accepts Free (k (validate c)) -> disciplined accepts Free (err <- updateStatus c ;; k err).
Proof.
  intros Hk. unfold updateStatus. cbn. split; [done|]. intros now. case_match; cbn; [exact Hk|]. by split.
Qed.

Lemma disciplined_createHandler name config :
  (forall c, config = Some c -> config_Name c = name -> validate c = None -> accepts c) ->
  disciplined accepts Free (createHandler name config) /\
  forall old, disciplined accepts Free (updateHandler name old config).
Proof.
  intros Hc. unfold createHandler, updateHandler. destruct config as [c|]; [|split; by left].
  destruct (config_Name c =?s name) eqn:Hn; cbn [negb]; [|split; by left]. apply bool_decide_eq_true in Hn.
  split; intros; apply disciplined_updateStatus; destruct (validate c) eqn:Hv; apply disciplined_write; try done;
    intros y [= <-]; by apply Hc.
Qed.

Lemma disciplined_deleteHandler name config : disciplined accepts Free (deleteHandler name config).
Proof.
  unfold deleteHandler. destruct config as [c|]; [|by left]. destruct (negb _); [by left|]. by apply disciplined_write.
Qed.
End Events.

(** ** What follows *)

Section Broker.
Context `{Vendor} {W : Type} `{PlatformLaws W} (bounds : Bounds) (configuration : ServerConfiguration).

Implicit Types s : sys W.

(** What these arrivals can have become, under the lock. *)
Definition locked_reaches (l : list arrival) s (m : RWMutex) s' : Prop :=
  spawned s = map (goroutine bounds configuration) l /\ rtc locked_step (unlocked, s) (m, s').

(** A valid configuration that an event delivered under the name of the broker's. *)
Definition delivered (l : list arrival) (c : ServiceBrokerConfig) : Prop :=
  validate c = None /\
  (ConfigAdded (config_Name c) (Some c) ∈ l \/ exists old, ConfigUpdated (config_Name c) old (Some c) ∈ l).

Lemma disciplined_goroutine l a : a ∈ l -> disciplined (delivered l) Free (goroutine bounds configuration a).
Proof.
  intros Ha. destruct a as [r|name c|name old c|name c]; cbn [goroutine].
  - apply (disciplined_ret _ _ _ (fun _ => tt)), disciplined_ServeHTTP.
  - apply disciplined_createHandler. intros x -> <- Hv. split; [done|by left].
  - apply disciplined_createHandler. intros x -> <- Hv. split; [done|right; by exists old].
  - apply disciplined_deleteHandler.
Qed.

Lemma arrivals_proper l s :
  spawned s = map (goroutine bounds configuration) l -> proper (delivered l) (length l) (unlocked, s).
Proof.
  intros Hs. apply proper_start; [by rewrite Hs, length_map|]. rewrite Hs. apply Forall_forall.
  intros p (a & -> & Ha)%list_elem_of_fmap. by apply disciplined_goroutine.
Qed.

Lemma locked_reaches_proper l s m s' : locked_reaches l s m s' -> proper (delivered l) (length l) (m, s').
Proof. intros [Hs Hsteps]. eapply proper_steps; [exact Hsteps|by apply arrivals_proper]. Qed.

(** The theorems on every interleaving hold for those that the lock allows. *)
Lemma locked_reaches_reaches l s m s' :
  initial_store (world s) -> locked_reaches l s m s' -> reaches bounds configuration l s s'.
Proof. intros Hi [Hs Hsteps]. split; [done|]. split; [done|]. exact (locked_thread_steps _ _ Hsteps). Qed.

(** C5: a request works on one configuration. Whatever requests and events of the
    configuration resource interleave, as the lock allows: the same state of the
    world is reached without any lock by an execution in which a request takes a
    snapshot of the configuration where it locks, and reads only that until it
    unlocks; and every goroutine that has ended has ended in the same way. *)
Theorem requests_read_once l s m s' :
  locked_reaches l s m s' ->
  exists s'', rtc snapshot_step s s'' /\ world s'' = world s' /\
    forall i p, spawned s' !! i = Some p -> ended_goroutine p = true -> spawned s'' !! i = Some p.
Proof.
  intros [Hs Hsteps].
  destruct (snapshots_steps _ _ _ _ _ Hsteps (arrivals_proper l s Hs) (snapshots_start s)) as (s'' & Hs'' & Hsnap).
  exists s''. split; [exact Hs''|]. split; [apply Hsnap|]. intros i p Hi Hp. by eapply snapshots_ended.
Qed.

Definition reads_config (p : prog unit) : bool := match p with Vis ConfigRead _ => true | _ => false end.
Definition writes_config (p : prog unit) : bool := match p with Vis (ConfigWrite _) _ => true | _ => false end.

(** The configuration that is served: it was there, or it has been delivered. *)
Lemma served_configuration l s m s' :
  locked_reaches l s m s' ->
  configured (world s') = configured (world s) \/ forall c, configured (world s') = Some c -> delivered l c.
Proof.
  intros [Hs Hsteps]. pose proof (arrivals_proper l s Hs) as Hc.
  assert (forall c c', rtc locked_step c c' -> proper (delivered l) (length l) c ->
    configured (world c'.2) = configured (world c.2) \/ forall x, configured (world c'.2) = Some x -> delivered l x) as Hgen.
  { clear. intros c c' Hsteps. induction Hsteps as [c|c1 c2 c3 H12 _ IH]; [by left|]. intros Hc.
    destruct (IH (proper_step _ _ _ _ H12 Hc)) as [Heq|]; [|by right].
    destruct (step_configured _ _ _ _ H12 Hc) as [Heq'|[_ Hx]]; [left; congruence|right]. by rewrite Heq. }
  exact (Hgen _ _ Hsteps Hc).
Qed.

(** C6: the configuration is guarded.  In every interleaving that the lock
    allows: the configuration that is served is the one that was served at the start, or
    none, or a valid one that an event has delivered under the name of the
    broker's configuration; and who is about to replace it holds the lock
    alone: nobody reads under the lock, and no other request or event
    is about to read or to replace it. *)
Theorem configuration_guarded l s m s' :
  locked_reaches l s m s' ->
  (configured (world s') = configured (world s) \/ forall c, configured (world s') = Some c -> delivered l c) /\
  forall i p, spawned s' !! i = Some p -> writes_config p = true ->
    rw_writer m = Some (i, true) /\ rw_readers m = ∅ /\
    forall j q, j <> i -> j < length l -> spawned s' !! j = Some q -> reads_config q = false /\ writes_config q = false.
Proof.
  intros Hr. split; [by eapply served_configuration|]. pose proof (locked_reaches_proper _ _ _ _ Hr) as Hc.
  assert (forall i p, spawned s' !! i = Some p -> writes_config p = true -> rw_writer m = Some (i, true) /\ rw_readers m = ∅) as Hw.
  { intros i p Hi Hp. destruct p as [| |X [] k|]; try done. destruct (writer_alone _ _ (m, s') i _ _ Hc Hi) as (? & ? & _). done. }
  intros i p Hi Hp. destruct (Hw i p Hi Hp) as [Hi1 Hi2]. do 2 (split; [done|]). intros j q Hne Hj Hq. split.
  - destruct (reads_config q) eqn:Hrd; [|done]. destruct q as [| |X [] k|]; try done.
    destruct (proper_goroutine _ _ _ Hc j _ Hq) as (μ & Hh & [[->| ->] _] & Hμ); [|by destruct (Hμ Hj)].
    cbn in Hh. set_solver.
  - destruct (writes_config q) eqn:Hwq; [|done]. destruct (Hw j q Hq Hwq). congruence.
Qed.

(** C7: everything ends. From every state that an interleaving of requests and
    events of the configuration resource has reached under the lock, no
    scheduler can let them and the background programs that they start go on for
    ever; as long as one of them has not ended (with a return, a panic or a
    bound of [Bounds]), one can go on; and when none can, the lock is free. *)
Theorem everything_ends l s m s' :
  locked_reaches l s m s' ->
  sn locked_step (m, s') /\
  (nf locked_step (m, s') -> m = unlocked /\ Forall (fun p => ended_goroutine p = true) (spawned s')) /\
  exists s'', rtc locked_step (m, s') (unlocked, s'') /\ Forall (fun p => ended_goroutine p = true) (spawned s'').
Proof.
  intros Hr%locked_reaches_proper. split; [apply locked_terminates|]. split; [exact (proper_progress _ _ (m, s') Hr)|].
  by eapply proper_ends.
Qed.
End Broker.

Module LockedWitness.
Import Fixture HandlerWitness InterleavingWitness.

(** An instance is created and polled while the configuration is replaced and deleted. *)
Definition arrivals : list arrival :=
  [create "i1"; ConfigUpdated "broker" (Some Fixture.config) (Some entry_config); poll "i1"; ConfigDeleted "broker" (Some Fixture.config)].
Definition first : sys SimWorld := mkSys empty_world (map (goroutine bounds server) arrivals).

(** The creation locks; the update waits for it, the poll for the update. *)
Definition waiting : RWMutex * sys SimWorld := foldl locked_at (unlocked, first) ([0; 0; 1; 1; 1; 2; 2; 3] ++ repeat 0 6).
(** The update holds the lock; then everything has ended but the poll. *)
Definition writing : RWMutex * sys SimWorld := foldl locked_at waiting (repeat 0 30 ++ [1]).
Definition later : RWMutex * sys SimWorld :=
  foldl locked_at writing (repeat 1 3 ++ repeat 2 4 ++ repeat 3 2 ++ repeat 4 20).

Lemma first_waiting : locked_reaches bounds server arrivals first waiting.1 waiting.2.
Proof. split; [reflexivity|]. rewrite <- surjective_pairing. exact (locked_schedule _ _). Qed.

Lemma first_writing : locked_reaches bounds server arrivals first writing.1 writing.2.
Proof.
  split; [reflexivity|]. rewrite <- surjective_pairing. transitivity waiting; exact (locked_schedule _ _).
Qed.

Lemma first_later : locked_reaches bounds server arrivals first later.1 later.2.
Proof.
  split; [reflexivity|]. rewrite <- surjective_pairing. transitivity waiting; [exact (locked_schedule _ _)|].
  transitivity writing; exact (locked_schedule _ _).
Qed.

Example update_waits : waiting.1 = mkRWMutex {[0]} (Some (1, false)).
Proof. vm_compute. reflexivity. Qed.

Lemma goroutine_is (f : prog unit -> bool) (l : list (prog unit)) i :
  match l !! i with Some p => f p | None => false end = true -> exists p, l !! i = Some p /\ f p = true.
Proof. destruct (l !! i) as [p|]; [|done]. by exists p. Qed.

(** The creation has ended, and has ended on the old configuration. *)
Lemma requests_read_once_witness :
  exists s'' p, rtc snapshot_step first s'' /\ world s'' = world later.2 /\ spawned s'' !! 0 = Some p /\ ended_goroutine p = true.
Proof.
  destruct (goroutine_is ended_goroutine (spawned later.2) 0) as (p & Hp & He); [vm_compute; reflexivity|].
  destruct (requests_read_once bounds server arrivals first later.1 later.2 first_later) as (s'' & Hs & Hw & Hend).
  exists s'', p. split; [exact Hs|]. split; [exact Hw|]. split; [exact (Hend 0 p Hp He)|exact He].
Defined.

Lemma configuration_guarded_witness :
  rw_writer writing.1 = Some (1, true) /\ rw_readers writing.1 = ∅ /\
  (configured (world later.2) = configured (world first) \/
   forall c, configured (world later.2) = Some c -> delivered arrivals c).
Proof.
  destruct (configuration_guarded bounds server arrivals first writing.1 writing.2 first_writing) as [_ Hw].
  destruct (goroutine_is writes_config (spawned writing.2) 1) as (p & Hp & He); [vm_compute; reflexivity|].
  destruct (Hw 1 p Hp He) as (Hw1 & Hw2 & _). split; [exact Hw1|]. split; [exact Hw2|].
  exact (proj1 (configuration_guarded bounds server arrivals first later.1 later.2 first_later)).
Defined.

Lemma everything_ends_witness :
  rw_writer waiting.1 = Some (1, false) /\ sn locked_step (waiting.1, waiting.2) /\
  exists s'', rtc locked_step (waiting.1, waiting.2) (unlocked, s'') /\ Forall (fun p => ended_goroutine p = true) (spawned s'').
Proof.
  split; [vm_compute; reflexivity|].
  destruct (everything_ends bounds server arrivals first waiting.1 waiting.2 first_waiting) as (Hsn & _ & Hend).
  split; [exact Hsn|exact Hend].
Defined.

(** A creation with a readiness check whose namespace is a snippet. *)
Definition checked_config : ServiceBrokerConfig :=
  let checks := [mkReadinessCheck "ready"
    (Some (mkReadinessCondition "v1" "ConfigMap" ("{{ snippet " +++ quote "config-map" +++ " }}") "name" "Ready" "True")) None] in
  mkConfig "broker" "ns" ∅ (mkConfigSpec (mkServiceCatalog [database]) [config_map]
    [mkConfigurationBinding "database-small" "" "" "database" "small" (mkTemplateList [] ["config-map"] checks None)
       (Some (mkTemplateList [mkRegistryValue "credentials" "secret"] [] [] None))]) (mkConfigStatus []).

Definition racing : list arrival := [create "i1"; ConfigDeleted "broker" (Some checked_config)].
Definition race_start : sys SimWorld :=
  mkSys (with_config empty_world (Some checked_config)) (map (goroutine bounds server) racing).
Definition race : RWMutex * sys SimWorld := foldl locked_at (unlocked, race_start) (repeat 0 30 ++ repeat 2 3 ++ [1; 1]).

(** The configuration is read without the lock. The background program of a creation
    reads the configuration for its readiness checks while it is being deleted. *)
Example background_race :
  validate checked_config = None /\ locked_reaches bounds server racing race_start race.1 race.2 /\
  rw_writer race.1 = Some (1, true) /\
  map writes_config (spawned race.2) = [false; true; false] /\ map reads_config (spawned race.2) = [false; false; true].
Proof.
  split; [vm_compute; reflexivity|]. split; [split; [reflexivity|rewrite <- surjective_pairing; exact (locked_schedule _ _)]|].
  vm_compute. done.
Qed.
End LockedWitness.
