(* ===== verification/ServerFacts.v ===== *)
(** * Properties of the server: who gets to do what

    No handler but those of the open paths is reached by a request that is not
    admissible; an instance is created only for a user who bought its plan;
    the token of a login is accepted afterwards. *)

From S2P Require Import Prelude Json JsonFacts Strconv Errors Types Platform Vendor Sim Fixture Api Http.
From S2P Require Import Registry RegistryFacts Operation Config BrokerUtil DirectoryFacts Auth Template.
From S2P Require Import TemplateFacts Provision ProvisionFacts Handlers HandlerFacts Server.
From Stdlib Require Import Lia.

Local Open Scope broker_scope.

Section Guard.
Context `{VendorLaws} {W : Type} `{PlatformLaws W} (bounds : Bounds) (configuration : ServerConfiguration).

Implicit Types s : sys W.

Lemma run_call_bind {X A} (e : event X) (k : X -> prog A) s :
  run (bind (call e) k) s = run (k (perform e (world s)).1) (set_world s (perform e (world s)).2).
Proof. unfold call. simpl. by destruct (perform e (world s)). Qed.

(** C15: the guard of the server.  Before a configuration is installed every
    request is answered with 503.  After that, a request for a path that is
    not open and that is not admissible (not authenticated, of an unsupported
    version, not JSON) is answered with 400, 401, 412 or 500; neither changes
    anything.  Every other request is served by the router, which starts from
    the state the request found and an empty response. *)
Theorem guarded r s : exists s1, unchanged s s1 /\
  let now := (perform TimeNow (world s1)).1 in
  (configured (world s) = None ->
     wp (ServeHTTP bounds configuration r) (fun w s' => unchanged s s' /\ w = httpResponse new_writer StatusServiceUnavailable) s) /\
  (configured (world s) <> None -> is_open (req_Path r) = false -> ~ admissible configuration now r ->
     wp (ServeHTTP bounds configuration r) (fun w s' => unchanged s s' /\
       exists st, st ∈ [400; 401; 412; 500]%Z /\ w = httpResponse new_writer st) s) /\
  (configured (world s) <> None -> is_open (req_Path r) = true \/ admissible configuration now r ->
     exists s2, unchanged s s2 /\
       run (ServeHTTP bounds configuration r) s =
       run (defer Unlock (o <- router_ServeHTTP bounds configuration r new_writer ;; Ret o.1)) s2).
Proof.
  set (s0 := set_world s (perform TimeNow (world s)).2).
  set (s0' := set_world s0 (perform MutexRLock (world s0)).2).
  set (s1 := set_world s0' (perform ConfigRead (world s0')).2).
  assert (unchanged s s0') as Hs0 by (transitivity s0; split; (by apply stored_frame) || by apply call_kept).
  assert (unchanged s s1) as Hu1 by (transitivity s0'; [done|split; [by apply stored_frame|by apply call_kept]]).
  assert ((perform ConfigRead (world s0')).1 = configured (world s)) as Hread.
  { rewrite config_read. by destruct Hs0 as [_ (-> & _)]. }
  set (rest := ' (w, err) <- (if is_open (req_Path r) then Ret (new_writer, None)
                              else handleRequestHeaders configuration new_writer r) ;;
               match err with
               | Some _ => Ret w
               | None => o <- router_ServeHTTP bounds configuration r w ;; Ret o.1
               end).
  assert (run (ServeHTTP bounds configuration r) s =
          run (defer Unlock (match configured (world s) with
                             | None => Ret (httpResponse new_writer StatusServiceUnavailable)
                             | Some _ => rest
                             end)) s1) as Hrun.
  { unfold ServeHTTP. rewrite run_call_bind. fold s0. unfold Lock. rewrite run_call_bind. fold s0'. rewrite !run_defer.
    unfold handleReadiness. rewrite run_bind, run_call_bind, Hread. fold s1. by destruct (configured (world s)). }
  exists s1. split; [done|]. cbv zeta. pose proof (header_checks configuration new_writer r s1) as Hh.
  assert (forall p (Q : writer -> sys W -> Prop), (forall w s' s'', unchanged s' s'' -> Q w s' -> Q w s'') ->
            wp p Q s1 -> wp (defer Unlock p) Q s1) as Hunlock.
  { intros p Q HQ Hp. apply wp_defer. eapply wp_mono; [exact Hp|]. intros w s' Hw. apply wp_quiet; [done..|]. eauto. }
  split; [|split].
  - intros Hc. unfold wp. rewrite Hrun, Hc. apply (Hunlock _ (fun w s' => unchanged s s' /\ _)); [|done].
    intros w s' s'' Hs'' [Hs' ?]. split; [by etransitivity|done].
  - intros Hc Ho Hn. unfold wp. rewrite Hrun. destruct (configured (world s)); [|done].
    apply (Hunlock _ (fun w s' => unchanged s s' /\ _)); [intros w s' s'' Hs'' [Hs' ?]; split; [by etransitivity|done]|].
    unfold rest. rewrite Ho. apply wp_bind. eapply wp_mono; [exact Hh|]. intros [w [err|]] s3.
    + intros (Hu2 & _ & st & Hst & Hw). cbn in Hw. apply wp_ret. split; [by etransitivity|]. exists st. by rewrite Hw.
    + by intros (_ & _ & Hh').
  - intros Hc Ho. rewrite Hrun. destruct (configured (world s)); [|done]. unfold rest. setoid_rewrite run_defer.
    destruct (is_open (req_Path r)) eqn:Hop; [by exists s1|]. destruct Ho as [Ho|Ho]; [done|].
    rewrite run_bind. unfold wp in Hh.
    destruct (run (handleRequestHeaders configuration new_writer r) s1) as [[[w oerr]|h] s3]; [destruct oerr as [err|]|done].
    + by destruct Hh as (_ & Hn & _).
    + destruct Hh as (Hu2 & Hw & _). cbn in Hw. subst w. exists s3. split; [by etransitivity|done].
Qed.
End Guard.

Section Runs.
Context {W : Type} `{World W}.

Lemma run_hbind {A B} (m : handler A) (k : A -> handler B) w (s : sys W) :
  run (hbind m k w) s =
    match run (m w) s with
    | (Done (w', Some a), s') => run (k a w') s'
    | (Done (w', None), s') => (Done (w', None), s')
    | (Halted h, s') => (Halted h, s')
    end.
Proof. unfold hbind. rewrite run_bind. by destruct (run (m w) s) as [[[w' [a|]]|h] s']. Qed.

Lemma run_hlift {A} (p : prog A) w (s : sys W) :
  run (hlift p w) s =
    match run p s with
    | (Done a, s') => (Done (w, Some a), s')
    | (Halted h, s') => (Halted h, s')
    end.
Proof. unfold hlift. rewrite run_bind. by destruct (run p s) as [[a|h] s']. Qed.
End Runs.

(** ** Who may create *)

Section Authorization.
Context `{VendorLaws} {W : Type} `{PlatformLaws W} (bounds : Bounds) (configuration : ServerConfiguration).

Implicit Types s : sys W.

(** The sender of the request has bought the plan, at the time of the request
    and in the database that it meets: the token of the request is valid under
    the key of the server, names a user, and the query for that user is
    answered with a row of this service and plan (which can be scanned, as can
    those before it). *)
Definition purchased (r : Request) (sid pid : string) (s : sys W) : Prop :=
  exists advanced token t claims username before after,
    server_AdvancedToken configuration = Some advanced /\ extractJwtToken r = Ok token /\
    jwt_Parse (perform TimeNow (world s)).1 token (JwtSecret advanced) = (Some t, None) /\
    token_Claims t = Some claims /\ claims !! "username" = Some (VString username) /\
    (perform (DbQuery bought_services_query [username]) (perform TimeNow (world s)).2).1 =
      Ok (before ++ [sid; pid] :: after) /\
    Forall (fun row => length row = 2) before.

Lemma scan_rows_None rows sid pid :
  scan_rows rows sid pid = None <->
  exists before after, rows = before ++ [sid; pid] :: after /\ Forall (fun row => length row = 2) before.
Proof.
  split.
  - induction rows as [|row rows IH]; [done|]. cbn [scan_rows].
    destruct row as [|a [|b [|x row]]]; try done. destruct ((a =?s sid) && (b =?s pid)) eqn:E; intros Hs.
    + bool_solver. exists [], rows. done.
    + destruct (IH Hs) as (before & after & -> & Hf). exists ([a; b] :: before), after. split; [done|]. by constructor.
  - intros (before & after & -> & Hf). induction Hf as [|row before Hrow _ IH]; cbn [app scan_rows].
    + by rewrite !bool_decide_true.
    + destruct row as [|a [|b [|x row]]]; try done. by case_match.
Qed.

Ltac not_purchased :=
  cbn; split; [split; [discriminate|intros (?&?&?&?&?&?&?&?&?&?&?&?&?&?); congruence]|by eauto].

(** [authorize] succeeds when the plan was purchased, and else reports an
    error or panics. *)
Lemma authorize_cases r sid pid s :
  ((run (authorize configuration r sid pid) s).1 = Done None <-> purchased r sid pid s) /\
  match (run (authorize configuration r sid pid) s).1 with
  | Done _ => True
  | Halted h => exists m, h = Panic m
  end.
Proof.
  unfold authorize, purchased. destruct (extractJwtToken r) as [token|err] eqn:Ht; [|not_purchased].
  destruct (server_AdvancedToken configuration) as [advanced|] eqn:Ha; [|not_purchased].
  rewrite run_call_bind. set (now := (perform TimeNow (world s)).1). set (w1 := (perform TimeNow (world s)).2).
  destruct (jwt_Parse now token (JwtSecret advanced)) as [[t|] oerr] eqn:Hp; [|not_purchased].
  destruct (token_Claims t) as [claims|] eqn:Hc; [|not_purchased].
  destruct oerr as [err|]; [not_purchased|].
  destruct (claims !! "username") as [v|] eqn:Hu; [|not_purchased].
  destruct v as [| | | |username| |]; try not_purchased.
  unfold checkBoughtServices. rewrite run_call_bind. cbn [world set_world]. fold w1.
  destruct (perform (DbQuery bought_services_query [username]) w1).1 as [rows|err] eqn:Hrows; [|not_purchased].
  cbn [run fst]. split; [|done]. split.
  - intros [= (before & after & -> & Hf)%scan_rows_None].
    exists advanced, token, t, claims, username, before, after. by rewrite Hrows.
  - intros (a' & tok' & t' & cl' & u' & before & after & E1 & E2 & E3 & E4 & E5 & Hq & Hf).
    assert (a' = advanced) as -> by congruence. assert (tok' = token) as -> by congruence.
    rewrite Hp in E3. injection E3 as <-. rewrite Hc in E4. injection E4 as <-. rewrite Hu in E5. injection E5 as <-.
    rewrite Hrows in Hq. injection Hq as ->. f_equal. apply scan_rows_None. by exists before, after.
Qed.

(** C16: only a user who bought the plan can create an instance.  The check
    of a creation request succeeds exactly when the sender has bought the
    service and plan that it asks for, by the clock and the database that the
    request meets (which needs the JWT configuration of the server).  Whatever
    else a well-formed request of another sender asks for, it has no effect:
    the answer is an error, or the handler panics. *)
Theorem creation_authorized r params request s :
  asyncRequired r = None -> jsonRequest r = Ok request ->
  let sid := ci_ServiceID request in let pid := ci_PlanID request in
  ((run (authorize configuration r sid pid) s).1 = Done None <-> purchased r sid pid s) /\
  (~ purchased r sid pid s ->
   unchanged s (run (handleCreateServiceInstance bounds configuration r params new_writer) s).2 /\
   match (run (handleCreateServiceInstance bounds configuration r params new_writer) s).1 with
   | Done (w', _) => exists err, w' = jsonError new_writer err
   | Halted h => exists m, h = Panic m
   end).
Proof.
  intros Ha Hb sid pid. pose proof (authorize_cases r sid pid s) as [Hiff Hc]. split; [exact Hiff|]. intros Hn.
  unfold handleCreateServiceInstance. rewrite Ha, Hb.
  rewrite (run_hbind (check None)). cbn [check hret run]. rewrite (run_hbind (try_ (Ok request))). cbn [try_ hret run].
  rewrite run_hbind, run_hlift. fold sid pid.
  pose proof (calm_authorize configuration r sid pid) as Hcalm.
  assert (unchanged s (run (authorize configuration r sid pid) s).2) as Hu.
  { apply run_unchanged; (eapply effects_weaken; [|exact Hcalm]); [apply no_writes_secrets|apply no_writes_config]. }
  destruct (run (authorize configuration r sid pid) s) as [[[err|]|h] s1].
  - cbn [fst snd] in Hu. split; [exact Hu|]. by exists err.
  - destruct Hn. by apply Hiff.
  - split; [exact Hu|exact Hc].
Qed.
End Authorization.

(** ** Login *)

Section Login.
Context `{VendorLaws} {W : Type} `{PlatformLaws W} (configuration : ServerConfiguration).

Implicit Types s : sys W.

Lemma split_char_none c t : contains_char c t = false -> split_char c t = [t].
Proof.
  induction t as [|d t IH]; [done|]. cbn [contains_char split_char].
  destruct (Ascii.eqb c d); [done|]. intros Ht. by rewrite IH.
Qed.

(** What the JWT library documents: a token that was signed parses, under the
    same key, as valid and with the claims it was signed with, as far as these
    are text and do not limit when it is valid ([exp], [nbf] and [iat] do); and
    tokens have no blanks. *)
Definition signs : Prop := forall claims key token now,
  map_Forall (fun k v => (k ∉ ["exp"; "nbf"; "iat"]) /\ exists t, v = VString t) claims ->
  jwt_SignedString claims key = Ok token ->
  jwt_Parse now token key = (Some (mkToken true (Some claims)), None) /\ contains_char " " token = false.

(** C20: logging in.  A login changes nothing.  It is answered with 200 only
    when the database that it meets has a row with the user name and the hash
    of the password of the request; the answer is then a token, and every later
    request that bears the token is authenticated as that user. *)
Theorem login_round_trip advanced r params s :
  server_AdvancedToken configuration = Some advanced -> signs ->
  hwp (handleLogin configuration r params) (fun w' _ s' => unchanged s s' /\
    (rw_sent w' = Some StatusOK -> exists request token row rows,
       jsonRequest r = Ok request /\ login_Username request <> "" /\ login_Password request <> "" /\
       (perform (DbQuery login_query [login_Username request; sha256_hex (login_Password request)]) (world s)).1 =
         Ok (row :: rows) /\
       w' = JSONResponse new_writer StatusOK (LoginResponse_Marshal (mkLoginResponse token)) /\
       forall w2 r2 s2, getHeaderSingle r2 "Authorization" = Ok ("Bearer " +++ token) ->
         wp (handleJwtAuth advanced w2 r2) (fun o s3 => unchanged s2 s3 /\
           o = (w2, Ok {["username" := VString (login_Username request)]})) s2)) new_writer s.
Proof.
  intros Hadv Hsigns. unfold handleLogin.
  assert (forall err s', unchanged s s' -> unchanged s s' /\ (rw_sent (jsonError new_writer err) = Some StatusOK -> False)) as Herr.
  { intros err s' Hs'. split; [done|]. rewrite rw_sent_jsonError. cbn [new_writer rw_sent default].
    intros [= He]. pose proof (translateError_range err). rewrite He in *. unfold StatusOK in *. lia. }
  apply hwp_try_bind. destruct (jsonRequest r) as [request|err].
  2:{ destruct (Herr err s) as [Hu Hn]; [done|]. split; [done|]. by intros ?%Hn. }
  apply hwp_check_bind. destruct ((login_Username request =?s "") || (login_Password request =?s "")) eqn:He.
  { destruct (Herr (NewParameterError "username or password is empty") s) as [Hu Hn]; [done|]. split; [done|]. by intros ?%Hn. }
  apply orb_false_iff in He as [Hu Hp]. apply bool_decide_eq_false in Hu, Hp.
  rewrite Hadv. apply hwp_lift_bind, wp_ret, hwp_tryp_bind, wp_quiet; [done..|]. intros s1 Hs1.
  destruct (perform _ (world s)).1 as [[|row rows]|err] eqn:Hrows.
  - apply hwp_fail. destruct (Herr (NewParameterError "username or password is incorrect") s1) as [? Hn]; [done|].
    split; [done|]. by intros ?%Hn.
  - apply hwp_try_bind. destruct (jwt_SignedString _ _) as [token|err] eqn:Hsign.
    2:{ destruct (Herr err s1) as [? Hn]; [done|]. split; [done|]. by intros ?%Hn. }
    apply hwp_respond. split; [done|]. intros _. exists request, token, row, rows.
    do 5 (split; [done|]). intros w2 r2 s2 Hh. unfold handleJwtAuth. rewrite Hh.
    edestruct (Hsigns {["username" := VString (login_Username request)]} (JwtSecret advanced) token
                 (perform TimeNow (world s2)).1) as [Hparse Hblank]; [|exact Hsign|].
    { apply map_Forall_singleton. split; [|eauto]. rewrite !elem_of_cons, elem_of_nil. intros Hin. by repeat destruct Hin as [Hin|Hin]. }
    assert (bearer_parts ("Bearer " +++ token) = Some token) as ->.
    { unfold bearer_parts. change (split_char " " ("Bearer " +++ token)) with ("Bearer" :: split_char " " token).
      by rewrite split_char_none. }
    apply wp_bind, wp_quiet; [done..|]. intros s3 Hs3. by rewrite Hparse.
  - destruct (Herr err s1) as [? Hn]; [done|]. split; [done|]. by intros ?%Hn.
Qed.
End Login.

Module ServerWitness.
Import Fixture HandlerWitness.

(** The tokens of the simulated library have the documented behaviour. *)
Lemma split_on_char c t : split_on c t = split_char c t.
Proof. induction t as [|d t IH]; [done|]. cbn [split_on split_char]. by rewrite IH. Qed.

Lemma split_char_single c t x : split_char c t = [x] -> x = t /\ contains_char c t = false.
Proof.
  revert x. induction t as [|d t IH]; intros x; cbn [split_char contains_char]; [by intros [= <-]|].
  destruct (Ascii.eqb c d).
  - destruct (split_char c t) as [|y l] eqn:E; [|done]. exfalso. revert E.
    destruct t as [|d' t]; [done|]. cbn [split_char]. destruct (Ascii.eqb c d'); [done|]. by destruct (split_char c t).
  - destruct (split_char c t) as [|y [|z l]] eqn:E; [| |done].
    + exfalso. revert E. destruct t as [|d' t]; [done|]. cbn [split_char]. destruct (Ascii.eqb c d'); [done|].
      by destruct (split_char c t).
    + destruct (IH y eq_refl) as [-> Hc]. intros [= <-]. done.
Qed.

Lemma split_char_join c a b :
  contains_char c a = false -> split_char c (a +++ String c b) = a :: split_char c b.
Proof.
  induction a as [|d a IH]; intros Ha.
  { change ("" +++ String c b) with (String c b). cbn [split_char]. by rewrite Ascii.eqb_refl. }
  change (String d a +++ String c b) with (String d (a +++ String c b)). cbn [contains_char split_char] in Ha |- *.
  destruct (Ascii.eqb c d); [done|]. by rewrite IH.
Qed.

Lemma sim_signs : signs.
Proof.
  intros claims key token now _. cbn [jwt_SignedString SimVendor]. unfold sim_sign.
  destruct (claims !! "username") as [v|] eqn:Hu; [|done]. destruct v as [| | | |user| |]; try done.
  cbv zeta. rewrite (split_on_char ":" user), (split_on_char ":" key), (split_on_char " "). destruct (split_char ":" user) as [|x [|]] eqn:E1; try done.
  destruct (split_char ":" key) as [|y [|]] eqn:E2; try done.
  destruct (split_char " " (user +++ ":" +++ key)) as [|z [|]] eqn:E3; try done.
  apply split_char_single in E1 as [_ E1], E3 as [_ E3]. apply split_char_single in E2 as E2'. destruct E2' as [-> _].
  case_bool_decide as Hc; [|done]. intros [= <-]. split; [|done].
  cbn [jwt_Parse SimVendor]. unfold sim_jwt_Parse. rewrite split_on_char.
  change (user +++ ":" +++ key) with (user +++ String ":" key). rewrite split_char_join by done. rewrite E2.
  rewrite bool_decide_true by done. by rewrite Hc at 1.
Qed.

Definition login_of_joe : Request :=
  mkRequest "POST" "/login" "" [] 10
    (Ok (marshal (VObject [("password", VString "secret"); ("username", VString "joe")]))).

Lemma login_round_trip_witness :
  let advanced := mkAdvancedToken "" "" "" "" "" "key" in
  hwp (handleLogin server login_of_joe []) (fun w' _ s' => unchanged start s' /\ rw_sent w' = Some StatusOK /\
    exists token, w' = JSONResponse new_writer StatusOK (LoginResponse_Marshal (mkLoginResponse token)) /\
    forall w2 r2 (s2 : sys SimWorld), getHeaderSingle r2 "Authorization" = Ok ("Bearer " +++ token) ->
      wp (handleJwtAuth advanced w2 r2) (fun o s3 => unchanged s2 s3 /\
        o = (w2, Ok {["username" := VString "joe"]})) s2) new_writer start.
Proof.
  intros advanced.
  assert (rw_sent (match (run (handleLogin server login_of_joe [] new_writer) start).1 with
                   | Done (w', _) => w' | Halted _ => new_writer end) = Some StatusOK) as Hok by evaluate.
  pose proof (login_round_trip (W := SimWorld) server advanced login_of_joe [] start eq_refl sim_signs) as Hl.
  unfold hwp, wp in Hl |- *. destruct (run (handleLogin server login_of_joe [] new_writer) start) as [[[w' o]|h] s'];
    [|destruct Hl].
  cbn [fst snd] in Hl, Hok |- *. destruct Hl as [Hu Hl]. split; [exact Hu|]. split; [exact Hok|].
  destruct (Hl Hok) as (request & token & row & rows & Hr & _ & _ & _ & Hw & Ht).
  exists token. split; [exact Hw|]. assert (login_Username request = "joe") as Hj.
  { vm_compute in Hr. injection Hr as <-. reflexivity. }
  rewrite <- Hj. exact Ht.
Defined.

(** The catalog is served to a bearer of the token of the server. *)
Lemma guarded_witness :
  let r := mkRequest "GET" "/v2/catalog" "" [("Authorization", ["Bearer joe:key"]); ("X-Broker-API-Version", ["2.14"])] 0 (Ok "") in
  admissible server 0 r /\
  exists s2 : sys SimWorld, unchanged start s2 /\
    run (ServeHTTP bounds server r) start =
    run (defer Unlock (o <- router_ServeHTTP bounds server r new_writer ;; Ret o.1)) s2.
Proof.
  intros r.
  assert (admissible server 0 r) as Had.
  { split; [|split].
    - exists "joe:key". eexists. split; vm_compute; reflexivity.
    - exists "2.14". eexists. split; [vm_compute; reflexivity|]. split; vm_compute; reflexivity.
    - left. reflexivity. }
  split; [exact Had|]. destruct (guarded bounds server r start) as (s1 & Hu & _ & _ & Hg).
  apply Hg; [discriminate|right]. destruct Hu as [_ Hu]. exact Had.
Defined.

(** A user who bought another plan, a user who bought this one, and a token
    that is not valid. *)
Definition poor : sys SimWorld := mkSys (mkSim ∅ ∅ (Some config) true 0 0 [["s1"; "p2"]] 0) [].

Definition refused (r : Request) (s : sys SimWorld) : Prop :=
  unchanged s (run (handleCreateServiceInstance bounds server r params new_writer) s).2 /\
  match (run (handleCreateServiceInstance bounds server r params new_writer) s).1 with
  | Done (w', _) => exists err, w' = jsonError new_writer err
  | Halted h => exists m, h = Panic m
  end.

Lemma creation_authorized_witness :
  let forged := mkRequest "PUT" "" "accepts_incomplete=true" [("Authorization", ["Bearer joe:other"])] 10 (req_Body create_query) in
  refused create_query poor /\ refused forged start /\ purchased server create_query "s1" "p1" start.
Proof.
  intros forged.
  assert (asyncRequired create_query = None) as Ha by evaluate.
  assert (jsonRequest create_query = Ok create_body) as Hb by evaluate.
  split; [|split].
  - destruct (creation_authorized (W := SimWorld) bounds server create_query params create_body poor Ha Hb) as [Hiff Href].
    apply Href. intros Hp. apply Hiff in Hp. vm_compute in Hp. discriminate Hp.
  - destruct (creation_authorized (W := SimWorld) bounds server forged params create_body start) as [Hiff Href]; [evaluate|evaluate|].
    apply Href. intros Hp. apply Hiff in Hp. vm_compute in Hp. discriminate Hp.
  - destruct (creation_authorized (W := SimWorld) bounds server create_query params create_body start Ha Hb) as [Hiff _].
    apply Hiff. evaluate.
Defined.
End ServerWitness.
